(** * Annotation interchange and validation engine

    A shallow embedding of [scripts/format_converter.py] (the COCO <-> YOLO
    converter of class [FormatConverter]) and of [scripts/qa_checker.py]
    (the validators of class [AnnotationQAChecker]), with the properties the
    specification states about them.

    Conventions of the embedding.
    - A JSON object whose key may be absent is a record whose field is an
      [option]: [None] is "the key is not there", and a subscript [d['k']] on
      it raises [KeyError "k"].
    - A Python [dict] is an insertion-ordered association list ([pydict]).
    - Code inside [try: ... except Exception] runs in a monad with exceptions;
      the handler is the last step of the embedded function.
    - File writes and calls of [self.log] are recorded, in order, in a trace;
      creating a directory and opening a file for writing may raise ([FS]).
    - Arithmetic is written once over an interface [Num]; its instance
      [float_num] is Python's [float] (IEEE binary64, Rocq's primitive floats)
      and its instance [Qc_num] is exact rational arithmetic.  Statements
      about rounding read a float as the rational it stands for ([F2Q]). *)

From Stdlib Require Import ZArith List String Ascii Bool Floats QArith Qcanon.
From Stdlib Require Import Lia Field DecimalString Sorted Permutation.
From Stdlib Require Import Qpower Qabs Lqa Zpower.
Import ListNotations.
Set Warnings "-inexact-float".
Open Scope string_scope.
Open Scope Z_scope.

(* ================================================================== *)
(** * The Python runtime the two scripts rely on *)
(* ================================================================== *)

Module Py.

(** ** Numbers *)

(** The operators the scripts apply to JSON numbers. [num_of_Z] is the
    conversion an [int] operand undergoes when the other operand is not one. *)
Class Num (T : Type) := {
  num_of_Z : Z -> T;
  num_add : T -> T -> T;
  num_sub : T -> T -> T;
  num_mul : T -> T -> T;
  num_div : T -> T -> T;
  num_ltb : T -> T -> bool;
  num_leb : T -> T -> bool
}.

Declare Scope num_scope.
Delimit Scope num_scope with num.
Infix "+!" := num_add (at level 50, left associativity) : num_scope.
Infix "-!" := num_sub (at level 50, left associativity) : num_scope.
Infix "*!" := num_mul (at level 40, left associativity) : num_scope.
Infix "/!" := num_div (at level 40, left associativity) : num_scope.
Infix "<?!" := num_ltb (at level 70, no associativity) : num_scope.
Infix "<=?!" := num_leb (at level 70, no associativity) : num_scope.

(** [float(z)]: the integer rounded to the nearest binary64 value (ties to
    even); exact whenever [|z| <= 2^53]. *)
Definition Z2float (z : Z) : float :=
  SF2Prim (binary_normalize prec emax z 0 false).

#[export] Instance float_num : Num float := {|
  num_of_Z := Z2float;
  num_add := PrimFloat.add;
  num_sub := PrimFloat.sub;
  num_mul := PrimFloat.mul;
  num_div := PrimFloat.div;
  num_ltb := PrimFloat.ltb;
  num_leb := PrimFloat.leb
|}.

Definition Qc_of_Z (z : Z) : Qc := Q2Qc (inject_Z z).

#[export] Instance Qc_num : Num Qc := {|
  num_of_Z := Qc_of_Z;
  num_add := Qcplus;
  num_sub := Qcminus;
  num_mul := Qcmult;
  num_div := Qcdiv;
  num_ltb := fun a b => negb (Qle_bool b a);
  num_leb := fun a b => Qle_bool a b
|}.

(** [str(z)] for an [int]. *)
Definition string_of_Z (z : Z) : string := NilZero.string_of_int (Z.to_int z).

(** ** Strings *)

(** [str.isspace] on one character; a [string] here is a sequence of code
    points below 256. *)
Definition is_space (c : ascii) : bool :=
  let n := Z.of_nat (nat_of_ascii c) in
  ((9 <=? n) && (n <=? 13)) || ((28 <=? n) && (n <=? 32))
  || (n =? 133) || (n =? 160).

Fixpoint lstrip_chars (s : list ascii) : list ascii :=
  match s with
  | c :: r => if is_space c then lstrip_chars r else s
  | [] => []
  end.

(** [s.strip()] *)
Definition strip (s : string) : string :=
  string_of_list_ascii
    (rev (lstrip_chars (rev (lstrip_chars (list_ascii_of_string s))))).

Definition flush_word (cur : list ascii) (rest : list string) : list string :=
  match cur with
  | [] => rest
  | _ => string_of_list_ascii (rev cur) :: rest
  end.

Fixpoint split_chars (cur : list ascii) (s : list ascii) : list string :=
  match s with
  | [] => flush_word cur []
  | c :: r =>
      if is_space c then flush_word cur (split_chars [] r)
      else split_chars (c :: cur) r
  end.

(** [s.split()] : the maximal runs of non-blank characters. *)
Definition split (s : string) : list string :=
  split_chars [] (list_ascii_of_string s).

Definition slash : ascii := "/"%char.

Fixpoint last_char (s : string) : option ascii :=
  match s with
  | EmptyString => None
  | String c EmptyString => Some c
  | String _ r => last_char r
  end.

Definition starts_with_slash (s : string) : bool :=
  match s with
  | String c _ => Ascii.eqb c slash
  | EmptyString => false
  end.

Definition ends_with_slash (s : string) : bool :=
  match last_char s with
  | Some c => Ascii.eqb c slash
  | None => false
  end.

(** [os.path.join(a, b)] (posixpath). *)
Definition path_join (a b : string) : string :=
  if starts_with_slash b then b
  else if (a =? "")%string || ends_with_slash a then a ++ b
  else a ++ "/" ++ b.

Fixpoint basename_chars (cur : list ascii) (s : list ascii) : list ascii :=
  match s with
  | [] => rev cur
  | c :: r => if Ascii.eqb c slash then basename_chars [] r
              else basename_chars (c :: cur) r
  end.

(** [os.path.basename(p)]: what follows the last slash. *)
Definition basename (p : string) : string :=
  string_of_list_ascii (basename_chars [] (list_ascii_of_string p)).

(** ** Library functions taken as given

    [pathlib]'s [Path(p).stem], [int(s)], [float(s)] and [repr] of a float
    are library code; the embedding is parametric in them. [py_int] and
    [py_float] answer [None] where Python raises [ValueError]. *)
Class Lib : Type := {
  path_stem : string -> string;
  py_int : string -> option Z;
  float_repr : float -> string
}.

Class FloatParser (T : Type) : Type := {
  py_float : string -> option T
}.

(** ** Insertion-ordered dictionaries *)

Section Dict.
Context {K V : Type} (eqb : K -> K -> bool).

Definition pydict := list (K * V).

Fixpoint dict_get (d : pydict) (k : K) : option V :=
  match d with
  | [] => None
  | (k', v) :: r => if eqb k' k then Some v else dict_get r k
  end.

(** [d.get(k, default)] *)
Definition dict_get_default (d : pydict) (k : K) (default : V) : V :=
  match dict_get d k with
  | Some v => v
  | None => default
  end.

(** [k in d] *)
Definition dict_mem (d : pydict) (k : K) : bool :=
  match dict_get d k with
  | Some _ => true
  | None => false
  end.

(** [d[k] = v]: an existing key keeps its position. *)
Fixpoint dict_set (d : pydict) (k : K) (v : V) : pydict :=
  match d with
  | [] => [(k, v)]
  | (k', v') :: r =>
      if eqb k' k then (k', v) :: r else (k', v') :: dict_set r k v
  end.

Definition dict_keys (d : pydict) : list K := map fst d.
Definition dict_values (d : pydict) : list V := map snd d.
End Dict.

Arguments pydict : clear implicits.

(** [enumerate(l)] *)
Fixpoint enumerate_from {A : Type} (i : Z) (l : list A) : list (Z * A) :=
  match l with
  | [] => []
  | a :: r => (i, a) :: enumerate_from (i + 1) r
  end.

Definition enumerate {A : Type} (l : list A) : list (Z * A) :=
  enumerate_from 0 l.

(** ** Exceptions *)

Inductive exn : Type :=
| KeyError (key : string)
| IndexError
| ValueError (msg : string)
| TypeError (msg : string)
| OSError (msg : string).

(** [str(e)] *)
Definition exn_str (e : exn) : string :=
  match e with
  | KeyError k => "'" ++ k ++ "'"
  | IndexError => "list index out of range"
  | ValueError m => m
  | TypeError m => m
  | OSError m => m
  end.

Inductive outcome (A : Type) : Type :=
| Ok (a : A)
| Raise (e : exn).

Arguments Ok {A} a.
Arguments Raise {A} e.

Definition obind {A B : Type} (m : outcome A) (f : A -> outcome B) : outcome B :=
  match m with
  | Ok a => f a
  | Raise e => Raise e
  end.

Declare Scope py_scope.
Delimit Scope py_scope with py.
Notation "x <~ m ;; k" := (obind m (fun x => k))
  (at level 61, m at next level, right associativity) : py_scope.

(** [d['k']] on a JSON object whose key [k] holds [field] when present. *)
Definition subscript {A : Type} (key : string) (field : option A) : outcome A :=
  match field with
  | Some a => Ok a
  | None => Raise (KeyError key)
  end.

(** [l[i]] for a constant index [i >= 0]. *)
Definition index {A : Type} (l : list A) (i : nat) : outcome A :=
  match nth_error l i with
  | Some a => Ok a
  | None => Raise IndexError
  end.

(** A [for] loop whose body may raise and which collects one value per
    element. *)
Fixpoint map_outcome {A B : Type} (f : A -> outcome B) (l : list A)
  : outcome (list B) :=
  match l with
  | [] => Ok []
  | a :: r =>
      obind (f a) (fun b => obind (map_outcome f r) (fun bs => Ok (b :: bs)))
  end.

(** ** The file system

    [os.makedirs(path, exist_ok=True)] and [open(path, 'w')] raise when the
    directory or the file cannot be created: an empty path, a path held by
    a file or by a directory, a missing permission.  The embedding is
    parametric in which calls raise; one call of a converter runs against
    one file system. *)
Class FS : Type := {
  makedirs : string -> outcome unit;
  open_write : string -> outcome unit
}.

(** The call returned. *)
Definition is_ok {A : Type} (o : outcome A) : bool :=
  match o with
  | Ok _ => true
  | Raise _ => false
  end.

End Py.

Import Py.
Open Scope py_scope.

(* ================================================================== *)
(** * The dictionary-style detection dataset (COCO JSON) *)
(* ================================================================== *)

(** One entry of ["categories"]. *)
Record category : Type := {
  cat_id : option Z;
  cat_name : option string;
  cat_supercategory : option string
}.

(** One entry of ["images"]. For ["width"] and ["height"], [None] is an
    absent key and [Some None] a key holding [null]. *)
Record image : Type := {
  img_id : option Z;
  img_file_name : option string;
  img_width : option (option Z);
  img_height : option (option Z)
}.

(** One entry of ["annotations"]; [ann_bbox] is the JSON array as it is,
    of any length. *)
Record annotation (T : Type) : Type := {
  ann_id : option Z;
  ann_image_id : option Z;
  ann_category_id : option Z;
  ann_bbox : option (list T);
  ann_area : option T;
  ann_iscrowd : option Z
}.

Arguments ann_id {T} _.
Arguments ann_image_id {T} _.
Arguments ann_category_id {T} _.
Arguments ann_bbox {T} _.
Arguments ann_area {T} _.
Arguments ann_iscrowd {T} _.

(** The top-level object. *)
Record coco_data (T : Type) : Type := {
  images : option (list image);
  annotations : option (list (annotation T));
  categories : option (list category)
}.

Arguments images {T} _.
Arguments annotations {T} _.
Arguments categories {T} _.

(** [coco_data.get(key, [])] *)
Definition get_list {A : Type} (field : option (list A)) : list A :=
  match field with
  | Some l => l
  | None => []
  end.

(* ================================================================== *)
(** * scripts/format_converter.py *)
(* ================================================================== *)

Module Converter.

(** ** Coordinate transforms *)

(** Absolute top-left form [x, y, width, height]. *)
Record bbox (T : Type) : Type := {
  box_x : T;
  box_y : T;
  box_w : T;
  box_h : T
}.

(** Normalized center form. *)
Record center_box (T : Type) : Type := {
  x_center : T;
  y_center : T;
  norm_width : T;
  norm_height : T
}.

Arguments Build_bbox {T} _ _ _ _.
Arguments box_x {T} _.
Arguments box_y {T} _.
Arguments box_w {T} _.
Arguments box_h {T} _.
Arguments Build_center_box {T} _ _ _ _.
Arguments x_center {T} _.
Arguments y_center {T} _.
Arguments norm_width {T} _.
Arguments norm_height {T} _.

Section Transforms.
Context {T : Type} {N : Num T}.
Open Scope num_scope.

(** [coco_to_yolo], lines 90-93: [bbox[2] / 2] and the divisions by the
    image's dimensions. *)
Definition to_normalized_center (b : bbox T) (img_width img_height : Z)
  : center_box T :=
  {| x_center := (box_x b +! box_w b /! num_of_Z 2) /! num_of_Z img_width;
     y_center := (box_y b +! box_h b /! num_of_Z 2) /! num_of_Z img_height;
     norm_width := box_w b /! num_of_Z img_width;
     norm_height := box_h b /! num_of_Z img_height |}.

(** [yolo_to_coco], lines 208-219: scale the four parsed fields by the
    image's dimensions, then move from the center to the top-left corner. *)
Definition to_absolute_topleft (c : center_box T) (img_width img_height : Z)
  : bbox T :=
  let xc := x_center c *! num_of_Z img_width in
  let yc := y_center c *! num_of_Z img_height in
  let width := norm_width c *! num_of_Z img_width in
  let height := norm_height c *! num_of_Z img_height in
  {| box_x := xc -! width /! num_of_Z 2;
     box_y := yc -! height /! num_of_Z 2;
     box_w := width;
     box_h := height |}.

End Transforms.

(** ** Effects of a conversion *)

(** One line [class_id x_center y_center width height] of a label file. *)
Record yolo_line (T : Type) : Type := {
  class_id : Z;
  geom : center_box T
}.

Arguments Build_yolo_line {T} _ _.
Arguments class_id {T} _.
Arguments geom {T} _.

(** What a conversion writes to a file. *)
Inductive file_content (T : Type) : Type :=
| LabelFile (lines : list (yolo_line T))
| ClassesFile (names : list string)
| CocoFile (data : coco_data T).

Arguments LabelFile {T} lines.
Arguments ClassesFile {T} names.
Arguments CocoFile {T} data.

(** [MakeDirs]: [os.makedirs] was called on the path (it may have raised);
    [WriteFile]: the file was opened and the content written; [Log]: a call
    of [self.log]. *)
Inductive event (T : Type) : Type :=
| MakeDirs (path : string)
| WriteFile (path : string) (content : file_content T)
| Log (message : string).

Arguments MakeDirs {T} path.
Arguments WriteFile {T} path content.
Arguments Log {T} message.

(** A computation that leaves a trace of events and returns or raises. No
    step of the converter reads back what an earlier step wrote. *)
Definition W (T A : Type) : Type := list (event T) * outcome A.

Definition wret {T A : Type} (a : A) : W T A := ([], Ok a).

Definition wbind {T A B : Type} (m : W T A) (f : A -> W T B) : W T B :=
  match m with
  | (t, Ok a) => let (t', r) := f a in ((t ++ t')%list, r)
  | (t, Raise e) => (t, Raise e)
  end.

Definition lift {T A : Type} (o : outcome A) : W T A := ([], o).
Definition emit {T : Type} (e : event T) : W T unit := ([e], Ok tt).

Declare Scope conv_scope.
Notation "x <- m ;; k" := (wbind m (fun x => k))
  (at level 61, m at next level, right associativity) : conv_scope.
Notation "m ;;; k" := (wbind m (fun _ => k))
  (at level 61, right associativity) : conv_scope.
Local Open Scope conv_scope.

(** [with open(path, 'w') as f: ...]: when [open] raises nothing is
    written. *)
Definition write_file {T : Type} {F : FS} (path : string)
  (content : file_content T) : W T unit :=
  lift (open_write path) ;;; emit (WriteFile path content).

(** [for a in l: body a] *)
Fixpoint for_each {T A : Type} (body : A -> W T unit) (l : list A) : W T unit :=
  match l with
  | [] => wret tt
  | a :: r => body a ;;; for_each body r
  end.

(** The lines [self.log] prints: nothing unless [verbose]. *)
Definition printed {T : Type} (verbose : bool) (t : list (event T)) : list string :=
  if verbose then
    flat_map (fun e => match e with
                       | Log m => ["[FormatConverter] " ++ m]
                       | _ => []
                       end) t
  else [].

Definition log_calls {T : Type} (t : list (event T)) : list string :=
  flat_map (fun e => match e with Log m => [m] | _ => [] end) t.

Definition writes {T : Type} (t : list (event T)) : list (string * file_content T) :=
  flat_map (fun e => match e with WriteFile p c => [(p, c)] | _ => [] end) t.

(** ** [FormatConverter.coco_to_yolo] *)

Section CocoToYolo.
Context {T : Type} {N : Num T} {L : Lib} {F : FS}.

(** Line 59: [{cat['id']: cat['name'] for cat in ...}]. *)
Fixpoint build_categories (cats : list category) (acc : pydict Z string)
  : outcome (pydict Z string) :=
  match cats with
  | [] => Ok acc
  | cat :: r =>
      id <~ subscript "id" (cat_id cat) ;;
      name <~ subscript "name" (cat_name cat) ;;
      build_categories r (dict_set Z.eqb acc id name)
  end.

(** Line 60: [{name: idx for idx, name in enumerate(categories.values())}]. *)
Definition build_category_to_id (cats : pydict Z string) : pydict string Z :=
  fold_left (fun acc p => dict_set String.eqb acc (snd p) (fst p))
            (enumerate (dict_values cats)) [].

(** Lines 63-68: annotations grouped by [image_id], in listing order. *)
Fixpoint group_annotations (anns : list (annotation T))
  (acc : pydict Z (list (annotation T)))
  : outcome (pydict Z (list (annotation T))) :=
  match anns with
  | [] => Ok acc
  | ann :: r =>
      image_id <~ subscript "image_id" (ann_image_id ann) ;;
      group_annotations r
        (dict_set Z.eqb acc image_id
           (dict_get_default Z.eqb acc image_id [] ++ [ann])%list)
  end.

(** [image.get('width', image_width)] *)
Definition resolve_dim (field : option (option Z)) (default : option Z)
  : option Z :=
  match field with
  | Some v => v
  | None => default
  end.

(** Line 78: the two dimensions when [not img_width or not img_height] is
    false, [None] when it is true ([None] and [0] are the falsy values). *)
Definition usable_dims (img_width img_height : option Z) : option (Z * Z) :=
  match img_width, img_height with
  | Some w, Some h => if (w =? 0) || (h =? 0) then None else Some (w, h)
  | _, _ => None
  end.

(** The subscripts [bbox[0]] ... [bbox[3]] of lines 90-93. *)
Definition bbox_of_list (l : list T) : outcome (bbox T) :=
  x <~ index l 0 ;;
  w <~ index l 2 ;;
  y <~ index l 1 ;;
  h <~ index l 3 ;;
  Ok (Build_bbox x y w h).

(** Lines 86-87: the class index written for a [category_id]. *)
Definition resolve_class (cats : pydict Z string) (category_to_id : pydict string Z)
  (category_id : Z) : Z :=
  let category_name := dict_get_default Z.eqb cats category_id "unknown" in
  dict_get_default String.eqb category_to_id category_name 0.

(** Lines 85-95: the line of one annotation. *)
Definition convert_annotation (cats : pydict Z string)
  (category_to_id : pydict string Z) (img_width img_height : Z)
  (ann : annotation T) : outcome (yolo_line T) :=
  l <~ subscript "bbox" (ann_bbox ann) ;;
  category_id <~ subscript "category_id" (ann_category_id ann) ;;
  let class_id := resolve_class cats category_to_id category_id in
  b <~ bbox_of_list l ;;
  Ok (Build_yolo_line class_id (to_normalized_center b img_width img_height)).

Definition missing_dimensions_warning (filename : string) : string :=
  "Warning: Missing dimensions for " ++ filename.

(** Lines 71-100: the body of the loop over the images. *)
Definition convert_image (output_dir : string) (cats : pydict Z string)
  (category_to_id : pydict string Z)
  (image_annotations : pydict Z (list (annotation T)))
  (image_width image_height : option Z) (im : image) : W T unit :=
  image_id <- lift (subscript "id" (img_id im)) ;;
  file_name <- lift (subscript "file_name" (img_file_name im)) ;;
  let filename := path_stem file_name in
  match usable_dims (resolve_dim (img_width im) image_width)
                    (resolve_dim (img_height im) image_height) with
  | None => emit (Log (missing_dimensions_warning filename))
  | Some (w, h) =>
      yolo_lines <- lift
        (match dict_get Z.eqb image_annotations image_id with
         | Some anns => map_outcome (convert_annotation cats category_to_id w h) anns
         | None => Ok []
         end) ;;
      write_file (path_join output_dir (filename ++ ".txt"))
                 (LabelFile yolo_lines)
  end.

(** Lines 56-108: what runs inside [try]. A missing top-level key reads as
    the empty list ([coco_data.get(key, [])]). *)
Definition coco_to_yolo_body (d : coco_data T) (output_dir : string)
  (image_width image_height : option Z) : W T unit :=
  emit (MakeDirs output_dir) ;;;
  lift (makedirs output_dir) ;;;
  cats <- lift (build_categories (get_list (categories d)) []) ;;
  let category_to_id := build_category_to_id cats in
  image_annotations <- lift (group_annotations (get_list (annotations d)) []) ;;
  for_each (convert_image output_dir cats category_to_id image_annotations
                          image_width image_height)
           (get_list (images d)) ;;;
  write_file (path_join output_dir "classes.txt")
             (ClassesFile (dict_keys category_to_id)) ;;;
  emit (Log ("Successfully converted COCO to YOLO format in " ++ output_dir)).

(** [coco_to_yolo] on the parsed JSON, from line 56 on: the trace it leaves
    and the [bool] it returns. *)
Definition coco_to_yolo (d : coco_data T) (output_dir : string)
  (image_width image_height : option Z) : list (event T) * bool :=
  match coco_to_yolo_body d output_dir image_width image_height with
  | (t, Ok _) => (t, true)
  | (t, Raise e) =>
      ((t ++ [Log ("Error converting COCO to YOLO: " ++ exn_str e)])%list, false)
  end.

End CocoToYolo.

(** ** [FormatConverter.yolo_to_coco] *)

(** One [*.txt] file of [yolo_dir]: its name, the lines the loop of line
    203 gets from it and the exception that ends the reading, if any (no
    line and an exception when [open] raises). *)
Record txt_file : Type := {
  txt_name : string;
  txt_lines : list string;
  txt_error : option exn
}.

(** What the conversion reads from its surroundings. *)
Record yolo_input : Type := {
  (** what reading [classes_file] gives, lines or an exception, when the
      argument is given and the file exists *)
  classes_file : option (outcome (list string));
  (** what reading [yolo_dir/classes.txt] gives when it exists *)
  sidecar_classes : option (outcome (list string));
  (** [Path(yolo_dir).glob("*.txt")], in the order it yields them *)
  txt_files : list txt_file;
  (** [os.path.exists] *)
  file_exists : string -> bool;
  (** [Image.open(path).size]; [None] when [PIL] cannot be imported *)
  image_size : option (string -> outcome (Z * Z))
}.

Section YoloToCoco.
Context {T : Type} {N : Num T} {L : Lib} {P : FloatParser T} {F : FS}.
Open Scope num_scope.

(** Lines 130-140. *)
Definition load_classes (inp : yolo_input) : W T (list string) :=
  match classes_file inp with
  | Some read => ls <- lift read ;; wret (map strip ls)
  | None =>
      match sidecar_classes inp with
      | Some read => ls <- lift read ;; wret (map strip ls)
      | None =>
          emit (Log "Warning: No classes file found, using generic class names") ;;;
          wret ["class_0"; "class_1"; "class_2"]
      end
  end.

(** Lines 156-161. *)
Definition categories_of_classes (classes : list string) : list category :=
  map (fun p => {| cat_id := Some (fst p);
                   cat_name := Some (snd p);
                   cat_supercategory := Some "object" |})
      (enumerate classes).

(** The lists under construction and the next annotation id. *)
Record acc : Type := {
  acc_images : list image;
  acc_annotations : list (annotation T);
  annotation_id : Z
}.

Definition image_extensions : list string := [".jpg"; ".jpeg"; ".png"; ".bmp"].

(** Lines 173-178. *)
Definition find_image (inp : yolo_input) (images_dir image_name : string)
  : option string :=
  find (file_exists inp)
       (map (fun ext => path_join images_dir (image_name ++ ext)) image_extensions).

(** Lines 185-191. *)
Definition read_size (inp : yolo_input) (image_path : string) : W T (Z * Z) :=
  match image_size inp with
  | Some size => lift (size image_path)
  | None =>
      emit (Log "PIL not available, using default dimensions") ;;;
      wret (640, 480)
  end.

Definition parse_int (s : string) : outcome Z :=
  match py_int s with
  | Some z => Ok z
  | None => Raise (ValueError ("invalid literal for int() with base 10: '" ++ s ++ "'"))
  end.

Definition parse_float (s : string) : outcome T :=
  match py_float s with
  | Some x => Ok x
  | None => Raise (ValueError ("could not convert string to float: '" ++ s ++ "'"))
  end.

(** Lines 204-229: one line of a label file. *)
Definition convert_line (image_id img_width img_height : Z) (a : acc)
  (line : string) : outcome acc :=
  if (strip line =? "")%string then Ok a
  else
    let parts := split (strip line) in
    if (5 <=? List.length parts)%nat then
      class_id <~ obind (index parts 0) parse_int ;;
      xc <~ obind (index parts 1) parse_float ;;
      yc <~ obind (index parts 2) parse_float ;;
      nw <~ obind (index parts 3) parse_float ;;
      nh <~ obind (index parts 4) parse_float ;;
      let b := to_absolute_topleft (Build_center_box xc yc nw nh)
                                   img_width img_height in
      Ok {| acc_images := acc_images a;
            acc_annotations :=
              (acc_annotations a ++
               [{| ann_id := Some (annotation_id a);
                   ann_image_id := Some image_id;
                   ann_category_id := Some class_id;
                   ann_bbox := Some [box_x b; box_y b; box_w b; box_h b];
                   ann_area := Some (box_w b *! box_h b);
                   ann_iscrowd := Some 0 |}])%list;
            annotation_id := annotation_id a + 1 |}
    else Ok a.

Fixpoint convert_lines (image_id img_width img_height : Z) (a : acc)
  (lines : list string) : outcome acc :=
  match lines with
  | [] => Ok a
  | line :: r =>
      a' <~ convert_line image_id img_width img_height a line ;;
      convert_lines image_id img_width img_height a' r
  end.

(** Lines 166-229: the body of the loop over the label files. *)
Definition convert_file (inp : yolo_input) (images_dir : string) (a : acc)
  (f : txt_file) : W T acc :=
  if (txt_name f =? "classes.txt")%string then wret a
  else
    let image_name := path_stem (txt_name f) in
    match find_image inp images_dir image_name with
    | None =>
        emit (Log ("Warning: No image found for " ++ txt_name f)) ;;;
        wret a
    | Some image_path =>
        size <- read_size inp image_path ;;
        let image_id := Z.of_nat (List.length (acc_images a)) in
        let a1 := {| acc_images :=
                       (acc_images a ++
                        [{| img_id := Some image_id;
                            img_file_name := Some (basename image_path);
                            img_width := Some (Some (fst size));
                            img_height := Some (Some (snd size)) |}])%list;
                     acc_annotations := acc_annotations a;
                     annotation_id := annotation_id a |} in
        a2 <- lift (convert_lines image_id (fst size) (snd size) a1
                                  (txt_lines f)) ;;
        match txt_error f with
        | Some e => lift (Raise e)
        | None => wret a2
        end
    end.

Fixpoint convert_files (inp : yolo_input) (images_dir : string) (a : acc)
  (fs : list txt_file) : W T acc :=
  match fs with
  | [] => wret a
  | f :: r =>
      a' <- convert_file inp images_dir a f ;;
      convert_files inp images_dir a' r
  end.

(** Lines 129-236: what runs inside [try]; the value is the dataset dumped
    to [output_path] (its constant ["info"] and ["licenses"] entries are left
    out). *)
Definition yolo_to_coco_body (inp : yolo_input) (images_dir output_path : string)
  : W T (coco_data T) :=
  classes <- load_classes inp ;;
  let cats := categories_of_classes classes in
  a <- convert_files inp images_dir
         {| acc_images := []; acc_annotations := []; annotation_id := 1 |}
         (txt_files inp) ;;
  let data := {| images := Some (acc_images a);
                 annotations := Some (acc_annotations a);
                 categories := Some cats |} in
  write_file output_path (CocoFile data) ;;;
  emit (Log ("Successfully converted YOLO to COCO format: " ++ output_path)) ;;;
  wret data.

(** [yolo_to_coco]: the trace, the dataset written (if any) and the [bool]
    returned. *)
Definition yolo_to_coco (inp : yolo_input) (images_dir output_path : string)
  : list (event T) * option (coco_data T) * bool :=
  match yolo_to_coco_body inp images_dir output_path with
  | (t, Ok data) => (t, Some data, true)
  | (t, Raise e) =>
      ((t ++ [Log ("Error converting YOLO to COCO: " ++ exn_str e)])%list,
       None, false)
  end.

End YoloToCoco.

End Converter.

(* ================================================================== *)
(** * scripts/qa_checker.py *)
(* ================================================================== *)

Module QA.

(** Code that updates the [results] dictionary and may raise. *)
Definition St (S A : Type) : Type := S -> outcome A * S.

Definition sret {S A : Type} (a : A) : St S A := fun s => (Ok a, s).

Definition sbind {S A B : Type} (m : St S A) (f : A -> St S B) : St S B :=
  fun s =>
    match m s with
    | (Ok a, s') => f a s'
    | (Raise e, s') => (Raise e, s')
    end.

Definition modify {S : Type} (g : S -> S) : St S unit := fun s => (Ok tt, g s).
Definition slift {S A : Type} (o : outcome A) : St S A := fun s => (o, s).

Declare Scope qa_scope.
Notation "x <- m ;; k" := (sbind m (fun x => k))
  (at level 61, m at next level, right associativity) : qa_scope.
Notation "m ;;; k" := (sbind m (fun _ => k))
  (at level 61, right associativity) : qa_scope.
Local Open Scope qa_scope.

(** [for a in l: body a] *)
Fixpoint sfor_each {S A : Type} (body : A -> St S unit) (l : list A) : St S unit :=
  match l with
  | [] => sret tt
  | a :: r => body a ;;; sfor_each body r
  end.

(** A [for] loop that also threads a local variable. *)
Fixpoint sfold {S A B : Type} (body : B -> A -> St S B) (l : list A) (b : B)
  : St S B :=
  match l with
  | [] => sret b
  | a :: r => b' <- body b a ;; sfold body r b'
  end.

(** [counter[key] += 1] *)
Definition counter_incr (c : pydict string Z) (key : string) : pydict string Z :=
  dict_set String.eqb c key (dict_get_default String.eqb c key 0 + 1).

(** [max(l)] and [min(l)] of a list known to be non-empty. *)
Definition list_max (l : list Z) : Z :=
  match l with
  | [] => 0
  | a :: r => fold_left Z.max r a
  end.

Definition list_min (l : list Z) : Z :=
  match l with
  | [] => 0
  | a :: r => fold_left Z.min r a
  end.

Fixpoint insert_sorted (a : Z) (l : list Z) : list Z :=
  match l with
  | [] => [a]
  | b :: r => if a <=? b then a :: l else b :: insert_sorted a r
  end.

(** [sorted(l)] *)
Definition sorted (l : list Z) : list Z := fold_right insert_sorted [] l.

(** [len(l)] *)
Definition len {A : Type} (l : list A) : Z := Z.of_nat (List.length l).

(** [sorted(l)[len(l) // 2]] *)
Definition median_of (l : list Z) : Z :=
  nth (Z.to_nat (len l / 2)) (sorted l) 0.

(** The dictionary [{'min': ..., 'max': ..., 'mean': ..., 'median': ...}]. *)
Record length_stats : Type := {
  stat_min : Z;
  stat_max : Z;
  stat_mean : float;
  stat_median : Z
}.

(** Lines 182-188 and 251-257; [None] is the empty dictionary left in place
    when no length was collected. *)
Definition length_stats_of (lengths : list Z) : option length_stats :=
  match lengths with
  | [] => None
  | _ => Some {| stat_min := list_min lengths;
                 stat_max := list_max lengths;
                 stat_mean := PrimFloat.div (Z2float (fold_left Z.add lengths 0))
                                            (Z2float (len lengths));
                 stat_median := median_of lengths |}
  end.

(** [count > total * fraction], the comparison behind the percentage
    warnings (both counts are far below [2^53]). *)
Definition exceeds (count total : Z) (fraction : float) : bool :=
  PrimFloat.ltb (PrimFloat.mul (Z2float total) fraction) (Z2float count).

(** ** Values of a text or audio record *)

(** [VNumpyInt] is a [numpy.int64], the scalar [iterrows] hands out for a
    frame whose columns are all integers; the other values are Python's
    own ([numpy.float64] is a [float]). *)
Inductive pyval : Type :=
| VNone
| VBool (b : bool)
| VInt (z : Z)
| VFloat (f : float)
| VStr (s : string)
| VNumpyInt (z : Z).

(** A record: column or key name to value. *)
Definition record : Type := pydict string pyval.

(** [bool(v)] *)
Definition truthy (v : pyval) : bool :=
  match v with
  | VNone => false
  | VBool b => b
  | VInt z => negb (z =? 0)
  | VFloat f => negb (PrimFloat.eqb f 0%float)
  | VStr s => negb (s =? "")%string
  | VNumpyInt z => negb (z =? 0)
  end.

(** [type(v).__name__] *)
Definition type_name (v : pyval) : string :=
  match v with
  | VNone => "NoneType"
  | VBool _ => "bool"
  | VInt _ => "int"
  | VFloat _ => "float"
  | VStr _ => "str"
  | VNumpyInt _ => "int64"
  end.

(** [isinstance(v, str) and len(v.strip()) == 0] *)
Definition blank_str (v : pyval) : bool :=
  match v with
  | VStr s => (strip s =? "")%string
  | _ => false
  end.

Section Str.
Context {L : Lib}.

(** [str(v)] *)
Definition py_str (v : pyval) : string :=
  match v with
  | VNone => "None"
  | VBool true => "True"
  | VBool false => "False"
  | VInt z => string_of_Z z
  | VFloat f => float_repr f
  | VStr s => s
  | VNumpyInt z => string_of_Z z
  end.

End Str.

(** ** [validate_image_annotations] *)

Module Image.

Record results : Type := {
  total_images : Z;
  total_annotations : Z;
  missing_images : list string;
  invalid_bboxes : list string;
  class_distribution : pydict string Z;
  errors : list string;
  warnings : list string
}.

Definition initial : results := {|
  total_images := 0;
  total_annotations := 0;
  missing_images := [];
  invalid_bboxes := [];
  class_distribution := [];
  errors := [];
  warnings := []
|}.

Definition set_totals (i a : Z) (r : results) : results :=
  {| total_images := i; total_annotations := a;
     missing_images := missing_images r; invalid_bboxes := invalid_bboxes r;
     class_distribution := class_distribution r;
     errors := errors r; warnings := warnings r |}.

Definition add_missing_image (name : string) (r : results) : results :=
  {| total_images := total_images r; total_annotations := total_annotations r;
     missing_images := (missing_images r ++ [name])%list;
     invalid_bboxes := invalid_bboxes r;
     class_distribution := class_distribution r;
     errors := errors r; warnings := warnings r |}.

Definition add_invalid_bbox (msg : string) (r : results) : results :=
  {| total_images := total_images r; total_annotations := total_annotations r;
     missing_images := missing_images r;
     invalid_bboxes := (invalid_bboxes r ++ [msg])%list;
     class_distribution := class_distribution r;
     errors := errors r; warnings := warnings r |}.

Definition set_class_distribution (c : pydict string Z) (r : results) : results :=
  {| total_images := total_images r; total_annotations := total_annotations r;
     missing_images := missing_images r; invalid_bboxes := invalid_bboxes r;
     class_distribution := c;
     errors := errors r; warnings := warnings r |}.

Definition add_error (msg : string) (r : results) : results :=
  {| total_images := total_images r; total_annotations := total_annotations r;
     missing_images := missing_images r; invalid_bboxes := invalid_bboxes r;
     class_distribution := class_distribution r;
     errors := (errors r ++ [msg])%list; warnings := warnings r |}.

Definition add_warning (msg : string) (r : results) : results :=
  {| total_images := total_images r; total_annotations := total_annotations r;
     missing_images := missing_images r; invalid_bboxes := invalid_bboxes r;
     class_distribution := class_distribution r;
     errors := errors r; warnings := (warnings r ++ [msg])%list |}.

Section Validate.
Context {T : Type} {N : Num T}.
Open Scope num_scope.

Definition required_keys : list string := ["images"; "annotations"; "categories"].

(** [key in coco_data] *)
Definition has_key (d : coco_data T) (key : string) : bool :=
  if (key =? "images")%string then
    match images d with Some _ => true | None => false end
  else if (key =? "annotations")%string then
    match annotations d with Some _ => true | None => false end
  else if (key =? "categories")%string then
    match categories d with Some _ => true | None => false end
  else false.

Definition required_fields : list string := ["id"; "image_id"; "category_id"; "bbox"].

(** [field in ann] *)
Definition has_field (ann : annotation T) (field : string) : bool :=
  if (field =? "id")%string then
    match ann_id ann with Some _ => true | None => false end
  else if (field =? "image_id")%string then
    match ann_image_id ann with Some _ => true | None => false end
  else if (field =? "category_id")%string then
    match ann_category_id ann with Some _ => true | None => false end
  else if (field =? "bbox")%string then
    match ann_bbox ann with Some _ => true | None => false end
  else false.

(** [ann.get('id', 'unknown')] as it is printed. *)
Definition id_or_unknown (ann : annotation T) : string :=
  match ann_id ann with
  | Some i => string_of_Z i
  | None => "unknown"
  end.

(** Line 77. *)
Fixpoint build_image_id_to_file (imgs : list image) (acc : pydict Z string)
  : outcome (pydict Z string) :=
  match imgs with
  | [] => Ok acc
  | img :: r =>
      id <~ subscript "id" (img_id img) ;;
      name <~ subscript "file_name" (img_file_name img) ;;
      build_image_id_to_file r (dict_set Z.eqb acc id name)
  end.

(** Line 78. *)
Fixpoint build_category_id_to_name (cats : list category) (acc : pydict Z string)
  : outcome (pydict Z string) :=
  match cats with
  | [] => Ok acc
  | cat :: r =>
      id <~ subscript "id" (cat_id cat) ;;
      name <~ subscript "name" (cat_name cat) ;;
      build_category_id_to_name r (dict_set Z.eqb acc id name)
  end.

(** Lines 81-84. *)
Definition check_image_file (file_exists : string -> bool) (images_dir : string)
  (image_info : image) : St results unit :=
  file_name <- slift (subscript "file_name" (img_file_name image_info)) ;;
  if file_exists (path_join images_dir file_name) then sret tt
  else modify (add_missing_image file_name).

(** Lines 90-94: the [continue] belongs to the loop over the field names,
    whose body it ends anyway. *)
Definition check_required_fields (ann : annotation T) : St results unit :=
  sfor_each
    (fun field =>
       if has_field ann field then sret tt
       else modify (add_error ("Annotation " ++ id_or_unknown ann
                                ++ " missing " ++ field)))
    required_fields.

(** [f"Annotation {ann['id']}: ..."] *)
Definition report_bbox (ann : annotation T) (what : string) : St results unit :=
  id <- slift (subscript "id" (ann_id ann)) ;;
  modify (add_invalid_bbox ("Annotation " ++ string_of_Z id ++ ": " ++ what)).

(** Lines 97-103. *)
Definition check_bbox (ann : annotation T) : St results unit :=
  bbox <- slift (subscript "bbox" (ann_bbox ann)) ;;
  if negb (List.length bbox =? 4)%nat then
    report_bbox ann "bbox must have 4 values"
  else if existsb (fun val => val <?! num_of_Z 0) bbox then
    report_bbox ann "negative bbox values"
  else
    w <- slift (index bbox 2) ;;
    h <- slift (index bbox 3) ;;
    if (w <=?! num_of_Z 0) || (h <=?! num_of_Z 0) then
      report_bbox ann "zero or negative width/height"
    else sret tt.

(** Lines 88-107: the body of the loop over the annotations. *)
Definition check_annotation (category_id_to_name : pydict Z string)
  (class_counts : pydict string Z) (ann : annotation T)
  : St results (pydict string Z) :=
  check_required_fields ann ;;;
  check_bbox ann ;;;
  category_id <- slift (subscript "category_id" (ann_category_id ann)) ;;
  let category_name :=
    dict_get_default Z.eqb category_id_to_name category_id "unknown" in
  sret (counter_incr class_counts category_name).

(** Lines 112-116. *)
Definition imbalance_warning (class_counts : pydict string Z) : list string :=
  match class_counts with
  | [] => []
  | _ =>
      let max_count := list_max (dict_values class_counts) in
      let min_count := list_min (dict_values class_counts) in
      if min_count * 10 <? max_count then
        ["Significant class imbalance detected: " ++ string_of_Z max_count
           ++ ":" ++ string_of_Z min_count]
      else []
  end.

(** Lines 73-116, reached when the three required keys are present. *)
Definition validate_body (file_exists : string -> bool) (images_dir : string)
  (imgs : list image) (anns : list (annotation T)) (cats : list category)
  : St results unit :=
  modify (set_totals (len imgs) (len anns)) ;;;
  _ <- slift (build_image_id_to_file imgs []) ;;
  category_id_to_name <- slift (build_category_id_to_name cats []) ;;
  sfor_each (check_image_file file_exists images_dir) imgs ;;;
  class_counts <- sfold (check_annotation category_id_to_name) anns [] ;;
  modify (set_class_distribution class_counts) ;;;
  sfor_each (fun w => modify (add_warning w)) (imbalance_warning class_counts).

(** [validate_image_annotations] on the parsed JSON. *)
Definition validate_image_annotations (file_exists : string -> bool)
  (d : coco_data T) (images_dir : string) : results :=
  match find (fun key => negb (has_key d key)) required_keys with
  | Some key => add_error ("Missing required key: " ++ key) initial
  | None =>
      match validate_body file_exists images_dir (get_list (images d))
              (get_list (annotations d)) (get_list (categories d)) initial with
      | (Ok _, r) => r
      | (Raise e, r) =>
          add_error ("Failed to validate image annotations: " ++ exn_str e) r
      end
  end.

End Validate.

End Image.

(** ** [validate_text_annotations] *)

Module Text.

Record results : Type := {
  total_samples : Z;
  missing_text : Z;
  missing_labels : Z;
  empty_text : Z;
  label_distribution : pydict string Z;
  text_length_stats : option length_stats;
  errors : list string;
  warnings : list string
}.

Definition failed (msg : string) : results := {|
  total_samples := 0;
  missing_text := 0;
  missing_labels := 0;
  empty_text := 0;
  label_distribution := [];
  text_length_stats := None;
  errors := [msg];
  warnings := []
|}.

(** What lines 146-154 produce: the records of a [.csv] or [.json] file, an
    exception of the loader, or neither extension. *)
Inductive source : Type :=
| Unsupported
| LoadFailed (e : exn)
| Loaded (data : list record).

(** The counters of [results] and the two local accumulators while the
    loop of lines 162-177 runs. *)
Record scan : Type := {
  n_missing_text : Z;
  n_empty_text : Z;
  n_missing_labels : Z;
  text_lengths : list Z;
  label_counts : pydict string Z
}.

Definition scan0 : scan := {|
  n_missing_text := 0;
  n_empty_text := 0;
  n_missing_labels := 0;
  text_lengths := [];
  label_counts := []
|}.

Section Validate.
Context {L : Lib}.

(** [item.get('text', '')] *)
Definition text_of (item : record) : pyval :=
  dict_get_default String.eqb item "text" (VStr "").

(** [item.get('label', '')] *)
Definition label_of (item : record) : pyval :=
  dict_get_default String.eqb item "label" (VStr "").

(** Lines 164-177. *)
Definition scan_item (st : scan) (item : record) : scan :=
  let text := text_of item in
  let label := label_of item in
  let st1 :=
    if negb (truthy text) then
      {| n_missing_text := n_missing_text st + 1;
         n_empty_text := n_empty_text st;
         n_missing_labels := n_missing_labels st;
         text_lengths := text_lengths st;
         label_counts := label_counts st |}
    else if blank_str text then
      {| n_missing_text := n_missing_text st;
         n_empty_text := n_empty_text st + 1;
         n_missing_labels := n_missing_labels st;
         text_lengths := text_lengths st;
         label_counts := label_counts st |}
    else
      {| n_missing_text := n_missing_text st;
         n_empty_text := n_empty_text st;
         n_missing_labels := n_missing_labels st;
         text_lengths :=
           (text_lengths st ++ [Z.of_nat (String.length (py_str text))])%list;
         label_counts := label_counts st |} in
  if negb (truthy label) then
    {| n_missing_text := n_missing_text st1;
       n_empty_text := n_empty_text st1;
       n_missing_labels := n_missing_labels st1 + 1;
       text_lengths := text_lengths st1;
       label_counts := label_counts st1 |}
  else
    {| n_missing_text := n_missing_text st1;
       n_empty_text := n_empty_text st1;
       n_missing_labels := n_missing_labels st1;
       text_lengths := text_lengths st1;
       label_counts := counter_incr (label_counts st1) (py_str label) |}.

Definition missing_text_warning (missing total : Z) : string :=
  "High percentage of missing text: " ++ string_of_Z missing ++ "/"
    ++ string_of_Z total.

Definition missing_labels_warning (missing total : Z) : string :=
  "High percentage of missing labels: " ++ string_of_Z missing ++ "/"
    ++ string_of_Z total.

(** [validate_text_annotations] from the point where the file is loaded.
    Nothing in lines 156-195 raises on a list of records. *)
Definition validate_text_annotations (src : source) : results :=
  match src with
  | Unsupported => failed "Unsupported file format. Use CSV or JSON."
  | LoadFailed e => failed ("Failed to validate text annotations: " ++ exn_str e)
  | Loaded data =>
      let st := fold_left scan_item data scan0 in
      let total := len data in
      {| total_samples := total;
         missing_text := n_missing_text st;
         missing_labels := n_missing_labels st;
         empty_text := n_empty_text st;
         label_distribution := label_counts st;
         text_length_stats := length_stats_of (text_lengths st);
         errors := [];
         warnings :=
           ((if exceeds (n_missing_text st) total 0.1%float
             then [missing_text_warning (n_missing_text st) total] else [])
            ++
            (if exceeds (n_missing_labels st) total 0.05%float
             then [missing_labels_warning (n_missing_labels st) total] else []))%list
      |}
  end.

End Validate.

End Text.

(** ** [validate_audio_annotations] *)

Module Audio.

(** The entry ['duration_stats'] (lines 245-248 and 259-265) is left out:
    computing it never raises and no other entry depends on it. *)
Record results : Type := {
  total_samples : Z;
  missing_audio_files : list string;
  missing_transcriptions : Z;
  transcription_length_stats : option length_stats;
  errors : list string;
  warnings : list string
}.

Definition initial : results := {|
  total_samples := 0;
  missing_audio_files := [];
  missing_transcriptions := 0;
  transcription_length_stats := None;
  errors := [];
  warnings := []
|}.

Definition set_total (n : Z) (r : results) : results :=
  {| total_samples := n;
     missing_audio_files := missing_audio_files r;
     missing_transcriptions := missing_transcriptions r;
     transcription_length_stats := transcription_length_stats r;
     errors := errors r; warnings := warnings r |}.

Definition add_missing_audio (name : string) (r : results) : results :=
  {| total_samples := total_samples r;
     missing_audio_files := (missing_audio_files r ++ [name])%list;
     missing_transcriptions := missing_transcriptions r;
     transcription_length_stats := transcription_length_stats r;
     errors := errors r; warnings := warnings r |}.

Definition incr_missing_transcriptions (r : results) : results :=
  {| total_samples := total_samples r;
     missing_audio_files := missing_audio_files r;
     missing_transcriptions := missing_transcriptions r + 1;
     transcription_length_stats := transcription_length_stats r;
     errors := errors r; warnings := warnings r |}.

Definition set_stats (s : option length_stats) (r : results) : results :=
  {| total_samples := total_samples r;
     missing_audio_files := missing_audio_files r;
     missing_transcriptions := missing_transcriptions r;
     transcription_length_stats := s;
     errors := errors r; warnings := warnings r |}.

Definition add_error (msg : string) (r : results) : results :=
  {| total_samples := total_samples r;
     missing_audio_files := missing_audio_files r;
     missing_transcriptions := missing_transcriptions r;
     transcription_length_stats := transcription_length_stats r;
     errors := (errors r ++ [msg])%list; warnings := warnings r |}.

Definition add_warning (msg : string) (r : results) : results :=
  {| total_samples := total_samples r;
     missing_audio_files := missing_audio_files r;
     missing_transcriptions := missing_transcriptions r;
     transcription_length_stats := transcription_length_stats r;
     errors := errors r; warnings := (warnings r ++ [msg])%list |}.

Section Validate.
Context {L : Lib}.

(** Lines 232-236; [os.path.join] accepts nothing but a string. *)
Definition check_audio_file (file_exists : string -> bool) (audio_dir : string)
  (row : record) : St results unit :=
  let audio_file := dict_get_default String.eqb row "audio_file" (VStr "") in
  if truthy audio_file then
    match audio_file with
    | VStr name =>
        if file_exists (path_join audio_dir name) then sret tt
        else modify (add_missing_audio name)
    | _ => slift (Raise (TypeError
             ("join() argument must be str, bytes, or os.PathLike object, not '"
              ++ type_name audio_file ++ "'")))
    end
  else sret tt.

(** Lines 239-243. *)
Definition check_transcription (transcription_lengths : list Z) (row : record)
  : St results (list Z) :=
  let transcription := dict_get_default String.eqb row "transcription" (VStr "") in
  if negb (truthy transcription) || blank_str transcription then
    modify incr_missing_transcriptions ;;;
    sret transcription_lengths
  else
    sret (transcription_lengths
            ++ [Z.of_nat (String.length (py_str transcription))])%list.

(** Lines 230-243: the body of the loop over the rows. *)
Definition check_row (file_exists : string -> bool) (audio_dir : string)
  (transcription_lengths : list Z) (row : record) : St results (list Z) :=
  check_audio_file file_exists audio_dir row ;;;
  check_transcription transcription_lengths row.

Definition missing_audio_warning (missing total : Z) : string :=
  "High percentage of missing audio files: " ++ string_of_Z missing ++ "/"
    ++ string_of_Z total.

(** Lines 225-269. *)
Definition validate_body (file_exists : string -> bool) (audio_dir : string)
  (rows : list record) : St results unit :=
  modify (set_total (len rows)) ;;;
  transcription_lengths <- sfold (check_row file_exists audio_dir) rows [] ;;
  modify (set_stats (length_stats_of transcription_lengths)) ;;;
  fun r =>
    if exceeds (len (missing_audio_files r)) (total_samples r) 0.05%float then
      modify (add_warning (missing_audio_warning (len (missing_audio_files r))
                                                 (total_samples r))) r
    else sret tt r.

(** [validate_audio_annotations] on the rows of the CSV file. *)
Definition validate_audio_annotations (file_exists : string -> bool)
  (rows : list record) (audio_dir : string) : results :=
  match validate_body file_exists audio_dir rows initial with
  | (Ok _, r) => r
  | (Raise e, r) =>
      add_error ("Failed to validate audio annotations: " ++ exn_str e) r
  end.

End Validate.

End Audio.

End QA.

(* ================================================================== *)
(** * scripts/format_converter.py: the text conversions *)
(* ================================================================== *)

Module TextConverter.
Import QA.

(** One object of the JSON list, with the three keys the converters write
    and read; values are scalars, and ["metadata"], when present, holds an
    object. *)
Record json_item : Type := {
  item_text : option pyval;
  item_label : option pyval;
  item_metadata : option record
}.

(** What a conversion hands to [json.dump] (the file being open) or to
    [DataFrame(...).to_csv], and what it passes to [self.log]. *)
Inductive event : Type :=
| WriteJson (path : string) (data : list json_item)
| WriteCsv (path : string) (rows : list record)
| Log (message : string)
(** [json.dump] raised after the file had been opened: the file is left
    with the beginning of a document *)
| PartialJson (path : string).

(** [json.dump] accepts the value; it raises [TypeError] on a numpy
    integer. *)
Definition serializable (v : pyval) : bool :=
  match v with
  | VNumpyInt _ => false
  | _ => true
  end.

Definition serializable_field (field : option pyval) : bool :=
  match field with
  | Some v => serializable v
  | None => true
  end.

Definition serializable_item (item : json_item) : bool :=
  serializable_field (item_text item)
  && serializable_field (item_label item)
  && match item_metadata item with
     | Some metadata => forallb (fun kv => serializable (snd kv)) metadata
     | None => true
     end.

(** [row[column]] on a row of the frame. *)
Definition cell (row : record) (column : string) : outcome pyval :=
  match dict_get String.eqb row column with
  | Some v => Ok v
  | None => Raise (KeyError column)
  end.

(** [k not in [text_column, label_column]] *)
Definition other_column (text_column label_column k : string) : bool :=
  negb ((k =? text_column)%string || (k =? label_column)%string).

(** Lines 251-256: the object appended for one row. *)
Definition item_of_row (text_column label_column : string) (row : record)
  : outcome json_item :=
  text <~ cell row text_column ;;
  label <~ cell row label_column ;;
  Ok {| item_text := Some text;
        item_label := Some label;
        item_metadata :=
          Some (filter (fun kv => other_column text_column label_column (fst kv))
                       row) |}.

Definition csv_error (e : exn) : event :=
  Log ("Error converting CSV to JSON: " ++ exn_str e).

(** [csv_to_json]; [frame] is what [pd.read_csv] returns, as the rows
    [iterrows] yields, or the exception it raises.  Lines 258-259 open the
    file and then dump the list. *)
Definition csv_to_json {F : FS} (frame : outcome (list record))
  (output_path text_column label_column : string) : list event * bool :=
  match obind frame (map_outcome (item_of_row text_column label_column)) with
  | Ok data =>
      match open_write output_path with
      | Ok _ =>
          if forallb serializable_item data then
            ([WriteJson output_path data;
              Log ("Successfully converted CSV to JSON: " ++ output_path)], true)
          else
            ([PartialJson output_path;
              csv_error (TypeError
                "Object of type int64 is not JSON serializable")], false)
      | Raise e => ([csv_error e], false)
      end
  | Raise e => ([csv_error e], false)
  end.

(** [row.update(metadata)] *)
Definition dict_update (row metadata : record) : record :=
  fold_left (fun acc kv => dict_set String.eqb acc (fst kv) (snd kv)) metadata row.

(** Lines 277-283: the row built for one object. *)
Definition row_of_item (item : json_item) : record :=
  let row := [("text", match item_text item with Some v => v | None => VStr "" end);
              ("label", match item_label item with Some v => v | None => VStr "" end)] in
  match item_metadata item with
  | Some metadata => dict_update row metadata
  | None => row
  end.

(** [json_to_csv]; [data] is what [json.load] returns, or the exception of
    opening or parsing the file.  [WriteCsv] is the call of [to_csv] on the
    frame of the rows; the call raises when the file cannot be opened. *)
Definition json_to_csv {F : FS} (data : outcome (list json_item))
  (output_path : string) : list event * bool :=
  match data with
  | Ok items =>
      match open_write output_path with
      | Ok _ =>
          ([WriteCsv output_path (map row_of_item items);
            Log ("Successfully converted JSON to CSV: " ++ output_path)], true)
      | Raise e =>
          ([WriteCsv output_path (map row_of_item items);
            Log ("Error converting JSON to CSV: " ++ exn_str e)], false)
      end
  | Raise e => ([Log ("Error converting JSON to CSV: " ++ exn_str e)], false)
  end.

End TextConverter.

(* ================================================================== *)
(** * scripts/qa_checker.py: the full check *)
(* ================================================================== *)

Module Checker.
Import QA.

Fixpoint starts_with_chars (s prefix : list ascii) : bool :=
  match prefix, s with
  | [], _ => true
  | p :: prefix', c :: s' => Ascii.eqb c p && starts_with_chars s' prefix'
  | _ :: _, [] => false
  end.

(** [s.endswith(suffix)] *)
Definition ends_with (s suffix : string) : bool :=
  starts_with_chars (rev (list_ascii_of_string s))
                    (rev (list_ascii_of_string suffix)).

(** What the validators read from their surroundings. *)
Record files (T : Type) : Type := {
  (** [json.load] of a COCO file *)
  read_coco : string -> outcome (coco_data T);
  (** [pd.read_csv(path).to_dict('records')] *)
  read_csv_records : string -> outcome (list record);
  (** [json.load] of a list of records *)
  read_json_records : string -> outcome (list record);
  (** the rows [pd.read_csv(path).iterrows()] yields *)
  read_csv_rows : string -> outcome (list record);
  (** [os.path.exists] *)
  path_exists : string -> bool
}.

Arguments read_coco {T} _ _.
Arguments read_csv_records {T} _ _.
Arguments read_json_records {T} _ _.
Arguments read_csv_rows {T} _ _.
Arguments path_exists {T} _ _.



(** An entry of [self.qa_results]. *)
Inductive report : Type :=
| ImageReport (r : Image.results)
| TextReport (r : Text.results)
| AudioReport (r : Audio.results).

Section Check.
Context {T : Type} {N : Num T} {L : Lib}.

(** [validate_image_annotations(path, images_dir)], the loading included. *)
Definition image_report (env : files T) (path images_dir : string)
  : Image.results :=
  match read_coco env path with
  | Ok d => Image.validate_image_annotations (path_exists env) d images_dir
  | Raise e =>
      Image.add_error ("Failed to validate image annotations: " ++ exn_str e)
                      Image.initial
  end.

(** Lines 146-154 of [validate_text_annotations]. *)
Definition text_source (env : files T) (path : string) : Text.source :=
  if ends_with path ".csv" then
    match read_csv_records env path with
    | Ok data => Text.Loaded data
    | Raise e => Text.LoadFailed e
    end
  else if ends_with path ".json" then
    match read_json_records env path with
    | Ok data => Text.Loaded data
    | Raise e => Text.LoadFailed e
    end
  else Text.Unsupported.

(** [validate_text_annotations(path)] *)
Definition text_report (env : files T) (path : string) : Text.results :=
  Text.validate_text_annotations (text_source env path).

(** [validate_audio_annotations(path, audio_dir)], the loading included. *)
Definition audio_report (env : files T) (path audio_dir : string)
  : Audio.results :=
  match read_csv_rows env path with
  | Ok rows => Audio.validate_audio_annotations (path_exists env) rows audio_dir
  | Raise e =>
      Audio.add_error ("Failed to validate audio annotations: " ++ exn_str e)
                      Audio.initial
  end.

(** [run_full_qa_check]: the calls of [self.log] and [self.qa_results]
    after the call, which is also the value returned.  [qa] is
    [self.qa_results] before the call. *)
Definition run_full_qa_check (env : files T) (config : pydict string string)
  (qa : pydict string report) : list string * pydict string report :=
  let log0 := ["Starting comprehensive QA check..."] in
  let (log1, qa1) :=
    match dict_get String.eqb config "image_annotations",
          dict_get String.eqb config "images_dir" with
    | Some path, Some dir =>
        ((log0 ++ ["Checking image annotations..."])%list,
         dict_set String.eqb qa "images" (ImageReport (image_report env path dir)))
    | _, _ => (log0, qa)
    end in
  let (log2, qa2) :=
    match dict_get String.eqb config "text_annotations" with
    | Some path =>
        ((log1 ++ ["Checking text annotations..."])%list,
         dict_set String.eqb qa1 "text" (TextReport (text_report env path)))
    | None => (log1, qa1)
    end in
  let (log3, qa3) :=
    match dict_get String.eqb config "audio_annotations",
          dict_get String.eqb config "audio_dir" with
    | Some path, Some dir =>
        ((log2 ++ ["Checking audio annotations..."])%list,
         dict_set String.eqb qa2 "audio" (AudioReport (audio_report env path dir)))
    | _, _ => (log2, qa2)
    end in
  ((log3 ++ ["QA check completed!"])%list, qa3).

End Check.

End Checker.

(* ================================================================== *)
(** * A runtime for concrete runs *)
(* ================================================================== *)

Module Run.

Definition dot : ascii := "."%char.

(** The characters before the last dot, when there is a dot. *)
Fixpoint before_last_dot (l : list ascii) : option (list ascii) :=
  match l with
  | [] => None
  | c :: r =>
      match before_last_dot r with
      | Some pre => Some (c :: pre)
      | None => if Ascii.eqb c dot then Some [] else None
      end
  end.

(** [PurePosixPath(p).stem] for a path that does not end in a slash: the
    last component without its suffix; a leading or a trailing dot starts no
    suffix. *)
Definition stem (p : string) : string :=
  let name := list_ascii_of_string (basename p) in
  match before_last_dot name with
  | Some (c :: pre) =>
      if (List.length (c :: pre) + 1 <? List.length name)%nat
      then string_of_list_ascii (c :: pre)
      else string_of_list_ascii name
  | _ => string_of_list_ascii name
  end.

Definition digit_value (c : ascii) : option Z :=
  let n := Z.of_nat (nat_of_ascii c) in
  if (48 <=? n) && (n <=? 57) then Some (n - 48) else None.

Fixpoint digits_value (acc : Z) (l : list ascii) : option Z :=
  match l with
  | [] => Some acc
  | c :: r =>
      match digit_value c with
      | Some d => digits_value (10 * acc + d) r
      | None => None
      end
  end.

(** [int(s)] on a non-empty string of decimal digits. *)
Definition int_of_digits (s : string) : option Z :=
  match list_ascii_of_string s with
  | [] => None
  | l => digits_value 0 l
  end.

Fixpoint split_at_dot (l : list ascii) : list ascii * option (list ascii) :=
  match l with
  | [] => ([], None)
  | c :: r =>
      if Ascii.eqb c dot then ([], Some r)
      else let (a, b) := split_at_dot r in (c :: a, b)
  end.

(** [float(s)] on [digits] or [digits.digits] with at most 15 digits in
    all: the quotient of two exactly representable integers, which one
    correctly rounded division gives. *)
Definition float_of_decimal (s : string) : option float :=
  let (ip, fp) := split_at_dot (list_ascii_of_string s) in
  let fp := match fp with Some f => f | None => [] end in
  match ip with
  | [] => None
  | _ =>
      if (15 <? List.length ip + List.length fp)%nat then None
      else
        match digits_value 0 (ip ++ fp)%list with
        | Some m => Some (PrimFloat.div (Z2float m)
                            (Z2float (10 ^ Z.of_nat (List.length fp))))
        | None => None
        end
  end.

(** [repr] of a float is applied, in the runs of this file, to [nan]
    only. *)
#[export] Instance lib : Lib := {|
  path_stem := stem;
  py_int := int_of_digits;
  float_repr := fun _ => "nan"
|}.

#[export] Instance float_parser : FloatParser float := {|
  py_float := float_of_decimal
|}.



(** A file system in which every path but the empty one can be created. *)
Definition create (path : string) : outcome unit :=
  if (path =? "")%string
  then Raise (OSError "[Errno 2] No such file or directory: ''")
  else Ok tt.

#[export] Instance fs : FS := {|
  makedirs := create;
  open_write := create
|}.

Definition img (id : Z) (name : string) (w h : Z) : image :=
  {| img_id := Some id; img_file_name := Some name;
     img_width := Some (Some w); img_height := Some (Some h) |}.

Definition cat (id : Z) (name : string) : category :=
  {| cat_id := Some id; cat_name := Some name; cat_supercategory := None |}.

Definition ann {T : Type} (id image_id category_id : Z) (bbox : list T)
  : annotation T :=
  {| ann_id := Some id; ann_image_id := Some image_id;
     ann_category_id := Some category_id; ann_bbox := Some bbox;
     ann_area := None; ann_iscrowd := None |}.

Definition fbox (x y w h : Z) : list float :=
  [Z2float x; Z2float y; Z2float w; Z2float h].

(** One [100 x 100] image with the box [(10, 20, 30, 40)]. *)
Definition one_box : coco_data float :=
  {| images := Some [img 1 "photos/a.jpg" 100 100];
     annotations := Some [ann 1 1 7 (fbox 10 20 30 40)];
     categories := Some [cat 7 "cat"] |}.

End Run.

(* ================================================================== *)
(** * Notions the properties are stated with *)
(* ================================================================== *)

Import Converter.

(** Dictionary-to-line transform followed by its inverse, same dimensions. *)
Definition round_trip {T : Type} {N : Num T} (b : bbox T) (W H : Z) : bbox T :=
  to_absolute_topleft (to_normalized_center b W H) W H.

(** [abs(a - b) <= eps] on floats. *)
Definition close (eps a b : float) : bool :=
  PrimFloat.leb (PrimFloat.abs (PrimFloat.sub a b)) eps.

(** Two boxes equal within [eps] in every component. *)
Definition within_tolerance (eps : float) (b b' : bbox float) : bool :=
  close eps (box_x b) (box_x b') && close eps (box_y b) (box_y b')
  && close eps (box_w b) (box_w b') && close eps (box_h b) (box_h b').

(** A box with integer entries, as floats. *)
Definition zbox (x y w h : Z) : bbox float :=
  Build_bbox (Z2float x) (Z2float y) (Z2float w) (Z2float h).

(** A dataset in which each missing top-level key holds an empty list. *)
Definition with_empty_defaults {T : Type} (d : coco_data T) : coco_data T :=
  {| images := Some (get_list (images d));
     annotations := Some (get_list (annotations d));
     categories := Some (get_list (categories d)) |}.

(** The same dataset with another list of images. *)
Definition with_images {T : Type} (d : coco_data T) (imgs : list image)
  : coco_data T :=
  {| images := Some imgs;
     annotations := annotations d;
     categories := categories d |}.

(** Datasets for concrete runs. *)
Module Data.
Import Run.

(** The box of [one_box] moved partly outside its image. *)
Definition outside : bbox float := zbox 90 (-50) 30 40.

(** [one_box] with that box in the place of its own. *)
Definition one_outside : coco_data float :=
  {| images := images one_box;
     annotations := Some [ann 1 1 7 (fbox 90 (-50) 30 40)];
     categories := categories one_box |}.

(** A box some ten billion pixels wide, in an image 2269 pixels wide. *)
Definition huge : bbox float := zbox 8061766893 0 9662837839 1.

(** [one_box] without its ["categories"] key. *)
Definition no_categories : coco_data float :=
  {| images := images one_box;
     annotations := annotations one_box;
     categories := None |}.

(** A dataset with none of the three keys. *)
Definition no_keys : coco_data float :=
  {| images := None; annotations := None; categories := None |}.

End Data.

(** [e] put somewhere into [t'] gives [t]. *)
Definition inserted {A : Type} (e : A) (t' t : list A) : Prop :=
  exists t1 t2, t' = (t1 ++ t2)%list /\ t = (t1 ++ e :: t2)%list.

(** Line 78 holds for a resolved dimension that is [None] or [0]. *)
Definition dimension_missing (v : option Z) : bool :=
  match v with
  | None => true
  | Some z => z =? 0
  end.

Module Data4.
Import Run.

(** An image of width [-100] with one box. *)
Definition negative_width : coco_data float :=
  {| images := Some [img 1 "a.jpg" (-100) 100];
     annotations := Some [ann 1 1 7 (fbox 10 20 30 40)];
     categories := Some [cat 7 "cat"] |}.

(** An image record without ["width"] and ["height"]. *)
Definition no_dims (id : Z) (name : string) : image :=
  {| img_id := Some id; img_file_name := Some name;
     img_width := None; img_height := None |}.

(** Three images with one box each; the second has no dimensions. *)
Definition middle_unsized : coco_data float :=
  {| images := Some [img 1 "a.jpg" 100 100; no_dims 2 "b.jpg"; img 3 "c.jpg" 50 50];
     annotations := Some [ann 1 1 7 (fbox 10 20 30 40);
                          ann 2 2 7 (fbox 1 2 3 4);
                          ann 3 3 7 (fbox 10 20 30 20)];
     categories := Some [cat 7 "cat"] |}.

End Data4.

Module Data10.
Import Run.

(** A dataset with a category named ["unknown"] and a box whose
    [category_id] is not listed. *)
Definition named_unknown : coco_data float :=
  {| images := Some [img 1 "a.jpg" 100 100];
     annotations := Some [ann 1 1 99 (fbox 10 20 30 40)];
     categories := Some [cat 1 "cat"; cat 2 "unknown"] |}.

(** A box whose [category_id] is not listed, two ordinary categories. *)
Definition unlisted : coco_data float :=
  {| images := Some [img 1 "a.jpg" 100 100];
     annotations := Some [ann 1 1 99 (fbox 10 20 30 40)];
     categories := Some [cat 7 "cat"; cat 8 "dog"] |}.

End Data10.

Module Data9.
Import Run.

Definition only_jpg (stems : list string) (path : string) : bool :=
  existsb (fun s => (path =? "imgs/" ++ s ++ ".jpg")%string) stems.


(** Two classes and two label files with lines of classes 1 and 0. *)
Definition two_files : yolo_input :=
  {| classes_file := Some (Ok ["cat "; "dog"]);
     sidecar_classes := None;
     txt_files := [ {| txt_name := "p.txt";
                       txt_lines := ["1 0.5 0.5 0.5 0.5"; ""; "0 0.25 0.25 0.5 0.5"];
                       txt_error := None |};
                    {| txt_name := "lost.txt"; txt_lines := ["0 0.5 0.5 1 1"];
                       txt_error := None |};
                    {| txt_name := "q.txt"; txt_lines := ["0 0.5 0.5 1 1"; "1 2 3"];
                       txt_error := None |} ];
     file_exists := only_jpg ["p"; "q"];
     image_size := Some (fun _ => Ok (200, 100)) |}.

(** What [yolo_to_coco] makes of [two_files]. *)
Definition two_files_output : coco_data float :=
  {| images := Some [ {| img_id := Some 0; img_file_name := Some "p.jpg";
                         img_width := Some (Some 200);
                         img_height := Some (Some 100) |};
                      {| img_id := Some 1; img_file_name := Some "q.jpg";
                         img_width := Some (Some 200);
                         img_height := Some (Some 100) |} ];
     annotations :=
       Some [ {| ann_id := Some 1; ann_image_id := Some 0;
                 ann_category_id := Some 1;
                 ann_bbox := Some [50%float; 25%float; 100%float; 50%float];
                 ann_area := Some 5000%float; ann_iscrowd := Some 0 |};
              {| ann_id := Some 2; ann_image_id := Some 0;
                 ann_category_id := Some 0;
                 ann_bbox := Some [0%float; 0%float; 100%float; 50%float];
                 ann_area := Some 5000%float; ann_iscrowd := Some 0 |};
              {| ann_id := Some 3; ann_image_id := Some 1;
                 ann_category_id := Some 0;
                 ann_bbox := Some [0%float; 0%float; 200%float; 100%float];
                 ann_area := Some 20000%float; ann_iscrowd := Some 0 |} ];
     categories :=
       Some [ {| cat_id := Some 0; cat_name := Some "cat";
                 cat_supercategory := Some "object" |};
              {| cat_id := Some 1; cat_name := Some "dog";
                 cat_supercategory := Some "object" |} ] |}.

End Data9.


Module DataQA.
Import Run QA.

Definition all_exist (path : string) : bool := true.

(** Annotation 1 has no ["bbox"]; annotation 2 is complete. *)
Definition first_without_bbox : coco_data float :=
  {| images := Some [img 1 "a.jpg" 100 100];
     annotations :=
       Some [ {| ann_id := Some 1; ann_image_id := Some 1;
                 ann_category_id := Some 7; ann_bbox := None;
                 ann_area := None; ann_iscrowd := None |};
              ann 2 1 7 (fbox 0 0 10 10) ];
     categories := Some [cat 7 "cat"] |}.

(** The complete annotation alone. *)
Definition only_complete : coco_data float :=
  {| images := Some [img 1 "a.jpg" 100 100];
     annotations := Some [ann 2 1 7 (fbox 0 0 10 10)];
     categories := Some [cat 7 "cat"] |}.

(** [na] boxes of class ["A"] and [nb] boxes of class ["B"]. *)
Definition two_classes (na nb : nat) : coco_data float :=
  {| images := Some [img 1 "a.jpg" 100 100];
     annotations :=
       Some (repeat (ann 1 1 1 (fbox 0 0 10 10)) na
             ++ repeat (ann 2 1 2 (fbox 0 0 10 10)) nb)%list;
     categories := Some [cat 1 "A"; cat 2 "B"] |}.

Definition sample (text label : string) : record :=
  [("text", VStr text); ("label", VStr label)].






(** Four texts of lengths 1, 2, 3 and 4. *)
Definition four_texts : list record :=
  [sample "dddd" "x"; sample "a" "x"; sample "ccc" "y"; sample "bb" "y"].

Definition clip (file transcription : string) : record :=
  [("audio_file", VStr file); ("transcription", VStr transcription)].

(** Four transcriptions of lengths 1, 2, 3 and 4. *)
Definition four_clips : list record :=
  [clip "1.wav" "dddd"; clip "2.wav" "a"; clip "3.wav" "ccc"; clip "4.wav" "bb"].

End DataQA.

(** How many elements of [l] satisfy [f]. *)
Definition count_if {A : Type} (f : A -> bool) (l : list A) : Z :=
  Z.of_nat (List.length (filter f l)).

(** The text of a record is missing: the key is absent or holds a falsy
    value such as the empty string. *)
Definition text_missing (item : QA.record) : bool :=
  negb (QA.truthy (QA.Text.text_of item)).

(** The text of a record is blank: a non-empty string of white space. *)
Definition text_blank (item : QA.record) : bool :=
  QA.truthy (QA.Text.text_of item) && QA.blank_str (QA.Text.text_of item).

Definition label_missing (item : QA.record) : bool :=
  negb (QA.truthy (QA.Text.label_of item)).

(** The lengths the text validator collects, in order. *)
Definition text_lengths_of {L : Lib} (data : list QA.record) : list Z :=
  flat_map (fun item =>
              if text_missing item || text_blank item then []
              else [Z.of_nat (String.length (QA.py_str (QA.Text.text_of item)))])
           data.

(** [row.get('transcription', '')] *)
Definition transcription_of (row : QA.record) : QA.pyval :=
  dict_get_default String.eqb row "transcription" (QA.VStr "").

(** The lengths the audio validator collects, in order. *)
Definition transcription_lengths_of {L : Lib} (rows : list QA.record) : list Z :=
  flat_map (fun row =>
              if negb (QA.truthy (transcription_of row))
                 || QA.blank_str (transcription_of row) then []
              else [Z.of_nat (String.length (QA.py_str (transcription_of row)))])
           rows.

(** Two runs that differ by one extra event [e] of the first, which is there
    unless both runs raise before reaching it. *)
Definition differ_by {T A : Type} (e : event T) (m m' : W T A) : Prop :=
  snd m = snd m'
  /\ ((fst m = fst m' /\ exists err, snd m' = Raise err)
      \/ inserted e (fst m') (fst m)).

(** A step that keeps [P] of the state, whether it returns or raises. *)
Definition keeps {S : Type} (P : S -> Prop) {A : Type} (m : QA.St S A) : Prop :=
  forall s, P s -> P (snd (m s)).

(** Neither the distribution nor a warning is there yet. *)
Definition untouched (r : QA.Image.results) : Prop :=
  QA.Image.class_distribution r = [] /\ QA.Image.warnings r = [].

(** The warnings are those the class distribution calls for. *)
Definition warned_as_due (r : QA.Image.results) : Prop :=
  QA.Image.warnings r = QA.Image.imbalance_warning (QA.Image.class_distribution r).

Definition bool_to_Z (b : bool) : Z := if b then 1 else 0.

(** ** Binary64 values read as rationals *)

(** Powers of two as rationals. *)
Definition pow2 (z : Z) : Q := Qpower 2 z.

(** The rounding step of [shr]: a record [(m, r, s)] stands for a rational
    [V]: twice [V] is [2m + r] when [s] is off and lies strictly between
    [2m + r] and [2m + r + 1] when [s] is on. *)
Definition half_units (r : shr_record) : Z :=
  2 * shr_m r + (if shr_r r then 1 else 0).

Definition represents (r : shr_record) (V : Q) : Prop :=
  0 <= shr_m r
  /\ if shr_s r
     then (inject_Z (half_units r) < 2 * V /\ 2 * V < inject_Z (half_units r) + 1)%Q
     else (2 * V == inject_Z (half_units r))%Q.

(** The exponent binary64 gives a value of [e] binary digits. *)
Definition fexp64 (e : Z) : Z := Z.max (e - 53) (-1074).

Definition sgn (s : bool) : Q := if s then (-1)%Q else 1%Q.

(** The rational a finite binary64 value stands for (0 for the others). *)
Definition SF2Q (x : spec_float) : Q :=
  match x with
  | S754_finite s m e => (sgn s * (inject_Z (Z.pos m) * pow2 e))%Q
  | _ => 0%Q
  end.

Definition sfinite (x : spec_float) : bool :=
  match x with
  | S754_finite _ _ _ | S754_zero _ => true
  | _ => false
  end.

(** [r] is finite and within the rounding error of the exact value [x]. *)
Definition rounds_to (r : spec_float) (x : Q) : Prop :=
  sfinite r = true
  /\ (Qabs (SF2Q r - x) <= pow2 (-51) * Qabs x + pow2 (-1073))%Q.

(** The rational a float stands for, and whether it is finite. *)
Definition F2Q (x : float) : Q := SF2Q (Prim2SF x).
Definition ffinite (x : float) : bool := sfinite (Prim2SF x).

(** [r] is finite and within the rounding error of [q]. *)
Definition frounds (r : float) (q : Q) : Prop := rounds_to (Prim2SF r) q.

(** The absolute term of the rounding error. *)
Definition eta : Q := pow2 (-1073).

(** [r] is finite and within [K] of the ideal value [t]. *)
Definition near (r : float) (t K : Q) : Prop :=
  ffinite r = true /\ (Qabs (F2Q r - t) <= K)%Q.

(** The coordinates up to which the round trip stays within the tolerance,
    the tolerance, and the float [2] of [bbox[2] / 2]. *)
Definition coordinate_bound : float := 100000000%float.
Definition tolerance : float := 1e-6%float.
Definition two : float := Z2float 2.

(** Every coordinate of the box is a number of magnitude at most [c]. *)
Definition coordinates_within (c : float) (b : bbox float) : bool :=
  PrimFloat.leb (PrimFloat.abs (box_x b)) c
  && PrimFloat.leb (PrimFloat.abs (box_y b)) c
  && PrimFloat.leb (PrimFloat.abs (box_w b)) c
  && PrimFloat.leb (PrimFloat.abs (box_h b)) c.

(** ** Notions for the further properties *)

(** The label file [f] has an image next to it. *)
Definition has_image {L : Lib} (inp : yolo_input) (images_dir : string)
  (f : txt_file) : bool :=
  match find_image inp images_dir (path_stem (txt_name f)) with
  | Some _ => true
  | None => false
  end.

(** The files [yolo_to_coco] turns into images: every [*.txt] file other
    than [classes.txt] that has an image, in the order of the listing. *)
Definition label_files {L : Lib} (inp : yolo_input) (images_dir : string)
  : list txt_file :=
  filter (fun f => negb (txt_name f =? "classes.txt")%string
                   && has_image inp images_dir f)
         (txt_files inp).

(** A line that becomes an annotation: not blank, at least five fields. *)
Definition annotation_line (line : string) : bool :=
  negb (strip line =? "")%string
  && (5 <=? List.length (split (strip line)))%nat.

(** The [k]-th field of a line, and the integer [int] reads at its head. *)
Definition field (k : nat) (line : string) : string :=
  nth k (split (strip line)) "".


(** How many annotations the lines of the files [fs] stand for. *)
Definition annotation_lines (fs : list txt_file) : nat :=
  List.length (filter annotation_line (flat_map txt_lines fs)).

(** The ids [i], [i + 1], ..., [i + n - 1], as the values of a key. *)
Definition ids_from (i : Z) (n : nat) : list (option Z) :=
  map (fun k => Some (i + Z.of_nat k)) (seq 0 n).

(** The image entry's file name for the label file [f]. *)
Definition image_name_of {L : Lib} (inp : yolo_input) (images_dir : string)
  (f : txt_file) : option string :=
  option_map basename (find_image inp images_dir (path_stem (txt_name f))).

(** An image entry of the default size. *)
Definition default_size (im : image) : Prop :=
  img_width im = Some (Some 640) /\ img_height im = Some (Some 480).

(** The image has usable dimensions (line 78 does not skip it). *)
Definition sized (dw dh : option Z) (im : image) : bool :=
  match usable_dims (resolve_dim (img_width im) dw)
                    (resolve_dim (img_height im) dh) with
  | Some _ => true
  | None => false
  end.

(** The label file of an image: [output_dir/<stem of file_name>.txt]. *)
Definition label_path {L : Lib} (out : string) (im : image) : string :=
  path_join out
    (path_stem (match img_file_name im with Some n => n | None => "" end)
     ++ ".txt").

(** The annotations whose [image_id] is the [id] of [im], in order. *)
Definition annotations_of {T : Type} (anns : list (annotation T)) (im : image)
  : list (annotation T) :=
  filter (fun a => match ann_image_id a, img_id im with
                   | Some i, Some j => i =? j
                   | _, _ => false
                   end) anns.

(** [w] is the label file of [im]: its path, and one line per annotation
    of the image. *)
Definition label_write {T : Type} {L : Lib} (out : string)
  (anns : list (annotation T)) (im : image) (w : string * file_content T)
  : Prop :=
  fst w = label_path out im
  /\ exists lines, snd w = LabelFile lines
                   /\ List.length lines = List.length (annotations_of anns im).

(** [w] is the label file of [im] and holds, in order, the lines into which
    the annotations of [im] convert under the registries [cats] and
    [c2i]. *)
Definition label_lines {T : Type} {N : Num T} {L : Lib} (out : string)
  (cats : pydict Z string) (c2i : pydict string Z) (dw dh : option Z)
  (anns : list (annotation T)) (im : image) (w : string * file_content T)
  : Prop :=
  fst w = label_path out im
  /\ exists W H lines,
       usable_dims (resolve_dim (img_width im) dw)
                   (resolve_dim (img_height im) dh) = Some (W, H)
       /\ snd w = LabelFile lines
       /\ Forall2 (fun a line => convert_annotation cats c2i W H a = Ok line)
                  (annotations_of anns im) lines.

(** The values of [line] are those of the formulas of lines 90-93 on the
    first four entries of the box of [a] and the dimensions [W] and [H]. *)
Definition formula_line {T : Type} {N : Num T} (W H : Z) (a : annotation T)
  (line : yolo_line T) : Prop :=
  forall (x y w h : T) (rest : list T),
    ann_bbox a = Some (x :: y :: w :: h :: rest) ->
    geom line
    = Build_center_box
        (num_div (num_add x (num_div w (num_of_Z 2))) (num_of_Z W))
        (num_div (num_add y (num_div h (num_of_Z 2))) (num_of_Z H))
        (num_div w (num_of_Z W))
        (num_div h (num_of_Z H)).

(** [w] holds one line per annotation of [im], each with the values of the
    formulas on the dimensions of [im]. *)
Definition formula_file {T : Type} {N : Num T} (dw dh : option Z)
  (anns : list (annotation T)) (im : image) (w : string * file_content T)
  : Prop :=
  exists W H lines,
    usable_dims (resolve_dim (img_width im) dw)
                (resolve_dim (img_height im) dh) = Some (W, H)
    /\ snd w = LabelFile lines
    /\ Forall2 (formula_line W H) (annotations_of anns im) lines.

(** The class index of [line] is the position, in the list [cl], of the
    category of the annotation [a]. *)
Definition indexed_line {T : Type} (cl : list category) (a : annotation T)
  (line : yolo_line T) : Prop :=
  forall (k : nat) (cat : category),
    nth_error cl k = Some cat -> ann_category_id a = cat_id cat ->
    class_id line = Z.of_nat k.

(** [w] holds one line per annotation of [im], each with the position of
    the annotation's category as class index. *)
Definition indexed_file {T : Type} (cl : list category)
  (anns : list (annotation T)) (im : image) (w : string * file_content T)
  : Prop :=
  exists lines, snd w = LabelFile lines
                /\ Forall2 (indexed_line cl) (annotations_of anns im) lines.

(** The event writes a list of class names. *)
Definition is_classes_write {T : Type} (e : event T) : bool :=
  match e with
  | WriteFile _ (ClassesFile _) => true
  | _ => false
  end.

(** The record lacks a key that line 59 or line 65 subscripts. *)
Definition category_malformed (c : category) : bool :=
  match cat_id c, cat_name c with
  | Some _, Some _ => false
  | _, _ => true
  end.

Definition image_id_missing {T : Type} (a : annotation T) : bool :=
  match ann_image_id a with
  | Some _ => false
  | None => true
  end.

(** [sum(l)] *)
Definition total (l : list Z) : Z := fold_left Z.add l 0.

(** The file names of the image entries that have one. *)
Definition file_names (imgs : list image) : list string :=
  flat_map (fun im => match img_file_name im with
                      | Some n => [n]
                      | None => []
                      end) imgs.

(** The entry lacks a key that line 77 subscripts. *)
Definition image_malformed (im : image) : bool :=
  match img_id im, img_file_name im with
  | Some _, Some _ => false
  | _, _ => true
  end.

(** The name an annotation is counted under (line 106). *)
Definition counted_as {T : Type} (names : pydict Z string) (a : annotation T)
  : string :=
  match ann_category_id a with
  | Some c => dict_get_default Z.eqb names c "unknown"
  | None => "unknown"
  end.

(** The three entries of the image report that are settled before the
    annotations are looked at. *)
Definition settled (r : QA.Image.results) : Z * Z * list string :=
  (QA.Image.total_images r, QA.Image.total_annotations r,
   QA.Image.missing_images r).

(** The files among [names] that [file_exists] does not find in [dir]. *)
Definition not_found (file_exists : string -> bool) (dir : string)
  (names : list string) : list string :=
  filter (fun n => negb (file_exists (path_join dir n))) names.

(** [any(val < 0 for val in bbox)] on floats. *)
Definition any_negative (bbox : list float) : bool :=
  existsb (fun val => PrimFloat.ltb val 0%float) bbox.

(** The entry of [invalid_bboxes] for annotation [id]. *)
Definition bbox_message (id : Z) (what : string) : string :=
  "Annotation " ++ string_of_Z id ++ ": " ++ what.

(** The labels the text validator counts, as it prints them, in order. *)
Definition counted_labels {L : Lib} (data : list QA.record) : list string :=
  flat_map (fun item => if label_missing item then []
                        else [QA.py_str (QA.Text.label_of item)]) data.

(** [row.get('audio_file', '')] *)
Definition audio_file_of (row : QA.record) : QA.pyval :=
  dict_get_default String.eqb row "audio_file" (QA.VStr "").

(** A truthy value that is no string: [os.path.join] raises on it. A cell
    left empty in the CSV file is read as such a value, NaN. *)
Definition unjoinable (v : QA.pyval) : bool :=
  QA.truthy v && match v with QA.VStr _ => false | _ => true end.

(** The transcription is absent, falsy or blank. *)
Definition transcription_missing (row : QA.record) : bool :=
  negb (QA.truthy (transcription_of row)) || QA.blank_str (transcription_of row).

(** The audio files the rows name, in order. *)
Definition audio_names (rows : list QA.record) : list string :=
  flat_map (fun row => match audio_file_of row with
                       | QA.VStr n => if (n =? "")%string then [] else [n]
                       | _ => []
                       end) rows.

(** The state after a row whose audio file can be looked up. *)
Definition after_row (fe : string -> bool) (dir : string) (row : QA.record)
  (s : QA.Audio.results) : QA.Audio.results :=
  let s1 := fold_left (fun s n => QA.Audio.add_missing_audio n s)
                      (not_found fe dir (audio_names [row])) s in
  if transcription_missing row then QA.Audio.incr_missing_transcriptions s1 else s1.

(** The row has both the text and the label column. *)
Definition has_columns (text_column label_column : string) (row : QA.record)
  : bool :=
  dict_mem String.eqb row text_column && dict_mem String.eqb row label_column.

(** Two rows with the same cell under every column name. *)
Definition same_cells (row row' : QA.record) : Prop :=
  forall k, dict_get String.eqb row' k = dict_get String.eqb row k.

(** The item holds the cells of the row: text and label under their keys,
    every other column, and nothing else, under ["metadata"]. *)
Definition holds_row (text_column label_column : string) (row : QA.record)
  (item : TextConverter.json_item) : Prop :=
  TextConverter.item_text item = dict_get String.eqb row text_column
  /\ TextConverter.item_label item = dict_get String.eqb row label_column
  /\ exists metadata,
       TextConverter.item_metadata item = Some metadata
       /\ forall k,
            dict_get String.eqb metadata k
            = if TextConverter.other_column text_column label_column k
              then dict_get String.eqb row k else None.

(** The cells of a row that go into the JSON document: the text, the
    label and every other column. *)
Definition dumped_cells (text_column label_column : string) (row : QA.record)
  : list QA.pyval :=
  (match dict_get String.eqb row text_column with Some v => [v] | None => [] end
   ++ match dict_get String.eqb row label_column with Some v => [v] | None => [] end
   ++ map snd (filter (fun kv => TextConverter.other_column text_column
                                   label_column (fst kv)) row))%list.

(** [json.dump] accepts every cell of the row that goes into the
    document. *)
Definition dumpable (text_column label_column : string) (row : QA.record)
  : bool :=
  forallb TextConverter.serializable (dumped_cells text_column label_column row).

(** The files a trace touches: what is handed to [json.dump] or [to_csv],
    and what a failed [json.dump] leaves. *)
Definition text_writes (t : list TextConverter.event)
  : list TextConverter.event :=
  filter (fun e => match e with TextConverter.Log _ => false | _ => true end) t.

(** The inverse transform followed by the forward transform. *)
Definition line_round_trip {T : Type} {N : Num T} (c : center_box T) (W H : Z)
  : center_box T :=
  to_normalized_center (to_absolute_topleft c W H) W H.

(** The box lies inside an image of [W x H] pixels. *)
Definition inside_image (b : bbox Qc) (W H : Z) : Prop :=
  (0 <= box_x b)%Qc /\ (0 <= box_y b)%Qc
  /\ (0 <= box_w b)%Qc /\ (0 <= box_h b)%Qc
  /\ (box_x b + box_w b <= Qc_of_Z W)%Qc
  /\ (box_y b + box_h b <= Qc_of_Z H)%Qc.

Definition in_unit_interval (q : Qc) : Prop := (0 <= q)%Qc /\ (q <= 1)%Qc.

(** The box with every entry multiplied by [k]. *)
Definition scaled (k : Z) (b : bbox Qc) : bbox Qc :=
  Build_bbox (Qc_of_Z k * box_x b)%Qc (Qc_of_Z k * box_y b)%Qc
             (Qc_of_Z k * box_w b)%Qc (Qc_of_Z k * box_h b)%Qc.

(** The annotation has the four fields the validator requires. *)
Definition has_required_fields {T : Type} (a : annotation T) : bool :=
  match ann_id a, ann_image_id a, ann_category_id a, ann_bbox a with
  | Some _, Some _, Some _, Some _ => true
  | _, _, _, _ => false
  end.

(** The dataset has its three keys, and every record the keys the image
    validator subscripts. *)
Definition well_formed {T : Type} (d : coco_data T) : bool :=
  match images d, annotations d, categories d with
  | Some imgs, Some anns, Some cats =>
      forallb (fun im => negb (image_malformed im)) imgs
      && forallb (fun c => negb (category_malformed c)) cats
      && forallb has_required_fields anns
  | _, _, _ => false
  end.

(** The annotation has what [coco_to_yolo] subscripts: an image, a
    category, and a box of at least four entries. *)
Definition convertible {T : Type} (a : annotation T) : bool :=
  match ann_image_id a, ann_category_id a, ann_bbox a with
  | Some _, Some _, Some l => (4 <=? List.length l)%nat
  | _, _, _ => false
  end.

(** Every record of the dataset has what [coco_to_yolo] subscripts. *)
Definition convertible_dataset {T : Type} (d : coco_data T) : bool :=
  forallb (fun im => negb (image_malformed im)) (get_list (images d))
  && forallb (fun c => negb (category_malformed c)) (get_list (categories d))
  && forallb convertible (get_list (annotations d)).

Definition is_nil {A : Type} (l : list A) : bool :=
  match l with
  | [] => true
  | _ :: _ => false
  end.

(** What [yolo_to_coco] keeps true of the lists it builds: every annotation
    has the required fields and a box of four entries, every image entry its
    [id] and [file_name]. *)
Definition sound {T : Type} (a : acc (T := T)) : Prop :=
  forallb (fun x => has_required_fields x && convertible x) (acc_annotations a)
  = true
  /\ existsb image_malformed (acc_images a) = false.

(** Every value of the line is a number of magnitude at most [c]. *)
Definition line_within (c : float) (l : center_box float) : bool :=
  PrimFloat.leb (PrimFloat.abs (x_center l)) c
  && PrimFloat.leb (PrimFloat.abs (y_center l)) c
  && PrimFloat.leb (PrimFloat.abs (norm_width l)) c
  && PrimFloat.leb (PrimFloat.abs (norm_height l)) c.

(** Two lines equal within [eps] in every value. *)
Definition lines_within_tolerance (eps : float) (l l' : center_box float) : bool :=
  close eps (x_center l) (x_center l') && close eps (y_center l) (y_center l')
  && close eps (norm_width l) (norm_width l')
  && close eps (norm_height l) (norm_height l').

(** The annotation has what lines 85-93 subscript: a category and a box of
    at least four entries. *)
Definition line_ready {T : Type} (a : annotation T) : bool :=
  match ann_bbox a, ann_category_id a with
  | Some l, Some _ => (4 <=? List.length l)%nat
  | _, _ => false
  end.

(** The image entry has its [id] and [file_name] and, if it has usable
    dimensions, annotations that are all ready. *)
Definition image_ready {T : Type} (dw dh : option Z)
  (anns : list (annotation T)) (im : image) : bool :=
  negb (image_malformed im)
  && (negb (sized dw dh im) || forallb line_ready (annotations_of anns im)).

(** The dataset has every key the conversion subscripts on its way. *)
Definition ready {T : Type} (dw dh : option Z) (d : coco_data T) : bool :=
  negb (existsb category_malformed (get_list (categories d)))
  && negb (existsb image_id_missing (get_list (annotations d)))
  && forallb (image_ready dw dh (get_list (annotations d))) (get_list (images d)).

(** The label file of the image can be opened, if the image gets one. *)
Definition label_writable {L : Lib} {F : FS} (out : string) (dw dh : option Z)
  (im : image) : bool :=
  negb (sized dw dh im) || is_ok (open_write (label_path out im)).

(** The output directory, the label files of the images and the class list
    can be created. *)
Definition writable {L : Lib} {F : FS} (out : string) (dw dh : option Z)
  (imgs : list image) : bool :=
  is_ok (makedirs out)
  && forallb (label_writable out dw dh) imgs
  && is_ok (open_write (path_join out "classes.txt")).

Definition is_some {A : Type} (o : option A) : bool :=
  match o with
  | Some _ => true
  | None => false
  end.

(** A line that stands for an annotation starts with what [int] accepts,
    followed by four fields that [float] accepts.  Other lines need
    nothing. *)
Definition line_parses {T : Type} {L : Lib} {P : FloatParser T} (line : string)
  : bool :=
  negb (annotation_line line)
  || (is_some (py_int (field 0 line))
      && is_some (py_float (T := T) (field 1 line))
      && is_some (py_float (T := T) (field 2 line))
      && is_some (py_float (T := T) (field 3 line))
      && is_some (py_float (T := T) (field 4 line))).

(** The size of the label file's image can be read (or [PIL] is not there
    and the default is used). *)
Definition size_readable {L : Lib} (inp : yolo_input) (images_dir : string)
  (f : txt_file) : bool :=
  match find_image inp images_dir (path_stem (txt_name f)), image_size inp with
  | Some p, Some size => is_ok (size p)
  | _, _ => true
  end.

(** The label file was read to its end. *)
Definition lines_read (f : txt_file) : bool :=
  match txt_error f with
  | None => true
  | Some _ => false
  end.

(** The class names could be read, from [classes_file], from
    [yolo_dir/classes.txt], or neither exists. *)
Definition classes_readable (inp : yolo_input) : bool :=
  match classes_file inp with
  | Some read => is_ok read
  | None =>
      match sidecar_classes inp with
      | Some read => is_ok read
      | None => true
      end
  end.

(** Data for concrete runs of the properties below. *)
Module DataExtra.
Import Run QA.

(** [Data9.two_files] where [PIL] cannot be imported. *)
Definition without_pil : yolo_input :=
  {| classes_file := classes_file Data9.two_files;
     sidecar_classes := sidecar_classes Data9.two_files;
     txt_files := txt_files Data9.two_files;
     file_exists := file_exists Data9.two_files;
     image_size := None |}.

(** What [yolo_to_coco] makes of [without_pil]. *)
Definition without_pil_output : coco_data float :=
  {| images := Some [ {| img_id := Some 0; img_file_name := Some "p.jpg";
                         img_width := Some (Some 640);
                         img_height := Some (Some 480) |};
                      {| img_id := Some 1; img_file_name := Some "q.jpg";
                         img_width := Some (Some 640);
                         img_height := Some (Some 480) |} ];
     annotations :=
       Some [ {| ann_id := Some 1; ann_image_id := Some 0;
                 ann_category_id := Some 1;
                 ann_bbox := Some [160%float; 120%float; 320%float; 240%float];
                 ann_area := Some 76800%float; ann_iscrowd := Some 0 |};
              {| ann_id := Some 2; ann_image_id := Some 0;
                 ann_category_id := Some 0;
                 ann_bbox := Some [0%float; 0%float; 320%float; 240%float];
                 ann_area := Some 76800%float; ann_iscrowd := Some 0 |};
              {| ann_id := Some 3; ann_image_id := Some 1;
                 ann_category_id := Some 0;
                 ann_bbox := Some [0%float; 0%float; 640%float; 480%float];
                 ann_area := Some 307200%float; ann_iscrowd := Some 0 |} ];
     categories :=
       Some [ {| cat_id := Some 0; cat_name := Some "cat";
                 cat_supercategory := Some "object" |};
              {| cat_id := Some 1; cat_name := Some "dog";
                 cat_supercategory := Some "object" |} ] |}.

(** Two categories and a box of each, the second category first. *)
Definition two_categories : coco_data float :=
  {| images := Some [img 1 "a.jpg" 100 100];
     annotations := Some [ann 1 1 8 (fbox 10 20 30 40);
                          ann 2 1 7 (fbox 50 50 20 20)];
     categories := Some [cat 7 "cat"; cat 8 "dog"] |}.

(** A frame of two integer columns, as [iterrows] yields it. *)
Definition integer_frame : list record :=
  [ [("text", VNumpyInt 1); ("label", VNumpyInt 0)];
    [("text", VNumpyInt 2); ("label", VNumpyInt 1)] ].

(** Two boxes on one image; the second has no ["image_id"]. *)
Definition stray_annotation : coco_data float :=
  {| images := Some [img 1 "a.jpg" 100 100];
     annotations :=
       Some [ ann 1 1 7 (fbox 10 20 30 40);
              {| ann_id := Some 2; ann_image_id := None;
                 ann_category_id := Some 7; ann_bbox := Some (fbox 1 2 3 4);
                 ann_area := None; ann_iscrowd := None |} ];
     categories := Some [cat 7 "cat"] |}.

(** A box of negative width. *)
Definition negative_size : annotation float := ann 5 1 7 (fbox 10 20 (-30) 40).

(** Three clips; the second row has an empty [audio_file] cell, read as
    NaN. *)
Definition empty_cell : record :=
  [("audio_file", VFloat nan); ("transcription", VStr "lost")].

Definition clips_before : list record :=
  [DataQA.clip "1.wav" "hello"; DataQA.clip "gone.wav" "  "].

Definition clips_after : list record := [DataQA.clip "3.wav" "x"].

Definition none_exist (path : string) : bool := false.

(** Rows with a third column. *)
Definition reviews : list record :=
  [ [("text", VStr "good"); ("label", VStr "pos"); ("source", VStr "web")];
    [("source", VStr "mail"); ("label", VStr "neg"); ("text", VStr "bad")] ].

(** An item whose metadata has an entry named ["text"]. *)
Definition shadowed : TextConverter.json_item :=
  {| TextConverter.item_text := Some (VStr "the sentence");
     TextConverter.item_label := Some (VStr "pos");
     TextConverter.item_metadata := Some [("text", VStr "another column")] |}.

Definition qbox (x y w h : Z) : bbox Qc :=
  Build_bbox (Qc_of_Z x) (Qc_of_Z y) (Qc_of_Z w) (Qc_of_Z h).

End DataExtra.

(* ================================================================== *)
(** * Properties of the coordinate transforms *)
(* ================================================================== *)

Section RoundTripFacts.
Import Run Data.

Lemma Qc_of_Z_nonzero (z : Z) : z <> 0 -> Qc_of_Z z <> Q2Qc 0.
Proof.
  intros Hz E. apply Hz. unfold Qc_of_Z in E.
  apply Q2Qc_eq_iff in E. unfold Qeq in E. simpl in E. lia.
Qed.

(** Over exact rational arithmetic the inverse transform undoes the forward
    transform, whatever the box, for non-zero dimensions. *)
Lemma round_trip_exact_Qc (b : bbox Qc) (W H : Z) :
  W <> 0 -> H <> 0 -> round_trip b W H = b.
Proof.
  intros HW HH. destruct b as [x y w h].
  unfold round_trip, to_absolute_topleft, to_normalized_center; simpl.
  pose proof (Qc_of_Z_nonzero W HW) as HW'.
  pose proof (Qc_of_Z_nonzero H HH) as HH'.
  assert (H2 : Qc_of_Z 2 <> Q2Qc 0) by (apply Qc_of_Z_nonzero; lia).
  f_equal; field; auto.
Qed.

(** C1, as stated, fails in binary64: the box [(8061766893, 0, 9662837839, 1)]
    has positive width and height, the image is [2269 x 1], and the round
    trip returns [x = 8061766892.999997], off by about [2.9e-6]. *)
Lemma round_trip_huge_box_outside_tolerance :
  PrimFloat.ltb 0%float (box_w huge) = true
  /\ PrimFloat.ltb 0%float (box_h huge) = true
  /\ box_x (round_trip huge 2269 1) = 8061766892.999997%float
  /\ within_tolerance 1e-6%float huge (round_trip huge 2269 1) = false.
Proof.
  repeat split; vm_compute; reflexivity.
Qed.

End RoundTripFacts.

(* ================================================================== *)
(** * Rounding error of the binary64 operations *)
(* ================================================================== *)

(** The operations of [float_num] are the primitive ones, specified by
    [SpecFloat]: the exact result is shifted to the binary64 exponent
    ([shr]), rounded to nearest-even and renormalized ([binary_round_aux]).
    This part follows that computation on rationals: a rounded result [r] of
    an exact value [x] of moderate size satisfies
    [|r - x| <= 2^-51 |x| + 2^-1073] ([rounds_to]).  The bound is then
    carried through the eight operations the two transforms apply to one
    axis of a box ([axis_round_trip]). *)

Lemma pow2_pos (z : Z) : (0 < pow2 z)%Q.
Proof. apply Qpower_0_lt. reflexivity. Qed.

Lemma pow2_add (a b : Z) : (pow2 (a + b) == pow2 a * pow2 b)%Q.
Proof. unfold pow2. apply Qpower_plus. discriminate. Qed.

Lemma pow2_0 : (pow2 0 == 1)%Q.
Proof. reflexivity. Qed.

Lemma pow2_1 : (pow2 1 == 2)%Q.
Proof. reflexivity. Qed.

Lemma pow2_succ (a : Z) : (pow2 (a + 1) == 2 * pow2 a)%Q.
Proof. rewrite pow2_add, pow2_1. ring. Qed.

Lemma pow2_pred (a : Z) : (pow2 (a - 1) == pow2 a / 2)%Q.
Proof.
  assert (H : (pow2 a == 2 * pow2 (a - 1))%Q).
  { rewrite <- pow2_succ. replace (a - 1 + 1) with a by lia. reflexivity. }
  rewrite H. field.
Qed.

Lemma pow2_le (a b : Z) : a <= b -> (pow2 a <= pow2 b)%Q.
Proof.
  intros H. unfold pow2. apply Qpower_le_compat_l; [ exact H | ].
  unfold Qle; simpl; lia.
Qed.

Lemma pow2_lt (a b : Z) : a < b -> (pow2 a < pow2 b)%Q.
Proof.
  intros H. unfold pow2. apply Qpower_lt_compat_l; [ exact H | ].
  reflexivity.
Qed.

Lemma pow2_inject (a : Z) : 0 <= a -> (pow2 a == inject_Z (2 ^ a))%Q.
Proof.
  intros H. unfold pow2. rewrite Zpower_Qpower by exact H. reflexivity.
Qed.

Lemma represents_ext (r : shr_record) (V V' : Q) :
  (V == V')%Q -> represents r V -> represents r V'.
Proof.
  intros E [Hm H]. split; [ exact Hm | ].
  destruct (shr_s r); [ rewrite <- E; exact H | rewrite <- E; exact H ].
Qed.

Lemma shr_1_fields (m : Z) (r s : bool) :
  0 <= m ->
  shr_1 (Build_shr_record m r s)
  = Build_shr_record (m / 2) (Z.odd m) (r || s).
Proof.
  intros Hm. destruct m as [| p | p]; [ reflexivity | | lia ].
  destruct p as [p | p |]; simpl; try reflexivity.
  - f_equal. change (Z.pos p~1) with (2 * Z.pos p + 1).
    replace (2 * Z.pos p + 1) with (1 + Z.pos p * 2) by lia.
    rewrite Z.div_add by lia. reflexivity.
  - f_equal. change (Z.pos p~0) with (2 * Z.pos p).
    rewrite Z.mul_comm, Z.div_mul by lia. reflexivity.
Qed.

Lemma shr_1_represents (r : shr_record) (V : Q) :
  represents r V -> represents (shr_1 r) (V / 2).
Proof.
  destruct r as [m rb sb]. intros [Hm H]. cbn [shr_m] in Hm.
  rewrite shr_1_fields by exact Hm.
  unfold represents, half_units in *. cbn [shr_m shr_r shr_s] in *.
  split; [ apply Z.div_pos; lia | ].
  assert (Em : m = 2 * (m / 2) + (if Z.odd m then 1 else 0)).
  { rewrite (Z.div2_odd m) at 1. rewrite Z.div2_div. destruct (Z.odd m); reflexivity. }
  rewrite <- Em.
  assert (E2 : (2 * (V / 2) == V)%Q) by field.
  destruct sb.
  - rewrite orb_true_r. destruct H as [H1 H2].
    rewrite inject_Z_plus, inject_Z_mult in H1, H2.
    change (inject_Z 2) with 2%Q in *. rewrite E2.
    destruct rb; [ change (inject_Z 1) with 1%Q in * | change (inject_Z 0) with 0%Q in * ];
      split; lra.
  - rewrite orb_false_r.
    rewrite inject_Z_plus, inject_Z_mult in H.
    change (inject_Z 2) with 2%Q in *.
    destruct rb; [ change (inject_Z 1) with 1%Q in * | change (inject_Z 0) with 0%Q in * ];
      rewrite E2; [ split; lra | lra ].
Qed.

Lemma iter_pos_shr_1_represents (p : positive) :
  forall (r : shr_record) (V : Q),
  represents r V -> represents (SpecFloat.iter_pos shr_1 p r) (V / pow2 (Z.pos p)).
Proof.
  induction p as [p IH | p IH |]; intros r V H; cbn [SpecFloat.iter_pos].
  - apply (represents_ext _ (V / 2 / pow2 (Z.pos p) / pow2 (Z.pos p))).
    + change (Z.pos p~1) with (2 * Z.pos p + 1). replace (2 * Z.pos p + 1) with (Z.pos p + Z.pos p + 1) by lia.
      rewrite !pow2_add, pow2_1.
      pose proof (pow2_pos (Z.pos p)). field. lra.
    + apply IH, IH, shr_1_represents, H.
  - apply (represents_ext _ (V / pow2 (Z.pos p) / pow2 (Z.pos p))).
    + change (Z.pos p~0) with (2 * Z.pos p). replace (2 * Z.pos p) with (Z.pos p + Z.pos p) by lia.
      rewrite !pow2_add.
      pose proof (pow2_pos (Z.pos p)). field. lra.
    + apply IH, IH, H.
  - apply (represents_ext _ (V / 2)); [ rewrite pow2_1; reflexivity | ].
    apply shr_1_represents, H.
Qed.

Lemma digits2_pos_bounds (p : positive) :
  2 ^ (Z.pos (digits2_pos p) - 1) <= Z.pos p < 2 ^ Z.pos (digits2_pos p).
Proof.
  induction p as [p IH | p IH |]; cbn [digits2_pos].
  - rewrite Pos2Z.inj_succ. change (Z.pos p~1) with (2 * Z.pos p + 1).
    assert (E1 : 2 ^ (Z.succ (Z.pos (digits2_pos p)) - 1)
                 = 2 * 2 ^ (Z.pos (digits2_pos p) - 1)).
    { rewrite <- Z.pow_succ_r by lia. f_equal. lia. }
    assert (E2 : 2 ^ Z.succ (Z.pos (digits2_pos p)) = 2 * 2 ^ Z.pos (digits2_pos p))
      by (apply Z.pow_succ_r; lia).
    rewrite E1, E2. lia.
  - rewrite Pos2Z.inj_succ. change (Z.pos p~0) with (2 * Z.pos p).
    assert (E1 : 2 ^ (Z.succ (Z.pos (digits2_pos p)) - 1)
                 = 2 * 2 ^ (Z.pos (digits2_pos p) - 1)).
    { rewrite <- Z.pow_succ_r by lia. f_equal. lia. }
    assert (E2 : 2 ^ Z.succ (Z.pos (digits2_pos p)) = 2 * 2 ^ Z.pos (digits2_pos p))
      by (apply Z.pow_succ_r; lia).
    rewrite E1, E2. lia.
  - simpl. lia.
Qed.

(** [2^(digits m - 1) <= m] as rationals, shifted by an exponent. *)
Lemma pow2_digits_le (p : positive) (e : Z) :
  (pow2 (Z.pos (digits2_pos p) + e - 1) <= inject_Z (Z.pos p) * pow2 e)%Q.
Proof.
  replace (Z.pos (digits2_pos p) + e - 1) with ((Z.pos (digits2_pos p) - 1) + e) by lia.
  rewrite pow2_add.
  apply Qmult_le_compat_r; [ | apply Qlt_le_weak, pow2_pos ].
  rewrite pow2_inject by lia. rewrite <- Zle_Qle.
  apply digits2_pos_bounds.
Qed.

Lemma fexp_eq (e : Z) : fexp prec emax e = fexp64 e.
Proof. reflexivity. Qed.

Lemma shr_spec (mrs : shr_record) (e n : Z) (V : Q) :
  represents mrs V ->
  represents (fst (shr mrs e n)) (V / pow2 (Z.max n 0))
  /\ snd (shr mrs e n) = e + Z.max n 0
  /\ (n <= 0 -> fst (shr mrs e n) = mrs).
Proof.
  intros H. unfold shr. destruct n as [| p | p]; cbn [fst snd].
  - split; [ | split; [ lia | reflexivity ] ].
    apply (represents_ext _ V); [ | exact H ].
    change (Z.max 0 0) with 0. rewrite pow2_0. field.
  - split; [ | split; [ lia | lia ] ].
    replace (Z.max (Z.pos p) 0) with (Z.pos p) by lia.
    now apply iter_pos_shr_1_represents.
  - split; [ | split; [ lia | reflexivity ] ].
    apply (represents_ext _ V); [ | exact H ].
    replace (Z.max (Z.neg p) 0) with 0 by lia. rewrite pow2_0. field.
Qed.

Lemma represents_floor (r : shr_record) (V : Q) :
  represents r V ->
  (inject_Z (shr_m r) <= V /\ V < inject_Z (shr_m r) + 1)%Q.
Proof.
  intros [Hm H]. unfold half_units in H.
  rewrite inject_Z_plus, inject_Z_mult in H. change (inject_Z 2) with 2%Q in H.
  destruct (shr_s r), (shr_r r);
    [ change (inject_Z 1) with 1%Q in H | change (inject_Z 0) with 0%Q in H
    | change (inject_Z 1) with 1%Q in H | change (inject_Z 0) with 0%Q in H ];
    split; lra.
Qed.

Lemma round_nearest_even_spec (r : shr_record) (V : Q) :
  represents r V ->
  let N := round_nearest_even (shr_m r) (loc_of_shr_record r) in
  0 <= N /\ (Qabs (inject_Z N - V) <= 1 # 2)%Q.
Proof.
  intros [Hm H]. destruct r as [m rb sb]. unfold half_units in H.
  cbn [shr_m shr_r shr_s] in *.
  rewrite inject_Z_plus, inject_Z_mult in H. change (inject_Z 2) with 2%Q in H.
  destruct sb, rb; cbn [loc_of_shr_record round_nearest_even];
    [ change (inject_Z 1) with 1%Q in H | change (inject_Z 0) with 0%Q in H
    | change (inject_Z 1) with 1%Q in H | change (inject_Z 0) with 0%Q in H ].
  - split; [ lia | ]. rewrite inject_Z_plus. change (inject_Z 1) with 1%Q.
    apply Qabs_Qle_condition. split; lra.
  - split; [ lia | ]. apply Qabs_Qle_condition. split; lra.
  - destruct (Z.even m).
    + split; [ lia | ]. apply Qabs_Qle_condition. split; lra.
    + split; [ lia | ]. rewrite inject_Z_plus. change (inject_Z 1) with 1%Q.
      apply Qabs_Qle_condition. split; lra.
  - split; [ lia | ]. apply Qabs_Qle_condition. split; lra.
Qed.

Lemma shr_record_of_loc_exact (m : Z) :
  0 <= m -> represents (shr_record_of_loc m loc_Exact) (inject_Z m).
Proof.
  intros Hm. split; [ exact Hm | ]. unfold half_units.
  cbn [shr_record_of_loc shr_m shr_r shr_s].
  rewrite inject_Z_plus, inject_Z_mult. change (inject_Z 2) with 2%Q.
  change (inject_Z 0) with 0%Q. ring.
Qed.

Lemma shr_m_of_loc (m : Z) (l : location) : shr_m (shr_record_of_loc m l) = m.
Proof. destruct l as [| []]; reflexivity. Qed.

Lemma Zdigits2_nonneg (m : Z) : 0 <= Zdigits2 m.
Proof. destruct m; simpl; lia. Qed.

(** [2^fexp(digits N + e)] is small next to [N * 2^e]. *)
Lemma pow2_fexp_digits (N e : Z) :
  0 < N ->
  (pow2 (fexp64 (Zdigits2 N + e)) <= pow2 (-52) * (inject_Z N * pow2 e) + pow2 (-1074))%Q.
Proof.
  intros HN. destruct N as [| p | p]; try lia. cbn [Zdigits2].
  pose proof (pow2_digits_le p e) as Hd.
  pose proof (pow2_pos (-1074)) as Hp.
  pose proof (pow2_pos (Z.pos (digits2_pos p) + e - 53)) as Hp'.
  unfold fexp64.
  destruct (Z.max_spec (Z.pos (digits2_pos p) + e - 53) (-1074)) as [[_ ->] | [_ ->]].
  - assert (0 <= pow2 (-52) * (inject_Z (Z.pos p) * pow2 e))%Q; [ | lra ].
    apply Qmult_le_0_compat; [ apply Qlt_le_weak, pow2_pos | ].
    apply Qmult_le_0_compat; [ | apply Qlt_le_weak, pow2_pos ].
    rewrite <- (Zle_Qle 0). lia.
  - replace (Z.pos (digits2_pos p) + e - 53) with (-52 + (Z.pos (digits2_pos p) + e - 1)) by lia.
    rewrite pow2_add.
    assert (pow2 (-52) * pow2 (Z.pos (digits2_pos p) + e - 1)
            <= pow2 (-52) * (inject_Z (Z.pos p) * pow2 e))%Q; [ | lra ].
    apply Qmult_le_l; [ apply pow2_pos | exact Hd ].
Qed.

Lemma pow2_le_inv (a b : Z) : (pow2 a < pow2 b)%Q -> a < b.
Proof.
  intros H. destruct (Z_lt_le_dec a b) as [Hlt | Hge]; [ exact Hlt | ].
  apply pow2_le in Hge. lra.
Qed.

Lemma shr_fexp_unfold (m e : Z) (l : location) :
  shr_fexp prec emax m e l
  = shr (shr_record_of_loc m l) e (fexp64 (Zdigits2 m + e) - e).
Proof. reflexivity. Qed.

(** The second shift of [binary_round_aux]: it drops bits only when the
    rounded mantissa has too many digits, and then by less than one unit of
    the new exponent. *)
Lemma truncate_stage (N e' : Z) :
  0 <= N ->
  let m'' := shr_m (fst (shr_fexp prec emax N e' loc_Exact)) in
  let e'' := snd (shr_fexp prec emax N e' loc_Exact) in
  0 <= m''
  /\ ((fexp64 (Zdigits2 N + e') <= e' /\ m'' = N /\ e'' = e')
      \/ (e' < fexp64 (Zdigits2 N + e') /\ e'' = fexp64 (Zdigits2 N + e')
          /\ (inject_Z m'' * pow2 e'' <= inject_Z N * pow2 e')%Q
          /\ (inject_Z N * pow2 e' < (inject_Z m'' + 1) * pow2 e'')%Q)).
Proof.
  intros HN m'' e''. subst m'' e''. rewrite shr_fexp_unfold.
  set (n := fexp64 (Zdigits2 N + e') - e').
  destruct (shr_spec (shr_record_of_loc N loc_Exact) e' n (inject_Z N)
              (shr_record_of_loc_exact N HN)) as (Hrep & He & Hid).
  split; [ apply Hrep | ].
  destruct (Z_le_gt_dec n 0) as [Hn | Hn].
  - left. rewrite (Hid Hn), shr_m_of_loc.
    split; [ lia | split; [ reflexivity | ] ].
    rewrite He. lia.
  - right. split; [ lia | ]. split; [ rewrite He; lia | ].
    apply represents_floor in Hrep. rewrite He.
    replace (Z.max n 0) with n in * by lia.
    pose proof (pow2_pos n) as Hp. pose proof (pow2_pos e') as Hp'.
    rewrite pow2_add.
    destruct Hrep as [H1 H2].
    assert (E : (inject_Z N == inject_Z N / pow2 n * pow2 n)%Q) by (field; lra).
    split.
    + rewrite E at 1.
      setoid_replace (inject_Z (shr_m (fst (shr (shr_record_of_loc N loc_Exact) e' n)))
                      * (pow2 e' * pow2 n))%Q
        with (inject_Z (shr_m (fst (shr (shr_record_of_loc N loc_Exact) e' n)))
              * pow2 n * pow2 e')%Q by ring.
      apply Qmult_le_compat_r; [ | lra ].
      apply Qmult_le_compat_r; [ exact H1 | lra ].
    + rewrite E at 1.
      setoid_replace ((inject_Z (shr_m (fst (shr (shr_record_of_loc N loc_Exact) e' n))) + 1)
                      * (pow2 e' * pow2 n))%Q
        with ((inject_Z (shr_m (fst (shr (shr_record_of_loc N loc_Exact) e' n))) + 1)
              * pow2 n * pow2 e')%Q by ring.
      apply Qmult_lt_compat_r; [ lra | ].
      apply Qmult_lt_compat_r; [ lra | exact H2 ].
Qed.

Lemma binary_round_aux_unfold (sx : bool) (mx ex : Z) (lx : location) :
  binary_round_aux prec emax sx mx ex lx =
  let mrs' := fst (shr_fexp prec emax mx ex lx) in
  let e' := snd (shr_fexp prec emax mx ex lx) in
  let N := round_nearest_even (shr_m mrs') (loc_of_shr_record mrs') in
  let m'' := shr_m (fst (shr_fexp prec emax N e' loc_Exact)) in
  let e'' := snd (shr_fexp prec emax N e' loc_Exact) in
  match m'' with
  | 0 => S754_zero sx
  | Z.pos m => if e'' <=? 971 then S754_finite sx m e'' else S754_infinity sx
  | Z.neg _ => S754_nan
  end.
Proof.
  unfold binary_round_aux.
  destruct (shr_fexp prec emax mx ex lx) as [mrs' e']. cbn [fst snd].
  destruct (shr_fexp prec emax _ e' loc_Exact) as [mrs'' e'']. reflexivity.
Qed.

Lemma pow2_m52 : (pow2 (-52) == 1 # 4503599627370496)%Q.
Proof. reflexivity. Qed.

Lemma pow2_m51 : (pow2 (-51) == 2 # 4503599627370496)%Q.
Proof. reflexivity. Qed.

Lemma pow2_m1073 : (pow2 (-1073) == 2 * pow2 (-1074))%Q.
Proof. change (-1073) with (-1074 + 1). apply pow2_succ. Qed.

Lemma pow2_m1074_le_1 : (pow2 (-1074) <= 1)%Q.
Proof. rewrite <- pow2_0. apply pow2_le. lia. Qed.

Lemma pow2_900_ge_1 : (1 <= pow2 900)%Q.
Proof. rewrite <- pow2_0. apply pow2_le. lia. Qed.

(** What the last [match] of [binary_round_aux] returns. *)
Lemma round_result (sx : bool) (m'' e'' : Z) :
  0 <= m'' ->
  (0 < m'' -> e'' <= 971) ->
  let r := match m'' with
           | 0 => S754_zero sx
           | Z.pos m => if e'' <=? 971 then S754_finite sx m e''
                        else S754_infinity sx
           | Z.neg _ => S754_nan
           end in
  sfinite r = true /\ (SF2Q r == sgn sx * (inject_Z m'' * pow2 e''))%Q.
Proof.
  intros Hm He. destruct m'' as [| p | p]; [ | | lia ]; cbv zeta.
  - split; [ reflexivity | ]. cbn [SF2Q]. change (inject_Z 0) with 0%Q. ring.
  - assert (E : (e'' <=? 971) = true) by (apply Z.leb_le, He; lia).
    rewrite E. split; reflexivity.
Qed.

(** The error of [binary_round_aux]: the rounded result is finite and at
    most [2^-51 v + 2^-1073] away from the value [v = V * 2^ex] it rounds. *)
Lemma binary_round_aux_bound (sx : bool) (mx ex : Z) (lx : location) (V : Q) :
  represents (shr_record_of_loc mx lx) V ->
  (lx = loc_Exact \/ (pow2 ex <= pow2 (-52) * (V * pow2 ex) + pow2 (-1074))%Q) ->
  (pow2 (fexp64 (Zdigits2 mx + ex)) <= pow2 (-52) * (V * pow2 ex) + pow2 (-1074))%Q ->
  (V * pow2 ex <= pow2 900)%Q ->
  let r := binary_round_aux prec emax sx mx ex lx in
  sfinite r = true
  /\ (Qabs (SF2Q r - sgn sx * (V * pow2 ex))
      <= pow2 (-51) * (V * pow2 ex) + pow2 (-1073))%Q.
Proof.
  intros Hrep Hcase Hb Hv r. subst r. rewrite binary_round_aux_unfold. cbv zeta.
  set (mrs' := fst (shr_fexp prec emax mx ex lx)).
  set (e' := snd (shr_fexp prec emax mx ex lx)).
  set (N := round_nearest_even (shr_m mrs') (loc_of_shr_record mrs')).
  set (m'' := shr_m (fst (shr_fexp prec emax N e' loc_Exact))).
  set (e'' := snd (shr_fexp prec emax N e' loc_Exact)).
  set (n1 := fexp64 (Zdigits2 mx + ex) - ex).
  destruct (shr_spec (shr_record_of_loc mx lx) ex n1 V Hrep) as (Hrep1 & He1 & Hid1).
  change (fst (shr (shr_record_of_loc mx lx) ex n1)) with mrs' in Hrep1, Hid1.
  change (snd (shr (shr_record_of_loc mx lx) ex n1)) with e' in He1.
  destruct (round_nearest_even_spec mrs' _ Hrep1) as [HN HNV].
  change (round_nearest_even (shr_m mrs') (loc_of_shr_record mrs')) with N in HN, HNV.
  destruct (truncate_stage N e' HN) as [Hm'' Htr].
  change (shr_m (fst (shr_fexp prec emax N e' loc_Exact))) with m'' in Hm'', Htr.
  change (snd (shr_fexp prec emax N e' loc_Exact)) with e'' in Htr.
  set (v := (V * pow2 ex)%Q) in *.
  pose proof (pow2_pos ex) as Hpex. pose proof (pow2_pos e') as Hpe'.
  pose proof (pow2_pos e'') as Hpe''. pose proof (pow2_pos (-1074)) as Hb0.
  pose proof pow2_m1074_le_1 as Hb1. pose proof pow2_900_ge_1 as H900.
  assert (Hmx : 0 <= mx) by (destruct Hrep as [Hm _]; now rewrite shr_m_of_loc in Hm).
  assert (HV0 : (0 <= V)%Q).
  { apply represents_floor in Hrep. rewrite shr_m_of_loc in Hrep.
    assert (0 <= inject_Z mx)%Q by (rewrite <- (Zle_Qle 0); exact Hmx). lra. }
  assert (Hv0 : (0 <= v)%Q) by (apply Qmult_le_0_compat; lra).
  (* the value after the first shift *)
  assert (Ev : (V / pow2 (Z.max n1 0) * pow2 e' == v)%Q).
  { rewrite He1, pow2_add. unfold v.
    pose proof (pow2_pos (Z.max n1 0)). field. lra. }
  assert (HNP : (Qabs (inject_Z N * pow2 e' - v) <= (1 # 2) * pow2 e')%Q).
  { rewrite <- Ev.
    setoid_replace (inject_Z N * pow2 e' - V / pow2 (Z.max n1 0) * pow2 e')%Q
      with ((inject_Z N - V / pow2 (Z.max n1 0)) * pow2 e')%Q by ring.
    rewrite Qabs_Qmult, (Qabs_pos (pow2 e')) by lra.
    apply Qmult_le_compat_r; [ exact HNV | lra ]. }
  apply Qabs_Qle_condition in HNP. destruct HNP as [HNP1 HNP2].
  assert (HN0 : (0 <= inject_Z N)%Q) by (rewrite <- (Zle_Qle 0); exact HN).
  assert (Hm0 : (0 <= inject_Z m'')%Q) by (rewrite <- (Zle_Qle 0); exact Hm'').
  assert (Hfin : forall err : Q,
             (Qabs (inject_Z m'' * pow2 e'' - v) <= pow2 (-51) * v + pow2 (-1073))%Q ->
             0 < m'' -> e'' <= 971).
  { intros _ Habs Hpos. apply Qabs_Qle_condition in Habs. destruct Habs as [_ Habs].
    rewrite pow2_m51, pow2_m1073 in Habs.
    assert (H1 : (1 <= inject_Z m'')%Q) by (rewrite <- (Zle_Qle 1); lia).
    assert (H2 : (pow2 e'' <= inject_Z m'' * pow2 e'')%Q).
    { setoid_replace (pow2 e'') with (1 * pow2 e'')%Q at 1 by ring.
      apply Qmult_le_compat_r; lra. }
    assert (H3 : (pow2 e'' < pow2 902)%Q).
    { change 902 with (900 + 2). rewrite pow2_add.
      change (pow2 2) with 4%Q. lra. }
    apply pow2_le_inv in H3. lia. }
  assert (Hgoal : (Qabs (inject_Z m'' * pow2 e'' - v)
                   <= pow2 (-51) * v + pow2 (-1073))%Q).
  { assert (Hexact : n1 < 0 -> lx = loc_Exact ->
                     (Qabs (inject_Z m'' * pow2 e'' - v)
                      <= pow2 (-51) * v + pow2 (-1073))%Q).
    { (* nothing is shifted out and nothing was inexact *)
      intros Hneg ->.
      assert (Em : mrs' = shr_record_of_loc mx loc_Exact) by (apply Hid1; lia).
      assert (EN : N = mx) by (unfold N; rewrite Em; reflexivity).
      assert (Ee : e' = ex) by (rewrite He1; lia).
      destruct Htr as [(_ & Em'' & Ee'') | (Hlt & _)];
        [ | rewrite EN, Ee in Hlt; unfold n1 in Hneg; lia ].
      destruct Hrep as [_ Hrep]. unfold half_units in Hrep.
      cbn [shr_record_of_loc shr_m shr_r shr_s] in Hrep.
      rewrite inject_Z_plus, inject_Z_mult in Hrep.
      change (inject_Z 2) with 2%Q in Hrep. change (inject_Z 0) with 0%Q in Hrep.
      rewrite Em'', Ee'', EN, Ee.
      assert (EV : (V == inject_Z mx)%Q) by lra.
      setoid_replace (inject_Z mx * pow2 ex - v)%Q with 0%Q
        by (unfold v; rewrite EV; ring).
      rewrite pow2_m51, pow2_m1073. apply Qabs_Qle_condition.
      set (b := pow2 (-1074)) in *. clearbody b. clearbody v.
      clear - Hv0 Hb0. split; lra. }
    assert (Hround : (pow2 e' <= pow2 (-52) * v + pow2 (-1074))%Q -> -1074 <= e' ->
                     (Qabs (inject_Z m'' * pow2 e'' - v)
                      <= pow2 (-51) * v + pow2 (-1073))%Q).
    { intros HP Hemin. rewrite pow2_m52 in HP.
      rewrite pow2_m51, pow2_m1073.
      destruct Htr as [(_ & Em'' & Ee'') | (Hlt & Ee'' & Ht1 & Ht2)].
      + rewrite Em'', Ee''. apply Qabs_Qle_condition.
        set (NP := (inject_Z N * pow2 e')%Q) in *. clearbody NP.
        set (P := pow2 e') in *. clearbody P.
        clearbody v. set (b := pow2 (-1074)) in *. clearbody b.
        clear - HP Hv0 Hb0 Hpe' HNP1 HNP2. split; lra.
      + assert (HNpos : 0 < N).
        { destruct (Z.eq_dec N 0) as [E0 | Hne]; [ | lia ].
          rewrite E0 in Hlt. cbn [Zdigits2] in Hlt. unfold fexp64 in Hlt. lia. }
        pose proof (pow2_fexp_digits N e' HNpos) as Hd.
        rewrite <- Ee'' in Hd. rewrite pow2_m52 in Hd.
        setoid_replace ((inject_Z m'' + 1) * pow2 e'')%Q
          with (inject_Z m'' * pow2 e'' + pow2 e'')%Q in Ht2 by ring.
        apply Qabs_Qle_condition.
        set (MP := (inject_Z m'' * pow2 e'')%Q) in *. clearbody MP.
        set (NP := (inject_Z N * pow2 e')%Q) in *. clearbody NP.
        set (P'' := pow2 e'') in *. clearbody P''.
        set (P := pow2 e') in *. clearbody P.
        clearbody v. set (b := pow2 (-1074)) in *. clearbody b.
        clear - HP Hv0 Hb0 Hpe' Hpe'' HNP1 HNP2 Hd Ht1 Ht2. split; lra. }
    destruct (Z_lt_le_dec n1 0) as [Hneg | Hnn].
    - destruct Hcase as [Hex | Hc]; [ now apply Hexact | ].
      apply Hround.
      + replace e' with ex by (rewrite He1; lia). exact Hc.
      + rewrite He1. unfold n1, fexp64 in Hneg. lia.
    - assert (Ee : e' = fexp64 (Zdigits2 mx + ex)) by (rewrite He1; unfold n1; lia).
      apply Hround; [ rewrite Ee; exact Hb | rewrite Ee; unfold fexp64; lia ]. }
  destruct (round_result sx m'' e'' Hm'' (Hfin 0%Q Hgoal)) as [Hf Hval].
  split; [ exact Hf | ].
  rewrite Hval.
  setoid_replace (sgn sx * (inject_Z m'' * pow2 e'') - sgn sx * v)%Q
    with (sgn sx * (inject_Z m'' * pow2 e'' - v))%Q by ring.
  rewrite Qabs_Qmult.
  assert (Es : (Qabs (sgn sx) == 1)%Q) by (destruct sx; reflexivity).
  rewrite Es, Qmult_1_l. exact Hgoal.
Qed.

Lemma rounds_to_exact (r : spec_float) (x : Q) :
  sfinite r = true -> (SF2Q r == x)%Q -> rounds_to r x.
Proof.
  intros Hf E. split; [ exact Hf | ].
  setoid_replace (SF2Q r - x)%Q with 0%Q by (rewrite E; ring).
  pose proof (pow2_pos (-51)). pose proof (pow2_pos (-1073)).
  pose proof (Qabs_nonneg x).
  assert (0 <= pow2 (-51) * Qabs x)%Q by (apply Qmult_le_0_compat; lra).
  change (Qabs 0) with 0%Q. lra.
Qed.

Lemma rounds_to_ext (r : spec_float) (x y : Q) :
  (x == y)%Q -> rounds_to r x -> rounds_to r y.
Proof. intros E [Hf H]. split; [ exact Hf | rewrite <- E; exact H ]. Qed.

Lemma sgn_abs (s : bool) (a : Q) : (0 <= a)%Q -> (Qabs (sgn s * a) == a)%Q.
Proof.
  intros Ha. rewrite Qabs_Qmult.
  assert (E : (Qabs (sgn s) == 1)%Q) by (destruct s; reflexivity).
  rewrite E, Qmult_1_l. now apply Qabs_pos.
Qed.

Lemma mant_nonneg (m : positive) (e : Z) : (0 <= inject_Z (Z.pos m) * pow2 e)%Q.
Proof.
  apply Qmult_le_0_compat; [ | apply Qlt_le_weak, pow2_pos ].
  rewrite <- (Zle_Qle 0). lia.
Qed.

Lemma iter_xO_value (m d : positive) :
  Z.pos (Pos.iter xO m d) = Z.pos m * 2 ^ Z.pos d.
Proof.
  change (Pos.iter xO m d) with (shift_pos d m).
  rewrite shift_pos_correct. change (Z.pow_pos 2 d) with (2 ^ Z.pos d). lia.
Qed.

Lemma shl_align_value (m : positive) (e e' : Z) :
  (inject_Z (Z.pos (fst (shl_align m e e'))) * pow2 (snd (shl_align m e e'))
   == inject_Z (Z.pos m) * pow2 e)%Q.
Proof.
  unfold shl_align. destruct (e' - e) as [| d | d] eqn:E; cbn [fst snd];
    try reflexivity.
  rewrite iter_xO_value, inject_Z_mult.
  rewrite <- pow2_inject by lia.
  replace e with (Z.pos d + e') by lia. rewrite pow2_add. ring.
Qed.

Lemma shl_align_fst (m : positive) (e e' : Z) :
  e' <= e ->
  (inject_Z (Z.pos (fst (shl_align m e e'))) * pow2 e'
   == inject_Z (Z.pos m) * pow2 e)%Q.
Proof.
  intros Hle. rewrite <- (shl_align_value m e e').
  unfold shl_align. destruct (e' - e) as [| d | d] eqn:E; cbn [fst snd];
    try reflexivity.
  - replace e' with e by lia. reflexivity.
  - lia.
Qed.

Lemma binary_round_bound (s : bool) (m : positive) (e : Z) :
  (inject_Z (Z.pos m) * pow2 e <= pow2 900)%Q ->
  rounds_to (binary_round prec emax s m e) (sgn s * (inject_Z (Z.pos m) * pow2 e)).
Proof.
  intros Hv. unfold binary_round.
  pose proof (shl_align_value m e (fexp prec emax (Z.pos (digits2_pos m) + e))) as Hval.
  destruct (shl_align m e (fexp prec emax (Z.pos (digits2_pos m) + e))) as [mz ez].
  cbn [fst snd] in Hval.
  destruct (binary_round_aux_bound s (Z.pos mz) ez loc_Exact (inject_Z (Z.pos mz)))
    as [Hf Hb].
  - apply shr_record_of_loc_exact. lia.
  - now left.
  - apply (pow2_fexp_digits (Z.pos mz) ez). lia.
  - rewrite Hval. exact Hv.
  - split; [ exact Hf | ].
    rewrite sgn_abs by apply mant_nonneg. rewrite <- Hval. exact Hb.
Qed.

Lemma binary_normalize_bound (z e : Z) :
  (Qabs (inject_Z z * pow2 e) <= pow2 900)%Q ->
  rounds_to (binary_normalize prec emax z e false) (inject_Z z * pow2 e).
Proof.
  intros Hv. destruct z as [| m | m]; cbn [binary_normalize].
  - apply rounds_to_exact; [ reflexivity | ]. cbn [SF2Q]. change (inject_Z 0) with 0%Q. ring.
  - apply (rounds_to_ext _ (sgn false * (inject_Z (Z.pos m) * pow2 e))).
    + unfold sgn. ring.
    + apply binary_round_bound. rewrite Qabs_pos in Hv by apply mant_nonneg. exact Hv.
  - assert (E : (inject_Z (Z.neg m) * pow2 e == sgn true * (inject_Z (Z.pos m) * pow2 e))%Q).
    { change (Z.neg m) with (- Z.pos m). rewrite inject_Z_opp. unfold sgn. ring. }
    apply (rounds_to_ext _ (sgn true * (inject_Z (Z.pos m) * pow2 e))).
    + symmetry. exact E.
    + apply binary_round_bound. rewrite E, sgn_abs in Hv by apply mant_nonneg. exact Hv.
Qed.

Lemma cond_Zopp_value (s : bool) (m : Z) :
  (inject_Z (cond_Zopp s m) == sgn s * inject_Z m)%Q.
Proof.
  destruct s; cbn [cond_Zopp sgn]; [ rewrite inject_Z_opp | ]; ring.
Qed.

Lemma sgn_xorb (a b : bool) : (sgn (xorb a b) == sgn a * sgn b)%Q.
Proof. destruct a, b; reflexivity. Qed.

Lemma SFmul_bound (x y : spec_float) :
  sfinite x = true -> sfinite y = true ->
  (Qabs (SF2Q x * SF2Q y) <= pow2 900)%Q ->
  rounds_to (SF64mul x y) (SF2Q x * SF2Q y).
Proof.
  intros Hx Hy Hv.
  destruct x as [sx | sx | | sx mx ex], y as [sy | sy | | sy my ey];
    try discriminate; unfold SF64mul; cbn [SFmul];
    try (apply rounds_to_exact; [ reflexivity | cbn [SF2Q]; ring ]).
  assert (E : (SF2Q (S754_finite sx mx ex) * SF2Q (S754_finite sy my ey)
               == sgn (xorb sx sy)
                  * (inject_Z (Z.pos (mx * my)) * pow2 (ex + ey)))%Q).
  { cbn [SF2Q]. rewrite sgn_xorb, Pos2Z.inj_mul, inject_Z_mult, pow2_add. ring. }
  apply (rounds_to_ext _ _ _ (Qeq_sym _ _ E)).
  rewrite E, sgn_abs in Hv by apply mant_nonneg.
  destruct (binary_round_aux_bound (xorb sx sy) (Z.pos (mx * my)) (ex + ey) loc_Exact
              (inject_Z (Z.pos (mx * my)))) as [Hf Hb].
  - apply shr_record_of_loc_exact. lia.
  - now left.
  - apply (pow2_fexp_digits (Z.pos (mx * my)) (ex + ey)). lia.
  - exact Hv.
  - split; [ exact Hf | ]. rewrite sgn_abs by apply mant_nonneg. exact Hb.
Qed.

Lemma SFadd_finite_value (sx sy : bool) (mx my : positive) (ex ey : Z) :
  (inject_Z (cond_Zopp sx (Z.pos (fst (shl_align mx ex (Z.min ex ey))))
             + cond_Zopp sy (Z.pos (fst (shl_align my ey (Z.min ex ey)))))
   * pow2 (Z.min ex ey)
   == SF2Q (S754_finite sx mx ex) + SF2Q (S754_finite sy my ey))%Q.
Proof.
  rewrite inject_Z_plus, !cond_Zopp_value. cbn [SF2Q].
  rewrite <- (shl_align_fst mx ex (Z.min ex ey)) by lia.
  rewrite <- (shl_align_fst my ey (Z.min ex ey)) by lia.
  ring.
Qed.

Lemma SFsub_finite_value (sx sy : bool) (mx my : positive) (ex ey : Z) :
  (inject_Z (cond_Zopp sx (Z.pos (fst (shl_align mx ex (Z.min ex ey))))
             - cond_Zopp sy (Z.pos (fst (shl_align my ey (Z.min ex ey)))))
   * pow2 (Z.min ex ey)
   == SF2Q (S754_finite sx mx ex) - SF2Q (S754_finite sy my ey))%Q.
Proof.
  unfold Z.sub. rewrite inject_Z_plus, inject_Z_opp, !cond_Zopp_value. cbn [SF2Q].
  rewrite <- (shl_align_fst mx ex (Z.min ex ey)) by lia.
  rewrite <- (shl_align_fst my ey (Z.min ex ey)) by lia.
  ring.
Qed.

Lemma SFadd_bound (x y : spec_float) :
  sfinite x = true -> sfinite y = true ->
  (Qabs (SF2Q x + SF2Q y) <= pow2 900)%Q ->
  rounds_to (SF64add x y) (SF2Q x + SF2Q y).
Proof.
  intros Hx Hy Hv.
  destruct x as [sx | sx | | sx mx ex], y as [sy | sy | | sy my ey];
    try discriminate; unfold SF64add; cbn [SFadd].
  - destruct sx, sy; apply rounds_to_exact; try reflexivity.
  - apply rounds_to_exact; [ reflexivity | cbn [SF2Q]; ring ].
  - apply rounds_to_exact; [ reflexivity | cbn [SF2Q]; ring ].
  - rewrite <- SFadd_finite_value in Hv.
    apply (rounds_to_ext _ _ _ (SFadd_finite_value sx sy mx my ex ey)).
    now apply binary_normalize_bound.
Qed.

Lemma SFsub_bound (x y : spec_float) :
  sfinite x = true -> sfinite y = true ->
  (Qabs (SF2Q x - SF2Q y) <= pow2 900)%Q ->
  rounds_to (SF64sub x y) (SF2Q x - SF2Q y).
Proof.
  intros Hx Hy Hv.
  destruct x as [sx | sx | | sx mx ex], y as [sy | sy | | sy my ey];
    try discriminate; unfold SF64sub; cbn [SFsub].
  - destruct sx, sy; apply rounds_to_exact; try reflexivity.
  - apply rounds_to_exact; [ reflexivity | ]. cbn [SF2Q].
    destruct sy; unfold sgn; cbn [negb]; ring.
  - apply rounds_to_exact; [ reflexivity | cbn [SF2Q]; ring ].
  - rewrite <- SFsub_finite_value in Hv.
    apply (rounds_to_ext _ _ _ (SFsub_finite_value sx sy mx my ex ey)).
    now apply binary_normalize_bound.
Qed.

Lemma Qdiv_as_sum (q r m : Z) :
  0 < m ->
  (inject_Z (m * q + r) / inject_Z m == inject_Z q + inject_Z r / inject_Z m)%Q.
Proof.
  intros Hm. rewrite inject_Z_plus, inject_Z_mult.
  assert (0 < inject_Z m)%Q by (rewrite <- (Zlt_Qlt 0); exact Hm).
  field. lra.
Qed.

(** Where [r / m] lies with respect to one half. *)
Lemma half_cases (r m : Z) :
  0 < m -> 0 <= r < m ->
  let f := (inject_Z r / inject_Z m)%Q in
  (r = 0 -> (f == 0)%Q)
  /\ (0 < r -> (0 < f)%Q)
  /\ (f < 1)%Q
  /\ (2 * r < m -> (2 * f < 1)%Q)
  /\ (2 * r = m -> (2 * f == 1)%Q)
  /\ (m < 2 * r -> (1 < 2 * f)%Q).
Proof.
  intros Hm Hr f.
  assert (Hm' : (0 < inject_Z m)%Q) by (rewrite <- (Zlt_Qlt 0); exact Hm).
  assert (Ef : (f * inject_Z m == inject_Z r)%Q) by (unfold f; field; lra).
  assert (Hcmp : forall a b : Q, (a * inject_Z m < b * inject_Z m)%Q -> (a < b)%Q).
  { intros a b Hab. apply Qmult_lt_r in Hab; assumption. }
  repeat split.
  - intros ->. unfold f. change (inject_Z 0) with 0%Q. field. lra.
  - intros H0. apply Hcmp. rewrite Ef, Qmult_0_l. rewrite <- (Zlt_Qlt 0). exact H0.
  - apply Hcmp. rewrite Ef, Qmult_1_l. rewrite <- Zlt_Qlt. lia.
  - intros H2. apply Hcmp. rewrite Qmult_1_l.
    setoid_replace (2 * f * inject_Z m)%Q with (2 * (f * inject_Z m))%Q by ring.
    rewrite Ef. change 2%Q with (inject_Z 2). rewrite <- inject_Z_mult, <- Zlt_Qlt. exact H2.
  - intros H2.
    assert (E : (2 * f * inject_Z m == 1 * inject_Z m)%Q).
    { setoid_replace (2 * f * inject_Z m)%Q with (2 * (f * inject_Z m))%Q by ring.
      rewrite Ef, Qmult_1_l. change 2%Q with (inject_Z 2).
      rewrite <- inject_Z_mult, H2. reflexivity. }
    apply Qmult_inj_r in E; [ exact E | lra ].
  - intros H2. apply Hcmp. rewrite Qmult_1_l.
    setoid_replace (2 * f * inject_Z m)%Q with (2 * (f * inject_Z m))%Q by ring.
    rewrite Ef. change 2%Q with (inject_Z 2). rewrite <- inject_Z_mult, <- Zlt_Qlt. exact H2.
Qed.

Lemma new_location_represents (m q r : Z) :
  0 < m -> 0 <= q -> 0 <= r < m ->
  represents (shr_record_of_loc q (new_location m r))
             (inject_Z (m * q + r) / inject_Z m).
Proof.
  intros Hm Hq Hr.
  apply (represents_ext _ (inject_Z q + inject_Z r / inject_Z m));
    [ symmetry; now apply Qdiv_as_sum | ].
  destruct (half_cases r m Hm Hr) as (H0 & Hpos & H1 & Hlt & Heq & Hgt).
  set (f := (inject_Z r / inject_Z m)%Q) in *. clearbody f.
  assert (Hloc :
    (r = 0 /\ new_location m r = loc_Exact)
    \/ (0 < r /\ 2 * r < m /\ new_location m r = loc_Inexact Lt)
    \/ (2 * r = m /\ new_location m r = loc_Inexact Eq)
    \/ (m < 2 * r /\ new_location m r = loc_Inexact Gt)).
  { unfold new_location. destruct (Z.even m) eqn:Ev.
    - unfold new_location_even. destruct (Z.eqb_spec r 0) as [E0 | Hne].
      + left. split; [ exact E0 | reflexivity ].
      + right. destruct (Z.compare_spec (2 * r) m) as [E | E | E].
        * right. left. split; [ exact E | reflexivity ].
        * left. split; [ lia | split; [ exact E | reflexivity ] ].
        * right. right. split; [ exact E | reflexivity ].
    - unfold new_location_odd. destruct (Z.eqb_spec r 0) as [E0 | Hne].
      + left. split; [ exact E0 | reflexivity ].
      + right.
        assert (Hodd : 2 * r <> m).
        { intros E. rewrite <- E in Ev. rewrite Z.even_mul in Ev. discriminate. }
        destruct (Z.compare_spec (2 * r + 1) m) as [E | E | E].
        * left. split; [ lia | split; [ lia | reflexivity ] ].
        * left. split; [ lia | split; [ lia | reflexivity ] ].
        * right. right. split; [ lia | reflexivity ]. }
  split; [ now rewrite shr_m_of_loc | ].
  destruct Hloc as [(E0 & ->) | [(Hr0 & Hr2 & ->) | [(Hr2 & ->) | (Hr2 & ->)]]];
    unfold half_units; cbn [shr_record_of_loc shr_m shr_r shr_s];
    rewrite inject_Z_plus, inject_Z_mult; change (inject_Z 2) with 2%Q.
  - change (inject_Z 0) with 0%Q. specialize (H0 E0). lra.
  - change (inject_Z 0) with 0%Q. specialize (Hpos Hr0). specialize (Hlt Hr2).
    split; lra.
  - change (inject_Z 1) with 1%Q. specialize (Heq Hr2). lra.
  - change (inject_Z 1) with 1%Q. specialize (Hgt Hr2). split; lra.
Qed.

Lemma pow2_digits_gt (p : positive) (e : Z) :
  (inject_Z (Z.pos p) * pow2 e < pow2 (Z.pos (digits2_pos p) + e))%Q.
Proof.
  rewrite pow2_add. apply Qmult_lt_compat_r; [ apply pow2_pos | ].
  rewrite pow2_inject by lia. rewrite <- Zlt_Qlt. apply digits2_pos_bounds.
Qed.

Lemma pow2_m53_le : forall e, (pow2 (e - 53) <= pow2 e)%Q.
Proof. intros e. apply pow2_le. lia. Qed.

(** The quotient of two finite values is at least [2^(X-1)], [X] being the
    difference of their magnitudes. *)
Lemma quotient_lower_bound (mx my : positive) (ex ey : Z) :
  (pow2 (Z.pos (digits2_pos mx) + ex - (Z.pos (digits2_pos my) + ey) - 1)
   <= inject_Z (Z.pos mx) * pow2 ex / (inject_Z (Z.pos my) * pow2 ey))%Q.
Proof.
  set (X1 := Z.pos (digits2_pos mx) + ex - (Z.pos (digits2_pos my) + ey) - 1).
  pose proof (pow2_digits_le mx ex) as H1.
  pose proof (pow2_digits_gt my ey) as H2.
  pose proof (pow2_pos ey) as Hey.
  assert (Hmy : (0 < inject_Z (Z.pos my))%Q) by (rewrite <- (Zlt_Qlt 0); lia).
  assert (HB : (0 < inject_Z (Z.pos my) * pow2 ey)%Q)
    by (apply Qmult_lt_0_compat; assumption).
  apply Qle_shift_div_l; [ exact HB | ].
  apply Qle_trans with (pow2 X1 * pow2 (Z.pos (digits2_pos my) + ey))%Q.
  - apply Qmult_le_l; [ apply pow2_pos | apply Qlt_le_weak, H2 ].
  - rewrite <- pow2_add.
    replace (X1 + (Z.pos (digits2_pos my) + ey)) with (Z.pos (digits2_pos mx) + ex - 1)
      by (unfold X1; lia).
    exact H1.
Qed.

Lemma div_core_spec (mx my : positive) (ex ey : Z) :
  let c := SFdiv_core_binary prec emax (Z.pos mx) ex (Z.pos my) ey in
  let q := fst (fst c) in
  let e' := snd (fst c) in
  let l := snd c in
  let v := (inject_Z (Z.pos mx) * pow2 ex / (inject_Z (Z.pos my) * pow2 ey))%Q in
  exists V : Q,
    represents (shr_record_of_loc q l) V
    /\ (V * pow2 e' == v)%Q
    /\ (pow2 e' <= pow2 (-52) * v + pow2 (-1074))%Q
    /\ (pow2 (fexp64 (Zdigits2 q + e')) <= pow2 (-52) * v + pow2 (-1074))%Q.
Proof.
  intros c q e' l v. subst c q e' l.
  unfold SFdiv_core_binary. cbv zeta.
  change (Zdigits2 (Z.pos mx)) with (Z.pos (digits2_pos mx)).
  change (Zdigits2 (Z.pos my)) with (Z.pos (digits2_pos my)).
  rewrite fexp_eq.
  set (X := Z.pos (digits2_pos mx) + ex - (Z.pos (digits2_pos my) + ey)).
  set (e' := Z.min (fexp64 X) (ex - ey)).
  set (s := ex - ey - e').
  assert (Hs : 0 <= s) by (unfold s, e'; lia).
  set (m' := match s with
             | 0 => Z.pos mx
             | Z.pos _ => Z.shiftl (Z.pos mx) s
             | Z.neg _ => 0
             end).
  assert (Em' : m' = Z.pos mx * 2 ^ s).
  { unfold m'. destruct s as [| p | p]; [ simpl; lia | | lia ].
    apply Z.shiftl_mul_pow2. lia. }
  pose proof (Z_div_mod m' (Z.pos my) eq_refl) as Hdiv.
  destruct (Z.div_eucl m' (Z.pos my)) as [q r]. cbn [fst snd].
  destruct Hdiv as [Eq Hr].
  assert (Hm'0 : 0 <= m') by (rewrite Em'; apply Z.mul_nonneg_nonneg; [ lia | apply Z.pow_nonneg; lia ]).
  assert (Hq : 0 <= q) by nia.
  exists (inject_Z m' / inject_Z (Z.pos my))%Q.
  assert (Hmy : (0 < inject_Z (Z.pos my))%Q) by (rewrite <- (Zlt_Qlt 0); lia).
  pose proof (pow2_pos ex) as Hpex. pose proof (pow2_pos ey) as Hpey.
  pose proof (pow2_pos e') as Hpe'. pose proof (pow2_pos s) as Hps.
  assert (Ev : (inject_Z m' / inject_Z (Z.pos my) * pow2 e' == v)%Q).
  { unfold v. rewrite Em', inject_Z_mult, <- pow2_inject by exact Hs.
    assert (Eex : (pow2 ex == pow2 s * pow2 e' * pow2 ey)%Q).
    { rewrite <- !pow2_add. replace (s + e' + ey) with ex by (unfold s; lia). reflexivity. }
    rewrite Eex. field. split; lra. }
  assert (Hvlow : (pow2 (X - 1) <= v)%Q) by apply quotient_lower_bound.
  assert (Hv0 : (0 < v)%Q) by (pose proof (pow2_pos (X - 1)); lra).
  pose proof (pow2_pos (-1074)) as Hb0.
  assert (HX : (pow2 (fexp64 X) <= pow2 (-52) * v + pow2 (-1074))%Q).
  { unfold fexp64. destruct (Z.max_spec (X - 53) (-1074)) as [[_ ->] | [_ ->]].
    - assert (0 <= pow2 (-52) * v)%Q by (apply Qmult_le_0_compat; [ apply Qlt_le_weak, pow2_pos | lra ]).
      lra.
    - replace (X - 53) with (-52 + (X - 1)) by lia. rewrite pow2_add.
      assert (pow2 (-52) * pow2 (X - 1) <= pow2 (-52) * v)%Q
        by (apply Qmult_le_l; [ apply pow2_pos | exact Hvlow ]).
      lra. }
  assert (He' : (pow2 e' <= pow2 (-52) * v + pow2 (-1074))%Q).
  { apply Qle_trans with (pow2 (fexp64 X)); [ apply pow2_le; unfold e'; lia | exact HX ]. }
  split; [ | split; [ exact Ev | split; [ exact He' | ] ] ].
  - rewrite Eq. apply new_location_represents; [ lia | exact Hq | exact Hr ].
  - destruct (Z.eq_dec q 0) as [E0 | Hne].
    + rewrite E0. cbn [Zdigits2]. unfold fexp64.
      destruct (Z.max_spec (0 + e' - 53) (-1074)) as [[_ ->] | [_ ->]].
      * assert (0 <= pow2 (-52) * v)%Q by (apply Qmult_le_0_compat; [ apply Qlt_le_weak, pow2_pos | lra ]).
        lra.
      * apply Qle_trans with (pow2 e'); [ apply pow2_le; lia | exact He' ].
    + pose proof (pow2_fexp_digits q e' ltac:(lia)) as Hd.
      assert (Hqv : (inject_Z q * pow2 e' <= v)%Q).
      { rewrite <- Ev. apply Qmult_le_compat_r; [ | lra ].
        apply Qle_shift_div_l; [ exact Hmy | ].
        rewrite <- inject_Z_mult, <- Zle_Qle. nia. }
      assert (pow2 (-52) * (inject_Z q * pow2 e') <= pow2 (-52) * v)%Q
        by (apply Qmult_le_l; [ apply pow2_pos | exact Hqv ]).
      lra.
Qed.

Lemma SFdiv_bound (x : spec_float) (sy : bool) (my : positive) (ey : Z) :
  sfinite x = true ->
  (Qabs (SF2Q x / SF2Q (S754_finite sy my ey)) <= pow2 900)%Q ->
  rounds_to (SF64div x (S754_finite sy my ey)) (SF2Q x / SF2Q (S754_finite sy my ey)).
Proof.
  intros Hx Hv.
  assert (Hmy : (0 < inject_Z (Z.pos my))%Q) by (rewrite <- (Zlt_Qlt 0); lia).
  pose proof (pow2_pos ey) as Hpey.
  assert (Hsy : ~ (sgn sy == 0)%Q) by (destruct sy; discriminate).
  destruct x as [sx | sx | | sx mx ex]; try discriminate; unfold SF64div; cbn [SFdiv].
  - apply rounds_to_exact; [ reflexivity | ]. cbn [SF2Q].
    destruct sy; unfold sgn; field; split; lra.
  - pose proof (div_core_spec mx my ex ey) as Hc. cbv zeta in Hc.
    destruct (SFdiv_core_binary prec emax (Z.pos mx) ex (Z.pos my) ey) as [[q e'] l].
    cbn [fst snd] in Hc. destruct Hc as (V & Hrep & Ev & He' & Hd).
    assert (E : (SF2Q (S754_finite sx mx ex) / SF2Q (S754_finite sy my ey)
                 == sgn (xorb sx sy) * (V * pow2 e'))%Q).
    { rewrite Ev. cbn [SF2Q]. rewrite sgn_xorb.
      destruct sx, sy; unfold sgn; field; split; lra. }
    assert (Hnn : (0 <= V * pow2 e')%Q).
    { rewrite Ev. apply Qlt_le_weak, Qlt_shift_div_l.
      - apply Qmult_lt_0_compat; assumption.
      - rewrite Qmult_0_l. apply Qmult_lt_0_compat; [ | apply pow2_pos ].
        rewrite <- (Zlt_Qlt 0). lia. }
    apply (rounds_to_ext _ _ _ (Qeq_sym _ _ E)).
    rewrite E, sgn_abs in Hv by exact Hnn.
    rewrite <- Ev in He', Hd.
    destruct (binary_round_aux_bound (xorb sx sy) q e' l V Hrep (or_intror He') Hd Hv)
      as [Hf Hb].
    split; [ exact Hf | ]. rewrite sgn_abs by exact Hnn. exact Hb.
Qed.

Lemma add_rounds (x y : float) :
  ffinite x = true -> ffinite y = true ->
  (Qabs (F2Q x + F2Q y) <= pow2 900)%Q ->
  frounds (x + y) (F2Q x + F2Q y).
Proof. intros. unfold frounds. rewrite FloatAxioms.add_spec. now apply SFadd_bound. Qed.

Lemma sub_rounds (x y : float) :
  ffinite x = true -> ffinite y = true ->
  (Qabs (F2Q x - F2Q y) <= pow2 900)%Q ->
  frounds (x - y) (F2Q x - F2Q y).
Proof. intros. unfold frounds. rewrite FloatAxioms.sub_spec. now apply SFsub_bound. Qed.

Lemma mul_rounds (x y : float) :
  ffinite x = true -> ffinite y = true ->
  (Qabs (F2Q x * F2Q y) <= pow2 900)%Q ->
  frounds (x * y) (F2Q x * F2Q y).
Proof. intros. unfold frounds. rewrite FloatAxioms.mul_spec. now apply SFmul_bound. Qed.

Lemma finite_nonzero (x : spec_float) :
  sfinite x = true -> ~ (SF2Q x == 0)%Q ->
  exists s m e, x = S754_finite s m e.
Proof.
  intros Hf Hnz. destruct x as [s | s | | s m e]; try discriminate.
  - exfalso. apply Hnz. reflexivity.
  - eauto.
Qed.

Lemma div_rounds (x y : float) :
  ffinite x = true -> ffinite y = true -> ~ (F2Q y == 0)%Q ->
  (Qabs (F2Q x / F2Q y) <= pow2 900)%Q ->
  frounds (x / y) (F2Q x / F2Q y).
Proof.
  intros Hx Hy Hnz Hv. unfold frounds, F2Q in *. rewrite FloatAxioms.div_spec.
  destruct (finite_nonzero _ Hy Hnz) as (s & m & e & E).
  rewrite E in *. now apply SFdiv_bound.
Qed.

(** [float(z)] for [0 <= z < 2^63] is the primitive conversion, so its
    specification is the one of [of_uint63]. *)
Lemma Prim2SF_Z2float (z : Z) :
  0 <= z < 2 ^ 63 ->
  Prim2SF (Z2float z) = binary_normalize prec emax z 0 false.
Proof.
  intros Hz. unfold Z2float.
  assert (E : Uint63.to_Z (Uint63.of_Z z) = z).
  { rewrite Uint63.of_Z_spec. apply Z.mod_small. exact Hz. }
  rewrite <- E at 1. rewrite <- of_uint63_spec, SF2Prim_Prim2SF.
  rewrite of_uint63_spec, E. reflexivity.
Qed.

Lemma Z2float_rounds (z : Z) :
  0 <= z < 2 ^ 63 -> frounds (Z2float z) (inject_Z z).
Proof.
  intros Hz. unfold frounds. rewrite Prim2SF_Z2float by exact Hz.
  apply (rounds_to_ext _ (inject_Z z * pow2 0)); [ rewrite pow2_0; ring | ].
  apply binary_normalize_bound.
  rewrite pow2_0, Qmult_1_r, Qabs_pos by (rewrite <- (Zle_Qle 0); lia).
  apply Qle_trans with (inject_Z (2 ^ 63)); [ rewrite <- Zle_Qle; lia | ].
  rewrite <- pow2_inject by lia. apply pow2_le. lia.
Qed.

Lemma bounded_facts (m : positive) (e : Z) :
  bounded prec emax m e = true ->
  fexp64 (Z.pos (digits2_pos m) + e) = e /\ e <= 971.
Proof.
  unfold bounded, canonical_mantissa. rewrite fexp_eq.
  intros H. apply andb_true_iff in H. destruct H as [H1 H2].
  apply Z.eqb_eq in H1. apply Z.leb_le in H2.
  change (emax - prec) with 971 in H2. now split.
Qed.

(** Of two canonical mantissas, the one with the smaller exponent stands for
    the smaller number. *)
Lemma canonical_exp_lt (m1 m2 : positive) (e1 e2 : Z) :
  bounded prec emax m1 e1 = true -> bounded prec emax m2 e2 = true ->
  e1 < e2 ->
  (inject_Z (Z.pos m1) * pow2 e1 < inject_Z (Z.pos m2) * pow2 e2)%Q.
Proof.
  intros B1 B2 Hlt.
  destruct (bounded_facts _ _ B1) as [C1 _].
  destruct (bounded_facts _ _ B2) as [C2 _].
  unfold fexp64 in C1, C2.
  apply Qlt_le_trans with (pow2 (Z.pos (digits2_pos m1) + e1));
    [ apply pow2_digits_gt | ].
  apply Qle_trans with (pow2 (Z.pos (digits2_pos m2) + e2 - 1));
    [ apply pow2_le; lia | apply pow2_digits_le ].
Qed.

Lemma same_exp_le (m1 m2 : positive) (e : Z) :
  (inject_Z (Z.pos m1) * pow2 e <= inject_Z (Z.pos m2) * pow2 e)%Q
  <-> (m1 <= m2)%positive.
Proof.
  pose proof (pow2_pos e) as Hp. split.
  - intros H. apply Qmult_le_r in H; [ | exact Hp ].
    rewrite <- Zle_Qle in H. exact H.
  - intros H. apply Qmult_le_compat_r; [ | lra ].
    rewrite <- Zle_Qle. exact H.
Qed.

Lemma SFleb_pos (m1 m2 : positive) (e1 e2 : Z) :
  bounded prec emax m1 e1 = true -> bounded prec emax m2 e2 = true ->
  SFleb (S754_finite false m1 e1) (S754_finite false m2 e2) = true
  <-> (inject_Z (Z.pos m1) * pow2 e1 <= inject_Z (Z.pos m2) * pow2 e2)%Q.
Proof.
  intros B1 B2. unfold SFleb, SFcompare.
  destruct (Z.compare_spec e1 e2) as [E | E | E].
  - subst e2. rewrite same_exp_le.
    change (Pos.compare_cont Eq m1 m2) with (m1 ?= m2)%positive.
    unfold Pos.le. destruct (m1 ?= m2)%positive; split; intros H; try reflexivity;
      try discriminate; try congruence.
  - pose proof (canonical_exp_lt m1 m2 e1 e2 B1 B2 E).
    split; [ intros _; lra | reflexivity ].
  - pose proof (canonical_exp_lt m2 m1 e2 e1 B2 B1 E).
    split; [ discriminate | intros H'; lra ].
Qed.

(** [abs(x) <= c] on floats, for a positive finite [c]. *)
Lemma leb_abs_iff (x c : float) (mc : positive) (ec : Z) :
  Prim2SF c = S754_finite false mc ec ->
  PrimFloat.leb (abs x) c = true
  <-> (ffinite x = true /\ (Qabs (F2Q x) <= F2Q c)%Q).
Proof.
  intros Ec. rewrite FloatAxioms.leb_spec, FloatAxioms.abs_spec. unfold ffinite, F2Q. rewrite Ec.
  pose proof (Prim2SF_valid x) as Vx. pose proof (Prim2SF_valid c) as Vc.
  rewrite Ec in Vc. cbn [valid_binary] in Vc.
  destruct (Prim2SF x) as [s | s | | s m e]; cbn [SFabs sfinite SF2Q].
  - split; [ intros _ | reflexivity ]. split; [ reflexivity | ].
    change (Qabs 0) with 0%Q. unfold sgn. rewrite Qmult_1_l. apply mant_nonneg.
  - split; [ discriminate | intros [H _]; discriminate ].
  - split; [ discriminate | intros [H _]; discriminate ].
  - cbn [valid_binary] in Vx. rewrite (SFleb_pos m mc e ec Vx Vc).
    rewrite sgn_abs by apply mant_nonneg. unfold sgn at 1. rewrite Qmult_1_l.
    split; [ intros H; split; [ reflexivity | exact H ] | intros [_ H]; exact H ].
Qed.

Lemma eta_pos : (0 < eta)%Q.
Proof. apply pow2_pos. Qed.

Lemma eta_small : (eta <= 1 # 1000000000000000000000000000000000000000000000000)%Q.
Proof. unfold eta, pow2, Qle. vm_compute. discriminate. Qed.

Lemma pow2_900_big : (1000000000000000000000000000000 <= pow2 900)%Q.
Proof. unfold pow2, Qle. vm_compute. discriminate. Qed.

Lemma rounds_step (r : float) (e M : Q) :
  frounds r e -> (Qabs e <= M)%Q ->
  ffinite r = true
  /\ (Qabs (F2Q r - e) <= (2 # 4503599627370496) * M + eta)%Q.
Proof.
  intros [Hf Hb] HM. split; [ exact Hf | ].
  rewrite pow2_m51 in Hb. fold eta in Hb. unfold F2Q.
  apply Qle_trans with ((2 # 4503599627370496) * Qabs e + eta)%Q; [ exact Hb | ].
  assert ((2 # 4503599627370496) * Qabs e <= (2 # 4503599627370496) * M)%Q
    by (apply Qmult_le_l; [ reflexivity | exact HM ]).
  lra.
Qed.

Lemma div_abs_bound (a c A : Q) :
  (Qabs a <= A)%Q -> (1 # 2 <= c)%Q -> (Qabs (a / c) <= 2 * A)%Q.
Proof.
  intros Ha Hc. unfold Qdiv. rewrite Qabs_Qmult.
  assert (Hc0 : (0 < c)%Q) by lra.
  assert (Hinv : (0 < / c)%Q) by (apply Qinv_lt_0_compat; exact Hc0).
  rewrite (Qabs_pos (/ c)) by lra.
  assert (Hi2 : (/ c <= 2)%Q).
  { apply Qle_shift_inv_r; [ exact Hc0 | lra ]. }
  pose proof (Qabs_nonneg a) as Ha0.
  setoid_replace (Qabs a * / c)%Q with (/ c * Qabs a)%Q by ring.
  apply Qle_trans with (2 * Qabs a)%Q; [ | lra ].
  apply Qmult_le_compat_r; assumption.
Qed.

(** Dividing by [c], rounding, and multiplying back by [c]. *)
Lemma div_mul_back (r : float) (a c C M : Q) :
  frounds r (a / c) -> (0 < c)%Q -> (c <= C)%Q -> (Qabs a <= M)%Q ->
  (Qabs (F2Q r * c - a) <= (2 # 4503599627370496) * M + eta * C)%Q.
Proof.
  intros [_ Hb] Hc HC HM. rewrite pow2_m51 in Hb. fold eta in Hb. fold (F2Q r) in Hb.
  assert (E1 : (F2Q r * c - a == (F2Q r - a / c) * c)%Q) by (field; lra).
  rewrite E1, Qabs_Qmult, (Qabs_pos c) by lra.
  assert (E2 : (Qabs (a / c) * c == Qabs a)%Q).
  { unfold Qdiv. rewrite Qabs_Qmult.
    assert (Hinv : (0 < / c)%Q) by (apply Qinv_lt_0_compat; exact Hc).
    rewrite (Qabs_pos (/ c)) by lra. field. lra. }
  apply Qle_trans with (((2 # 4503599627370496) * Qabs (a / c) + eta) * c)%Q.
  - apply Qmult_le_compat_r; [ exact Hb | lra ].
  - setoid_replace (((2 # 4503599627370496) * Qabs (a / c) + eta) * c)%Q
      with ((2 # 4503599627370496) * (Qabs (a / c) * c) + eta * c)%Q by ring.
    rewrite E2. pose proof eta_pos as He.
    assert (eta * c <= eta * C)%Q by (apply Qmult_le_l; assumption).
    assert ((2 # 4503599627370496) * Qabs a <= (2 # 4503599627370496) * M)%Q
      by (apply Qmult_le_l; [ reflexivity | exact HM ]).
    lra.
Qed.

Lemma F2Q_bound : (F2Q coordinate_bound == 100000000)%Q.
Proof. unfold F2Q, Qeq. vm_compute. reflexivity. Qed.

Lemma Prim2SF_bound :
  Prim2SF coordinate_bound = S754_finite false 6710886400000000 (-26).
Proof. vm_compute. reflexivity. Qed.

Lemma Prim2SF_tolerance :
  Prim2SF tolerance = S754_finite false 4722366482869645 (-72).
Proof. vm_compute. reflexivity. Qed.

Lemma F2Q_tolerance : (F2Q tolerance == 4722366482869645 # 4722366482869645213696)%Q.
Proof. unfold F2Q, Qeq. vm_compute. reflexivity. Qed.

Lemma F2Q_two : (F2Q two == 2)%Q.
Proof. unfold F2Q, Qeq. vm_compute. reflexivity. Qed.

Lemma ffinite_two : ffinite two = true.
Proof. vm_compute. reflexivity. Qed.

Lemma within_900 (e : Q) :
  (Qabs e <= 1000000000000000000000000000000)%Q -> (Qabs e <= pow2 900)%Q.
Proof. intros H. eapply Qle_trans; [ exact H | apply pow2_900_big ]. Qed.

Lemma Qabs_lin (a K : Q) : (Qabs a <= K)%Q <-> (- K <= a /\ a <= K)%Q.
Proof. apply Qabs_Qle_condition. Qed.

Lemma half_as_product (a : Q) : (a / 2 == (1 # 2) * a)%Q.
Proof. field. Qed.

(** One rounding on top of an error [K] already made. *)
Lemma near_step (r : float) (e t K M K' : Q) :
  frounds r e -> (Qabs (e - t) <= K)%Q -> (Qabs t <= M)%Q ->
  (K + (1 # 2000000000000000) * (M + K)
     + (1 # 1000000000000000000000000000000000000000000000000) <= K')%Q ->
  near r t K'.
Proof.
  intros Hr He Ht HK.
  assert (Hm : (Qabs e <= M + K)%Q).
  { apply Qabs_lin in He, Ht. apply Qabs_lin. lra. }
  destruct (rounds_step r e (M + K) Hr Hm) as [Hf Hb].
  split; [ exact Hf | ].
  pose proof eta_small as Hs. pose proof (Qabs_nonneg e) as H0.
  assert (Hu : ((2 # 4503599627370496) * (M + K)
                <= (1 # 2000000000000000) * (M + K))%Q).
  { apply Qmult_le_compat_r; [ unfold Qle; vm_compute; discriminate | lra ]. }
  apply Qabs_lin in He, Hb. apply Qabs_lin.
  set (P := ((2 # 4503599627370496) * (M + K))%Q) in *.
  set (P' := ((1 # 2000000000000000) * (M + K))%Q) in *.
  clearbody P P'. lra.
Qed.

Lemma near_magnitude (r : float) (t K M : Q) :
  near r t K -> (Qabs t <= M)%Q -> (Qabs (F2Q r) <= M + K)%Q.
Proof.
  intros [_ Hn] Ht. apply Qabs_lin in Hn, Ht. apply Qabs_lin. lra.
Qed.

Lemma near_ext (r : float) (t t' K : Q) :
  (t == t')%Q -> near r t K -> near r t' K.
Proof. intros E [Hf Hn]. split; [ exact Hf | ]. rewrite <- E. exact Hn. Qed.

Lemma near_self (x : float) : ffinite x = true -> near x (F2Q x) 0.
Proof.
  intros Hf. split; [ exact Hf | ].
  setoid_replace (F2Q x - F2Q x)%Q with 0%Q by ring. discriminate.
Qed.

Lemma add_near (a b : float) (ta tb Ka Kb M K' : Q) :
  near a ta Ka -> near b tb Kb -> (Qabs (ta + tb) <= M)%Q ->
  (M + Ka + Kb <= 1000000000000000000000000000000)%Q ->
  (Ka + Kb + (1 # 2000000000000000) * (M + (Ka + Kb))
     + (1 # 1000000000000000000000000000000000000000000000000) <= K')%Q ->
  near (a + b) (ta + tb) K'.
Proof.
  intros [Fa Na] [Fb Nb] Ht Hbig HK.
  assert (He : (Qabs (F2Q a + F2Q b - (ta + tb)) <= Ka + Kb)%Q).
  { apply Qabs_lin in Na, Nb. apply Qabs_lin. lra. }
  apply (near_step _ (F2Q a + F2Q b) _ (Ka + Kb) M); try assumption.
  apply add_rounds; try assumption. apply within_900.
  apply Qabs_lin in He, Ht. apply Qabs_lin. lra.
Qed.

Lemma sub_near (a b : float) (ta tb Ka Kb M K' : Q) :
  near a ta Ka -> near b tb Kb -> (Qabs (ta - tb) <= M)%Q ->
  (M + Ka + Kb <= 1000000000000000000000000000000)%Q ->
  (Ka + Kb + (1 # 2000000000000000) * (M + (Ka + Kb))
     + (1 # 1000000000000000000000000000000000000000000000000) <= K')%Q ->
  near (a - b) (ta - tb) K'.
Proof.
  intros [Fa Na] [Fb Nb] Ht Hbig HK.
  assert (He : (Qabs (F2Q a - F2Q b - (ta - tb)) <= Ka + Kb)%Q).
  { apply Qabs_lin in Na, Nb. apply Qabs_lin. lra. }
  apply (near_step _ (F2Q a - F2Q b) _ (Ka + Kb) M); try assumption.
  apply sub_rounds; try assumption. apply within_900.
  apply Qabs_lin in He, Ht. apply Qabs_lin. lra.
Qed.

Lemma half_near (a : float) (t K M K' : Q) :
  near a t K -> (Qabs t <= M)%Q ->
  (M + K <= 1000000000000000000000000000000)%Q ->
  ((1 # 2) * K + (1 # 2000000000000000) * ((1 # 2) * M + (1 # 2) * K)
     + (1 # 1000000000000000000000000000000000000000000000000) <= K')%Q ->
  near (a / two) ((1 # 2) * t) K'.
Proof.
  intros [Fa Na] Ht Hbig HK.
  assert (E : (F2Q a / F2Q two == (1 # 2) * F2Q a)%Q).
  { rewrite F2Q_two. apply half_as_product. }
  apply (near_step _ (F2Q a / F2Q two) _ ((1 # 2) * K) ((1 # 2) * M)).
  - apply div_rounds; [ exact Fa | exact ffinite_two | | ].
    + rewrite F2Q_two. discriminate.
    + rewrite E. apply within_900.
      apply Qabs_lin in Na, Ht. apply Qabs_lin. lra.
  - rewrite E. apply Qabs_lin in Na. apply Qabs_lin. lra.
  - apply Qabs_lin in Ht. apply Qabs_lin. lra.
  - exact HK.
Qed.

(** Divide by the image dimension, multiply back. *)
Lemma scale_near (a Wf : float) (t K M K' : Q) :
  near a t K -> (Qabs t <= M)%Q ->
  ffinite Wf = true -> (1 # 2 <= F2Q Wf)%Q ->
  (F2Q Wf <= 18446744073709551616)%Q ->
  (M + K <= 10000000000000000000000000000)%Q ->
  (K + (11 # 10000000000000000) * (M + K)
     + (1 # 100000000000000000000) <= K')%Q ->
  near (a / Wf * Wf) t K'.
Proof.
  intros [Fa Na] Ht FW HWl HWu Hbig HK.
  assert (Hm : (Qabs (F2Q a) <= M + K)%Q).
  { apply Qabs_lin in Na, Ht. apply Qabs_lin. lra. }
  assert (HS : (0 <= M + K)%Q).
  { pose proof (Qabs_nonneg (F2Q a)). lra. }
  assert (Rd : frounds (a / Wf) (F2Q a / F2Q Wf)).
  { apply div_rounds; [ exact Fa | exact FW | | ].
    - intros E. rewrite E in HWl. lra.
    - apply within_900. pose proof (div_abs_bound _ _ _ Hm HWl). lra. }
  assert (Hb := div_mul_back _ _ _ 18446744073709551616 _ Rd
                  ltac:(lra) HWu Hm).
  pose proof eta_small as Hs. pose proof eta_pos as Hp.
  set (v := (F2Q (a / Wf) * F2Q Wf)%Q) in *.
  apply (near_step _ v _
           (K + (1 # 2000000000000000) * (M + K)
              + (1 # 10000000000000000000000000000)) M).
  - apply mul_rounds; [ apply Rd | exact FW | ]. fold v. apply within_900.
    apply Qabs_lin in Hb, Hm. apply Qabs_lin.
    set (e := eta) in *. clearbody e v. lra.
  - apply Qabs_lin in Hb, Na. apply Qabs_lin.
    set (e := eta) in *. clearbody e v. lra.
  - exact Ht.
  - clear - HK HS. lra.
Qed.

(** The float of an image dimension is finite and at least one half. *)
Lemma dimension_float (W : Z) :
  1 <= W < 2 ^ 63 ->
  ffinite (Z2float W) = true
  /\ (1 # 2 <= F2Q (Z2float W))%Q
  /\ (F2Q (Z2float W) <= 18446744073709551616)%Q.
Proof.
  intros HW. destruct (Z2float_rounds W ltac:(lia)) as [Hf Hb].
  fold (F2Q (Z2float W)) in Hb. rewrite pow2_m51 in Hb. fold eta in Hb.
  assert (H1 : (1 <= inject_Z W)%Q) by (change 1%Q with (inject_Z 1); rewrite <- Zle_Qle; lia).
  assert (H2 : (inject_Z W <= 9223372036854775808)%Q).
  { change 9223372036854775808%Q with (inject_Z (2 ^ 63)). rewrite <- Zle_Qle. lia. }
  rewrite (Qabs_pos (inject_Z W)) in Hb by lra.
  pose proof eta_small as Hs. apply Qabs_lin in Hb.
  split; [ exact Hf | ].
  set (e := eta) in *. set (q := inject_Z W) in *. set (f := F2Q (Z2float W)) in *.
  clearbody e q f. split; lra.
Qed.

(** A difference known to be small passes the tolerance test. *)
Lemma close_of_near (a b : float) (K : Q) :
  near (a - b) 0 K -> (K <= 9 # 10000000)%Q -> close tolerance a b = true.
Proof.
  intros [Hf Hn] HK. unfold close.
  apply (leb_abs_iff _ _ _ _ Prim2SF_tolerance). split; [ exact Hf | ].
  rewrite F2Q_tolerance.
  apply Qabs_lin in Hn. apply Qabs_lin.
  assert ((9 # 10000000) <= 4722366482869645 # 4722366482869645213696)%Q
    by (unfold Qle; vm_compute; discriminate).
  lra.
Qed.

(** One axis of the round trip: corner [x] and extent [w], scaled by the
    dimension [Wf].  The eight roundings add up to less than [4.3e-7] for
    the corner and [1.2e-7] for the extent. *)
Lemma axis_round_trip (x w Wf : float) :
  PrimFloat.leb (abs x) coordinate_bound = true ->
  PrimFloat.leb (abs w) coordinate_bound = true ->
  ffinite Wf = true -> (1 # 2 <= F2Q Wf)%Q ->
  (F2Q Wf <= 18446744073709551616)%Q ->
  close tolerance x ((x + w / two) / Wf * Wf - w / Wf * Wf / two)%float = true
  /\ close tolerance w (w / Wf * Wf)%float = true.
Proof.
  intros Hx Hw FW HWl HWu.
  apply (leb_abs_iff _ _ _ _ Prim2SF_bound) in Hx, Hw.
  destruct Hx as [Fx Bx], Hw as [Fw Bw]. rewrite F2Q_bound in Bx, Bw.
  pose proof (near_self x Fx) as Nx. pose proof (near_self w Fw) as Nw.
  set (qx := F2Q x) in *. set (qw := F2Q w) in *.
  assert (Bh : (Qabs ((1 # 2) * qw) <= 50000000)%Q).
  { apply Qabs_lin in Bw. apply Qabs_lin. lra. }
  assert (Bc : (Qabs (qx + (1 # 2) * qw) <= 150000000)%Q).
  { apply Qabs_lin in Bx, Bw. apply Qabs_lin. lra. }
  (* forward: half width, center *)
  assert (N1 : near (w / two) ((1 # 2) * qw) (3 # 100000000)).
  { apply (half_near _ _ 0 100000000); [ exact Nw | exact Bw | lra | lra ]. }
  assert (N2 : near (x + w / two) (qx + (1 # 2) * qw) (11 # 100000000)).
  { apply (add_near _ _ _ _ 0 (3 # 100000000) 150000000);
      [ exact Nx | exact N1 | exact Bc | lra | lra ]. }
  (* divide by the dimension and multiply back *)
  assert (N4 : near ((x + w / two) / Wf * Wf) (qx + (1 # 2) * qw)
                 (28 # 100000000)).
  { apply (scale_near _ _ _ (11 # 100000000) 150000000);
      [ exact N2 | exact Bc | exact FW | exact HWl | exact HWu | lra | lra ]. }
  assert (N6 : near (w / Wf * Wf) qw (12 # 100000000)).
  { apply (scale_near _ _ _ 0 100000000);
      [ exact Nw | exact Bw | exact FW | exact HWl | exact HWu | lra | lra ]. }
  (* inverse: half width, corner *)
  assert (N7 : near (w / Wf * Wf / two) ((1 # 2) * qw) (9 # 100000000)).
  { apply (half_near _ _ (12 # 100000000) 100000000);
      [ exact N6 | exact Bw | lra | lra ]. }
  assert (N8 : near ((x + w / two) / Wf * Wf - w / Wf * Wf / two) qx
                 (43 # 100000000)).
  { apply (near_ext _ (qx + (1 # 2) * qw - (1 # 2) * qw)); [ ring | ].
    apply (sub_near _ _ _ _ (28 # 100000000) (9 # 100000000) 100000000);
      [ exact N4 | exact N7 | | lra | lra ].
    setoid_replace (qx + (1 # 2) * qw - (1 # 2) * qw)%Q with qx by ring.
    exact Bx. }
  split.
  - apply (close_of_near _ _ (5 # 10000000)); [ | lra ].
    apply (near_ext _ (qx - qx)); [ ring | ].
    apply (sub_near _ _ _ _ 0 (43 # 100000000) 0);
      [ exact Nx | exact N8 | | lra | lra ].
    setoid_replace (qx - qx)%Q with 0%Q by ring. discriminate.
  - apply (close_of_near _ _ (5 # 10000000)); [ | lra ].
    apply (near_ext _ (qw - qw)); [ ring | ].
    apply (sub_near _ _ _ _ 0 (12 # 100000000) 0);
      [ exact Nw | exact N6 | | lra | lra ].
    setoid_replace (qw - qw)%Q with 0%Q by ring. discriminate.
Qed.

(* ================================================================== *)
(** * Properties of [coco_to_yolo] *)
(* ================================================================== *)

Section CocoToYoloFacts.
Context {T : Type} {N : Num T} {L : Lib} {F : FS}.

Lemma differ_by_bind_l {A B : Type} (e : event T) (m m' : W T A)
  (k : A -> W T B) :
  differ_by e m m' -> differ_by e (wbind m k) (wbind m' k).
Proof.
  destruct m as [t o], m' as [t' o']. intros [Ho Ht]. simpl in Ho. subst o'.
  destruct o as [a | err]; simpl.
  - destruct (k a) as [tk ok] eqn:Ek. split; [ reflexivity | ]. simpl.
    destruct Ht as [[_ [err Herr]] | (t1 & t2 & E' & E)]; [ discriminate | ].
    simpl in E, E'. subst t t'. right. exists t1, (t2 ++ tk)%list.
    simpl. rewrite <- !app_assoc. split; reflexivity.
  - split; [ reflexivity | ]. simpl in *.
    destruct Ht as [[Et _] | Hins]; [ left; eauto | right; exact Hins ].
Qed.

Lemma differ_by_bind_r {A B : Type} (e : event T) (m : W T A)
  (k k' : A -> W T B) :
  (forall a, differ_by e (k a) (k' a)) -> differ_by e (wbind m k) (wbind m k').
Proof.
  intros Hk. destruct m as [t [a | err]]; simpl.
  - specialize (Hk a). destruct (k a) as [tk ok], (k' a) as [tk' ok'].
    destruct Hk as [Ho Ht]. simpl in Ho, Ht. subst ok'. split; [ reflexivity | ].
    simpl. destruct Ht as [[Et Herr] | (t1 & t2 & E' & E)].
    + left. subst tk'. split; [ reflexivity | exact Herr ].
    + right. exists (t ++ t1)%list, t2. subst tk tk'.
      rewrite <- !app_assoc. split; reflexivity.
  - split; [ reflexivity | ]. left. split; [ reflexivity | ].
    exists err. reflexivity.
Qed.

Lemma for_each_differ_by {A : Type} (f : A -> W T unit) (e : event T)
  (pre post : list A) (bad : A) :
  f bad = ([e], Ok tt) ->
  differ_by e (for_each f (pre ++ bad :: post)) (for_each f (pre ++ post)).
Proof.
  intros Hbad. induction pre as [| a pre IH]; simpl.
  - rewrite Hbad. simpl. destruct (for_each f post) as [t o].
    split; [ reflexivity | ]. right. exists [], t. split; reflexivity.
  - apply differ_by_bind_r. intros _. exact IH.
Qed.

Lemma usable_dims_missing (w h : option Z) :
  dimension_missing w = true \/ dimension_missing h = true ->
  usable_dims w h = None.
Proof.
  unfold usable_dims, dimension_missing.
  destruct w as [w |], h as [h |]; try reflexivity.
  intros [E | E]; rewrite E; simpl; try reflexivity.
  now rewrite orb_true_r.
Qed.

(** An image whose width or height resolves to nothing or to zero leaves
    one warning and nothing else, and does not raise. *)
Lemma convert_image_missing_dimensions (out : string) (cats : pydict Z string)
  (c2i : pydict string Z) (groups : pydict Z (list (annotation T)))
  (dw dh : option Z) (im : image) (id : Z) (name : string) :
  img_id im = Some id ->
  img_file_name im = Some name ->
  dimension_missing (resolve_dim (img_width im) dw) = true
  \/ dimension_missing (resolve_dim (img_height im) dh) = true ->
  convert_image out cats c2i groups dw dh im =
  ([Log (missing_dimensions_warning (path_stem name))], Ok tt).
Proof.
  intros Hid Hname Hdim. unfold convert_image.
  rewrite Hid, Hname. simpl.
  rewrite (usable_dims_missing _ _ Hdim). reflexivity.
Qed.

Lemma writes_app (t1 t2 : list (event T)) :
  writes (t1 ++ t2) = (writes t1 ++ writes t2)%list.
Proof. unfold writes. apply flat_map_app. Qed.

Lemma log_calls_app (t1 t2 : list (event T)) :
  log_calls (t1 ++ t2) = (log_calls t1 ++ log_calls t2)%list.
Proof. unfold log_calls. apply flat_map_app. Qed.

Lemma inserted_log_writes (m : string) (t' t : list (event T)) :
  inserted (Log m) t' t -> writes t = writes t'.
Proof.
  intros (t1 & t2 & -> & ->). rewrite !writes_app. reflexivity.
Qed.

Lemma inserted_snoc {A : Type} (e x : A) (t' t : list A) :
  inserted e t' t -> inserted e (t' ++ [x]) (t ++ [x]).
Proof.
  intros (t1 & t2 & -> & ->). exists t1, (t2 ++ [x])%list.
  rewrite <- !app_assoc. split; reflexivity.
Qed.

End CocoToYoloFacts.

Section MissingDimensions.
Context {T : Type} {N : Num T} {L : Lib} {F : FS}.

Lemma coco_to_yolo_body_differ_by (d : coco_data T) (out : string)
  (dw dh : option Z) (pre post : list image) (bad : image) (id : Z)
  (name : string) :
  images d = Some (pre ++ bad :: post)%list ->
  img_id bad = Some id ->
  img_file_name bad = Some name ->
  dimension_missing (resolve_dim (img_width bad) dw) = true
  \/ dimension_missing (resolve_dim (img_height bad) dh) = true ->
  differ_by (Log (missing_dimensions_warning (path_stem name)))
    (coco_to_yolo_body d out dw dh)
    (coco_to_yolo_body (with_images d (pre ++ post)%list) out dw dh).
Proof.
  intros Himgs Hid Hname Hdim. unfold coco_to_yolo_body, with_images.
  rewrite Himgs. cbn [images annotations categories get_list].
  apply differ_by_bind_r; intros _.
  apply differ_by_bind_r; intros _.
  apply differ_by_bind_r; intros cats.
  apply differ_by_bind_r; intros groups.
  apply differ_by_bind_l.
  apply for_each_differ_by.
  eapply convert_image_missing_dimensions; eassumption.
Qed.

(** C4, amended. An image record that has its [id] and [file_name] and
    whose width or height resolves (image record first, caller's default
    otherwise) to nothing or to zero is skipped: the conversion returns what
    it returns without that record and writes exactly the same files, and a
    conversion that returns [True] has logged one more warning, for that
    image. *)
Theorem missing_dimensions_skips_that_image_only (d : coco_data T)
  (out : string) (dw dh : option Z) (pre post : list image) (bad : image)
  (id : Z) (name : string) :
  images d = Some (pre ++ bad :: post)%list ->
  img_id bad = Some id ->
  img_file_name bad = Some name ->
  dimension_missing (resolve_dim (img_width bad) dw) = true
  \/ dimension_missing (resolve_dim (img_height bad) dh) = true ->
  snd (coco_to_yolo d out dw dh)
  = snd (coco_to_yolo (with_images d (pre ++ post)%list) out dw dh)
  /\ writes (fst (coco_to_yolo d out dw dh))
     = writes (fst (coco_to_yolo (with_images d (pre ++ post)%list) out dw dh))
  /\ (snd (coco_to_yolo d out dw dh) = true ->
      inserted (Log (missing_dimensions_warning (path_stem name)))
        (fst (coco_to_yolo (with_images d (pre ++ post)%list) out dw dh))
        (fst (coco_to_yolo d out dw dh))).
Proof.
  intros Himgs Hid Hname Hdim.
  pose proof (coco_to_yolo_body_differ_by d out dw dh pre post bad id name
                Himgs Hid Hname Hdim) as [Ho Ht].
  unfold coco_to_yolo.
  destruct (coco_to_yolo_body d out dw dh) as [t o].
  destruct (coco_to_yolo_body (with_images d (pre ++ post)%list) out dw dh) as [t' o'].
  simpl in Ho, Ht. subst o'.
  destruct o as [u | err]; simpl.
  - destruct Ht as [[_ [err Herr]] | Hins]; [ discriminate | ].
    repeat split; [ eapply inserted_log_writes; exact Hins | intros _; exact Hins ].
  - repeat split; [ | discriminate ].
    destruct Ht as [[Et _] | Hins].
    + subst t'. reflexivity.
    + rewrite !writes_app. f_equal. eapply inserted_log_writes; exact Hins.
Qed.

End MissingDimensions.

Section MissingDimensionsRuns.
Import Run Data Data4.

(** The second of three images has no dimensions and no default is given:
    the outcome, the files and the trace are as the theorem says. *)
Lemma missing_dimensions_middle_image :
  images middle_unsized
    = Some ([img 1 "a.jpg" 100 100] ++ no_dims 2 "b.jpg" :: [img 3 "c.jpg" 50 50])%list
  /\ snd (coco_to_yolo middle_unsized "out" None None)
     = snd (coco_to_yolo
              (with_images middle_unsized
                 ([img 1 "a.jpg" 100 100] ++ [img 3 "c.jpg" 50 50])%list)
              "out" None None)
  /\ writes (fst (coco_to_yolo middle_unsized "out" None None))
     = writes (fst (coco_to_yolo
                      (with_images middle_unsized
                         ([img 1 "a.jpg" 100 100] ++ [img 3 "c.jpg" 50 50])%list)
                      "out" None None))
  /\ (snd (coco_to_yolo middle_unsized "out" None None) = true ->
      inserted (Log (missing_dimensions_warning (path_stem "b.jpg")))
        (fst (coco_to_yolo
                (with_images middle_unsized
                   ([img 1 "a.jpg" 100 100] ++ [img 3 "c.jpg" 50 50])%list)
                "out" None None))
        (fst (coco_to_yolo middle_unsized "out" None None))).
Proof.
  split; [ reflexivity | ].
  apply (missing_dimensions_skips_that_image_only (T := float) middle_unsized
           "out" None None [img 1 "a.jpg" 100 100] [img 3 "c.jpg" 50 50]
           (no_dims 2 "b.jpg") 2 "b.jpg");
    [ reflexivity | reflexivity | reflexivity | left; reflexivity ].
Defined.

(** C4, as stated, fails for a negative dimension: the image of width
    [-100] is converted, its line written with negative normalized values,
    and no warning is logged. *)
Lemma negative_width_is_converted :
  coco_to_yolo negative_width "out" None None =
  ([MakeDirs "out";
    WriteFile "out/a.txt"
      (LabelFile [Build_yolo_line 0
                    (Build_center_box (-0.25)%float 0.4%float (-0.3)%float 0.4%float)]);
    WriteFile "out/classes.txt" (ClassesFile ["cat"]);
    Log "Successfully converted COCO to YOLO format in out"],
   true).
Proof. vm_compute. reflexivity. Qed.

End MissingDimensionsRuns.

Section MissingKeys.
Import Run Data.

(** C3, as stated, fails: without ["categories"] the conversion does not
    fail; it returns [True] and writes the image's line (with class 0) and an
    empty class list. *)
Lemma missing_categories_still_converts :
  categories no_categories = None
  /\ coco_to_yolo no_categories "out" None None =
     ([MakeDirs "out";
       WriteFile "out/a.txt"
         (LabelFile [Build_yolo_line 0
                       (Build_center_box 0.25%float 0.4%float 0.3%float 0.4%float)]);
       WriteFile "out/classes.txt" (ClassesFile []);
       Log "Successfully converted COCO to YOLO format in out"],
      true).
Proof. split; [ reflexivity | vm_compute; reflexivity ]. Qed.

(** C3, amended. [coco_to_yolo] has no required-key check: a missing
    top-level key reads as an empty list, so a dataset converts exactly like
    the one in which each missing key holds [[]]; with all three keys
    missing, and when the output directory and [classes.txt] can be
    created, it creates the directory, writes an empty class list and
    returns [True]. *)
Theorem missing_keys_read_as_empty_lists :
  (forall (T : Type) (N : Num T) (L : Lib) (F : FS) (d : coco_data T)
          (out : string) (dw dh : option Z),
      coco_to_yolo (F := F) d out dw dh
      = coco_to_yolo (F := F) (with_empty_defaults d) out dw dh)
  /\ (forall (T : Type) (N : Num T) (L : Lib) (F : FS) (out : string)
             (dw dh : option Z),
         makedirs out = Ok tt ->
         open_write (path_join out "classes.txt") = Ok tt ->
         coco_to_yolo (T := T) (F := F)
           {| images := None; annotations := None; categories := None |}
           out dw dh =
         ([MakeDirs out;
           WriteFile (path_join out "classes.txt") (ClassesFile []);
           Log ("Successfully converted COCO to YOLO format in " ++ out)],
          true)).
Proof.
  split.
  - intros T N L F [imgs anns cats] out dw dh.
    destruct imgs, anns, cats; reflexivity.
  - intros T N L F out dw dh Hdir Hfile.
    unfold coco_to_yolo, coco_to_yolo_body, write_file.
    cbn [get_list images annotations categories build_categories
         group_annotations for_each build_category_to_id].
    rewrite Hdir, Hfile. reflexivity.
Qed.

End MissingKeys.

(* ================================================================== *)
(** * Facts about dictionaries *)
(* ================================================================== *)

Section DictFacts.
Context {K V : Type} (eqb : K -> K -> bool).
Hypothesis eqb_eq : forall a b, eqb a b = true <-> a = b.

Lemma eqb_refl_of_spec (a : K) : eqb a a = true.
Proof. apply eqb_eq. reflexivity. Qed.

Lemma dict_get_set_same (d : pydict K V) (k : K) (v : V) :
  dict_get eqb (dict_set eqb d k v) k = Some v.
Proof.
  induction d as [| [k' v'] d IH]; simpl.
  - now rewrite eqb_refl_of_spec.
  - destruct (eqb k' k) eqn:E; simpl; rewrite E; auto.
Qed.

Lemma dict_get_set_other (d : pydict K V) (k k' : K) (v : V) :
  k <> k' -> dict_get eqb (dict_set eqb d k v) k' = dict_get eqb d k'.
Proof.
  intros Hne. induction d as [| [k0 v0] d IH]; simpl.
  - destruct (eqb k k') eqn:E; [ apply eqb_eq in E; contradiction | reflexivity ].
  - destruct (eqb k0 k) eqn:E; simpl.
    + apply eqb_eq in E. subst k0.
      destruct (eqb k k') eqn:E'; [ apply eqb_eq in E'; contradiction | reflexivity ].
    + destruct (eqb k0 k'); [ reflexivity | exact IH ].
Qed.

Lemma dict_values_set (d : pydict K V) (k : K) (v x : V) :
  In x (dict_values (dict_set eqb d k v)) -> x = v \/ In x (dict_values d).
Proof.
  unfold dict_values. induction d as [| [k0 v0] d IH]; simpl.
  - intros [E | []]. left. now symmetry.
  - destruct (eqb k0 k); simpl.
    + intros [E | Hin]; [ left; now symmetry | right; right; exact Hin ].
    + intros [E | Hin]; [ right; left; exact E | ].
      destruct (IH Hin) as [E | Hin']; [ left; exact E | right; right; exact Hin' ].
Qed.

Lemma dict_get_fold_set_none {A : Type} (key : A -> K) (val : A -> V)
  (l : list A) (acc : pydict K V) (k : K) :
  dict_get eqb acc k = None ->
  ~ In k (map key l) ->
  dict_get eqb
    (fold_left (fun acc a => dict_set eqb acc (key a) (val a)) l acc) k = None.
Proof.
  revert acc. induction l as [| a l IH]; simpl; intros acc Hacc Hnin.
  - exact Hacc.
  - apply IH.
    + rewrite dict_get_set_other; [ exact Hacc | ]. intros E. apply Hnin. now left.
    + intros Hin. apply Hnin. now right.
Qed.

End DictFacts.

Lemma Z_eqb_spec' (a b : Z) : (a =? b) = true <-> a = b.
Proof. apply Z.eqb_eq. Qed.

Lemma String_eqb_spec' (a b : string) : (a =? b)%string = true <-> a = b.
Proof. apply String.eqb_eq. Qed.

Lemma map_snd_enumerate_from {A : Type} (l : list A) (i : Z) :
  map snd (enumerate_from i l) = l.
Proof.
  revert i. induction l as [| a l IH]; simpl; intros i; [ | rewrite IH ]; reflexivity.
Qed.


(* ================================================================== *)
(** * The class index of an unlisted category *)
(* ================================================================== *)

Section UnknownCategory.
Context {T : Type} {N : Num T}.

Lemma build_categories_get_none (cl : list category) (acc cats : pydict Z string)
  (c : Z) :
  build_categories cl acc = Ok cats ->
  dict_get Z.eqb acc c = None ->
  (forall cat, In cat cl -> cat_id cat <> Some c) ->
  dict_get Z.eqb cats c = None.
Proof.
  revert acc. induction cl as [| cat cl IH]; simpl; intros acc Hb Hacc Hnin.
  - now inversion Hb; subst.
  - destruct (cat_id cat) as [id |] eqn:Eid; simpl in Hb; [ | discriminate ].
    destruct (cat_name cat) as [name |] eqn:Ename; simpl in Hb; [ | discriminate ].
    eapply IH; [ exact Hb | | intros; apply Hnin; now right ].
    rewrite (dict_get_set_other Z.eqb Z_eqb_spec'); [ exact Hacc | ].
    intros E. subst id. apply (Hnin cat); [ now left | exact Eid ].
Qed.

Lemma build_categories_values (cl : list category) (acc cats : pydict Z string)
  (name : string) :
  build_categories cl acc = Ok cats ->
  In name (dict_values cats) ->
  In name (dict_values acc) \/ exists cat, In cat cl /\ cat_name cat = Some name.
Proof.
  revert acc. induction cl as [| cat cl IH]; simpl; intros acc Hb Hin.
  - inversion Hb; subst. now left.
  - destruct (cat_id cat) as [id |] eqn:Eid; simpl in Hb; [ | discriminate ].
    destruct (cat_name cat) as [nm |] eqn:Ename; simpl in Hb; [ | discriminate ].
    destruct (IH _ Hb Hin) as [Hacc | (cat' & Hc & Hn)].
    + apply dict_values_set in Hacc. destruct Hacc as [-> | Hacc].
      * right. exists cat. split; [ now left | exact Ename ].
      * now left.
    + right. exists cat'. split; [ now right | exact Hn ].
Qed.

Lemma category_to_id_unregistered (cats : pydict Z string) (name : string) :
  ~ In name (dict_values cats) ->
  dict_get String.eqb (build_category_to_id cats) name = None.
Proof.
  intros Hnin. unfold build_category_to_id.
  apply (dict_get_fold_set_none String.eqb String_eqb_spec' snd fst);
    [ reflexivity | ].
  unfold enumerate. now rewrite map_snd_enumerate_from.
Qed.

(** C10, amended. For an annotation whose [category_id] is not an id of
    the dataset's categories, the class index on its line is whatever the
    registry holds for the name ["unknown"], with default 0; when no category
    of the dataset is itself named ["unknown"], that name is not in the
    registry and the index is 0. *)
Theorem unlisted_category_gets_fallback_class (d : coco_data T)
  (cats : pydict Z string) (a : annotation T) (c W H : Z) (line : yolo_line T) :
  build_categories (get_list (categories d)) [] = Ok cats ->
  ann_category_id a = Some c ->
  (forall cat, In cat (get_list (categories d)) -> cat_id cat <> Some c) ->
  convert_annotation cats (build_category_to_id cats) W H a = Ok line ->
  class_id line
  = dict_get_default String.eqb (build_category_to_id cats) "unknown" 0
  /\ ((forall cat, In cat (get_list (categories d)) ->
                   cat_name cat <> Some "unknown") ->
      dict_mem String.eqb (build_category_to_id cats) "unknown" = false
      /\ class_id line = 0).
Proof.
  intros Hb Hc Hnin Hline.
  assert (Hget : dict_get Z.eqb cats c = None)
    by (eapply build_categories_get_none; [ exact Hb | reflexivity | exact Hnin ]).
  assert (Hcls : class_id line
                 = dict_get_default String.eqb (build_category_to_id cats) "unknown" 0).
  { unfold convert_annotation in Hline. rewrite Hc in Hline.
    destruct (ann_bbox a) as [l |]; simpl in Hline; [ | discriminate ].
    destruct (bbox_of_list l) as [b | err]; simpl in Hline; [ | discriminate ].
    inversion Hline; subst line. simpl.
    unfold resolve_class, dict_get_default at 2. now rewrite Hget. }
  split; [ exact Hcls | ]. intros Hnames.
  assert (Hreg : dict_get String.eqb (build_category_to_id cats) "unknown" = None).
  { apply category_to_id_unregistered. intros Hin.
    destruct (build_categories_values _ _ _ _ Hb Hin) as [[] | (cat & Hcat & Hn)].
    exact (Hnames cat Hcat Hn). }
  split.
  - unfold dict_mem. now rewrite Hreg.
  - rewrite Hcls. unfold dict_get_default. now rewrite Hreg.
Qed.

End UnknownCategory.

Section UnknownCategoryRuns.
Import Run Data10.

(** The theorem at the dataset [unlisted]: category 99 is not listed, no
    category is named ["unknown"], and the line carries class 0, the index
    of ["cat"]. *)
Lemma unlisted_category_run :
  writes (fst (coco_to_yolo unlisted "out" None None)) =
    [("out/a.txt",
      LabelFile [Build_yolo_line 0
                   (Build_center_box 0.25%float 0.4%float 0.3%float 0.4%float)]);
     ("out/classes.txt", ClassesFile ["cat"; "dog"])]
  /\ class_id (Build_yolo_line 0
                 (Build_center_box 0.25%float 0.4%float 0.3%float 0.4%float))
     = dict_get_default String.eqb
         (build_category_to_id [(7, "cat"); (8, "dog")]) "unknown" 0
  /\ ((forall cat, In cat (get_list (categories unlisted)) ->
                   cat_name cat <> Some "unknown") ->
      dict_mem String.eqb (build_category_to_id [(7, "cat"); (8, "dog")])
        "unknown" = false
      /\ class_id (Build_yolo_line 0
                     (Build_center_box 0.25%float 0.4%float 0.3%float 0.4%float))
         = 0).
Proof.
  split; [ vm_compute; reflexivity | ].
  apply (unlisted_category_gets_fallback_class (T := float) unlisted
           [(7, "cat"); (8, "dog")] (ann 1 1 99 (fbox 10 20 30 40)) 99 100 100).
  - reflexivity.
  - reflexivity.
  - simpl. intros cat [<- | [<- | []]]; discriminate.
  - vm_compute. reflexivity.
Defined.

(** C10, as stated, fails when the dataset has a category named
    ["unknown"]: the unlisted category 99 gets that category's index, 1,
    and not 0. *)
Lemma unlisted_category_gets_index_of_unknown :
  coco_to_yolo named_unknown "out" None None =
  ([MakeDirs "out";
    WriteFile "out/a.txt"
      (LabelFile [Build_yolo_line 1
                    (Build_center_box 0.25%float 0.4%float 0.3%float 0.4%float)]);
    WriteFile "out/classes.txt" (ClassesFile ["cat"; "unknown"]);
    Log "Successfully converted COCO to YOLO format in out"],
   true).
Proof. vm_compute. reflexivity. Qed.

End UnknownCategoryRuns.

(* ================================================================== *)
(** * Referential integrity of [yolo_to_coco] *)
(* ================================================================== *)

Section YoloToCocoFacts.
Context {T : Type} {N : Num T} {L : Lib} {P : FloatParser T} {F : FS}.






Lemma index_field (line : string) (k : nat) :
  (k < List.length (split (strip line)))%nat ->
  index (split (strip line)) k = Ok (field k line).
Proof.
  intros Hk. unfold index, field.
  destruct (nth_error (split (strip line)) k) as [s |] eqn:E.
  - now rewrite (nth_error_nth _ _ "" E).
  - apply nth_error_None in E. lia.
Qed.









End YoloToCocoFacts.

Section YoloToCocoRuns.
Import Run Data9.



End YoloToCocoRuns.

(* ================================================================== *)
(** * Properties of the image validator *)
(* ================================================================== *)

Section ImageValidatorRuns.
Import Run QA DataQA.

(** C5 at a concrete dataset: annotation 1 lacks its ["bbox"]. The missing
    field is recorded, then [ann['bbox']] raises [KeyError]; the handler
    records it and the loop is over: annotation 2, which is complete, is
    never counted ([class_distribution] stays empty), whereas alone it is
    counted under ["cat"]. *)
Theorem missing_bbox_aborts_the_annotation_loop :
  Image.validate_image_annotations all_exist first_without_bbox "imgs" =
    {| Image.total_images := 1;
       Image.total_annotations := 2;
       Image.missing_images := [];
       Image.invalid_bboxes := [];
       Image.class_distribution := [];
       Image.errors := ["Annotation 1 missing bbox";
                        "Failed to validate image annotations: 'bbox'"];
       Image.warnings := [] |}
  /\ Image.class_distribution
       (Image.validate_image_annotations all_exist only_complete "imgs")
     = [("cat", 1)].
Proof. split; vm_compute; reflexivity. Qed.

End ImageValidatorRuns.

Section StFacts.
Import QA.
Context {S : Type} (P : S -> Prop).

Lemma keeps_sret {A : Type} (a : A) : keeps P (sret a).
Proof. intros s Hs. exact Hs. Qed.

Lemma keeps_slift {A : Type} (o : outcome A) : keeps P (slift o).
Proof. intros s Hs. exact Hs. Qed.

Lemma keeps_modify (g : S -> S) : (forall s, P s -> P (g s)) -> keeps P (modify g).
Proof. intros Hg s Hs. simpl. now apply Hg. Qed.

Lemma keeps_sbind {A B : Type} (m : St S A) (k : A -> St S B) :
  keeps P m -> (forall a, keeps P (k a)) -> keeps P (sbind m k).
Proof.
  intros Hm Hk s Hs. unfold sbind. specialize (Hm s Hs).
  destruct (m s) as [[a | e] s']; simpl in *; [ now apply Hk | exact Hm ].
Qed.

Lemma keeps_sfor_each {A : Type} (body : A -> St S unit) (l : list A) :
  (forall a, keeps P (body a)) -> keeps P (sfor_each body l).
Proof.
  intros Hb. induction l as [| a l IH]; simpl;
    [ apply keeps_sret | apply keeps_sbind; auto ].
Qed.

Lemma keeps_sfold {A B : Type} (body : B -> A -> St S B) (l : list A) :
  (forall b a, keeps P (body b a)) -> forall b, keeps P (sfold body l b).
Proof.
  intros Hb. induction l as [| a l IH]; simpl; intros b;
    [ apply keeps_sret | apply keeps_sbind; auto ].
Qed.

Lemma sbind_post {A B : Type} (Q : S -> Prop) (m : St S A) (k : A -> St S B) :
  keeps P m ->
  (forall s, P s -> Q s) ->
  (forall a s, P s -> Q (snd (k a s))) ->
  forall s, P s -> Q (snd (sbind m k s)).
Proof.
  intros Hm Hpq Hk s Hs. unfold sbind. specialize (Hm s Hs).
  destruct (m s) as [[a | e] s']; simpl in *; [ now apply Hk | now apply Hpq ].
Qed.

End StFacts.

Section ImbalanceFacts.
Import QA.
Context {T : Type} {N : Num T}.

Lemma check_annotation_untouched (names : pydict Z string)
  (counts : pydict string Z) (a : annotation T) :
  keeps untouched (Image.check_annotation names counts a).
Proof.
  unfold Image.check_annotation, Image.check_required_fields, Image.check_bbox,
    Image.report_bbox.
  repeat first
    [ apply keeps_sbind; [ | intros ? ]
    | apply keeps_sfor_each; intros ?
    | apply keeps_slift
    | apply keeps_sret
    | apply keeps_modify; intros ? [? ?]; split; assumption
    | match goal with |- keeps _ (if ?c then _ else _) => destruct c end ].
Qed.

Lemma add_warnings_effect (ws : list string) (s : Image.results) :
  Image.warnings
    (snd (sfor_each (fun w => modify (Image.add_warning w)) ws s))
  = (Image.warnings s ++ ws)%list
  /\ Image.class_distribution
       (snd (sfor_each (fun w => modify (Image.add_warning w)) ws s))
     = Image.class_distribution s.
Proof.
  revert s. induction ws as [| w ws IH]; intros s.
  - simpl. now rewrite app_nil_r.
  - change (snd (sfor_each (fun w => modify (Image.add_warning w)) (w :: ws) s))
      with (snd (sfor_each (fun w => modify (Image.add_warning w)) ws
                   (Image.add_warning w s))).
    destruct (IH (Image.add_warning w s)) as [-> ->]. simpl.
    now rewrite <- app_assoc.
Qed.

Lemma validate_body_warnings (fe : string -> bool) (dir : string)
  (imgs : list image) (anns : list (annotation T)) (cats : list category)
  (r : Image.results) :
  untouched r ->
  warned_as_due (snd (Image.validate_body fe dir imgs anns cats r)).
Proof.
  assert (Hq : forall s, untouched s -> warned_as_due s)
    by (intros s [H1 H2]; unfold warned_as_due; rewrite H1, H2; reflexivity).
  revert r. unfold Image.validate_body.
  apply (sbind_post untouched warned_as_due); [ | exact Hq | intros _ ].
  { apply keeps_modify. intros s [? ?]. split; assumption. }
  apply (sbind_post untouched warned_as_due); [ apply keeps_slift | exact Hq | intros _ ].
  apply (sbind_post untouched warned_as_due); [ apply keeps_slift | exact Hq | intros names ].
  apply (sbind_post untouched warned_as_due); [ | exact Hq | intros _ ].
  { apply keeps_sfor_each. intros im. unfold Image.check_image_file.
    apply keeps_sbind; [ apply keeps_slift | intros name ].
    destruct (fe (path_join dir name));
      [ apply keeps_sret | apply keeps_modify; intros ? [? ?]; split; assumption ]. }
  apply (sbind_post untouched warned_as_due); [ | exact Hq | intros counts ].
  { apply keeps_sfold. intros b a. apply check_annotation_untouched. }
  intros s [_ Hw]. unfold warned_as_due.
  change (snd (sbind (modify (Image.set_class_distribution counts))
                 (fun _ => sfor_each (fun w => modify (Image.add_warning w))
                             (Image.imbalance_warning counts)) s))
    with (snd (sfor_each (fun w => modify (Image.add_warning w))
                 (Image.imbalance_warning counts)
                 (Image.set_class_distribution counts s))).
  destruct (add_warnings_effect (Image.imbalance_warning counts)
              (Image.set_class_distribution counts s)) as [-> ->].
  simpl. rewrite Hw. reflexivity.
Qed.

(** In every run the warnings are those the final class distribution
    calls for. *)
Lemma validate_image_annotations_warnings (fe : string -> bool)
  (d : coco_data T) (dir : string) :
  Image.warnings (Image.validate_image_annotations fe d dir)
  = Image.imbalance_warning
      (Image.class_distribution (Image.validate_image_annotations fe d dir)).
Proof.
  unfold Image.validate_image_annotations.
  destruct (find (fun key => negb (Image.has_key d key)) Image.required_keys);
    [ reflexivity | ].
  pose proof (validate_body_warnings fe dir (get_list (images d))
                (get_list (annotations d)) (get_list (categories d))
                Image.initial (conj eq_refl eq_refl)) as H.
  destruct (Image.validate_body fe dir (get_list (images d))
              (get_list (annotations d)) (get_list (categories d))
              Image.initial) as [[u | e] r]; simpl in H |- *; unfold warned_as_due in H; exact H.
Qed.

Lemma fold_left_max_spec (l : list Z) (a : Z) :
  (a <= fold_left Z.max l a)
  /\ Forall (fun x => x <= fold_left Z.max l a) l
  /\ (fold_left Z.max l a = a \/ In (fold_left Z.max l a) l).
Proof.
  revert a. induction l as [| b l IH]; simpl; intros a.
  - split; [ lia | split; [ constructor | now left ] ].
  - destruct (IH (Z.max a b)) as (H1 & H2 & H3). split; [ lia | ]. split.
    + constructor; [ lia | exact H2 ].
    + destruct H3 as [H3 | H3]; [ | right; right; exact H3 ].
      rewrite H3. destruct (Z.max_spec a b) as [[_ ->] | [_ ->]]; auto.
Qed.

Lemma fold_left_min_spec (l : list Z) (a : Z) :
  (fold_left Z.min l a <= a)
  /\ Forall (fun x => fold_left Z.min l a <= x) l
  /\ (fold_left Z.min l a = a \/ In (fold_left Z.min l a) l).
Proof.
  revert a. induction l as [| b l IH]; simpl; intros a.
  - split; [ lia | split; [ constructor | now left ] ].
  - destruct (IH (Z.min a b)) as (H1 & H2 & H3). split; [ lia | ]. split.
    + constructor; [ lia | exact H2 ].
    + destruct H3 as [H3 | H3]; [ | right; right; exact H3 ].
      rewrite H3. destruct (Z.min_spec a b) as [[_ ->] | [_ ->]]; auto.
Qed.

(** [list_max] and [list_min] are the greatest and the least element of a
    non-empty list. *)
Lemma list_max_min_spec (l : list Z) :
  l <> [] ->
  In (list_max l) l /\ Forall (fun x => x <= list_max l) l
  /\ In (list_min l) l /\ Forall (fun x => list_min l <= x) l.
Proof.
  destruct l as [| a l]; [ congruence | intros _ ]. simpl.
  destruct (fold_left_max_spec l a) as (M1 & M2 & M3).
  destruct (fold_left_min_spec l a) as (m1 & m2 & m3).
  repeat split.
  - destruct M3 as [-> | M3]; auto.
  - constructor; assumption.
  - destruct m3 as [-> | m3]; auto.
  - constructor; assumption.
Qed.

End ImbalanceFacts.

Section ImbalanceClaim.
Import Run QA DataQA.

(** C6. In every run of [validate_image_annotations] the warnings are
    exactly those of the class-imbalance test on the reported distribution:
    one warning when the distribution is not empty and its greatest count
    exceeds ten times its least count, strictly, and none otherwise. With 100
    boxes of class A and 5 of class B the warning is there; with 50 and 5
    (the greatest count equal to ten times the least) there is none. *)
Theorem imbalance_warning_iff_max_exceeds_ten_min :
  (forall (T : Type) (N : Num T) (fe : string -> bool) (d : coco_data T)
          (dir : string),
      let r := Image.validate_image_annotations fe d dir in
      let counts := dict_values (Image.class_distribution r) in
      Image.warnings r
      = if negb (List.length counts =? 0)%nat
           && (10 * list_min counts <? list_max counts)
        then ["Significant class imbalance detected: "
                ++ string_of_Z (list_max counts) ++ ":"
                ++ string_of_Z (list_min counts)]
        else [])
  /\ (let r := Image.validate_image_annotations all_exist (two_classes 100 5) "imgs" in
      Image.class_distribution r = [("A", 100); ("B", 5)]
      /\ Image.warnings r = ["Significant class imbalance detected: 100:5"])
  /\ (let r := Image.validate_image_annotations all_exist (two_classes 50 5) "imgs" in
      Image.class_distribution r = [("A", 50); ("B", 5)]
      /\ Image.warnings r = []).
Proof.
  split; [ | split; split; vm_compute; reflexivity ].
  intros T N fe d dir r counts. subst r counts.
  rewrite validate_image_annotations_warnings.
  unfold Image.imbalance_warning.
  destruct (Image.class_distribution (Image.validate_image_annotations fe d dir))
    as [| c rest]; [ reflexivity | ].
  cbn [dict_values map List.length Nat.eqb negb andb].
  rewrite (Z.mul_comm 10). reflexivity.
Qed.

End ImbalanceClaim.

(* ================================================================== *)
(** * Properties of the text and audio validators *)
(* ================================================================== *)

Section TextFacts.
Import QA.
Context {L : Lib}.

Lemma count_if_cons {A : Type} (f : A -> bool) (a : A) (l : list A) :
  count_if f (a :: l) = bool_to_Z (f a) + count_if f l.
Proof.
  unfold count_if, bool_to_Z. cbn [filter].
  destruct (f a); cbn [List.length]; lia.
Qed.

Lemma scan_item_effect (st : Text.scan) (item : record) :
  Text.n_missing_text (Text.scan_item st item)
  = Text.n_missing_text st + bool_to_Z (text_missing item)
  /\ Text.n_empty_text (Text.scan_item st item)
     = Text.n_empty_text st + bool_to_Z (text_blank item)
  /\ Text.n_missing_labels (Text.scan_item st item)
     = Text.n_missing_labels st + bool_to_Z (label_missing item)
  /\ Text.text_lengths (Text.scan_item st item)
     = (Text.text_lengths st ++ text_lengths_of [item])%list.
Proof.
  unfold Text.scan_item, text_missing, text_blank, label_missing, text_lengths_of,
    bool_to_Z. simpl flat_map.
  unfold text_missing, text_blank.
  destruct (truthy (Text.text_of item)); simpl;
    destruct (blank_str (Text.text_of item)); simpl;
    destruct (truthy (Text.label_of item)); simpl;
    rewrite ?app_nil_r; repeat split; first [ lia | reflexivity ].
Qed.

Lemma scan_fold_effect (data : list record) :
  forall st,
  Text.n_missing_text (fold_left Text.scan_item data st)
  = Text.n_missing_text st + count_if text_missing data
  /\ Text.n_empty_text (fold_left Text.scan_item data st)
     = Text.n_empty_text st + count_if text_blank data
  /\ Text.n_missing_labels (fold_left Text.scan_item data st)
     = Text.n_missing_labels st + count_if label_missing data
  /\ Text.text_lengths (fold_left Text.scan_item data st)
     = (Text.text_lengths st ++ text_lengths_of data)%list.
Proof.
  induction data as [| item data IH]; intros st.
  - unfold count_if. simpl. rewrite app_nil_r. repeat split; lia.
  - simpl fold_left. destruct (IH (Text.scan_item st item)) as (H1 & H2 & H3 & H4).
    destruct (scan_item_effect st item) as (E1 & E2 & E3 & E4).
    rewrite H1, H2, H3, H4, E1, E2, E3, E4, !count_if_cons.
    repeat split; try lia.
    rewrite <- app_assoc. f_equal.
    unfold text_lengths_of. simpl. now rewrite app_nil_r.
Qed.

(** What the text validator reports, for every list of records. *)
Lemma validate_text_counters (data : list record) :
  let r := Text.validate_text_annotations (Text.Loaded data) in
  Text.total_samples r = len data
  /\ Text.missing_text r = count_if text_missing data
  /\ Text.empty_text r = count_if text_blank data
  /\ Text.missing_labels r = count_if label_missing data
  /\ Text.text_length_stats r = length_stats_of (text_lengths_of data)
  /\ Text.errors r = [].
Proof.
  simpl. destruct (scan_fold_effect data Text.scan0) as (H1 & H2 & H3 & H4).
  rewrite H1, H2, H3, H4. simpl. repeat split.
Qed.


End TextFacts.

Section TextRuns.
Import Run QA DataQA.



End TextRuns.

Section SortedFacts.
Import QA.

Lemma insert_sorted_perm (a : Z) (l : list Z) :
  Permutation (insert_sorted a l) (a :: l).
Proof.
  induction l as [| b l IH]; simpl; [ reflexivity | ].
  destruct (a <=? b); [ reflexivity | ].
  rewrite IH. apply perm_swap.
Qed.

Lemma sorted_perm (l : list Z) : Permutation (sorted l) l.
Proof.
  induction l as [| a l IH]; simpl; [ reflexivity | ].
  rewrite insert_sorted_perm. now constructor.
Qed.

Lemma insert_sorted_hd (a b : Z) (l : list Z) :
  b <= a -> HdRel Z.le b l -> HdRel Z.le b (insert_sorted a l).
Proof.
  intros Hba Hl. destruct l as [| c l]; simpl; [ now constructor | ].
  destruct (a <=? c); constructor; [ exact Hba | now inversion Hl ].
Qed.

Lemma insert_sorted_sorted (a : Z) (l : list Z) :
  Sorted Z.le l -> Sorted Z.le (insert_sorted a l).
Proof.
  induction l as [| b l IH]; simpl; intros Hs.
  - repeat constructor.
  - inversion Hs as [| ? ? Hl Hhd]; subst.
    destruct (a <=? b) eqn:E.
    + constructor; [ exact Hs | constructor; lia ].
    + constructor; [ now apply IH | apply insert_sorted_hd; [ lia | exact Hhd ] ].
Qed.

Lemma sorted_sorted (l : list Z) : Sorted Z.le (sorted l).
Proof.
  induction l as [| a l IH]; simpl; [ constructor | now apply insert_sorted_sorted ].
Qed.

(** A list has one sorted arrangement. *)
Lemma sorted_arrangement_unique (l1 : list Z) :
  forall l2, Sorted Z.le l1 -> Sorted Z.le l2 -> Permutation l1 l2 -> l1 = l2.
Proof.
  induction l1 as [| a l1 IH]; intros l2 H1 H2 Hp.
  - apply Permutation_nil in Hp. now subst.
  - destruct l2 as [| b l2];
      [ apply Permutation_sym, Permutation_nil in Hp; discriminate | ].
    apply Sorted_StronglySorted in H1; [ | intros x y z; lia ].
    apply Sorted_StronglySorted in H2; [ | intros x y z; lia ].
    inversion H1 as [| ? ? S1 F1]; subst. inversion H2 as [| ? ? S2 F2]; subst.
    assert (Hab : a = b).
    { assert (Ha : In a (b :: l2))
        by (eapply Permutation_in; [ exact Hp | now left ]).
      assert (Hb : In b (a :: l1))
        by (eapply Permutation_in; [ apply Permutation_sym; exact Hp | now left ]).
      rewrite Forall_forall in F1, F2.
      destruct Ha as [Ha | Ha]; [ now symmetry | ].
      destruct Hb as [Hb | Hb]; [ exact Hb | ].
      specialize (F1 b Hb). specialize (F2 a Ha). lia. }
    subst b. f_equal. apply IH.
    + now apply StronglySorted_Sorted.
    + now apply StronglySorted_Sorted.
    + eapply Permutation_cons_inv. exact Hp.
Qed.

(** The median the validators report is the element at position
    [n / 2], counted from 0, of the lengths arranged in order. *)
Lemma median_of_spec (lengths s : list Z) :
  Permutation s lengths -> Sorted Z.le s ->
  median_of lengths = nth (List.length s / 2) s 0.
Proof.
  intros Hp Hs. unfold median_of, len.
  assert (E : sorted lengths = s).
  { apply sorted_arrangement_unique; [ apply sorted_sorted | exact Hs | ].
    rewrite sorted_perm. now apply Permutation_sym. }
  rewrite E, <- (Permutation_length Hp).
  f_equal. change 2 with (Z.of_nat 2).
  rewrite <- Nat2Z.inj_div. apply Nat2Z.id.
Qed.

Lemma length_stats_of_median (lengths s : list Z) :
  Permutation s lengths -> Sorted Z.le s -> s <> [] ->
  exists st, length_stats_of lengths = Some st
             /\ stat_median st = nth (List.length s / 2) s 0.
Proof.
  intros Hp Hs Hne. destruct lengths as [| a lengths].
  - apply Permutation_sym, Permutation_nil in Hp. contradiction.
  - eexists. split; [ reflexivity | ]. simpl stat_median.
    now apply median_of_spec.
Qed.

End SortedFacts.

Section AudioFacts.
Import QA.
Context {L : Lib}.

Lemma check_rows_lengths (fe : string -> bool) (dir : string)
  (rows : list record) :
  forall lens s lens' s',
  sfold (Audio.check_row fe dir) rows lens s = (Ok lens', s') ->
  lens' = (lens ++ transcription_lengths_of rows)%list
  /\ Audio.transcription_length_stats s' = Audio.transcription_length_stats s.
Proof.
  induction rows as [| row rows IH]; intros lens s lens' s' E.
  - simpl in E. inversion E; subst. now rewrite app_nil_r.
  - simpl sfold in E. unfold sbind at 1 in E.
    unfold Audio.check_row at 1 in E. unfold sbind at 1 in E.
    destruct (Audio.check_audio_file fe dir row s) as [[u | err] s1] eqn:Ea;
      [ | discriminate ].
    assert (Hs1 : Audio.transcription_length_stats s1
                  = Audio.transcription_length_stats s).
    { unfold Audio.check_audio_file in Ea.
      destruct (truthy _) in Ea; [ | inversion Ea; reflexivity ].
      destruct (dict_get_default _ _ _ _) in Ea; try discriminate.
      destruct (fe _) in Ea; inversion Ea; reflexivity. }
    unfold Audio.check_transcription in E.
    fold (transcription_of row) in E.
    unfold transcription_lengths_of. simpl flat_map.
    fold (transcription_lengths_of rows).
    destruct (negb (truthy (transcription_of row))
              || blank_str (transcription_of row)).
    + unfold sbind, modify, sret in E. simpl in E.
      apply IH in E. destruct E as [-> E2]. simpl.
      split; [ reflexivity | rewrite E2; exact Hs1 ].
    + unfold sret in E. apply IH in E. destruct E as [-> E2].
      rewrite <- app_assoc. split; [ reflexivity | rewrite E2; exact Hs1 ].
Qed.

(** A run of the audio validator that records no error reports the
    statistics of the transcription lengths. *)
Lemma validate_audio_stats (fe : string -> bool) (rows : list record)
  (dir : string) :
  Audio.errors (Audio.validate_audio_annotations fe rows dir) = [] ->
  Audio.transcription_length_stats (Audio.validate_audio_annotations fe rows dir)
  = length_stats_of (transcription_lengths_of rows).
Proof.
  unfold Audio.validate_audio_annotations, Audio.validate_body.
  unfold sbind, modify.
  destruct (sfold (Audio.check_row fe dir) rows []
              (Audio.set_total (len rows) Audio.initial))
    as [[lens | err] s1] eqn:Ef.
  - apply check_rows_lengths in Ef. destruct Ef as [-> _]. cbn [app].
    destruct (exceeds _ _ _); cbn; intros _; reflexivity.
  - cbn. intros E. destruct (Audio.errors s1); discriminate.
Qed.

End AudioFacts.

Section MedianClaim.
Import Run QA DataQA.

(** C8, amended. Whenever lengths were collected, the ['median'] of
    [text_length_stats] is the element at index [n / 2] (integer division,
    counted from 0) of the [n] lengths arranged in order; for an even [n]
    this is the upper of the two middle elements. The same holds for
    [transcription_length_stats] in a run of the audio validator that records
    no error. *)
Theorem median_is_the_element_at_half_the_length :
  (forall (L : Lib) (data : list record) (s : list Z),
      Permutation s (text_lengths_of data) -> Sorted Z.le s -> s <> [] ->
      exists st,
        Text.text_length_stats (Text.validate_text_annotations (Text.Loaded data))
        = Some st
        /\ stat_median st = nth (List.length s / 2) s 0)
  /\ (forall (L : Lib) (fe : string -> bool) (rows : list record) (dir : string)
             (s : list Z),
         Audio.errors (Audio.validate_audio_annotations fe rows dir) = [] ->
         Permutation s (transcription_lengths_of rows) -> Sorted Z.le s ->
         s <> [] ->
         exists st,
           Audio.transcription_length_stats
             (Audio.validate_audio_annotations fe rows dir) = Some st
           /\ stat_median st = nth (List.length s / 2) s 0).
Proof.
  split.
  - intros L data s Hp Hs Hne.
    destruct (validate_text_counters data) as (_ & _ & _ & _ & Hstats & _).
    rewrite Hstats. now apply length_stats_of_median.
  - intros L fe rows dir s Herr Hp Hs Hne.
    rewrite (validate_audio_stats fe rows dir Herr).
    now apply length_stats_of_median.
Qed.

Lemma sorted_1234 : Sorted Z.le [1; 2; 3; 4].
Proof. repeat constructor; lia. Qed.

Lemma perm_1234 : Permutation [1; 2; 3; 4] [4; 1; 3; 2].
Proof.
  apply (Permutation_cons_app [4] [3; 2] 1).
  apply (Permutation_cons_app [4; 3] [] 2).
  apply perm_swap.
Qed.

(** The theorem at four texts and at four transcriptions of lengths 4, 1,
    3, 2: the median is 3. *)
Lemma median_of_four_lengths :
  (exists st,
      Text.text_length_stats (Text.validate_text_annotations (Text.Loaded four_texts))
      = Some st
      /\ stat_median st = nth (List.length [1; 2; 3; 4] / 2) [1; 2; 3; 4] 0)
  /\ (exists st,
         Audio.transcription_length_stats
           (Audio.validate_audio_annotations all_exist four_clips "audio") = Some st
         /\ stat_median st = nth (List.length [1; 2; 3; 4] / 2) [1; 2; 3; 4] 0)
  /\ nth (List.length [1; 2; 3; 4] / 2) [1; 2; 3; 4] 0 = 3.
Proof.
  destruct median_is_the_element_at_half_the_length as [Htext Haudio].
  split; [ | split; [ | reflexivity ] ].
  - apply (Htext lib four_texts [1; 2; 3; 4]);
      [ exact perm_1234 | exact sorted_1234 | discriminate ].
  - apply (Haudio lib all_exist four_clips "audio" [1; 2; 3; 4]);
      [ reflexivity | exact perm_1234 | exact sorted_1234 | discriminate ].
Defined.

(** C8, as stated, fails: for the four lengths 4, 1, 3, 2 both validators
    report the median 3, while the element at the lower-middle index
    [4 / 2 - 1] of the sorted sequence is 2. *)
Lemma median_of_four_is_not_the_lower_middle :
  Text.text_length_stats (Text.validate_text_annotations (Text.Loaded four_texts))
  = Some {| stat_min := 1; stat_max := 4; stat_mean := 2.5%float;
            stat_median := 3 |}
  /\ Audio.transcription_length_stats
       (Audio.validate_audio_annotations all_exist four_clips "audio")
     = Some {| stat_min := 1; stat_max := 4; stat_mean := 2.5%float;
               stat_median := 3 |}
  /\ sorted (text_lengths_of four_texts) = [1; 2; 3; 4]
  /\ sorted (transcription_lengths_of four_clips) = [1; 2; 3; 4]
  /\ nth (Z.to_nat (4 / 2 - 1)) [1; 2; 3; 4] 0 = 2.
Proof. repeat split; vm_compute; reflexivity. Qed.

End MedianClaim.

Section RoundTripClaim.
Import Run.

(** X1. In exact rational arithmetic the inverse transform undoes the forward
    transform for every box and all non-zero dimensions. *)
Theorem round_trip_is_identity_in_exact_arithmetic (b : bbox Qc) (W H : Z) :
  W <> 0 -> H <> 0 -> round_trip b W H = b.
Proof. apply round_trip_exact_Qc. Qed.

Lemma round_trip_exact_example :
  round_trip (Build_bbox (Qc_of_Z 10) (Qc_of_Z 20) (Qc_of_Z 30) (Qc_of_Z 40)) 640 480
  = Build_bbox (Qc_of_Z 10) (Qc_of_Z 20) (Qc_of_Z 30) (Qc_of_Z 40).
Proof.
  apply (round_trip_is_identity_in_exact_arithmetic
           (Build_bbox (Qc_of_Z 10) (Qc_of_Z 20) (Qc_of_Z 30) (Qc_of_Z 40)) 640 480);
    lia.
Defined.

(** C1, amended: in binary64, for image dimensions [1 <= W, H < 2^63] and a
    box whose four coordinates are numbers of magnitude at most [1e8], the
    forward transform followed by the inverse transform returns a box within
    [1e-6] of the original in every component.  Width and height need not be
    positive; the bound on the coordinates cannot be dropped. *)
Theorem round_trip_within_tolerance_for_bounded_boxes
  (b : bbox float) (W H : Z) :
  1 <= W < 2 ^ 63 -> 1 <= H < 2 ^ 63 ->
  coordinates_within coordinate_bound b = true ->
  within_tolerance tolerance b (round_trip b W H) = true.
Proof.
  intros HW HH Hb. destruct b as [x y w h].
  unfold coordinates_within in Hb. cbn [box_x box_y box_w box_h] in Hb.
  apply andb_true_iff in Hb. destruct Hb as [Hb Bh].
  apply andb_true_iff in Hb. destruct Hb as [Hb Bw].
  apply andb_true_iff in Hb. destruct Hb as [Bx By].
  destruct (dimension_float W HW) as (FW & Wl & Wu).
  destruct (dimension_float H HH) as (FH & Hl & Hu).
  destruct (axis_round_trip x w (Z2float W) Bx Bw FW Wl Wu) as [Cx Cw].
  destruct (axis_round_trip y h (Z2float H) By Bh FH Hl Hu) as [Cy Ch].
  unfold within_tolerance, round_trip, to_absolute_topleft, to_normalized_center.
  cbn [box_x box_y box_w box_h x_center y_center norm_width norm_height
       num_of_Z num_add num_sub num_mul num_div float_num].
  fold two. rewrite Cx, Cy, Cw, Ch. reflexivity.
Qed.

Lemma round_trip_of_a_fractional_box :
  within_tolerance tolerance
    (Build_bbox 12.5%float 0.1%float 333.3%float 47.75%float)
    (round_trip (Build_bbox 12.5%float 0.1%float 333.3%float 47.75%float)
       640 480) = true.
Proof.
  apply (round_trip_within_tolerance_for_bounded_boxes
           (Build_bbox 12.5%float 0.1%float 333.3%float 47.75%float) 640 480).
  - lia.
  - lia.
  - vm_compute. reflexivity.
Defined.

End RoundTripClaim.

(* ================================================================== *)
(** * Further properties of the two scripts *)
(* ================================================================== *)

Section DictOrderFacts.
Context {K V : Type} (eqb : K -> K -> bool).
Hypothesis eqb_eq : forall a b, eqb a b = true <-> a = b.

Lemma dict_get_none_iff (d : pydict K V) (k : K) :
  dict_get eqb d k = None <-> ~ In k (dict_keys d).
Proof.
  induction d as [| [k' v] r IH]; cbn [dict_get dict_keys map fst In].
  - tauto.
  - destruct (eqb k' k) eqn:E.
    + apply eqb_eq in E. split; [ discriminate | intros H; exfalso; apply H; now left ].
    + rewrite IH. unfold dict_keys. split.
      * intros H [H' | H']; [ | exact (H H') ].
        apply eqb_eq in H'. congruence.
      * intros H H'. apply H. now right.
Qed.

Lemma dict_set_fresh (d : pydict K V) (k : K) (v : V) :
  dict_get eqb d k = None -> dict_set eqb d k v = (d ++ [(k, v)])%list.
Proof.
  induction d as [| [k' v'] r IH]; cbn [dict_get dict_set app]; [ reflexivity | ].
  destruct (eqb k' k); [ discriminate | ]. intros H. now rewrite IH.
Qed.

Lemma dict_keys_app (d1 d2 : pydict K V) :
  dict_keys (d1 ++ d2)%list = (dict_keys d1 ++ dict_keys d2)%list.
Proof. apply map_app. Qed.

(** Setting fresh, pairwise distinct keys appends the entries in order. *)
Lemma fold_set_fresh {A : Type} (key : A -> K) (val : A -> V) (l : list A) :
  forall acc,
  NoDup (map key l) ->
  (forall a, In a l -> ~ In (key a) (dict_keys acc)) ->
  fold_left (fun acc a => dict_set eqb acc (key a) (val a)) l acc
  = (acc ++ map (fun a => (key a, val a)) l)%list.
Proof.
  induction l as [| a r IH]; intros acc Hnd Hfresh; cbn [fold_left map].
  - now rewrite app_nil_r.
  - inversion Hnd as [| ? ? Hna Hnr]; subst.
    rewrite dict_set_fresh.
    2:{ apply dict_get_none_iff. apply Hfresh. now left. }
    rewrite IH; [ now rewrite <- app_assoc | exact Hnr | ].
    intros b Hb. rewrite dict_keys_app. cbn [dict_keys map fst app].
    intros Hin. apply in_app_or in Hin. destruct Hin as [Hin | [Hin | []]].
    + apply (Hfresh b); [ now right | exact Hin ].
    + apply Hna. rewrite Hin. now apply in_map.
Qed.

(** In a dictionary with pairwise distinct keys every entry is found under
    its key. *)
Lemma dict_get_entry (d : pydict K V) (k : K) (v : V) :
  NoDup (dict_keys d) -> In (k, v) d -> dict_get eqb d k = Some v.
Proof.
  induction d as [| [k' v'] r IH]; cbn [dict_keys map fst dict_get In];
    intros Hnd Hin; [ contradiction | ].
  inversion Hnd as [| ? ? Hna Hnr]; subst.
  destruct Hin as [E | Hin].
  - injection E as -> ->. now rewrite (proj2 (eqb_eq k k) eq_refl).
  - destruct (eqb k' k) eqn:E.
    + apply eqb_eq in E. subst k'. exfalso. apply Hna.
      change k with (fst (k, v)). now apply in_map.
    + now apply IH.
Qed.

End DictOrderFacts.

Section YoloToCocoOutput.
Context {T : Type} {N : Num T} {L : Lib} {P : FloatParser T} {F : FS}.

Lemma writes_lift {A : Type} (o : outcome A) : writes (fst (lift (T := T) o)) = [].
Proof. reflexivity. Qed.

Lemma wbind_fst_writes {A B : Type} (m : W T A) (k : A -> W T B) :
  writes (fst m) = [] ->
  (forall a, writes (fst (k a)) = []) ->
  writes (fst (wbind m k)) = [].
Proof.
  destruct m as [t [a | e]]; simpl; intros Hm Hk; [ | exact Hm ].
  specialize (Hk a). destruct (k a) as [t' r]. simpl in *.
  rewrite writes_app, Hm, Hk. reflexivity.
Qed.

Lemma load_classes_writes (inp : yolo_input) :
  writes (fst (load_classes (T := T) inp)) = [].
Proof.
  unfold load_classes.
  destruct (classes_file inp) as [[ls | e] |]; [ reflexivity | reflexivity | ].
  destruct (sidecar_classes inp) as [[ls | e] |]; reflexivity.
Qed.

Lemma read_size_writes (inp : yolo_input) (p : string) :
  writes (fst (read_size (T := T) inp p)) = [].
Proof. unfold read_size. destruct (image_size inp); reflexivity. Qed.

Lemma convert_file_writes (inp : yolo_input) (dir : string) (a : acc) (f : txt_file) :
  writes (fst (convert_file inp dir a f)) = [].
Proof.
  unfold convert_file.
  destruct (txt_name f =? "classes.txt")%string; [ reflexivity | ].
  destruct (find_image inp dir (path_stem (txt_name f))); [ | reflexivity ].
  apply wbind_fst_writes; [ apply read_size_writes | intros size ].
  apply wbind_fst_writes; [ apply writes_lift | intros a2 ].
  destruct (txt_error f); reflexivity.
Qed.

Lemma convert_files_writes (inp : yolo_input) (dir : string) (fs : list txt_file) :
  forall a, writes (fst (convert_files inp dir a fs)) = [].
Proof.
  induction fs as [| f r IH]; intros a; [ reflexivity | ].
  cbn [convert_files]. apply wbind_fst_writes; [ apply convert_file_writes | apply IH ].
Qed.

(** X2. The conversion writes once, at the very end: a run that fails leaves no
    file, a run that succeeds leaves the dataset at [output_path] and nothing
    else. *)
Theorem yolo_to_coco_writes_all_or_nothing (inp : yolo_input)
  (images_dir output_path : string) :
  let r := yolo_to_coco (T := T) inp images_dir output_path in
  writes (fst (fst r))
  = match snd (fst r) with
    | Some data => [(output_path, CocoFile data)]
    | None => []
    end
  /\ snd r = match snd (fst r) with Some _ => true | None => false end.
Proof.
  cbv zeta. unfold yolo_to_coco, yolo_to_coco_body.
  pose proof (load_classes_writes inp) as Hc.
  destruct (load_classes (T := T) inp) as [t1 [classes | e]]; cbn [wbind];
    cbn [fst] in Hc.
  - pose proof (convert_files_writes inp images_dir (txt_files inp)
                  {| acc_images := []; acc_annotations := []; annotation_id := 1 |})
      as Hf.
    destruct (convert_files inp images_dir _ (txt_files inp)) as [t2 [a | e]];
      cbn [wbind fst snd emit wret app] in *.
    + unfold write_file.
      destruct (open_write output_path); cbn [lift wbind emit wret app fst snd].
      * rewrite !writes_app, Hc, Hf. split; reflexivity.
      * rewrite !writes_app, Hc, Hf. split; reflexivity.
    + rewrite !writes_app, Hc, Hf. split; reflexivity.
  - cbn [fst snd]. rewrite writes_app, Hc. split; reflexivity.
Qed.

End YoloToCocoOutput.

Section YoloToCocoListing.
Context {T : Type} {N : Num T} {L : Lib} {P : FloatParser T} {F : FS}.

Lemma map_seq_from {A : Type} (g : nat -> A) (n m : nat) :
  forall s, map g (seq (n + s) m) = map (fun k => g (n + k)%nat) (seq s m).
Proof.
  induction m as [| m IH]; intros s; [ reflexivity | ].
  cbn [seq map]. f_equal. rewrite plus_n_Sm. apply IH.
Qed.

Lemma ids_from_app (i : Z) (n m : nat) :
  ids_from i (n + m) = (ids_from i n ++ ids_from (i + Z.of_nat n) m)%list.
Proof.
  unfold ids_from. rewrite seq_app, map_app. f_equal.
  replace (0 + n)%nat with (n + 0)%nat by lia. rewrite map_seq_from.
  apply map_ext. intros k. f_equal. lia.
Qed.

Lemma annotation_lines_app (fs gs : list txt_file) :
  annotation_lines (fs ++ gs) = (annotation_lines fs + annotation_lines gs)%nat.
Proof.
  unfold annotation_lines. rewrite flat_map_app, filter_app, length_app. reflexivity.
Qed.

(** One line: the ids, the counter and the images. *)
Lemma convert_line_ids (image_id W H : Z) (a a' : acc) (line : string) :
  convert_line image_id W H a line = Ok a' ->
  acc_images a' = acc_images a
  /\ map ann_id (acc_annotations a')
     = (map ann_id (acc_annotations a)
        ++ ids_from (annotation_id a) (if annotation_line line then 1 else 0))%list
  /\ annotation_id a'
     = annotation_id a + Z.of_nat (if annotation_line line then 1 else 0).
Proof.
  unfold convert_line, annotation_line.
  destruct (strip line =? "")%string; cbn [negb andb].
  { intros E. injection E as <-. rewrite app_nil_r. repeat split. lia. }
  destruct (5 <=? List.length (split (strip line)))%nat.
  2:{ intros E. injection E as <-. rewrite app_nil_r. repeat split. lia. }
  destruct (obind (index (split (strip line)) 0) parse_int) as [c |]; [ | discriminate ].
  destruct (obind (index (split (strip line)) 1) parse_float) as [xc |]; [ | discriminate ].
  destruct (obind (index (split (strip line)) 2) parse_float) as [yc |]; [ | discriminate ].
  destruct (obind (index (split (strip line)) 3) parse_float) as [nw |]; [ | discriminate ].
  destruct (obind (index (split (strip line)) 4) parse_float) as [nh |]; [ | discriminate ].
  cbn [obind]. intros E. injection E as <-. cbn [acc_images acc_annotations annotation_id].
  rewrite map_app. cbn [map ann_id ids_from seq]. repeat split.
  do 3 f_equal. lia.
Qed.

Lemma convert_lines_ids (image_id W H : Z) (lines : list string) :
  forall a a', convert_lines image_id W H a lines = Ok a' ->
  acc_images a' = acc_images a
  /\ map ann_id (acc_annotations a')
     = (map ann_id (acc_annotations a)
        ++ ids_from (annotation_id a)
             (List.length (filter annotation_line lines)))%list
  /\ annotation_id a'
     = annotation_id a + Z.of_nat (List.length (filter annotation_line lines)).
Proof.
  induction lines as [| line r IH]; intros a a' E; cbn [convert_lines] in E.
  - injection E as <-. cbn [filter List.length ids_from seq map].
    rewrite app_nil_r. repeat split. lia.
  - destruct (convert_line image_id W H a line) as [a1 |] eqn:E1; [ | discriminate ].
    cbn [obind] in E.
    destruct (convert_line_ids _ _ _ _ _ _ E1) as (I1 & A1 & C1).
    destruct (IH _ _ E) as (I2 & A2 & C2).
    cbn [filter]. destruct (annotation_line line); cbn [List.length].
    + split; [ congruence | ]. split.
      * rewrite A2, A1, C1, <- app_assoc. f_equal.
        change (S (List.length (filter annotation_line r)))
          with (1 + List.length (filter annotation_line r))%nat.
        rewrite ids_from_app. reflexivity.
      * rewrite C2, C1. lia.
    + split; [ congruence | ]. split.
      * rewrite A2, A1, C1. cbn [ids_from seq map]. rewrite app_nil_r.
        do 2 f_equal. lia.
      * rewrite C2, C1. lia.
Qed.

Lemma read_size_default (inp : yolo_input) (p : string) (t : list (event T))
  (size : Z * Z) :
  image_size inp = None -> read_size (T := T) inp p = (t, Ok size) ->
  size = (640, 480).
Proof.
  unfold read_size. intros ->. cbn. intros E. injection E as _ E. now symmetry.
Qed.

(** One label file. *)
Lemma convert_file_listing (inp : yolo_input) (dir : string) (a a' : acc)
  (f : txt_file) :
  snd (convert_file inp dir a f) = Ok a' ->
  let sel := filter (fun f => negb (txt_name f =? "classes.txt")%string
                              && has_image inp dir f) [f] in
  map ann_id (acc_annotations a')
  = (map ann_id (acc_annotations a)
     ++ ids_from (annotation_id a) (annotation_lines sel))%list
  /\ annotation_id a' = annotation_id a + Z.of_nat (annotation_lines sel)
  /\ map img_file_name (acc_images a')
     = (map img_file_name (acc_images a) ++ map (image_name_of inp dir) sel)%list
  /\ (image_size inp = None ->
      Forall default_size (acc_images a) -> Forall default_size (acc_images a')).
Proof.
  unfold convert_file, has_image. cbn [filter].
  destruct (txt_name f =? "classes.txt")%string; cbn [negb andb].
  { cbn. intros E. injection E as <-. rewrite !app_nil_r.
    repeat split; [ lia | auto ]. }
  destruct (find_image inp dir (path_stem (txt_name f))) as [p |] eqn:Ef.
  2:{ cbn. intros E. injection E as <-. rewrite !app_nil_r.
      repeat split; [ lia | auto ]. }
  destruct (read_size (T := T) inp p) as [t [size | e]] eqn:Es;
    cbn [wbind lift fst snd]; [ | discriminate ].
  destruct (convert_lines _ _ _ _ (txt_lines f)) as [a1 |] eqn:E1; [ | discriminate ].
  destruct (txt_error f); cbn [lift wret snd]; [ discriminate | ].
  intros E. injection E as <-.
  destruct (convert_lines_ids _ _ _ _ _ _ E1) as (I1 & A1 & C1).
  cbn [acc_images acc_annotations annotation_id] in I1, A1, C1.
  unfold annotation_lines. cbn [flat_map]. rewrite app_nil_r.
  split; [ exact A1 | ]. split; [ exact C1 | ]. split.
  - rewrite I1, map_app. cbn [map]. unfold image_name_of. rewrite Ef. reflexivity.
  - intros Hn Hd. rewrite I1. apply Forall_app. split; [ exact Hd | ].
    constructor; [ | constructor ].
    rewrite (read_size_default _ _ _ _ Hn Es). split; reflexivity.
Qed.

Lemma convert_files_listing (inp : yolo_input) (dir : string)
  (fs : list txt_file) :
  forall a a',
  snd (convert_files inp dir a fs) = Ok a' ->
  let sel := filter (fun f => negb (txt_name f =? "classes.txt")%string
                              && has_image inp dir f) fs in
  map ann_id (acc_annotations a')
  = (map ann_id (acc_annotations a)
     ++ ids_from (annotation_id a) (annotation_lines sel))%list
  /\ annotation_id a' = annotation_id a + Z.of_nat (annotation_lines sel)
  /\ map img_file_name (acc_images a')
     = (map img_file_name (acc_images a) ++ map (image_name_of inp dir) sel)%list
  /\ (image_size inp = None ->
      Forall default_size (acc_images a) -> Forall default_size (acc_images a')).
Proof.
  induction fs as [| f r IH]; intros a a' E.
  - cbn in E. injection E as <-. cbn. rewrite !app_nil_r.
    repeat split; [ lia | auto ].
  - cbn [convert_files] in E.
    destruct (convert_file inp dir a f) as [t1 [a1 | e]] eqn:E1;
      cbn [wbind] in E; [ | discriminate ].
    assert (E1' : snd (convert_file inp dir a f) = Ok a1) by (rewrite E1; reflexivity).
    destruct (convert_file_listing _ _ _ _ _ E1') as (A1 & C1 & I1 & D1).
    destruct (convert_files inp dir a1 r) as [t2 o2] eqn:E2. cbn [snd] in E.
    assert (E2' : snd (convert_files inp dir a1 r) = Ok a') by (rewrite E2; exact E).
    destruct (IH _ _ E2') as (A2 & C2 & I2 & D2).
    cbv zeta.
    change (f :: r) with ([f] ++ r)%list. rewrite filter_app.
    set (sf := filter _ [f]) in *. set (sr := filter _ r) in *.
    rewrite annotation_lines_app, map_app.
    split; [ | split; [ | split ] ].
    + rewrite A2, A1, C1, <- app_assoc, ids_from_app. reflexivity.
    + rewrite C2, C1. lia.
    + rewrite I2, I1, <- app_assoc. reflexivity.
    + intros Hn Hd. apply D2; [ exact Hn | ]. apply D1; assumption.
Qed.

(** X3. In the dataset of a successful run the annotations are numbered
    [1, 2, ..., n] in the order of the files and of their lines, [n] being
    the number of lines with at least five fields in the label files that
    have an image. *)
Theorem yolo_to_coco_numbers_annotations_from_one (inp : yolo_input)
  (images_dir output_path : string) (t : list (event T)) (data : coco_data T) :
  yolo_to_coco inp images_dir output_path = (t, Some data, true) ->
  map ann_id (get_list (annotations data))
  = ids_from 1 (annotation_lines (label_files inp images_dir)).
Proof.
  unfold yolo_to_coco, yolo_to_coco_body.
  destruct (load_classes (T := T) inp) as [t1 [classes | e]]; cbn [wbind];
    [ | discriminate ].
  destruct (convert_files inp images_dir _ (txt_files inp)) as [t2 [a | e]] eqn:E;
    cbn [wbind emit wret app]; [ | discriminate ].
  unfold write_file.
  destruct (open_write output_path); cbn [lift wbind emit wret app];
    [ | discriminate ].
  intros H. injection H as _ <-. cbn [annotations get_list].
  assert (E' : snd (convert_files inp images_dir
                      {| acc_images := []; acc_annotations := []; annotation_id := 1 |}
                      (txt_files inp)) = Ok a) by (rewrite E; reflexivity).
  destruct (convert_files_listing _ _ _ _ _ E') as (A & _).
  exact A.
Qed.

(** X4. In the dataset of a successful run there is one image entry per label
    file that has an image, in the order of the listing, named after the
    image found ([.jpg] before [.jpeg], [.png] and [.bmp]); when [PIL] cannot
    be imported every entry has the size [640 x 480]. *)
Theorem yolo_to_coco_lists_one_image_per_label_file (inp : yolo_input)
  (images_dir output_path : string) (t : list (event T)) (data : coco_data T) :
  yolo_to_coco inp images_dir output_path = (t, Some data, true) ->
  map img_file_name (get_list (images data))
  = map (image_name_of inp images_dir) (label_files inp images_dir)
  /\ (image_size inp = None -> Forall default_size (get_list (images data))).
Proof.
  unfold yolo_to_coco, yolo_to_coco_body.
  destruct (load_classes (T := T) inp) as [t1 [classes | e]]; cbn [wbind];
    [ | discriminate ].
  destruct (convert_files inp images_dir _ (txt_files inp)) as [t2 [a | e]] eqn:E;
    cbn [wbind emit wret app]; [ | discriminate ].
  unfold write_file.
  destruct (open_write output_path); cbn [lift wbind emit wret app];
    [ | discriminate ].
  intros H. injection H as _ <-. cbn [images get_list].
  assert (E' : snd (convert_files inp images_dir
                      {| acc_images := []; acc_annotations := []; annotation_id := 1 |}
                      (txt_files inp)) = Ok a) by (rewrite E; reflexivity).
  destruct (convert_files_listing _ _ _ _ _ E') as (_ & _ & I & D).
  split; [ exact I | ]. intros Hn. apply D; [ exact Hn | constructor ].
Qed.

End YoloToCocoListing.

Lemma In_enumerate_from {A : Type} (l : list A) :
  forall (i : Z) (k : nat) (a : A),
  nth_error l k = Some a -> In (i + Z.of_nat k, a) (enumerate_from i l).
Proof.
  induction l as [| b r IH]; intros i k a H; destruct k; cbn in H; try discriminate.
  - injection H as ->. left. f_equal. lia.
  - right. replace (i + Z.of_nat (S k)) with (i + 1 + Z.of_nat k) by lia.
    now apply IH.
Qed.

Lemma NoDup_map_Some {A : Type} (l : list A) :
  NoDup (map Some l) -> NoDup l.
Proof. apply NoDup_map_inv. Qed.

Section ClassIndex.
Context {T : Type} {N : Num T}.

(** With pairwise distinct ids the registry lists the categories as they
    come. *)
Lemma build_categories_distinct (cl : list category) :
  forall acc cats,
  build_categories cl acc = Ok cats ->
  NoDup (map cat_id cl) ->
  (forall cat c, In cat cl -> cat_id cat = Some c -> ~ In c (dict_keys acc)) ->
  exists pairs,
    cats = (acc ++ pairs)%list
    /\ map (fun p => Some (fst p)) pairs = map cat_id cl
    /\ map (fun p => Some (snd p)) pairs = map cat_name cl.
Proof.
  induction cl as [| cat r IH]; intros acc cats E Hnd Hfresh; cbn [build_categories] in E.
  - injection E as <-. exists []. now rewrite app_nil_r.
  - destruct (cat_id cat) as [c |] eqn:Ec; [ | discriminate ].
    destruct (cat_name cat) as [name |] eqn:En; [ | discriminate ].
    cbn [subscript obind] in E.
    cbn [map] in Hnd. inversion Hnd as [| ? ? Hna Hnr]; subst.
    rewrite (dict_set_fresh Z.eqb) in E.
    2:{ apply (dict_get_none_iff Z.eqb Z_eqb_spec').
        apply (Hfresh cat c); [ now left | exact Ec ]. }
    destruct (IH _ _ E Hnr) as (pairs & -> & Hi & Hn).
    { intros cat' c' Hin Hc'. rewrite dict_keys_app. cbn [dict_keys map fst].
      intros H. apply in_app_or in H. destruct H as [H | [H | []]].
      - exact (Hfresh cat' c' (or_intror Hin) Hc' H).
      - apply Hna. rewrite Ec, H, <- Hc'. now apply in_map. }
    exists ((c, name) :: pairs). rewrite <- app_assoc. cbn [app map fst snd].
    rewrite Ec, En, Hi, Hn. auto.
Qed.

Lemma build_category_to_id_distinct (cats : pydict Z string) :
  NoDup (dict_values cats) ->
  build_category_to_id cats
  = map (fun p => (snd p, fst p)) (enumerate (dict_values cats)).
Proof.
  intros Hnd. unfold build_category_to_id.
  rewrite (fold_set_fresh String.eqb String_eqb_spec' snd fst); [ reflexivity | | ].
  - unfold enumerate. now rewrite map_snd_enumerate_from.
  - intros a _ [].
Qed.

(** With pairwise distinct ids and names, the registry lists the names in
    the order of the categories and gives each category its position. *)
Lemma registry_index_is_position (cl : list category)
  (cats : pydict Z string) :
  build_categories cl [] = Ok cats ->
  NoDup (map cat_id cl) -> NoDup (map cat_name cl) ->
  map Some (dict_keys (build_category_to_id cats)) = map cat_name cl
  /\ forall (k : nat) (cat : category) (c : Z),
       nth_error cl k = Some cat -> cat_id cat = Some c ->
       resolve_class cats (build_category_to_id cats) c = Z.of_nat k.
Proof.
  intros E Hids Hnames.
  destruct (build_categories_distinct cl [] cats E Hids) as (pairs & -> & Hi & Hn).
  { intros ? ? _ _ []. }
  cbn [app] in *.
  assert (Hv : map Some (dict_values pairs) = map cat_name cl).
  { unfold dict_values. rewrite map_map. exact Hn. }
  assert (Hk : map Some (dict_keys pairs) = map cat_id cl).
  { unfold dict_keys. rewrite map_map. exact Hi. }
  assert (Hndv : NoDup (dict_values pairs)).
  { apply NoDup_map_Some. now rewrite Hv. }
  assert (Hndk : NoDup (dict_keys pairs)).
  { apply NoDup_map_Some. now rewrite Hk. }
  rewrite (build_category_to_id_distinct pairs Hndv).
  assert (Hkeys : dict_keys (map (fun p : Z * string => (snd p, fst p))
                               (enumerate (dict_values pairs)))
                  = dict_values pairs).
  { unfold dict_keys, enumerate. rewrite map_map. cbn [fst].
    apply map_snd_enumerate_from. }
  split; [ now rewrite Hkeys | ].
  intros k cat c Hnth Hc.
  assert (Hp : exists name, nth_error pairs k = Some (c, name)).
  { assert (H1 : nth_error (map cat_id cl) k = Some (Some c)).
    { rewrite nth_error_map, Hnth. cbn. now rewrite Hc. }
    rewrite <- Hi, nth_error_map in H1.
    destruct (nth_error pairs k) as [[c' name] |]; [ | discriminate ].
    cbn in H1. injection H1 as ->. now exists name. }
  destruct Hp as [name Hp].
  unfold resolve_class, dict_get_default.
  rewrite (dict_get_entry Z.eqb Z_eqb_spec' pairs c name Hndk (nth_error_In _ _ Hp)).
  rewrite (dict_get_entry String.eqb String_eqb_spec' _ name (Z.of_nat k));
    [ reflexivity | now rewrite Hkeys | ].
  apply (in_map (fun p : Z * string => (snd p, fst p)) _ (Z.of_nat k, name)).
  change (Z.of_nat k) with (0 + Z.of_nat k). apply In_enumerate_from.
  unfold dict_values. rewrite nth_error_map, Hp. reflexivity.
Qed.

End ClassIndex.

Section CocoToYoloTrace.
Context {T : Type} {N : Num T} {L : Lib} {F : FS}.

Lemma map_outcome_Forall2 {A B : Type} (f : A -> outcome B) (l : list A) :
  forall bs, map_outcome f l = Ok bs -> Forall2 (fun a b => f a = Ok b) l bs.
Proof.
  induction l as [| a r IH]; intros bs E; cbn [map_outcome] in E.
  - injection E as <-. constructor.
  - destruct (f a) as [b |] eqn:Ea; [ | discriminate ]. cbn [obind] in E.
    destruct (map_outcome f r) as [bs' |]; [ | discriminate ].
    cbn [obind] in E. injection E as <-. constructor; [ exact Ea | now apply IH ].
Qed.

(** Grouping: under each id, the annotations of that [image_id], in order. *)
Lemma group_annotations_spec (anns : list (annotation T)) :
  forall acc groups,
  group_annotations anns acc = Ok groups ->
  forall id,
  dict_get_default Z.eqb groups id []
  = (dict_get_default Z.eqb acc id []
     ++ filter (fun a => match ann_image_id a with
                         | Some i => i =? id
                         | None => false
                         end) anns)%list.
Proof.
  induction anns as [| a r IH]; intros acc groups E id; cbn [group_annotations] in E.
  - injection E as <-. cbn [filter]. now rewrite app_nil_r.
  - destruct (ann_image_id a) as [i |] eqn:Ei; [ | discriminate ].
    cbn [subscript obind] in E. rewrite (IH _ _ E id). cbn [filter]. rewrite Ei.
    unfold dict_get_default at 1.
    destruct (Z.eqb_spec i id) as [-> | Hne].
    + rewrite (dict_get_set_same Z.eqb Z_eqb_spec'). now rewrite <- app_assoc.
    + rewrite (dict_get_set_other Z.eqb Z_eqb_spec') by exact Hne. reflexivity.
Qed.

(** Opening a file and writing it: one write, or the exception of [open]
    and nothing written. *)
Lemma write_file_steps (path : string) (content : file_content T) :
  write_file path content
  = match open_write path with
    | Ok _ => ([WriteFile path content], Ok tt)
    | Raise e => ([], Raise e)
    end.
Proof.
  unfold write_file, lift, emit, wbind.
  destruct (open_write path) as [[] | e]; reflexivity.
Qed.

(** The steps of the conversion, one after the other. *)
Lemma coco_to_yolo_body_steps (d : coco_data T) (out : string)
  (dw dh : option Z) :
  coco_to_yolo_body d out dw dh
  = match makedirs out with
    | Raise e => ([MakeDirs out], Raise e)
    | Ok _ =>
    match build_categories (get_list (categories d)) [] with
    | Raise e => ([MakeDirs out], Raise e)
    | Ok cats =>
    match group_annotations (get_list (annotations d)) [] with
    | Raise e => ([MakeDirs out], Raise e)
    | Ok groups =>
    match for_each (convert_image out cats (build_category_to_id cats) groups
                                  dw dh) (get_list (images d)) with
    | (t, Raise e) => (MakeDirs out :: t, Raise e)
    | (t, Ok _) =>
    match open_write (path_join out "classes.txt") with
    | Raise e => (MakeDirs out :: t, Raise e)
    | Ok _ =>
        (MakeDirs out
         :: t ++ [WriteFile (path_join out "classes.txt")
                    (ClassesFile (dict_keys (build_category_to_id cats)));
                  Log ("Successfully converted COCO to YOLO format in " ++ out)],
         Ok tt)
    end end end end end.
Proof.
  unfold coco_to_yolo_body. cbn [emit wbind].
  destruct (makedirs out) as [[] | e]; cbn [lift wbind app]; [ | reflexivity ].
  destruct (build_categories (get_list (categories d)) []) as [cats | e];
    cbn [lift wbind app]; [ | reflexivity ].
  destruct (group_annotations (get_list (annotations d)) []) as [groups | e];
    cbn [lift wbind app]; [ | reflexivity ].
  destruct (for_each _ (get_list (images d))) as [t [[] | e]]; cbn [wbind];
    [ | reflexivity ].
  rewrite write_file_steps.
  destruct (open_write (path_join out "classes.txt")) as [[] | e];
    cbn [wbind emit app]; [ reflexivity | ].
  now rewrite app_nil_r.
Qed.

Lemma label_lines_write (out : string) (cats : pydict Z string)
  (c2i : pydict string Z) (dw dh : option Z) (anns : list (annotation T))
  (im : image) (w : string * file_content T) :
  label_lines out cats c2i dw dh anns im w -> label_write out anns im w.
Proof.
  intros (Hp & W & H & lines & _ & Hw & Hl). split; [ exact Hp | ].
  exists lines. split; [ exact Hw | ]. symmetry. exact (Forall2_length Hl).
Qed.

(** What one image leaves in the trace. *)
Lemma convert_image_trace (out : string) (cats : pydict Z string)
  (c2i : pydict string Z) (anns : list (annotation T))
  (groups : pydict Z (list (annotation T))) (dw dh : option Z) (im : image)
  (t : list (event T)) (o : outcome unit) :
  group_annotations anns [] = Ok groups ->
  convert_image out cats c2i groups dw dh im = (t, o) ->
  existsb is_classes_write t = false
  /\ (o = Ok tt ->
      if sized dw dh im
      then exists w, writes t = [w] /\ label_lines out cats c2i dw dh anns im w
      else writes t = []).
Proof.
  intros Hg. unfold convert_image, sized, label_lines.
  destruct (img_id im) as [id |] eqn:Eid; cbn [subscript lift wbind].
  2:{ intros E. injection E as <- <-. split; [ reflexivity | discriminate ]. }
  destruct (img_file_name im) as [name |] eqn:En; cbn [subscript lift wbind].
  2:{ intros E. injection E as <- <-. split; [ reflexivity | discriminate ]. }
  destruct (usable_dims _ _) as [[w h] |].
  2:{ cbn. intros E. injection E as <- <-. split; reflexivity. }
  pose proof (group_annotations_spec anns [] groups Hg id) as Hspec.
  unfold dict_get_default in Hspec. cbn [dict_get app] in Hspec.
  assert (Hlines : forall lines,
            match dict_get Z.eqb groups id with
            | Some g => map_outcome (convert_annotation cats c2i w h) g
            | None => Ok []
            end = Ok lines ->
            Forall2 (fun a line => convert_annotation cats c2i w h a = Ok line)
                    (annotations_of anns im) lines).
  { intros lines E. unfold annotations_of. rewrite Eid.
    destruct (dict_get Z.eqb groups id) as [g |].
    - rewrite <- Hspec. now apply map_outcome_Forall2.
    - injection E as <-. rewrite <- Hspec. constructor. }
  destruct (match dict_get Z.eqb groups id with
            | Some g => map_outcome (convert_annotation cats c2i w h) g
            | None => Ok []
            end) as [lines | e]; cbn [wbind].
  2:{ intros E. injection E as <- <-. split; [ reflexivity | discriminate ]. }
  rewrite write_file_steps.
  destruct (open_write _) as [[] | e]; cbn [app]; intros E; injection E as <- <-.
  - split; [ reflexivity | ]. intros _. eexists. split; [ reflexivity | ].
    split.
    + cbn [fst]. unfold label_path. now rewrite En.
    + exists w, h, lines. split; [ reflexivity | ].
      split; [ reflexivity | now apply Hlines ].
  - split; [ reflexivity | discriminate ].
Qed.

Lemma existsb_app_false {A : Type} (f : A -> bool) (l1 l2 : list A) :
  existsb f l1 = false -> existsb f l2 = false -> existsb f (l1 ++ l2) = false.
Proof. intros H1 H2. now rewrite existsb_app, H1, H2. Qed.

(** What the loop over the images leaves in the trace. *)
Lemma convert_images_trace (out : string) (cats : pydict Z string)
  (c2i : pydict string Z) (anns : list (annotation T))
  (groups : pydict Z (list (annotation T))) (dw dh : option Z)
  (imgs : list image) :
  group_annotations anns [] = Ok groups ->
  forall t o,
  for_each (convert_image out cats c2i groups dw dh) imgs = (t, o) ->
  existsb is_classes_write t = false
  /\ (o = Ok tt ->
      Forall2 (label_lines out cats c2i dw dh anns)
              (filter (sized dw dh) imgs) (writes t)).
Proof.
  intros Hg. induction imgs as [| im r IH]; intros t o E; cbn [for_each] in E.
  - injection E as <- <-. split; [ reflexivity | ]. intros _. constructor.
  - destruct (convert_image out cats c2i groups dw dh im) as [t1 o1] eqn:E1.
    destruct (convert_image_trace _ _ _ _ _ _ _ _ _ _ Hg E1) as [C1 S1].
    destruct o1 as [[] | e]; cbn [wbind] in E.
    + destruct (for_each _ r) as [t2 o2] eqn:E2.
      destruct (IH _ _ eq_refl) as [C2 S2].
      injection E as <- <-. split; [ now apply existsb_app_false | ].
      intros Ho. specialize (S1 eq_refl). specialize (S2 Ho).
      rewrite writes_app. cbn [filter]. destruct (sized dw dh im).
      * destruct S1 as (w & -> & Hw). cbn [app]. now constructor.
      * rewrite S1. exact S2.
    + injection E as <- <-. split; [ exact C1 | discriminate ].
Qed.

(** The writes of a conversion that returns [True]. *)
Lemma coco_to_yolo_writes (d : coco_data T) (out : string) (dw dh : option Z) :
  snd (coco_to_yolo d out dw dh) = true ->
  exists cats files,
    build_categories (get_list (categories d)) [] = Ok cats
    /\ writes (fst (coco_to_yolo d out dw dh))
       = (files ++ [(path_join out "classes.txt",
                     ClassesFile (dict_keys (build_category_to_id cats)))])%list
    /\ Forall2 (label_lines out cats (build_category_to_id cats) dw dh
                            (get_list (annotations d)))
               (filter (sized dw dh) (get_list (images d))) files.
Proof.
  unfold coco_to_yolo. rewrite coco_to_yolo_body_steps.
  destruct (makedirs out) as [[] | e]; [ | discriminate ].
  destruct (build_categories (get_list (categories d)) []) as [cats | e];
    [ | discriminate ].
  destruct (group_annotations (get_list (annotations d)) []) as [groups | e] eqn:Eg;
    [ | discriminate ].
  destruct (for_each _ (get_list (images d))) as [t o] eqn:El.
  destruct (convert_images_trace _ _ _ _ _ _ _ _ Eg _ _ El) as [_ Hl].
  destruct o as [[] | e]; [ | discriminate ].
  destruct (open_write (path_join out "classes.txt")) as [[] | e];
    [ | discriminate ].
  intros _. exists cats, (writes t). split; [ reflexivity | ].
  split; [ | exact (Hl eq_refl) ].
  cbn [fst].
  change (MakeDirs out :: (t ++ ?x))%list with ([MakeDirs out] ++ t ++ x)%list.
  rewrite !writes_app. reflexivity.
Qed.

(** X6. A successful conversion has written one label file per image with
    usable dimensions, in the order of the images, each with one line per
    annotation of that image (none for an image without annotations), and
    then the class list; annotations of no listed image are in no file. *)
Theorem coco_to_yolo_writes_one_file_per_sized_image (d : coco_data T)
  (out : string) (dw dh : option Z) :
  snd (coco_to_yolo d out dw dh) = true ->
  exists files names,
    writes (fst (coco_to_yolo d out dw dh))
    = (files ++ [(path_join out "classes.txt", ClassesFile names)])%list
    /\ Forall2 (label_write out (get_list (annotations d)))
               (filter (sized dw dh) (get_list (images d))) files.
Proof.
  intros Hs. destruct (coco_to_yolo_writes d out dw dh Hs) as (cats & files & _ & Hw & Hl).
  exists files, (dict_keys (build_category_to_id cats)).
  split; [ exact Hw | ].
  eapply Forall2_impl; [ | exact Hl ].
  intros im w. apply label_lines_write.
Qed.

(** X7. The class list is written exactly when the conversion returns [True]:
    a run that fails may leave label files, never the class list. *)
Theorem coco_to_yolo_writes_classes_iff_it_succeeds (d : coco_data T)
  (out : string) (dw dh : option Z) :
  existsb is_classes_write (fst (coco_to_yolo d out dw dh))
  = snd (coco_to_yolo d out dw dh).
Proof.
  unfold coco_to_yolo. rewrite coco_to_yolo_body_steps.
  destruct (makedirs out) as [[] | e]; [ | reflexivity ].
  destruct (build_categories (get_list (categories d)) []) as [cats | e];
    [ | reflexivity ].
  destruct (group_annotations (get_list (annotations d)) []) as [groups | e] eqn:Eg;
    [ | reflexivity ].
  destruct (for_each _ (get_list (images d))) as [t o] eqn:El.
  destruct (convert_images_trace _ _ _ _ _ _ _ _ Eg _ _ El) as [Hc _].
  destruct o as [[] | e];
    [ destruct (open_write (path_join out "classes.txt")) as [[] | e] | ];
    cbn [fst snd]; rewrite ?existsb_app;
    cbn [existsb is_classes_write orb]; rewrite ?existsb_app, Hc; reflexivity.
Qed.

Lemma build_categories_malformed (cl : list category) :
  forall acc, existsb category_malformed cl = true ->
  exists e, build_categories cl acc = Raise e.
Proof.
  induction cl as [| c r IH]; intros acc H; cbn [existsb] in H; [ discriminate | ].
  cbn [build_categories]. unfold category_malformed in H at 1.
  destruct (cat_id c); cbn [subscript obind]; [ | eauto ].
  destruct (cat_name c); cbn [subscript obind]; [ | eauto ].
  cbn [orb] in H. now apply IH.
Qed.

Lemma group_annotations_missing_id (anns : list (annotation T)) :
  forall acc, existsb image_id_missing anns = true ->
  group_annotations anns acc = Raise (KeyError "image_id").
Proof.
  induction anns as [| a r IH]; intros acc H; cbn [existsb] in H; [ discriminate | ].
  cbn [group_annotations]. unfold image_id_missing in H at 1.
  destruct (ann_image_id a); cbn [subscript obind]; [ | reflexivity ].
  cbn [orb] in H. now apply IH.
Qed.

(** X8. A category without ["id"] or ["name"], or an annotation without
    ["image_id"], fails the whole conversion before any file is written,
    wherever the record stands and whether or not an image refers to it. *)
Theorem coco_to_yolo_malformed_record_fails_before_any_write (d : coco_data T)
  (out : string) (dw dh : option Z) :
  existsb category_malformed (get_list (categories d))
  || existsb image_id_missing (get_list (annotations d)) = true ->
  snd (coco_to_yolo d out dw dh) = false
  /\ writes (fst (coco_to_yolo d out dw dh)) = []
  /\ exists msg, fst (coco_to_yolo d out dw dh) = [MakeDirs out; Log msg].
Proof.
  intros H. unfold coco_to_yolo. rewrite coco_to_yolo_body_steps.
  destruct (makedirs out) as [[] | e0];
    [ | repeat split; eexists; reflexivity ].
  destruct (existsb category_malformed (get_list (categories d))) eqn:Ec.
  - destruct (build_categories_malformed _ [] Ec) as [e He]. rewrite He.
    repeat split. eexists. reflexivity.
  - cbn [orb] in H.
    destruct (build_categories (get_list (categories d)) []) as [cats | e];
      [ | repeat split; eexists; reflexivity ].
    rewrite (group_annotations_missing_id _ [] H).
    repeat split. eexists. reflexivity.
Qed.

End CocoToYoloTrace.

Section ClassIndexWritten.
Context {T : Type} {N : Num T} {L : Lib} {F : FS}.

Lemma convert_annotation_class (cats : pydict Z string) (c2i : pydict string Z)
  (W H : Z) (a : annotation T) (line : yolo_line T) :
  convert_annotation cats c2i W H a = Ok line ->
  exists c, ann_category_id a = Some c
            /\ class_id line = resolve_class cats c2i c.
Proof.
  unfold convert_annotation.
  destruct (ann_bbox a) as [l |]; cbn [subscript obind]; [ | discriminate ].
  destruct (ann_category_id a) as [c |]; cbn [subscript obind]; [ | discriminate ].
  destruct (bbox_of_list l) as [b |]; cbn [obind]; [ | discriminate ].
  intros E. injection E as <-. exists c. split; reflexivity.
Qed.

(** X5. When the ids and the names of the categories are pairwise distinct,
    a conversion that returns [True] has written, in [classes.txt], the
    names of the categories in the order of the dataset, and on every line
    of every label file, as class index, the position of the annotation's
    category in that order: the line number of its name in [classes.txt]. *)
Theorem class_index_is_the_line_in_classes_file (d : coco_data T)
  (out : string) (dw dh : option Z) :
  snd (coco_to_yolo d out dw dh) = true ->
  NoDup (map cat_id (get_list (categories d))) ->
  NoDup (map cat_name (get_list (categories d))) ->
  exists files names,
    writes (fst (coco_to_yolo d out dw dh))
    = (files ++ [(path_join out "classes.txt", ClassesFile names)])%list
    /\ map Some names = map cat_name (get_list (categories d))
    /\ Forall2 (indexed_file (get_list (categories d)) (get_list (annotations d)))
               (filter (sized dw dh) (get_list (images d))) files.
Proof.
  intros Hs Hids Hnames.
  destruct (coco_to_yolo_writes d out dw dh Hs) as (cats & files & Hc & Hw & Hl).
  destruct (registry_index_is_position _ cats Hc Hids Hnames) as [Hn Hk].
  exists files, (dict_keys (build_category_to_id cats)).
  split; [ exact Hw | ]. split; [ exact Hn | ].
  eapply Forall2_impl; [ | exact Hl ].
  intros im w (_ & W & H & lines & _ & Hlines & Hconv).
  exists lines. split; [ exact Hlines | ].
  eapply Forall2_impl; [ | exact Hconv ].
  intros a line Ha k cat Hnth Hcat.
  destruct (convert_annotation_class _ _ _ _ _ _ Ha) as (c & Hc' & ->).
  apply (Hk k cat c Hnth). congruence.
Qed.

End ClassIndexWritten.

Section WrittenGeometry.
Import Run Data.

Lemma convert_annotation_formula {T : Type} {N : Num T}
  (cats : pydict Z string) (c2i : pydict string Z) (W H : Z) (a : annotation T)
  (x y w h : T) (rest : list T) (c : Z) :
  ann_bbox a = Some (x :: y :: w :: h :: rest) ->
  ann_category_id a = Some c ->
  convert_annotation cats c2i W H a
  = Ok (Build_yolo_line (resolve_class cats c2i c)
          (Build_center_box
             (num_div (num_add x (num_div w (num_of_Z 2))) (num_of_Z W))
             (num_div (num_add y (num_div h (num_of_Z 2))) (num_of_Z H))
             (num_div w (num_of_Z W))
             (num_div h (num_of_Z H)))).
Proof.
  intros Hb Hc. unfold convert_annotation. rewrite Hb, Hc. reflexivity.
Qed.

Lemma convert_annotation_geometry {T : Type} {N : Num T}
  (cats : pydict Z string) (c2i : pydict string Z) (W H : Z) (a : annotation T)
  (line : yolo_line T) :
  convert_annotation cats c2i W H a = Ok line -> formula_line W H a line.
Proof.
  intros E x y w h rest Hb.
  destruct (convert_annotation_class _ _ _ _ _ _ E) as (c & Hc & _).
  rewrite (convert_annotation_formula cats c2i W H a x y w h rest c Hb Hc) in E.
  injection E as <-. reflexivity.
Qed.

(** C2. The forward transform computes
    [x_center = (x + w/2) / width], [y_center = (y + h/2) / height],
    [norm_w = w / width], [norm_h = h / height] in whatever arithmetic the
    numbers live in, and these values, as they are, make the line of an
    annotation: for every box, every pair of dimensions and every registry
    of categories, and on every line of every label file that a conversion
    returning [True] has written.  In binary64 the box [(10, 20, 30, 40)]
    on a [100 x 100] image gives exactly [(0.25, 0.4, 0.3, 0.4)], also as
    the line that [coco_to_yolo] writes; and nothing is clamped: the box
    [(90, -50, 30, 40)] on the same image gives [x_center = 1.05 > 1] and
    [y_center = -0.3 < 0], and [coco_to_yolo] writes these values. *)
Theorem to_normalized_center_formula_and_example :
  (forall (T : Type) (N : Num T) (x y w h : T) (W H : Z),
      to_normalized_center (Build_bbox x y w h) W H =
      Build_center_box
        (num_div (num_add x (num_div w (num_of_Z 2))) (num_of_Z W))
        (num_div (num_add y (num_div h (num_of_Z 2))) (num_of_Z H))
        (num_div w (num_of_Z W))
        (num_div h (num_of_Z H)))
  /\ (forall (T : Type) (N : Num T) (cats : pydict Z string)
             (c2i : pydict string Z) (W H : Z) (a : annotation T)
             (x y w h : T) (rest : list T) (c : Z),
         ann_bbox a = Some (x :: y :: w :: h :: rest) ->
         ann_category_id a = Some c ->
         convert_annotation cats c2i W H a
         = Ok (Build_yolo_line (resolve_class cats c2i c)
                 (Build_center_box
                    (num_div (num_add x (num_div w (num_of_Z 2))) (num_of_Z W))
                    (num_div (num_add y (num_div h (num_of_Z 2))) (num_of_Z H))
                    (num_div w (num_of_Z W))
                    (num_div h (num_of_Z H)))))
  /\ (forall (T : Type) (N : Num T) (L : Lib) (F : FS) (d : coco_data T)
             (out : string) (dw dh : option Z),
         snd (coco_to_yolo (F := F) d out dw dh) = true ->
         exists files names,
           writes (fst (coco_to_yolo (F := F) d out dw dh))
           = (files ++ [(path_join out "classes.txt", ClassesFile names)])%list
           /\ Forall2 (formula_file dw dh (get_list (annotations d)))
                      (filter (sized dw dh) (get_list (images d))) files)
  /\ to_normalized_center (zbox 10 20 30 40) 100 100 =
     Build_center_box 0.25%float 0.40%float 0.30%float 0.40%float
  /\ writes (fst (coco_to_yolo one_box "out" None None)) =
     [("out/a.txt",
       LabelFile [Build_yolo_line 0
                    (Build_center_box 0.25%float 0.40%float 0.30%float 0.40%float)]);
      ("out/classes.txt", ClassesFile ["cat"])]
  /\ to_normalized_center outside 100 100 =
     Build_center_box 1.05%float (-0.3)%float 0.3%float 0.4%float
  /\ PrimFloat.ltb 1%float (x_center (to_normalized_center outside 100 100)) = true
  /\ PrimFloat.ltb (y_center (to_normalized_center outside 100 100)) 0%float = true
  /\ writes (fst (coco_to_yolo one_outside "out" None None)) =
     [("out/a.txt",
       LabelFile [Build_yolo_line 0
                    (Build_center_box 1.05%float (-0.3)%float 0.3%float 0.4%float)]);
      ("out/classes.txt", ClassesFile ["cat"])].
Proof.
  split; [ intros; reflexivity | ].
  split; [ intros; eapply convert_annotation_formula; eassumption | ].
  split.
  - intros T N L F d out dw dh Hs.
    destruct (coco_to_yolo_writes (F := F) d out dw dh Hs)
      as (cats & files & _ & Hw & Hl).
    exists files, (dict_keys (build_category_to_id cats)).
    split; [ exact Hw | ].
    eapply Forall2_impl; [ | exact Hl ].
    intros im w (_ & W & H & lines & Hd & Hlines & Hconv).
    exists W, H, lines. split; [ exact Hd | ]. split; [ exact Hlines | ].
    eapply Forall2_impl; [ | exact Hconv ].
    intros a line. apply convert_annotation_geometry.
  - repeat split; vm_compute; reflexivity.
Qed.

End WrittenGeometry.

Section CounterFacts.
Import QA.

Lemma total_from (l : list Z) : forall a, fold_left Z.add l a = a + total l.
Proof.
  unfold total. induction l as [| x r IH]; intros a; cbn [fold_left]; [ lia | ].
  rewrite IH, (IH (0 + x)). lia.
Qed.

Lemma total_cons (x : Z) (l : list Z) : total (x :: l) = x + total l.
Proof. unfold total at 1. cbn [fold_left]. rewrite total_from. lia. Qed.

Lemma total_app (l1 l2 : list Z) : total (l1 ++ l2) = total l1 + total l2.
Proof.
  induction l1 as [| x r IH]; cbn [app]; [ reflexivity | ].
  rewrite !total_cons, IH. lia.
Qed.

(** Counting one more occurrence adds one to the sum of the counts. *)
Lemma counter_incr_total (c : pydict string Z) (k : string) :
  total (dict_values (counter_incr c k)) = total (dict_values c) + 1.
Proof.
  unfold counter_incr, dict_get_default.
  induction c as [| [k' v] r IH]; cbn [dict_get dict_set dict_values map snd].
  - rewrite total_cons. reflexivity.
  - destruct (String.eqb k' k) eqn:E; cbn [dict_values map snd].
    + rewrite !total_cons. lia.
    + fold (dict_values r). rewrite !total_cons.
      change (map snd (dict_set String.eqb r k
                (match dict_get String.eqb r k with Some v0 => v0 | None => 0 end + 1)))
        with (dict_values (dict_set String.eqb r k
                (match dict_get String.eqb r k with Some v0 => v0 | None => 0 end + 1))).
      rewrite IH. lia.
Qed.

Lemma counter_incr_get (c : pydict string Z) (k k' : string) :
  dict_get_default String.eqb (counter_incr c k) k' 0
  = dict_get_default String.eqb c k' 0 + (if (k =? k')%string then 1 else 0).
Proof.
  unfold counter_incr, dict_get_default at 1.
  destruct (String.eqb_spec k k') as [<- | Hne].
  - now rewrite (dict_get_set_same String.eqb String_eqb_spec').
  - rewrite (dict_get_set_other String.eqb String_eqb_spec') by exact Hne.
    unfold dict_get_default. lia.
Qed.

Lemma counter_fold_total (keys : list string) :
  forall c, total (dict_values (fold_left counter_incr keys c))
            = total (dict_values c) + Z.of_nat (List.length keys).
Proof.
  induction keys as [| k r IH]; intros c; cbn [fold_left List.length]; [ lia | ].
  rewrite IH, counter_incr_total. lia.
Qed.

Lemma counter_fold_get (keys : list string) (k' : string) :
  forall c, dict_get_default String.eqb (fold_left counter_incr keys c) k' 0
            = dict_get_default String.eqb c k' 0
              + count_if (fun k => (k =? k')%string) keys.
Proof.
  induction keys as [| k r IH]; intros c; cbn [fold_left].
  - unfold count_if. cbn. lia.
  - rewrite IH, counter_incr_get, count_if_cons. unfold bool_to_Z. lia.
Qed.

End CounterFacts.

Section StOk.
Import QA.
Context {S : Type}.

Lemma sbind_ok {A B : Type} (m : St S A) (k : A -> St S B) (s s' : S) (b : B) :
  sbind m k s = (Ok b, s') ->
  exists a s1, m s = (Ok a, s1) /\ k a s1 = (Ok b, s').
Proof.
  unfold sbind. destruct (m s) as [[a | e] s1]; [ eauto | discriminate ].
Qed.

Lemma sfold_ok {A B : Type} (body : B -> A -> St S B) (f : B -> A -> B)
  (l : list A) :
  (forall b a s b' s', body b a s = (Ok b', s') -> b' = f b a) ->
  forall b s b' s', sfold body l b s = (Ok b', s') -> b' = fold_left f l b.
Proof.
  intros Hb. induction l as [| a r IH]; intros b s b' s' E; cbn [sfold] in E.
  - injection E as <- _. reflexivity.
  - apply sbind_ok in E. destruct E as (b1 & s1 & E1 & E2).
    cbn [fold_left]. rewrite <- (Hb _ _ _ _ _ E1). exact (IH _ _ _ _ E2).
Qed.

End StOk.

Section ImageValidatorFacts.
Import QA.
Context {T : Type} {N : Num T}.

Ltac keeps_settled :=
  repeat first
    [ apply keeps_sbind; [ | intros ? ]
    | apply keeps_sfor_each; intros ?
    | apply keeps_sfold; intros ? ?
    | apply keeps_slift
    | apply keeps_sret
    | apply keeps_modify; intros ? ?; assumption
    | match goal with |- keeps _ (if ?c then _ else _) => destruct c end ].

Lemma check_annotation_settled (v : Z * Z * list string)
  (names : pydict Z string) (counts : pydict string Z) (a : annotation T) :
  keeps (fun r => settled r = v) (Image.check_annotation names counts a).
Proof.
  unfold Image.check_annotation, Image.check_required_fields, Image.check_bbox,
    Image.report_bbox.
  keeps_settled.
Qed.

(** What follows the loop over the images leaves the settled entries as
    they are. *)
Lemma annotations_part_settled (v : Z * Z * list string)
  (names : pydict Z string) (anns : list (annotation T)) :
  keeps (fun r => settled r = v)
    (sbind (sfold (Image.check_annotation names) anns [])
       (fun class_counts =>
          sbind (modify (Image.set_class_distribution class_counts))
            (fun _ => sfor_each (fun w => modify (Image.add_warning w))
                        (Image.imbalance_warning class_counts)))).
Proof.
  apply keeps_sbind; [ | intros counts ].
  - apply keeps_sfold. intros b a. apply check_annotation_settled.
  - keeps_settled.
Qed.

Lemma check_image_file_settled (fe : string -> bool) (dir : string)
  (ni na : Z) (imgs : list image) :
  keeps (fun r => exists m', settled r = (ni, na, m'))
        (sfor_each (Image.check_image_file fe dir) imgs).
Proof.
  apply keeps_sfor_each. intros im. unfold Image.check_image_file.
  apply keeps_sbind; [ apply keeps_slift | intros name ].
  destruct (fe (path_join dir name)); [ apply keeps_sret | ].
  apply keeps_modify. intros s [m' Hs]. unfold settled in *. cbn.
  injection Hs as -> -> ->. eauto.
Qed.

Lemma build_image_id_to_file_ok (imgs : list image) :
  forall acc, existsb image_malformed imgs = false ->
  exists m, Image.build_image_id_to_file imgs acc = Ok m.
Proof.
  induction imgs as [| im r IH]; intros acc H; cbn [existsb] in H.
  - cbn. eauto.
  - apply orb_false_iff in H. destruct H as [H1 H2].
    cbn [Image.build_image_id_to_file]. unfold image_malformed in H1.
    destruct (img_id im); [ | discriminate ].
    destruct (img_file_name im); [ | discriminate ].
    cbn [subscript obind]. now apply IH.
Qed.

Lemma build_category_id_to_name_ok (cats : list category) :
  forall acc, existsb category_malformed cats = false ->
  exists m, Image.build_category_id_to_name cats acc = Ok m.
Proof.
  induction cats as [| c r IH]; intros acc H; cbn [existsb] in H.
  - cbn. eauto.
  - apply orb_false_iff in H. destruct H as [H1 H2].
    cbn [Image.build_category_id_to_name]. unfold category_malformed in H1.
    destruct (cat_id c); [ | discriminate ].
    destruct (cat_name c); [ | discriminate ].
    cbn [subscript obind]. now apply IH.
Qed.

Lemma check_image_file_step (fe : string -> bool) (dir : string) (im : image)
  (name : string) (s : Image.results) :
  img_file_name im = Some name ->
  Image.check_image_file fe dir im s
  = (Ok tt, if fe (path_join dir name) then s else Image.add_missing_image name s).
Proof.
  intros En. unfold Image.check_image_file, sbind. rewrite En. cbn [subscript slift].
  destruct (fe (path_join dir name)); reflexivity.
Qed.

(** The loop over well-formed image entries lists the files not found. *)
Lemma check_image_files_effect (fe : string -> bool) (dir : string)
  (imgs : list image) :
  existsb image_malformed imgs = false ->
  forall s, exists s',
    sfor_each (Image.check_image_file fe dir) imgs s = (Ok tt, s')
    /\ settled s' = (Image.total_images s, Image.total_annotations s,
                     (Image.missing_images s
                      ++ not_found fe dir (file_names imgs))%list).
Proof.
  induction imgs as [| im r IH]; intros H s; cbn [existsb] in H.
  - exists s. split; [ reflexivity | ]. unfold settled. cbn. now rewrite app_nil_r.
  - apply orb_false_iff in H. destruct H as [H1 H2].
    unfold image_malformed in H1.
    destruct (img_id im) eqn:Ei; [ | discriminate ].
    destruct (img_file_name im) as [name |] eqn:En; [ | discriminate ].
    change (sfor_each (Image.check_image_file fe dir) (im :: r) s)
      with (sbind (Image.check_image_file fe dir im)
              (fun _ => sfor_each (Image.check_image_file fe dir) r) s).
    unfold sbind. rewrite (check_image_file_step fe dir im name s En).
    cbn [file_names flat_map]. rewrite En. cbn [app not_found filter].
    destruct (fe (path_join dir name)) eqn:Ef; cbn [negb].
    + destruct (IH H2 s) as (s' & E & Hs). exists s'. split; [ exact E | exact Hs ].
    + destruct (IH H2 (Image.add_missing_image name s)) as (s' & E & Hs).
      exists s'. split; [ exact E | ]. rewrite Hs. cbn.
      now rewrite <- app_assoc.
Qed.

Lemma has_all_keys (d : coco_data T) (imgs : list image)
  (anns : list (annotation T)) (cats : list category) :
  images d = Some imgs -> annotations d = Some anns -> categories d = Some cats ->
  find (fun key => negb (Image.has_key d key)) Image.required_keys = None.
Proof.
  intros Hi Ha Hc. unfold Image.required_keys, Image.has_key. cbn.
  now rewrite Hi, Ha, Hc.
Qed.

Lemma validate_image_settled (fe : string -> bool)
  (d : coco_data T) (dir : string) (imgs : list image)
  (anns : list (annotation T)) (cats : list category) :
  images d = Some imgs -> annotations d = Some anns -> categories d = Some cats ->
  let r := Image.validate_image_annotations fe d dir in
  Image.total_images r = len imgs
  /\ Image.total_annotations r = len anns
  /\ (existsb image_malformed imgs = false ->
      existsb category_malformed cats = false ->
      Image.missing_images r = not_found fe dir (file_names imgs)).
Proof.
  intros Hi Ha Hc r. subst r. unfold Image.validate_image_annotations.
  rewrite (has_all_keys d imgs anns cats Hi Ha Hc), Hi, Ha, Hc. cbn [get_list].
  set (s1 := Image.set_totals (len imgs) (len anns) Image.initial).
  assert (Hbody : Image.validate_body fe dir imgs anns cats Image.initial
                  = sbind (slift (Image.build_image_id_to_file imgs []))
                      (fun _ =>
                         sbind (slift (Image.build_category_id_to_name cats []))
                           (fun names =>
                              sbind (sfor_each (Image.check_image_file fe dir) imgs)
                                (fun _ =>
                                   sbind (sfold (Image.check_annotation names) anns [])
                                     (fun class_counts =>
                                        sbind (modify (Image.set_class_distribution
                                                         class_counts))
                                          (fun _ =>
                                             sfor_each
                                               (fun w => modify (Image.add_warning w))
                                               (Image.imbalance_warning class_counts))))))
                      s1) by reflexivity.
  rewrite Hbody. clear Hbody.
  assert (Hfin : forall (o : outcome unit) (s : Image.results),
             settled (match o with
                      | Ok _ => s
                      | Raise e =>
                          Image.add_error
                            ("Failed to validate image annotations: " ++ exn_str e) s
                      end) = settled s).
  { intros [u | e] s; reflexivity. }
  assert (Htot : forall (m : St Image.results unit),
             keeps (fun r => exists m', settled r = (len imgs, len anns, m')) m ->
             Image.total_images (let (o, s) := m s1 in
                match o with
                | Ok _ => s
                | Raise e =>
                    Image.add_error
                      ("Failed to validate image annotations: " ++ exn_str e) s
                end) = len imgs
             /\ Image.total_annotations (let (o, s) := m s1 in
                match o with
                | Ok _ => s
                | Raise e =>
                    Image.add_error
                      ("Failed to validate image annotations: " ++ exn_str e) s
                end) = len anns).
  { intros m Hm. specialize (Hm s1 (ex_intro _ [] eq_refl)).
    destruct (m s1) as [o s]. cbn [snd] in Hm. destruct Hm as [m' Hm].
    pose proof (Hfin o s) as Hf. rewrite Hm in Hf. unfold settled in Hf.
    injection Hf as H1 H2 _. split; assumption. }
  assert (Hk : keeps (fun r => exists m', settled r = (len imgs, len anns, m'))
                 (sbind (slift (Image.build_image_id_to_file imgs []))
                      (fun _ =>
                         sbind (slift (Image.build_category_id_to_name cats []))
                           (fun names =>
                              sbind (sfor_each (Image.check_image_file fe dir) imgs)
                                (fun _ =>
                                   sbind (sfold (Image.check_annotation names) anns [])
                                     (fun class_counts =>
                                        sbind (modify (Image.set_class_distribution
                                                         class_counts))
                                          (fun _ =>
                                             sfor_each
                                               (fun w => modify (Image.add_warning w))
                                               (Image.imbalance_warning class_counts)))))))).
  { apply keeps_sbind; [ apply keeps_slift | intros _ ].
    apply keeps_sbind; [ apply keeps_slift | intros names ].
    apply keeps_sbind; [ apply (check_image_file_settled fe dir _ _ imgs) | intros _ ].
    intros s [m' Hs]. exists m'. now apply annotations_part_settled. }
  destruct (Htot _ Hk) as [H1 H2].
  split; [ exact H1 | split; [ exact H2 | ] ]. clear H1 H2 Hk Htot.
  intros Wi Wc.
    destruct (build_image_id_to_file_ok imgs [] Wi) as [m1 E1].
    destruct (build_category_id_to_name_ok cats [] Wc) as [names E2].
    unfold sbind at 1. rewrite E1. cbn [slift].
    unfold sbind at 1. rewrite E2. cbn [slift].
    destruct (check_image_files_effect fe dir imgs Wi s1) as (s2 & E3 & Hs2).
    unfold sbind at 1. rewrite E3.
    pose proof (annotations_part_settled _ names anns s2 Hs2) as Hk.
    destruct (sbind (sfold (Image.check_annotation names) anns []) _ s2) as [o s].
    cbn [snd] in Hk. pose proof (Hfin o s) as Hf. rewrite Hk in Hf.
    unfold settled in Hf. injection Hf as _ _ H3. exact H3.
Qed.

(** X9. The counts and the list of missing image files are settled before the
    annotations are validated: with the three keys present, [total_images]
    and [total_annotations] are the lengths of the two lists in every run,
    also one that ends in an error; and when every image entry has its [id]
    and [file_name] and every category its [id] and [name],
    [missing_images] lists, in order, the files that do not exist, whatever
    is wrong with the annotations. *)
Theorem image_counts_and_missing_files_survive_errors (fe : string -> bool)
  (d : coco_data T) (dir : string) (imgs : list image)
  (anns : list (annotation T)) (cats : list category) :
  images d = Some imgs -> annotations d = Some anns -> categories d = Some cats ->
  let r := Image.validate_image_annotations fe d dir in
  Image.total_images r = len imgs
  /\ Image.total_annotations r = len anns
  /\ (existsb image_malformed imgs = false ->
      existsb category_malformed cats = false ->
      Image.missing_images r = not_found fe dir (file_names imgs)).
Proof. apply validate_image_settled. Qed.

End ImageValidatorFacts.

Section ClassDistribution.
Import QA.
Context {T : Type} {N : Num T}.

Lemma check_annotation_counts (names : pydict Z string)
  (counts counts' : pydict string Z) (a : annotation T) (s s' : Image.results) :
  Image.check_annotation names counts a s = (Ok counts', s') ->
  counts' = counter_incr counts (counted_as names a).
Proof.
  unfold Image.check_annotation. intros E.
  apply sbind_ok in E. destruct E as (_ & s1 & _ & E).
  apply sbind_ok in E. destruct E as (_ & s2 & _ & E).
  apply sbind_ok in E. destruct E as (c & s3 & E1 & E).
  unfold slift, subscript in E1. unfold counted_as.
  destruct (ann_category_id a) as [c' |]; [ | discriminate ].
  injection E1 as -> _. unfold sret in E. injection E as <- _. reflexivity.
Qed.

Lemma fold_left_over_map {A B C : Type} (f : C -> B -> C) (g : A -> B)
  (l : list A) :
  forall c, fold_left (fun c a => f c (g a)) l c = fold_left f (map g l) c.
Proof. induction l as [| a r IH]; intros c; cbn; [ reflexivity | apply IH ]. Qed.

Lemma count_if_map {A B : Type} (f : B -> bool) (g : A -> B) (l : list A) :
  count_if f (map g l) = count_if (fun a => f (g a)) l.
Proof.
  unfold count_if. f_equal. induction l as [| a r IH]; cbn; [ reflexivity | ].
  destruct (f (g a)); cbn; now rewrite IH.
Qed.

Lemma add_error_nonempty (msg : string) (r : Image.results) :
  Image.errors (Image.add_error msg r) = [] -> False.
Proof. cbn. intros H. apply app_eq_nil in H. destruct H as [_ H]. discriminate. Qed.

(** X10. In a run that records no error every annotation is counted once,
    whatever the state of its box: the counts of [class_distribution] add up
    to [total_annotations], and the count under a name is the number of
    annotations whose [category_id] maps to that name (["unknown"] for an id
    that is not listed). *)
Theorem class_distribution_counts_every_annotation (fe : string -> bool)
  (d : coco_data T) (dir : string) :
  let r := Image.validate_image_annotations fe d dir in
  Image.errors r = [] ->
  total (dict_values (Image.class_distribution r)) = Image.total_annotations r
  /\ Image.total_annotations r = len (get_list (annotations d))
  /\ exists names,
       Image.build_category_id_to_name (get_list (categories d)) [] = Ok names
       /\ forall name,
            dict_get_default String.eqb (Image.class_distribution r) name 0
            = count_if (fun a => (counted_as names a =? name)%string)
                       (get_list (annotations d)).
Proof.
  intros r. subst r. unfold Image.validate_image_annotations.
  destruct (find _ Image.required_keys) as [key |].
  { intros H. exfalso. exact (add_error_nonempty _ _ H). }
  destruct (Image.validate_body fe dir _ _ _ Image.initial) as [[[] | e] r] eqn:E.
  2:{ intros H. exfalso. exact (add_error_nonempty _ _ H). }
  intros _. unfold Image.validate_body in E.
  apply sbind_ok in E. destruct E as ([] & s1 & E1 & E).
  apply sbind_ok in E. destruct E as (m & s2 & E2 & E).
  apply sbind_ok in E. destruct E as (names & s3 & E3 & E).
  apply sbind_ok in E. destruct E as ([] & s4 & E4 & E).
  apply sbind_ok in E. destruct E as (counts & s5 & E5 & E).
  apply sbind_ok in E. destruct E as ([] & s6 & E6 & E).
  unfold modify in E1. injection E1 as <-.
  unfold slift in E2, E3. injection E2 as _ <-. injection E3 as E3 <-.
  assert (Hc : counts
               = fold_left counter_incr
                   (map (counted_as names) (get_list (annotations d))) []).
  { rewrite <- fold_left_over_map.
    apply (sfold_ok (Image.check_annotation names)
             (fun c a => counter_incr c (counted_as names a))
             (get_list (annotations d))
             (fun b a s b' s' H => check_annotation_counts names b b' a s s' H)
             _ _ _ _ E5). }
  unfold modify in E6. injection E6 as <-.
  assert (Hs4 : settled s4
                = (len (get_list (images d)), len (get_list (annotations d)),
                   Image.missing_images s4)).
  { pose proof (check_image_file_settled fe dir (len (get_list (images d)))
                  (len (get_list (annotations d))) (get_list (images d))
                  (Image.set_totals (len (get_list (images d)))
                     (len (get_list (annotations d))) Image.initial)
                  (ex_intro _ [] eq_refl)) as H.
    rewrite E4 in H. cbn [snd] in H. destruct H as [m' H]. rewrite H.
    unfold settled in H. injection H as _ _ <-. reflexivity. }
  assert (Hs5 : Image.total_annotations s5 = len (get_list (annotations d))).
  { assert (H : keeps (fun r => settled r = settled s4)
                  (sfold (Image.check_annotation names)
                     (get_list (annotations d)) []))
      by (apply keeps_sfold; intros; apply check_annotation_settled).
    specialize (H s4 eq_refl). rewrite E5 in H. cbn [snd] in H.
    rewrite Hs4 in H. unfold settled in H. now injection H as _ -> _. }
  destruct (add_warnings_effect (Image.imbalance_warning counts)
              (Image.set_class_distribution counts s5)) as [_ Hd].
  assert (Ht : keeps (fun r => Image.total_annotations r
                               = len (get_list (annotations d)))
                 (sfor_each (fun w => modify (Image.add_warning w))
                    (Image.imbalance_warning counts))).
  { apply keeps_sfor_each. intros w. apply keeps_modify. intros s Hs. exact Hs. }
  specialize (Ht (Image.set_class_distribution counts s5) Hs5).
  rewrite E in Hd, Ht. cbn [snd] in Hd, Ht. cbn [Image.class_distribution
    Image.set_class_distribution] in Hd.
  rewrite Hd, Ht, Hc. split; [ | split; [ reflexivity | ] ].
  - rewrite counter_fold_total, length_map. cbn. unfold len. lia.
  - exists names. split; [ exact E3 | ]. intros name.
    rewrite counter_fold_get, count_if_map. cbn. lia.
Qed.

(** X11. Without one of the three required keys the report is the initial one
    with a single error naming the first key that is missing, in the order
    ["images"], ["annotations"], ["categories"]; nothing is counted, not even
    the lists that are there. *)
Theorem image_validator_reports_the_first_missing_key (fe : string -> bool)
  (d : coco_data T) (dir : string) :
  let r := Image.validate_image_annotations fe d dir in
  let missing := fun key => Image.add_error ("Missing required key: " ++ key)
                                            Image.initial in
  match images d, annotations d, categories d with
  | None, _, _ => r = missing "images"
  | Some _, None, _ => r = missing "annotations"
  | Some _, Some _, None => r = missing "categories"
  | Some _, Some _, Some _ =>
      Image.total_images r = len (get_list (images d))
  end.
Proof.
  cbv zeta. unfold Image.validate_image_annotations, Image.required_keys,
    Image.has_key.
  destruct (images d) as [imgs |] eqn:Ei; cbn; [ | reflexivity ].
  destruct (annotations d) as [anns |] eqn:Ea; cbn; [ | reflexivity ].
  destruct (categories d) as [cats |] eqn:Ec; cbn; [ | reflexivity ].
  pose proof (validate_image_settled fe d dir imgs anns cats
                Ei Ea Ec) as H.
  cbv zeta in H. unfold Image.validate_image_annotations in H.
  rewrite (has_all_keys d imgs anns cats Ei Ea Ec), Ei, Ea, Ec in H.
  exact (proj1 H).
Qed.

End ClassDistribution.

Section BoxCheck.
Import QA.

Lemma leb_is_ltb_or_eqb (x y : float) :
  PrimFloat.leb x y = PrimFloat.ltb x y || PrimFloat.eqb x y.
Proof.
  rewrite FloatAxioms.leb_spec, FloatAxioms.ltb_spec, FloatAxioms.eqb_spec.
  unfold SFleb, SFltb, SFeqb.
  destruct (SFcompare (Prim2SF x) (Prim2SF y)) as [[| |] |]; reflexivity.
Qed.

Lemma Z2float_0 : Z2float 0 = 0%float.
Proof. reflexivity. Qed.

(** X12. The box check on a box of four numbers never raises and files at most
    one entry.  Any value below zero, a negative width or height included,
    is reported as "negative bbox values"; the entry "zero or negative
    width/height" is left for a width or height equal to zero; a box whose
    comparisons are all false (NaN entries) passes. *)
Theorem box_check_reports_negative_sizes_as_negative_values
  (a : annotation float) (id : Z) (x y w h : float) (s : Image.results) :
  ann_id a = Some id ->
  ann_bbox a = Some [x; y; w; h] ->
  Image.check_bbox a s
  = (Ok tt,
     if any_negative [x; y; w; h] then
       Image.add_invalid_bbox (bbox_message id "negative bbox values") s
     else if PrimFloat.eqb w 0%float || PrimFloat.eqb h 0%float then
       Image.add_invalid_bbox (bbox_message id "zero or negative width/height") s
     else s).
Proof.
  intros Hid Hb. unfold Image.check_bbox, Image.report_bbox, sbind, slift.
  rewrite Hb, Hid. cbn [subscript List.length Nat.eqb negb index nth_error].
  cbn [num_ltb num_leb num_of_Z float_num]. rewrite Z2float_0.
  unfold any_negative, bbox_message.
  destruct (existsb (fun val => PrimFloat.ltb val 0%float) [x; y; w; h]) eqn:En;
    [ reflexivity | ].
  cbn [existsb] in En. apply orb_false_iff in En. destruct En as [_ En].
  apply orb_false_iff in En. destruct En as [_ En].
  apply orb_false_iff in En. destruct En as [Hw En].
  apply orb_false_iff in En. destruct En as [Hh _].
  rewrite !leb_is_ltb_or_eqb, Hw, Hh. cbn [orb].
  destruct (PrimFloat.eqb w 0 || PrimFloat.eqb h 0); reflexivity.
Qed.

End BoxCheck.

Section TextPartition.
Import QA.
Context {L : Lib}.

Lemma scan_item_labels (st : Text.scan) (item : record) :
  Text.label_counts (Text.scan_item st item)
  = fold_left counter_incr (counted_labels [item]) (Text.label_counts st).
Proof.
  unfold Text.scan_item, counted_labels, label_missing. cbn [flat_map].
  rewrite app_nil_r.
  destruct (negb (truthy (Text.label_of item)));
    destruct (negb (truthy (Text.text_of item)));
    try destruct (blank_str (Text.text_of item)); reflexivity.
Qed.

Lemma counted_labels_cons (item : record) (r : list record) :
  counted_labels (item :: r) = (counted_labels [item] ++ counted_labels r)%list.
Proof. unfold counted_labels. cbn [flat_map]. now rewrite app_nil_r. Qed.

Lemma text_lengths_of_cons (item : record) (r : list record) :
  text_lengths_of (item :: r) = (text_lengths_of [item] ++ text_lengths_of r)%list.
Proof. unfold text_lengths_of. cbn [flat_map]. now rewrite app_nil_r. Qed.

Lemma scan_fold_labels (data : list record) :
  forall st,
  Text.label_counts (fold_left Text.scan_item data st)
  = fold_left counter_incr (counted_labels data) (Text.label_counts st).
Proof.
  induction data as [| item r IH]; intros st; [ reflexivity | ].
  cbn [fold_left]. rewrite IH, scan_item_labels, (counted_labels_cons item r).
  now rewrite fold_left_app.
Qed.

Lemma len_cons {A : Type} (a : A) (l : list A) : len (a :: l) = 1 + len l.
Proof. unfold len. cbn [List.length]. lia. Qed.

Lemma len_app {A : Type} (l1 l2 : list A) : len (l1 ++ l2) = len l1 + len l2.
Proof. unfold len. rewrite length_app. lia. Qed.

(** Every record is missing its text, or has a blank text, or is measured. *)
Lemma text_cases_partition (data : list record) :
  count_if text_missing data + count_if text_blank data
  + len (text_lengths_of data) = len data.
Proof.
  induction data as [| item r IH]; [ reflexivity | ].
  rewrite !count_if_cons, len_cons, (text_lengths_of_cons item r), len_app. unfold text_lengths_of at 1. cbn [flat_map]. rewrite app_nil_r.
  unfold text_blank, text_missing in *.
  destruct (truthy (Text.text_of item)); cbn [negb andb orb bool_to_Z];
    [ destruct (blank_str (Text.text_of item)); cbn [bool_to_Z] | ];
    unfold len at 1; cbn [List.length]; lia.
Qed.

Lemma label_cases_partition (data : list record) :
  count_if label_missing data + len (counted_labels data) = len data.
Proof.
  induction data as [| item r IH]; [ reflexivity | ].
  rewrite count_if_cons, len_cons, (counted_labels_cons item r), len_app. unfold counted_labels at 1. cbn [flat_map]. rewrite app_nil_r.
  destruct (label_missing item); cbn [bool_to_Z]; unfold len at 1;
    cbn [List.length]; lia.
Qed.

Lemma length_stats_of_none (lengths : list Z) :
  length_stats_of lengths = None <-> lengths = [].
Proof. destruct lengths; cbn; split; intros H; try reflexivity; discriminate. Qed.

(** X13. The text report accounts for every record: a record is counted in
    [missing_text], or in [empty_text], or its length is measured; it is
    counted in [missing_labels] or under its label in [label_distribution],
    whose entry for a label is the number of records that carry it; and
    [text_length_stats] stays empty exactly when no text was measured. *)
Theorem text_report_accounts_for_every_record (data : list record) :
  let r := Text.validate_text_annotations (Text.Loaded data) in
  Text.missing_text r + Text.empty_text r + len (text_lengths_of data)
  = Text.total_samples r
  /\ Text.missing_labels r + total (dict_values (Text.label_distribution r))
     = Text.total_samples r
  /\ (forall s, dict_get_default String.eqb (Text.label_distribution r) s 0
                = count_if (fun l => (l =? s)%string) (counted_labels data))
  /\ (Text.text_length_stats r = None
      <-> Text.missing_text r + Text.empty_text r = Text.total_samples r).
Proof.
  destruct (validate_text_counters data) as (Ht & Hm & He & Hl & Hs & _).
  cbv zeta in *. rewrite Ht, Hm, He, Hl, Hs.
  assert (Hd : Text.label_distribution
                 (Text.validate_text_annotations (Text.Loaded data))
               = fold_left counter_incr (counted_labels data) []).
  { cbn [Text.validate_text_annotations Text.label_distribution].
    apply (scan_fold_labels data Text.scan0). }
  rewrite Hd. pose proof (text_cases_partition data) as Hp.
  split; [ exact Hp | ]. split; [ | split ].
  - rewrite counter_fold_total. pose proof (label_cases_partition data) as Hq.
    unfold len in *. cbn. lia.
  - intros s. rewrite counter_fold_get. cbn. lia.
  - rewrite length_stats_of_none. split.
    + intros E. rewrite E in Hp. cbn in Hp. lia.
    + intros E. assert (H0 : len (text_lengths_of data) = 0) by lia.
      unfold len in H0. destruct (text_lengths_of data); [ reflexivity | ].
      cbn in H0. lia.
Qed.

End TextPartition.

Section AudioRows.
Import QA.
Context {L : Lib}.

Lemma sfold_app {S A B : Type} (body : B -> A -> St S B) (l1 l2 : list A) :
  forall b s,
  sfold body (l1 ++ l2) b s
  = match sfold body l1 b s with
    | (Ok b1, s1) => sfold body l2 b1 s1
    | (Raise e, s1) => (Raise e, s1)
    end.
Proof.
  induction l1 as [| a r IH]; intros b s; [ reflexivity | ].
  cbn [app sfold]. unfold sbind.
  destruct (body b a s) as [[b1 | e] s1]; [ apply IH | reflexivity ].
Qed.

Lemma check_row_joinable (fe : string -> bool) (dir : string) (lens : list Z)
  (row : record) (s : Audio.results) :
  unjoinable (audio_file_of row) = false ->
  Audio.check_row fe dir lens row s
  = (Ok (lens ++ transcription_lengths_of [row])%list, after_row fe dir row s).
Proof.
  intros Hj. unfold Audio.check_row, Audio.check_audio_file, Audio.check_transcription,
    after_row, transcription_missing, audio_names, transcription_lengths_of.
  fold (audio_file_of row). fold (transcription_of row). cbn [flat_map].
  unfold unjoinable in Hj. unfold sbind at 1.
  destruct (negb (truthy (transcription_of row)) || blank_str (transcription_of row));
    rewrite !app_nil_r;
    (destruct (audio_file_of row) as [| b | z | f | n | z]; cbn [truthy] in *;
     [ reflexivity
     | destruct b; [ discriminate | reflexivity ]
     | destruct (z =? 0); [ reflexivity | discriminate ]
     | destruct (PrimFloat.eqb f 0); [ reflexivity | discriminate ]
     | destruct (n =? "")%string; cbn [negb not_found filter fold_left sret];
       [ reflexivity | destruct (fe (path_join dir n)); reflexivity ]
     | destruct (z =? 0); [ reflexivity | discriminate ] ]).
Qed.

Lemma check_row_unjoinable (fe : string -> bool) (dir : string) (lens : list Z)
  (row : record) (s : Audio.results) :
  unjoinable (audio_file_of row) = true ->
  exists e, Audio.check_row fe dir lens row s = (Raise e, s).
Proof.
  intros Hj. unfold Audio.check_row, Audio.check_audio_file.
  fold (audio_file_of row). unfold unjoinable in Hj. unfold sbind.
  apply andb_true_iff in Hj. destruct Hj as [Ht Hs]. rewrite Ht.
  destruct (audio_file_of row); try discriminate; cbn [slift]; eauto.
Qed.

Lemma transcription_lengths_of_cons (row : record) (r : list record) :
  transcription_lengths_of (row :: r)
  = (transcription_lengths_of [row] ++ transcription_lengths_of r)%list.
Proof. unfold transcription_lengths_of. cbn [flat_map]. now rewrite app_nil_r. Qed.

Lemma audio_names_cons (row : record) (r : list record) :
  audio_names (row :: r) = (audio_names [row] ++ audio_names r)%list.
Proof. unfold audio_names. cbn [flat_map]. now rewrite app_nil_r. Qed.

Lemma add_missing_fold (names : list string) :
  forall s,
  let s' := fold_left (fun s n => Audio.add_missing_audio n s) names s in
  Audio.missing_audio_files s' = (Audio.missing_audio_files s ++ names)%list
  /\ Audio.total_samples s' = Audio.total_samples s
  /\ Audio.missing_transcriptions s' = Audio.missing_transcriptions s
  /\ Audio.transcription_length_stats s' = Audio.transcription_length_stats s
  /\ Audio.errors s' = Audio.errors s
  /\ Audio.warnings s' = Audio.warnings s.
Proof.
  induction names as [| n r IH]; intros s; cbn [fold_left].
  - cbv zeta. now rewrite app_nil_r.
  - specialize (IH (Audio.add_missing_audio n s)). cbv zeta in *.
    destruct IH as (-> & -> & -> & -> & -> & ->). cbn.
    now rewrite <- app_assoc.
Qed.

Lemma after_row_effect (fe : string -> bool) (dir : string) (row : record)
  (s : Audio.results) :
  let s' := after_row fe dir row s in
  Audio.missing_audio_files s'
  = (Audio.missing_audio_files s ++ not_found fe dir (audio_names [row]))%list
  /\ Audio.total_samples s' = Audio.total_samples s
  /\ Audio.missing_transcriptions s'
     = Audio.missing_transcriptions s + bool_to_Z (transcription_missing row)
  /\ Audio.transcription_length_stats s' = Audio.transcription_length_stats s
  /\ Audio.errors s' = Audio.errors s
  /\ Audio.warnings s' = Audio.warnings s.
Proof.
  cbv zeta. unfold after_row.
  destruct (add_missing_fold (not_found fe dir (audio_names [row])) s)
    as (H1 & H2 & H3 & H4 & H5 & H6). cbv zeta in *.
  destruct (transcription_missing row); cbn [bool_to_Z];
    cbn [Audio.incr_missing_transcriptions Audio.missing_audio_files
         Audio.total_samples Audio.missing_transcriptions
         Audio.transcription_length_stats Audio.errors Audio.warnings];
    rewrite ?H1, ?H2, ?H3, ?H4, ?H5, ?H6; repeat split; lia.
Qed.

(** The loop over rows whose audio files can all be looked up. *)
Lemma check_rows_joinable (fe : string -> bool) (dir : string)
  (rows : list record) :
  forallb (fun row => negb (unjoinable (audio_file_of row))) rows = true ->
  forall lens s, exists s',
    sfold (Audio.check_row fe dir) rows lens s
    = (Ok (lens ++ transcription_lengths_of rows)%list, s')
    /\ Audio.missing_audio_files s'
       = (Audio.missing_audio_files s ++ not_found fe dir (audio_names rows))%list
    /\ Audio.total_samples s' = Audio.total_samples s
    /\ Audio.missing_transcriptions s'
       = Audio.missing_transcriptions s + count_if transcription_missing rows
    /\ Audio.transcription_length_stats s' = Audio.transcription_length_stats s
    /\ Audio.errors s' = Audio.errors s
    /\ Audio.warnings s' = Audio.warnings s.
Proof.
  induction rows as [| row r IH]; intros H lens s; cbn [forallb] in H.
  - exists s. cbn [sfold sret]. rewrite !app_nil_r.
    repeat split. unfold count_if. cbn. lia.
  - apply andb_true_iff in H. destruct H as [Hj Hr].
    apply negb_true_iff in Hj.
    cbn [sfold]. unfold sbind. rewrite (check_row_joinable fe dir lens row s Hj).
    destruct (IH Hr (lens ++ transcription_lengths_of [row])%list
                (after_row fe dir row s))
      as (s' & E & H1 & H2 & H3 & H4 & H5 & H6).
    destruct (after_row_effect fe dir row s) as (A1 & A2 & A3 & A4 & A5 & A6).
    cbv zeta in *.
    exists s'. rewrite E, H1, H2, H3, H4, H5, H6, A1, A2, A3, A4, A5, A6.
    rewrite (transcription_lengths_of_cons row r), (audio_names_cons row r).
    unfold not_found. rewrite filter_app, !app_assoc, count_if_cons.
    repeat split. lia.
Qed.

Lemma audio_validate_body_steps (fe : string -> bool) (dir : string)
  (rows : list record) (s : Audio.results) :
  Audio.validate_body fe dir rows s
  = match sfold (Audio.check_row fe dir) rows [] (Audio.set_total (len rows) s) with
    | (Ok lens, s1) =>
        let s2 := Audio.set_stats (length_stats_of lens) s1 in
        if exceeds (len (Audio.missing_audio_files s2)) (Audio.total_samples s2)
                   0.05%float
        then (Ok tt,
              Audio.add_warning
                (Audio.missing_audio_warning (len (Audio.missing_audio_files s2))
                                             (Audio.total_samples s2)) s2)
        else (Ok tt, s2)
    | (Raise e, s1) => (Raise e, s1)
    end.
Proof.
  unfold Audio.validate_body, sbind, modify, sret.
  destruct (sfold (Audio.check_row fe dir) rows [] (Audio.set_total (len rows) s))
    as [[lens | e] s1]; reflexivity.
Qed.

(** X14. When every row's audio file can be looked up (the cell is empty, or it
    is a string), the audio report records no error and accounts for every
    row: it lists the named files that do not exist, counts the rows whose
    transcription is absent or blank and measures the others, and warns
    exactly when the files not found exceed the fraction 0.05 of the rows. *)
Theorem audio_report_accounts_for_every_row (fe : string -> bool)
  (rows : list record) (dir : string) :
  forallb (fun row => negb (unjoinable (audio_file_of row))) rows = true ->
  let r := Audio.validate_audio_annotations fe rows dir in
  let lost := not_found fe dir (audio_names rows) in
  Audio.errors r = []
  /\ Audio.total_samples r = len rows
  /\ Audio.missing_audio_files r = lost
  /\ Audio.missing_transcriptions r = count_if transcription_missing rows
  /\ Audio.missing_transcriptions r + len (transcription_lengths_of rows)
     = len rows
  /\ Audio.transcription_length_stats r
     = length_stats_of (transcription_lengths_of rows)
  /\ Audio.warnings r
     = if exceeds (len lost) (len rows) 0.05%float
       then [Audio.missing_audio_warning (len lost) (len rows)]
       else [].
Proof.
  intros Hj. cbv zeta.
  unfold Audio.validate_audio_annotations. rewrite audio_validate_body_steps.
  destruct (check_rows_joinable fe dir rows Hj []
              (Audio.set_total (len rows) Audio.initial))
    as (s' & E & H1 & H2 & H3 & H4 & H5 & H6).
  rewrite E. cbv zeta. cbn in H1, H2, H3, H4, H5, H6.
  cbn [Audio.set_stats Audio.missing_audio_files Audio.total_samples app].
  rewrite H1, H2.
  assert (Hp : count_if transcription_missing rows
               + len (transcription_lengths_of rows) = len rows).
  { clear. induction rows as [| row r IH]; [ reflexivity | ].
    rewrite count_if_cons, (transcription_lengths_of_cons row r).
    unfold len in *. rewrite length_app. cbn [List.length].
    unfold transcription_lengths_of at 1, transcription_missing at 1.
    cbn [flat_map]. rewrite app_nil_r.
    destruct (negb (truthy (transcription_of row))
              || blank_str (transcription_of row)); cbn [bool_to_Z List.length]; lia. }
  destruct (exceeds _ _ _);
    cbn [Audio.add_warning Audio.set_stats Audio.errors Audio.total_samples
         Audio.missing_audio_files Audio.missing_transcriptions
         Audio.transcription_length_stats Audio.warnings];
    rewrite ?H1, ?H2, ?H3, ?H5, ?H6; repeat split; try reflexivity; try lia.
Qed.

(** X15. A row whose [audio_file] is a truthy value other than a string (the
    NaN of an empty cell) ends the validation: one error is recorded, the
    rows after it are not looked at, and of those before it only the files
    not found and the missing transcriptions are reported; there are no
    statistics and no warning. *)
Theorem audio_validation_stops_at_an_unjoinable_file (fe : string -> bool)
  (pre post : list record) (bad : record) (dir : string) :
  forallb (fun row => negb (unjoinable (audio_file_of row))) pre = true ->
  unjoinable (audio_file_of bad) = true ->
  let r := Audio.validate_audio_annotations fe (pre ++ bad :: post)%list dir in
  List.length (Audio.errors r) = 1%nat
  /\ Audio.total_samples r = len (pre ++ bad :: post)%list
  /\ Audio.missing_audio_files r = not_found fe dir (audio_names pre)
  /\ Audio.missing_transcriptions r = count_if transcription_missing pre
  /\ Audio.transcription_length_stats r = None
  /\ Audio.warnings r = [].
Proof.
  intros Hj Hb. cbv zeta.
  destruct (check_rows_joinable fe dir pre Hj []
              (Audio.set_total (len (pre ++ bad :: post)%list) Audio.initial))
    as (s' & E & H1 & H2 & H3 & H4 & H5 & H6).
  assert (Hr : exists e,
             Audio.validate_audio_annotations fe (pre ++ bad :: post)%list dir
             = Audio.add_error
                 ("Failed to validate audio annotations: " ++ exn_str e) s').
  { unfold Audio.validate_audio_annotations. rewrite audio_validate_body_steps.
    rewrite sfold_app, E. cbn [sfold]. unfold sbind.
    destruct (check_row_unjoinable fe dir ([] ++ transcription_lengths_of pre)%list
                bad s' Hb) as [e ->].
    exists e. reflexivity. }
  destruct Hr as [e ->].
  cbn in H1, H2, H3, H4, H5, H6.
  cbn [Audio.add_error Audio.errors Audio.total_samples Audio.missing_audio_files
       Audio.missing_transcriptions Audio.transcription_length_stats
       Audio.warnings].
  rewrite H1, H2, H3, H4, H5, H6. repeat split.
Qed.

End AudioRows.

Section TextConversions.
Import QA TextConverter.
Context {F : FS}.

Lemma dict_get_filter_keys (p : string -> bool) (d : record) (k : string) :
  dict_get String.eqb (filter (fun kv => p (fst kv)) d) k
  = if p k then dict_get String.eqb d k else None.
Proof.
  induction d as [| [k' v] r IH]; cbn [filter dict_get fst].
  - now destruct (p k).
  - destruct (String.eqb_spec k' k) as [-> | Hne].
    + destruct (p k) eqn:Ep; cbn [dict_get].
      * now rewrite String.eqb_refl.
      * exact IH.
    + destruct (p k') eqn:Ep'; cbn [dict_get].
      * destruct (String.eqb_spec k' k); [ contradiction | exact IH ].
      * exact IH.
Qed.

Lemma item_of_row_ok (tc lc : string) (row : record) :
  has_columns tc lc row = true ->
  exists item, item_of_row tc lc row = Ok item /\ holds_row tc lc row item.
Proof.
  unfold has_columns, dict_mem, item_of_row, cell. intros H.
  apply andb_true_iff in H. destruct H as [Ht Hl].
  destruct (dict_get String.eqb row tc) as [t |] eqn:Et; [ | discriminate ].
  destruct (dict_get String.eqb row lc) as [l |] eqn:El; [ | discriminate ].
  cbn [obind]. eexists. split; [ reflexivity | ].
  unfold holds_row. cbn [item_text item_label item_metadata].
  rewrite Et, El. repeat split. eexists. split; [ reflexivity | ].
  intros k. apply (dict_get_filter_keys (other_column tc lc)).
Qed.

Lemma item_of_row_raises (tc lc : string) (row : record) :
  has_columns tc lc row = false ->
  exists col, (col = tc \/ col = lc)
              /\ item_of_row tc lc row = Raise (KeyError col).
Proof.
  unfold has_columns, dict_mem, item_of_row, cell. intros H.
  destruct (dict_get String.eqb row tc) as [t |]; cbn [obind]; [ | eauto ].
  destruct (dict_get String.eqb row lc) as [l |]; cbn [obind]; [ discriminate | eauto ].
Qed.

Lemma items_of_rows (tc lc : string) (rows : list record) :
  if forallb (has_columns tc lc) rows
  then exists data, map_outcome (item_of_row tc lc) rows = Ok data
                    /\ Forall2 (holds_row tc lc) rows data
  else exists col, (col = tc \/ col = lc)
                   /\ map_outcome (item_of_row tc lc) rows = Raise (KeyError col).
Proof.
  induction rows as [| row r IH]; cbn [forallb map_outcome].
  - exists []. split; [ reflexivity | constructor ].
  - destruct (has_columns tc lc row) eqn:Hr; cbn [andb].
    + destruct (item_of_row_ok tc lc row Hr) as (item & -> & Hi). cbn [obind].
      destruct (forallb (has_columns tc lc) r).
      * destruct IH as (data & -> & Hd). cbn [obind].
        exists (item :: data). split; [ reflexivity | now constructor ].
      * destruct IH as (col & Hc & ->). cbn [obind]. eauto.
    + destruct (item_of_row_raises tc lc row Hr) as (col & Hc & ->).
      cbn [obind]. eauto.
Qed.

Lemma forallb_map {A B : Type} (f : B -> bool) (g : A -> B) (l : list A) :
  forallb f (map g l) = forallb (fun a => f (g a)) l.
Proof.
  induction l as [| a r IH]; [ reflexivity | ].
  cbn [map forallb]. now rewrite IH.
Qed.

Lemma item_of_row_serializable (tc lc : string) (row : record) (item : json_item) :
  item_of_row tc lc row = Ok item ->
  serializable_item item = dumpable tc lc row.
Proof.
  unfold item_of_row, cell, dumpable, dumped_cells.
  destruct (dict_get String.eqb row tc) as [t |]; [ | discriminate ].
  destruct (dict_get String.eqb row lc) as [l |]; [ | discriminate ].
  cbn [obind]. intros E. injection E as <-.
  unfold serializable_item. cbn [item_text item_label item_metadata
    serializable_field app forallb].
  now rewrite forallb_map, andb_assoc.
Qed.

Lemma items_serializable (tc lc : string) (rows : list record) :
  forall data, map_outcome (item_of_row tc lc) rows = Ok data ->
  forallb serializable_item data = forallb (dumpable tc lc) rows.
Proof.
  induction rows as [| row r IH]; intros data E; cbn [map_outcome] in E.
  - injection E as <-. reflexivity.
  - destruct (item_of_row tc lc row) as [item |] eqn:Ei; [ | discriminate ].
    cbn [obind] in E.
    destruct (map_outcome (item_of_row tc lc) r) as [d |]; [ | discriminate ].
    cbn [obind] in E. injection E as <-. cbn [forallb].
    now rewrite (item_of_row_serializable _ _ _ _ Ei), (IH d eq_refl).
Qed.

(** X16. [csv_to_json] on a frame that was read returns [True] exactly when
    every row has the text and the label column, the output file can be
    opened and [json.dump] accepts every cell (so none is a numpy integer).
    It then writes one object per row, in order, holding the row's text, its
    label and, under ["metadata"], every other cell.  When it returns
    [False] no document is written: the file is not touched when a column
    is not there (the [KeyError] of that column is logged) or [open] raises,
    and it is left with the beginning of a document when [json.dump]
    raises. *)
Theorem csv_to_json_keeps_every_cell_or_no_document (rows : list record)
  (out tc lc : string) :
  let r := csv_to_json (Ok rows) out tc lc in
  snd r = forallb (has_columns tc lc) rows && is_ok (open_write out)
          && forallb (dumpable tc lc) rows
  /\ (if snd r
      then exists data,
             text_writes (fst r) = [WriteJson out data]
             /\ Forall2 (holds_row tc lc) rows data
      else text_writes (fst r)
           = if forallb (has_columns tc lc) rows && is_ok (open_write out)
             then [PartialJson out] else [])
  /\ (forallb (has_columns tc lc) rows = false ->
      exists col,
        (col = tc \/ col = lc)
        /\ fst r = [Log ("Error converting CSV to JSON: '" ++ col ++ "'")]).
Proof.
  cbv zeta. unfold csv_to_json. cbn [obind].
  pose proof (items_of_rows tc lc rows) as H.
  pose proof (items_serializable tc lc rows) as Hs.
  destruct (forallb (has_columns tc lc) rows).
  - destruct H as (data & Hd & Hh). rewrite Hd. rewrite <- (Hs data Hd).
    destruct (open_write out) as [[] | e]; cbn [is_ok andb fst snd].
    + destruct (forallb serializable_item data); cbn [fst snd].
      * split; [ reflexivity | ]. split; [ | discriminate ].
        exists data. split; [ reflexivity | exact Hh ].
      * split; [ reflexivity | ]. split; [ reflexivity | discriminate ].
    + split; [ reflexivity | ]. split; [ reflexivity | discriminate ].
  - destruct H as (col & Hc & ->). cbn [andb fst snd].
    split; [ reflexivity | ]. split; [ reflexivity | ].
    intros _. exists col. split; [ exact Hc | reflexivity ].
Qed.

End TextConversions.

Section TextRoundTrip.
Import QA TextConverter.
Context {F : FS}.

Lemma dict_update_get (metadata : record) :
  NoDup (dict_keys metadata) ->
  forall (row : record) (k : string),
  dict_get String.eqb (dict_update row metadata) k
  = match dict_get String.eqb metadata k with
    | Some v => Some v
    | None => dict_get String.eqb row k
    end.
Proof.
  unfold dict_update.
  induction metadata as [| [k' v'] r IH]; intros Hnd row k; [ reflexivity | ].
  cbn [dict_keys map fst] in Hnd. inversion Hnd as [| ? ? Hna Hnr]; subst.
  cbn [fold_left fst snd dict_get]. rewrite (IH Hnr).
  destruct (String.eqb_spec k' k) as [-> | Hne].
  - rewrite (proj2 (dict_get_none_iff String.eqb String_eqb_spec' r k) Hna).
    apply (dict_get_set_same String.eqb String_eqb_spec').
  - destruct (dict_get String.eqb r k); [ reflexivity | ].
    apply (dict_get_set_other String.eqb String_eqb_spec'). exact Hne.
Qed.

Lemma filter_keys_NoDup (p : string -> bool) (d : record) :
  NoDup (dict_keys d) -> NoDup (dict_keys (filter (fun kv => p (fst kv)) d)).
Proof.
  unfold dict_keys. induction d as [| [k v] r IH]; cbn [filter map fst]; intros H.
  - constructor.
  - inversion H as [| ? ? Hna Hnr]; subst.
    destruct (p k); cbn [map fst]; [ | now apply IH ].
    constructor; [ | now apply IH ].
    intros Hin. apply Hna. apply in_map_iff in Hin.
    destruct Hin as ([k' v'] & E & Hin). cbn in E. subst k'.
    apply filter_In in Hin. destruct Hin as [Hin _].
    change k with (fst (k, v')). now apply in_map.
Qed.

Lemma json_to_csv_metadata_cells (item : json_item)
  (metadata : record) (k : string) :
  item_metadata item = Some metadata ->
  NoDup (dict_keys metadata) ->
  dict_get String.eqb (row_of_item item) k
  = match dict_get String.eqb metadata k with
    | Some v => Some v
    | None =>
        if (k =? "text")%string then
          Some (match item_text item with Some v => v | None => VStr "" end)
        else if (k =? "label")%string then
          Some (match item_label item with Some v => v | None => VStr "" end)
        else None
    end.
Proof.
  intros Hm Hnd. unfold row_of_item. rewrite Hm, (dict_update_get metadata Hnd).
  destruct (dict_get String.eqb metadata k); [ reflexivity | ].
  cbn [dict_get]. rewrite (String.eqb_sym "text" k), (String.eqb_sym "label" k).
  reflexivity.
Qed.

(** X17. [json_to_csv] lets the entries of ["metadata"] replace the item's own
    text and label: a cell of the row is the metadata entry of that name
    when there is one, and otherwise the item's text or label (the empty
    string when the key is absent). *)
Theorem json_to_csv_metadata_replaces_text_and_label (item : json_item)
  (metadata : record) (k : string) :
  item_metadata item = Some metadata ->
  NoDup (dict_keys metadata) ->
  dict_get String.eqb (row_of_item item) k
  = match dict_get String.eqb metadata k with
    | Some v => Some v
    | None =>
        if (k =? "text")%string then
          Some (match item_text item with Some v => v | None => VStr "" end)
        else if (k =? "label")%string then
          Some (match item_label item with Some v => v | None => VStr "" end)
        else None
    end.
Proof. apply json_to_csv_metadata_cells. Qed.

Lemma round_trip_row (row : record) (item : json_item) :
  NoDup (dict_keys row) ->
  item_of_row "text" "label" row = Ok item ->
  same_cells row (row_of_item item).
Proof.
  intros Hnd E k. unfold item_of_row, cell in E.
  destruct (dict_get String.eqb row "text") as [t |] eqn:Et; [ | discriminate ].
  destruct (dict_get String.eqb row "label") as [l |] eqn:El; [ | discriminate ].
  cbn [obind] in E. injection E as <-.
  erewrite json_to_csv_metadata_cells;
    [ | reflexivity
      | exact (filter_keys_NoDup (other_column "text" "label") row Hnd) ].
  cbn [item_text item_label]. rewrite dict_get_filter_keys. unfold other_column.
  destruct (String.eqb_spec k "text") as [-> | Ht]; [ now rewrite Et | ].
  destruct (String.eqb_spec k "label") as [-> | Hl]; [ now rewrite El | ].
  cbn [orb negb]. now destruct (dict_get String.eqb row k).
Qed.

Lemma round_trip_rows (rows : list record) :
  Forall (fun row => NoDup (dict_keys row)) rows ->
  forall data, map_outcome (item_of_row "text" "label") rows = Ok data ->
  Forall2 same_cells rows (map row_of_item data).
Proof.
  induction rows as [| row r IH]; intros Hnd data E; cbn [map_outcome] in E.
  - injection E as <-. constructor.
  - inversion Hnd as [| ? ? H1 H2]; subst.
    destruct (item_of_row "text" "label" row) as [item |] eqn:Ei; [ | discriminate ].
    cbn [obind] in E.
    destruct (map_outcome (item_of_row "text" "label") r) as [d |]; [ | discriminate ].
    cbn [obind] in E. injection E as <-. cbn [map]. constructor.
    + now apply round_trip_row.
    + now apply IH.
Qed.

(** X18. A CSV file whose text and label columns have the default names comes
    back with the same cells in every row when the JSON file [csv_to_json]
    writes from it is given to [json_to_csv]. *)
Theorem csv_to_json_then_json_to_csv_keeps_the_cells (rows : list record)
  (data : list json_item) (out1 out2 : string) :
  Forall (fun row => NoDup (dict_keys row)) rows ->
  text_writes (fst (csv_to_json (Ok rows) out1 "text" "label"))
  = [WriteJson out1 data] ->
  exists rows',
    text_writes (fst (json_to_csv (Ok data) out2)) = [WriteCsv out2 rows']
    /\ Forall2 same_cells rows rows'.
Proof.
  intros Hnd E. unfold csv_to_json in E. cbn [obind] in E.
  destruct (map_outcome (item_of_row "text" "label") rows) as [d |] eqn:Em;
    [ | discriminate ].
  destruct (open_write out1); [ | discriminate ].
  destruct (forallb serializable_item d); [ | discriminate ].
  cbn in E. injection E as ->.
  exists (map row_of_item data). split; [ | now apply round_trip_rows ].
  unfold json_to_csv. destruct (open_write out2); reflexivity.
Qed.

End TextRoundTrip.

Section FullCheck.
Import QA Checker.
Context {T : Type} {N : Num T} {L : Lib} {F : FS}.

Lemma get_after_set (qa : pydict string report) (key k : string) (r : report) :
  dict_get String.eqb (dict_set String.eqb qa key r) k
  = if (key =? k)%string then Some r else dict_get String.eqb qa k.
Proof.
  destruct (String.eqb_spec key k) as [-> | Hne].
  - apply (dict_get_set_same String.eqb String_eqb_spec').
  - apply (dict_get_set_other String.eqb String_eqb_spec'). exact Hne.
Qed.

(** X19. One call of [run_full_qa_check] replaces the entries of the modalities
    whose paths the config gives (both paths, for images and for audio) and
    leaves every other entry of [qa_results] as it was: the report of an
    earlier call stays in the results, and in what a later call returns,
    until that modality is checked again. *)
Theorem run_full_qa_check_replaces_only_what_it_checks (env : files T)
  (config : pydict string string) (qa : pydict string report) :
  let qa' := snd (run_full_qa_check env config qa) in
  dict_get String.eqb qa' "images"
  = match dict_get String.eqb config "image_annotations",
          dict_get String.eqb config "images_dir" with
    | Some path, Some dir => Some (ImageReport (image_report env path dir))
    | _, _ => dict_get String.eqb qa "images"
    end
  /\ dict_get String.eqb qa' "text"
     = match dict_get String.eqb config "text_annotations" with
       | Some path => Some (TextReport (text_report env path))
       | None => dict_get String.eqb qa "text"
       end
  /\ dict_get String.eqb qa' "audio"
     = match dict_get String.eqb config "audio_annotations",
             dict_get String.eqb config "audio_dir" with
       | Some path, Some dir => Some (AudioReport (audio_report env path dir))
       | _, _ => dict_get String.eqb qa "audio"
       end
  /\ forall k, k <> "images" -> k <> "text" -> k <> "audio" ->
       dict_get String.eqb qa' k = dict_get String.eqb qa k.
Proof.
  cbv zeta. unfold run_full_qa_check.
  destruct (dict_get String.eqb config "image_annotations") as [pi |];
    destruct (dict_get String.eqb config "images_dir") as [di |];
    destruct (dict_get String.eqb config "text_annotations") as [pt |];
    destruct (dict_get String.eqb config "audio_annotations") as [pa |];
    destruct (dict_get String.eqb config "audio_dir") as [da |];
    cbn [snd];
    (split; [ | split; [ | split ] ];
     [ rewrite ?get_after_set; reflexivity
     | rewrite ?get_after_set; reflexivity
     | rewrite ?get_after_set; reflexivity
     | intros k H1 H2 H3; rewrite ?get_after_set;
       repeat match goal with
         | |- context [ String.eqb ?a k ] =>
             destruct (String.eqb_spec a k); [ congruence | ]
         end; reflexivity ]).
Qed.

End FullCheck.

Section ExactTransforms.

(** X20. In exact rational arithmetic the forward transform also undoes the
    inverse transform: a label line read into absolute coordinates and
    written back is the same line, for all non-zero dimensions. *)
Theorem line_round_trip_is_identity_in_exact_arithmetic (c : center_box Qc)
  (W H : Z) :
  W <> 0 -> H <> 0 -> line_round_trip c W H = c.
Proof.
  intros HW HH. destruct c as [xc yc nw nh].
  unfold line_round_trip, to_absolute_topleft, to_normalized_center; simpl.
  pose proof (Qc_of_Z_nonzero W HW) as HW'.
  pose proof (Qc_of_Z_nonzero H HH) as HH'.
  assert (H2 : Qc_of_Z 2 <> Q2Qc 0) by (apply Qc_of_Z_nonzero; lia).
  f_equal; field; auto.
Qed.

Lemma Qc_of_Z_mult (a b : Z) : Qc_of_Z (a * b) = (Qc_of_Z a * Qc_of_Z b)%Qc.
Proof.
  unfold Qc_of_Z. apply Qc_is_canon. cbn [this Qcmult Q2Qc].
  rewrite !Qred_correct. unfold Qeq. cbn. lia.
Qed.

(** X21. In exact arithmetic the normalized line does not depend on the
    resolution: a box and its image scaled by the same non-zero integer give
    the line of the unscaled box. *)
Theorem normalized_line_is_resolution_independent (b : bbox Qc) (W H k : Z) :
  k <> 0 -> W <> 0 -> H <> 0 ->
  to_normalized_center (scaled k b) (k * W) (k * H) = to_normalized_center b W H.
Proof.
  intros Hk HW HH. destruct b as [x y w h].
  unfold to_normalized_center, scaled; simpl.
  rewrite !Qc_of_Z_mult.
  pose proof (Qc_of_Z_nonzero W HW) as HW'.
  pose proof (Qc_of_Z_nonzero H HH) as HH'.
  pose proof (Qc_of_Z_nonzero k Hk) as Hk'.
  assert (H2 : Qc_of_Z 2 <> Q2Qc 0) by (apply Qc_of_Z_nonzero; lia).
  f_equal; field; auto.
Qed.

Lemma unit_quotient (a : Qc) (W : Z) :
  0 < W -> (0 <= a)%Qc -> (a <= Qc_of_Z W)%Qc ->
  in_unit_interval (a / Qc_of_Z W)%Qc.
Proof.
  intros HW Ha Hb. unfold in_unit_interval.
  assert (Hq : (0 < inject_Z W)%Q) by (change 0%Q with (inject_Z 0); rewrite <- Zlt_Qlt; lia).
  unfold Qcle, Qcdiv, Qcmult, Qcinv, Qc_of_Z, Q2Qc in *. cbn [this] in *.
  rewrite ?Qred_correct in *.
  change (this 0%Qc) with 0%Q in *. change (this 1%Qc) with 1%Q.
  set (q := inject_Z W) in *. set (x := this a) in *. clearbody q x.
  split.
  - apply Qmult_le_0_compat; [ exact Ha | ].
    apply Qlt_le_weak, Qinv_lt_0_compat. exact Hq.
  - change (x * / q)%Q with (x / q)%Q. apply Qle_shift_div_r; [ exact Hq | ].
    lra.
Qed.

Lemma Qc_half_sum (x w bound : Qc) :
  (0 <= x)%Qc -> (0 <= w)%Qc -> (x + w <= bound)%Qc ->
  (0 <= x + w / Qc_of_Z 2)%Qc /\ (x + w / Qc_of_Z 2 <= bound)%Qc
  /\ (w <= bound)%Qc.
Proof.
  unfold Qcle, Qcplus, Qcdiv, Qcmult, Qcinv, Qc_of_Z, Q2Qc. cbn [this].
  rewrite ?Qred_correct. change (this 0%Qc) with 0%Q.
  set (a := this x). set (c := this w). set (d := this bound). clearbody a c d.
  change (/ inject_Z 2)%Q with (1 # 2)%Q.
  intros Ha Hc Hd. repeat split; lra.
Qed.

(** X22. In exact arithmetic a box that lies inside its image is written with
    all four values between 0 and 1. *)
Theorem box_inside_image_has_normalized_values_in_unit_interval (b : bbox Qc)
  (W H : Z) :
  0 < W -> 0 < H -> inside_image b W H ->
  in_unit_interval (x_center (to_normalized_center b W H))
  /\ in_unit_interval (y_center (to_normalized_center b W H))
  /\ in_unit_interval (norm_width (to_normalized_center b W H))
  /\ in_unit_interval (norm_height (to_normalized_center b W H)).
Proof.
  intros HW HH (Hx & Hy & Hw & Hh & Hxw & Hyh). destruct b as [x y w h].
  cbn [box_x box_y box_w box_h] in *.
  destruct (Qc_half_sum x w (Qc_of_Z W) Hx Hw Hxw) as (A1 & A2 & A3).
  destruct (Qc_half_sum y h (Qc_of_Z H) Hy Hh Hyh) as (B1 & B2 & B3).
  unfold to_normalized_center.
  cbn [x_center y_center norm_width norm_height box_x box_y box_w box_h
       num_add num_div num_of_Z Qc_num].
  repeat split; try (apply unit_quotient; assumption).
Qed.

End ExactTransforms.

Section ValidatorErrors.
Import QA.
Context {T : Type} {N : Num T}.

Lemma is_nil_app_one {A : Type} (l : list A) (a : A) : is_nil (l ++ [a]) = false.
Proof. destruct l; reflexivity. Qed.

(** Errors are never taken back. *)
Lemma add_error_stays (P := fun r => is_nil (Image.errors r) = false) :
  forall msg r, P (Image.add_error msg r).
Proof. intros msg r. unfold P. cbn. apply is_nil_app_one. Qed.

Lemma check_annotation_keeps_errors (names : pydict Z string)
  (counts : pydict string Z) (a : annotation T) :
  keeps (fun r => is_nil (Image.errors r) = false)
        (Image.check_annotation names counts a).
Proof.
  unfold Image.check_annotation, Image.check_required_fields, Image.check_bbox,
    Image.report_bbox.
  repeat first
    [ apply keeps_sbind; [ | intros ? ]
    | apply keeps_sfor_each; intros ?
    | apply keeps_slift
    | apply keeps_sret
    | apply keeps_modify; intros ? ?; first [ assumption | apply is_nil_app_one ]
    | match goal with |- keeps _ (if ?c then _ else _) => destruct c end ].
Qed.

Lemma check_required_fields_complete (a : annotation T) (s : Image.results) :
  has_required_fields a = true ->
  Image.check_required_fields a s = (Ok tt, s).
Proof.
  unfold has_required_fields, Image.check_required_fields, Image.required_fields,
    Image.has_field.
  destruct (ann_id a), (ann_image_id a), (ann_category_id a), (ann_bbox a);
    try discriminate.
  intros _. reflexivity.
Qed.

Lemma check_required_fields_incomplete (a : annotation T) (s : Image.results) :
  has_required_fields a = false ->
  exists s', Image.check_required_fields a s = (Ok tt, s')
             /\ is_nil (Image.errors s') = false.
Proof.
  unfold has_required_fields, Image.check_required_fields, Image.required_fields,
    Image.has_field.
  destruct (ann_id a), (ann_image_id a), (ann_category_id a), (ann_bbox a);
    try discriminate; intros _;
    (eexists; split; [ reflexivity | apply is_nil_app_one ]).
Qed.

Lemma check_bbox_complete (a : annotation T) (s : Image.results) :
  has_required_fields a = true ->
  exists s', Image.check_bbox a s = (Ok tt, s')
             /\ Image.errors s' = Image.errors s.
Proof.
  unfold has_required_fields, Image.check_bbox, Image.report_bbox, sbind, slift.
  destruct (ann_id a), (ann_image_id a), (ann_category_id a), (ann_bbox a) as [l |];
    try discriminate.
  intros _. cbn [subscript].
  destruct l as [| x [| y [| w [| h [| ? ?]]]]];
    cbn [List.length Nat.eqb negb]; try (eexists; split; reflexivity).
  destruct (existsb _ _); [ eexists; split; reflexivity | ].
  cbn [index nth_error].
  destruct (_ || _); eexists; split; reflexivity.
Qed.

Lemma check_annotation_complete (names : pydict Z string)
  (counts : pydict string Z) (a : annotation T) (s : Image.results) :
  has_required_fields a = true ->
  exists counts' s',
    Image.check_annotation names counts a s = (Ok counts', s')
    /\ Image.errors s' = Image.errors s.
Proof.
  intros H. unfold Image.check_annotation, sbind.
  rewrite (check_required_fields_complete a s H).
  destruct (check_bbox_complete a s H) as (s' & -> & He).
  assert (Hc : exists c, ann_category_id a = Some c).
  { unfold has_required_fields in H.
    destruct (ann_id a), (ann_image_id a), (ann_category_id a);
      try discriminate; eauto. }
  destruct Hc as [c ->]. cbn [slift subscript]. unfold sret.
  eexists _, _. split; [ reflexivity | exact He ].
Qed.

Lemma check_annotations_complete (names : pydict Z string)
  (anns : list (annotation T)) :
  forallb has_required_fields anns = true ->
  forall counts s, exists counts' s',
    sfold (Image.check_annotation names) anns counts s = (Ok counts', s')
    /\ Image.errors s' = Image.errors s.
Proof.
  induction anns as [| a r IH]; intros H counts s; cbn [forallb] in H.
  - cbn [sfold]. unfold sret. eexists _, _. split; reflexivity.
  - apply andb_true_iff in H. destruct H as [Ha Hr].
    cbn [sfold]. unfold sbind.
    destruct (check_annotation_complete names counts a s Ha) as (c1 & s1 & -> & E1).
    destruct (IH Hr c1 s1) as (c2 & s2 & -> & E2).
    exists c2, s2. split; [ reflexivity | congruence ].
Qed.

Lemma check_annotations_incomplete (names : pydict Z string)
  (anns : list (annotation T)) :
  forallb has_required_fields anns = false ->
  forall counts s,
  is_nil (Image.errors (snd (sfold (Image.check_annotation names) anns counts s)))
  = false.
Proof.
  induction anns as [| a r IH]; intros H counts s; cbn [forallb] in H;
    [ discriminate | ].
  cbn [sfold]. destruct (has_required_fields a) eqn:Ha.
  - cbn [andb] in H. unfold sbind.
    destruct (check_annotation_complete names counts a s Ha) as (c1 & s1 & -> & _).
    now apply IH.
  - unfold sbind at 1. unfold Image.check_annotation at 1. unfold sbind at 1.
    destruct (check_required_fields_incomplete a s Ha) as (s1 & -> & Hs1).
    assert (Hk : keeps (fun r => is_nil (Image.errors r) = false)
                   (sbind (sbind (Image.check_bbox a)
                             (fun _ =>
                                sbind (slift (subscript "category_id"
                                                (ann_category_id a)))
                                  (fun category_id =>
                                     sret (counter_incr counts
                                             (dict_get_default Z.eqb names
                                                category_id "unknown")))))
                          (fun b' => sfold (Image.check_annotation names) r b'))).
    { apply keeps_sbind; [ | intros b' ].
      - unfold Image.check_bbox, Image.report_bbox.
        repeat first
          [ apply keeps_sbind; [ | intros ? ]
          | apply keeps_slift
          | apply keeps_sret
          | apply keeps_modify; intros ? ?; assumption
          | match goal with |- keeps _ (if ?c then _ else _) => destruct c end ].
      - apply keeps_sfold. intros ? ?. apply check_annotation_keeps_errors. }
    specialize (Hk s1 Hs1). unfold sbind in Hk at 1.
    exact Hk.
Qed.

Lemma forallb_negb {A : Type} (f : A -> bool) (l : list A) :
  forallb (fun x => negb (f x)) l = negb (existsb f l).
Proof.
  induction l as [| a r IH]; [ reflexivity | ].
  cbn [forallb existsb]. rewrite IH. now destruct (f a).
Qed.

Lemma build_image_id_to_file_raises (imgs : list image) :
  forall acc, existsb image_malformed imgs = true ->
  exists e, Image.build_image_id_to_file imgs acc = Raise e.
Proof.
  induction imgs as [| im r IH]; intros acc H; cbn [existsb] in H; [ discriminate | ].
  cbn [Image.build_image_id_to_file]. unfold image_malformed in H at 1.
  destruct (img_id im); cbn [subscript obind]; [ | eauto ].
  destruct (img_file_name im); cbn [subscript obind]; [ | eauto ].
  cbn [orb] in H. now apply IH.
Qed.

Lemma build_category_id_to_name_raises (cats : list category) :
  forall acc, existsb category_malformed cats = true ->
  exists e, Image.build_category_id_to_name cats acc = Raise e.
Proof.
  induction cats as [| c r IH]; intros acc H; cbn [existsb] in H; [ discriminate | ].
  cbn [Image.build_category_id_to_name]. unfold category_malformed in H at 1.
  destruct (cat_id c); cbn [subscript obind]; [ | eauto ].
  destruct (cat_name c); cbn [subscript obind]; [ | eauto ].
  cbn [orb] in H. now apply IH.
Qed.

Lemma image_validate_body_steps (fe : string -> bool) (dir : string)
  (imgs : list image) (anns : list (annotation T)) (cats : list category)
  (s : Image.results) :
  Image.validate_body fe dir imgs anns cats s
  = let s1 := Image.set_totals (len imgs) (len anns) s in
    match Image.build_image_id_to_file imgs [] with
    | Raise e => (Raise e, s1)
    | Ok _ =>
        match Image.build_category_id_to_name cats [] with
        | Raise e => (Raise e, s1)
        | Ok names =>
            match sfor_each (Image.check_image_file fe dir) imgs s1 with
            | (Raise e, s2) => (Raise e, s2)
            | (Ok _, s2) =>
                match sfold (Image.check_annotation names) anns [] s2 with
                | (Raise e, s3) => (Raise e, s3)
                | (Ok counts, s3) =>
                    sfor_each (fun w => modify (Image.add_warning w))
                      (Image.imbalance_warning counts)
                      (Image.set_class_distribution counts s3)
                end
            end
        end
    end.
Proof.
  unfold Image.validate_body, sbind, modify, slift. cbv zeta.
  destruct (Image.build_image_id_to_file imgs []); [ | reflexivity ].
  destruct (Image.build_category_id_to_name cats []) as [names | e];
    [ | reflexivity ].
  destruct (sfor_each (Image.check_image_file fe dir) imgs _) as [[[] | e] s2];
    [ | reflexivity ].
  destruct (sfold (Image.check_annotation names) anns [] s2)
    as [[counts | e] s3]; reflexivity.
Qed.

Lemma add_warnings_returns (ws : list string) :
  forall s, fst (sfor_each (fun w => modify (Image.add_warning w)) ws s) = Ok tt.
Proof.
  induction ws as [| w r IH]; intros s; [ reflexivity | ].
  cbn [sfor_each]. unfold sbind, modify. apply IH.
Qed.

Lemma add_warnings_errors (ws : list string) :
  forall s,
  Image.errors (snd (sfor_each (fun w => modify (Image.add_warning w)) ws s))
  = Image.errors s.
Proof.
  induction ws as [| w r IH]; intros s; [ reflexivity | ].
  cbn [sfor_each]. unfold sbind, modify. now rewrite IH.
Qed.

Lemma check_image_files_errors (fe : string -> bool) (dir : string)
  (imgs : list image) (s : Image.results) :
  Image.errors (snd (sfor_each (Image.check_image_file fe dir) imgs s))
  = Image.errors s.
Proof.
  assert (H : keeps (fun r => Image.errors r = Image.errors s)
                (sfor_each (Image.check_image_file fe dir) imgs)).
  { apply keeps_sfor_each. intros im. unfold Image.check_image_file.
    apply keeps_sbind; [ apply keeps_slift | intros name ].
    destruct (fe (path_join dir name)); [ apply keeps_sret | ].
    apply keeps_modify. intros r Hr. exact Hr. }
  exact (H s eq_refl).
Qed.

Lemma validate_image_errors (fe : string -> bool) (d : coco_data T)
  (dir : string) :
  is_nil (Image.errors (Image.validate_image_annotations fe d dir))
  = well_formed d.
Proof.
  unfold well_formed.
  destruct (images d) as [imgs |] eqn:Ei.
  2:{ unfold Image.validate_image_annotations, Image.required_keys, Image.has_key.
      rewrite Ei. reflexivity. }
  destruct (annotations d) as [anns |] eqn:Ea.
  2:{ unfold Image.validate_image_annotations, Image.required_keys, Image.has_key.
      rewrite Ei, Ea. reflexivity. }
  destruct (categories d) as [cats |] eqn:Ec.
  2:{ unfold Image.validate_image_annotations, Image.required_keys, Image.has_key.
      rewrite Ei, Ea, Ec. reflexivity. }
  unfold Image.validate_image_annotations.
  rewrite (has_all_keys d imgs anns cats Ei Ea Ec), Ei, Ea, Ec. cbn [get_list].
  rewrite image_validate_body_steps. cbv zeta. rewrite !forallb_negb.
  set (s1 := Image.set_totals (len imgs) (len anns) Image.initial).
  destruct (existsb image_malformed imgs) eqn:Wi; cbn [negb andb].
  { destruct (build_image_id_to_file_raises imgs [] Wi) as [e ->]. reflexivity. }
  destruct (build_image_id_to_file_ok imgs [] Wi) as [m ->].
  destruct (existsb category_malformed cats) eqn:Wc; cbn [negb andb].
  { destruct (build_category_id_to_name_raises cats [] Wc) as [e ->]. reflexivity. }
  destruct (build_category_id_to_name_ok cats [] Wc) as [names ->].
  destruct (check_image_files_effect fe dir imgs Wi s1) as (s2 & E2 & _).
  pose proof (check_image_files_errors fe dir imgs s1) as He2.
  rewrite E2 in He2 |- *. cbn [snd] in He2.
  destruct (forallb has_required_fields anns) eqn:Wa.
  - destruct (check_annotations_complete names anns Wa [] s2)
      as (counts & s3 & -> & He3).
    pose proof (add_warnings_returns (Image.imbalance_warning counts)
                  (Image.set_class_distribution counts s3)) as Hr.
    pose proof (add_warnings_errors (Image.imbalance_warning counts)
                  (Image.set_class_distribution counts s3)) as He4.
    destruct (sfor_each _ (Image.imbalance_warning counts) _) as [o s4].
    cbn [fst snd] in Hr, He4. subst o.
    rewrite He4. cbn [Image.set_class_distribution Image.errors].
    rewrite He3, He2. reflexivity.
  - pose proof (check_annotations_incomplete names anns Wa [] s2) as Hn.
    destruct (sfold (Image.check_annotation names) anns [] s2) as [[counts | e] s3];
      cbn [snd] in Hn.
    + pose proof (add_warnings_returns (Image.imbalance_warning counts)
                    (Image.set_class_distribution counts s3)) as Hr.
      pose proof (add_warnings_errors (Image.imbalance_warning counts)
                    (Image.set_class_distribution counts s3)) as He4.
      destruct (sfor_each _ (Image.imbalance_warning counts) _) as [o s4].
      cbn [fst snd] in Hr, He4. subst o.
      rewrite He4. cbn [Image.set_class_distribution Image.errors]. exact Hn.
    + cbn [Image.add_error Image.errors]. apply is_nil_app_one.
Qed.

End ValidatorErrors.

Section CocoToYoloSucceeds.
Context {T : Type} {N : Num T} {L : Lib} {F : FS}.

Lemma map_outcome_is_ok {A B : Type} (f : A -> outcome B) (l : list A) :
  is_ok (map_outcome f l) = forallb (fun a => is_ok (f a)) l.
Proof.
  induction l as [| a r IH]; [ reflexivity | ].
  cbn [map_outcome forallb]. destruct (f a); cbn [obind is_ok andb]; [ | reflexivity ].
  rewrite <- IH. destruct (map_outcome f r); reflexivity.
Qed.

Lemma forallb_pointwise {A : Type} (f g : A -> bool) (l : list A) :
  (forall a, f a = g a) -> forallb f l = forallb g l.
Proof.
  intros H. induction l as [| a r IH]; [ reflexivity | ].
  cbn [forallb]. now rewrite H, IH.
Qed.

Lemma forallb_and {A : Type} (f g : A -> bool) (l : list A) :
  forallb (fun x => f x && g x) l = forallb f l && forallb g l.
Proof.
  induction l as [| a r IH]; [ reflexivity | ].
  cbn [forallb]. rewrite IH. destruct (f a), (g a), (forallb f r); reflexivity.
Qed.

Lemma convert_annotation_is_ok (cats : pydict Z string) (c2i : pydict string Z)
  (w h : Z) (a : annotation T) :
  is_ok (convert_annotation cats c2i w h a) = line_ready a.
Proof.
  unfold convert_annotation, line_ready.
  destruct (ann_bbox a) as [l |]; [ | reflexivity ].
  destruct (ann_category_id a); cbn [subscript obind]; [ | reflexivity ].
  destruct l as [| x0 [| x1 [| x2 [| x3 r]]]]; reflexivity.
Qed.

(** One image: it goes through when it is ready and its file opens. *)
Lemma convert_image_is_ok (out : string) (cats : pydict Z string)
  (c2i : pydict string Z) (anns : list (annotation T))
  (groups : pydict Z (list (annotation T))) (dw dh : option Z) (im : image) :
  group_annotations anns [] = Ok groups ->
  is_ok (snd (convert_image out cats c2i groups dw dh im))
  = image_ready dw dh anns im && label_writable out dw dh im.
Proof.
  intros Hg. unfold convert_image, image_ready, label_writable, label_path,
    image_malformed, sized, annotations_of.
  destruct (img_id im) as [id |]; [ | reflexivity ].
  destruct (img_file_name im) as [name |]; [ | reflexivity ].
  cbn [subscript lift wbind negb andb].
  destruct (usable_dims _ _) as [[w h] |]; [ | reflexivity ].
  cbn [negb orb].
  pose proof (group_annotations_spec anns [] groups Hg id) as Hspec.
  unfold dict_get_default in Hspec. cbn [dict_get app] in Hspec.
  assert (Hm : is_ok (match dict_get Z.eqb groups id with
                      | Some g => map_outcome (convert_annotation cats c2i w h) g
                      | None => Ok []
                      end)
               = forallb line_ready
                   (filter (fun a => match ann_image_id a with
                                     | Some i => i =? id
                                     | None => false
                                     end) anns)).
  { destruct (dict_get Z.eqb groups id) as [g |]; rewrite <- Hspec;
      [ | reflexivity ].
    rewrite map_outcome_is_ok.
    apply forallb_pointwise, convert_annotation_is_ok. }
  rewrite <- Hm.
  destruct (match dict_get Z.eqb groups id with
            | Some g => map_outcome (convert_annotation cats c2i w h) g
            | None => Ok []
            end) as [lines | e]; cbn [wbind snd is_ok andb]; [ | reflexivity ].
  rewrite write_file_steps.
  destruct (open_write _) as [[] | e]; reflexivity.
Qed.

Lemma convert_images_is_ok (out : string) (cats : pydict Z string)
  (c2i : pydict string Z) (anns : list (annotation T))
  (groups : pydict Z (list (annotation T))) (dw dh : option Z)
  (imgs : list image) :
  group_annotations anns [] = Ok groups ->
  is_ok (snd (for_each (convert_image out cats c2i groups dw dh) imgs))
  = forallb (fun im => image_ready dw dh anns im && label_writable out dw dh im)
            imgs.
Proof.
  intros Hg. induction imgs as [| im r IH]; [ reflexivity | ].
  cbn [for_each forallb].
  rewrite <- (convert_image_is_ok out cats c2i anns groups dw dh im Hg), <- IH.
  destruct (convert_image out cats c2i groups dw dh im) as [t1 [[] | e]];
    cbn [wbind snd is_ok andb]; [ | reflexivity ].
  destruct (for_each _ r) as [t2 o2]. reflexivity.
Qed.

Lemma build_categories_ok (cl : list category) :
  forall acc, existsb category_malformed cl = false ->
  exists cats, build_categories cl acc = Ok cats.
Proof.
  induction cl as [| c r IH]; intros acc H; cbn [existsb] in H.
  - cbn. eexists. reflexivity.
  - apply orb_false_iff in H. destruct H as [H1 H2].
    cbn [build_categories]. unfold category_malformed in H1.
    destruct (cat_id c); [ | discriminate ].
    destruct (cat_name c); [ | discriminate ].
    cbn [subscript obind]. now apply IH.
Qed.

Lemma group_annotations_returns (anns : list (annotation T)) :
  forall acc, existsb image_id_missing anns = false ->
  exists groups, group_annotations anns acc = Ok groups.
Proof.
  induction anns as [| a r IH]; intros acc H; cbn [existsb] in H.
  - cbn [group_annotations]. eexists. reflexivity.
  - apply orb_false_iff in H. destruct H as [H1 H2].
    cbn [group_annotations]. unfold image_id_missing in H1.
    destruct (ann_image_id a); [ | discriminate ].
    cbn [subscript obind]. now apply IH.
Qed.

(** When the conversion returns [True]. *)
Lemma coco_to_yolo_returns (d : coco_data T) (out : string) (dw dh : option Z) :
  snd (coco_to_yolo d out dw dh)
  = ready dw dh d && writable out dw dh (get_list (images d)).
Proof.
  transitivity
    (is_ok (makedirs out)
     && (negb (existsb category_malformed (get_list (categories d)))
         && (negb (existsb image_id_missing (get_list (annotations d)))
             && (forallb (fun im => image_ready dw dh (get_list (annotations d)) im
                                    && label_writable out dw dh im)
                         (get_list (images d))
                 && is_ok (open_write (path_join out "classes.txt")))))).
  2:{ unfold ready, writable. rewrite forallb_and.
      destruct (is_ok (makedirs out)),
        (negb (existsb category_malformed (get_list (categories d)))),
        (negb (existsb image_id_missing (get_list (annotations d)))),
        (forallb (image_ready dw dh (get_list (annotations d))) (get_list (images d))),
        (forallb (label_writable out dw dh) (get_list (images d))),
        (is_ok (open_write (path_join out "classes.txt"))); reflexivity. }
  unfold coco_to_yolo. rewrite coco_to_yolo_body_steps.
  destruct (makedirs out) as [[] | e0]; cbn [is_ok andb snd]; [ | reflexivity ].
  destruct (existsb category_malformed (get_list (categories d))) eqn:Ec.
  { destruct (build_categories_malformed _ [] Ec) as [e ->]. reflexivity. }
  destruct (build_categories_ok _ [] Ec) as [cats ->].
  cbn [negb andb].
  destruct (existsb image_id_missing (get_list (annotations d))) eqn:Ea.
  { rewrite (group_annotations_missing_id _ [] Ea). reflexivity. }
  destruct (group_annotations_returns _ [] Ea) as [groups Eg]. rewrite Eg.
  cbn [negb andb].
  rewrite <- (convert_images_is_ok out cats (build_category_to_id cats)
                (get_list (annotations d)) groups dw dh (get_list (images d)) Eg).
  destruct (for_each _ (get_list (images d))) as [t [[] | e]];
    cbn [snd is_ok andb]; [ | reflexivity ].
  destruct (open_write (path_join out "classes.txt")) as [[] | e]; reflexivity.
Qed.

(** X27. [coco_to_yolo] returns [True] exactly when the output directory,
    the label file of every image with usable dimensions and [classes.txt]
    can be created and the dataset has what the conversion subscripts:
    every category its [id] and [name], every annotation its [image_id],
    every image entry its [id] and [file_name], and every annotation of an
    image with usable dimensions a [category_id] and a box of at least four
    entries.  What an annotation of an image without dimensions, or of no
    listed image, lacks besides [image_id] does not matter. *)
Theorem coco_to_yolo_succeeds_exactly_on_ready_datasets (d : coco_data T)
  (out : string) (dw dh : option Z) :
  snd (coco_to_yolo d out dw dh)
  = ready dw dh d && writable out dw dh (get_list (images d)).
Proof. apply coco_to_yolo_returns. Qed.

End CocoToYoloSucceeds.

Section ConvertibleDatasets.
Context {T : Type} {N : Num T} {L : Lib} {F : FS}.

Lemma convertible_ready (dw dh : option Z) (d : coco_data T) :
  convertible_dataset d = true -> ready dw dh d = true.
Proof.
  unfold convertible_dataset, ready. rewrite !forallb_negb. intros H.
  apply andb_true_iff in H. destruct H as [H Ha].
  apply andb_true_iff in H. destruct H as [Hi Hc].
  rewrite Hc. cbn [andb].
  rewrite forallb_forall in Ha.
  apply andb_true_iff. split.
  - apply negb_true_iff. apply not_true_is_false. intros Hex.
    apply existsb_exists in Hex. destruct Hex as (a & Hin & Hm).
    specialize (Ha a Hin). unfold convertible in Ha. unfold image_id_missing in Hm.
    destruct (ann_image_id a); discriminate.
  - apply forallb_forall. intros im Him. unfold image_ready.
    apply negb_true_iff in Hi.
    assert (Hw : image_malformed im = false).
    { destruct (image_malformed im) eqn:E; [ | reflexivity ].
      rewrite <- Hi. symmetry. apply existsb_exists. now exists im. }
    rewrite Hw. cbn [negb andb]. apply orb_true_iff. right.
    apply forallb_forall. intros a Hin. unfold annotations_of in Hin.
    apply filter_In in Hin. destruct Hin as [Hin _].
    specialize (Ha a Hin). unfold convertible in Ha. unfold line_ready.
    destruct (ann_image_id a); [ | discriminate ].
    destruct (ann_category_id a); [ | discriminate ].
    destruct (ann_bbox a); [ exact Ha | discriminate ].
Qed.

Lemma coco_to_yolo_converts (d : coco_data T) (out : string) (dw dh : option Z) :
  convertible_dataset d = true ->
  writable out dw dh (get_list (images d)) = true ->
  snd (coco_to_yolo d out dw dh) = true.
Proof.
  intros Hd Hw. now rewrite coco_to_yolo_returns, (convertible_ready dw dh d Hd), Hw.
Qed.

(** X23. [coco_to_yolo] returns [True] on every dataset whose records have what
    it subscripts (image entries with [id] and [file_name], categories with
    [id] and [name], annotations with [image_id], [category_id] and a box of
    at least four entries) as long as the output directory, the label files
    and [classes.txt] can be created.  Missing top-level keys, missing
    dimensions and unlisted category ids do not make it fail. *)
Theorem coco_to_yolo_converts_every_complete_dataset (d : coco_data T)
  (out : string) (dw dh : option Z) :
  convertible_dataset d = true ->
  writable out dw dh (get_list (images d)) = true ->
  snd (coco_to_yolo d out dw dh) = true.
Proof. apply coco_to_yolo_converts. Qed.

End ConvertibleDatasets.

Section YoloOutput.
Context {T : Type} {N : Num T} {L : Lib} {P : FloatParser T} {F : FS}.

Lemma convert_line_sound (image_id W H : Z) (a a' : acc) (line : string) :
  convert_line image_id W H a line = Ok a' -> sound a -> sound a'.
Proof.
  unfold convert_line, sound.
  destruct (strip line =? "")%string; [ intros E; now injection E as <- | ].
  destruct (5 <=? List.length (split (strip line)))%nat;
    [ | intros E; now injection E as <- ].
  destruct (obind (index (split (strip line)) 0) parse_int) as [c |]; [ | discriminate ].
  destruct (obind (index (split (strip line)) 1) parse_float) as [xc |]; [ | discriminate ].
  destruct (obind (index (split (strip line)) 2) parse_float) as [yc |]; [ | discriminate ].
  destruct (obind (index (split (strip line)) 3) parse_float) as [nw |]; [ | discriminate ].
  destruct (obind (index (split (strip line)) 4) parse_float) as [nh |]; [ | discriminate ].
  cbn [obind]. intros E [Ha Hi]. injection E as <-.
  cbn [acc_images acc_annotations]. split; [ | exact Hi ].
  rewrite forallb_app, Ha. reflexivity.
Qed.

Lemma convert_lines_sound (image_id W H : Z) (lines : list string) :
  forall a a', convert_lines image_id W H a lines = Ok a' -> sound a -> sound a'.
Proof.
  induction lines as [| line r IH]; intros a a' E Hs; cbn [convert_lines] in E.
  - now injection E as <-.
  - destruct (convert_line image_id W H a line) as [a1 |] eqn:E1; [ | discriminate ].
    cbn [obind] in E. apply (IH _ _ E). exact (convert_line_sound _ _ _ _ _ _ E1 Hs).
Qed.

Lemma convert_file_sound (inp : yolo_input) (dir : string) (a a' : acc)
  (f : txt_file) :
  snd (convert_file inp dir a f) = Ok a' -> sound a -> sound a'.
Proof.
  unfold convert_file.
  destruct (txt_name f =? "classes.txt")%string;
    [ cbn; intros E; now injection E as <- | ].
  destruct (find_image inp dir (path_stem (txt_name f))) as [p |];
    [ | cbn; intros E; now injection E as <- ].
  destruct (read_size (T := T) inp p) as [t [size | e]];
    cbn [wbind lift fst snd]; [ | discriminate ].
  destruct (convert_lines _ _ _ _ (txt_lines f)) as [a1 |] eqn:E1; [ | discriminate ].
  destruct (txt_error f); cbn [lift wret snd]; [ discriminate | ].
  intros E Hs. injection E as <-.
  apply (convert_lines_sound _ _ _ _ _ _ E1).
  destruct Hs as [Ha Hi]. split; [ exact Ha | ].
  cbn [acc_images]. rewrite existsb_app, Hi. reflexivity.
Qed.

Lemma convert_files_sound (inp : yolo_input) (dir : string) (fs : list txt_file) :
  forall a a', snd (convert_files inp dir a fs) = Ok a' -> sound a -> sound a'.
Proof.
  induction fs as [| f r IH]; intros a a' E Hs.
  - cbn in E. now injection E as <-.
  - cbn [convert_files] in E.
    destruct (convert_file inp dir a f) as [t1 [a1 | e]] eqn:E1;
      cbn [wbind] in E; [ | discriminate ].
    assert (E1' : snd (convert_file inp dir a f) = Ok a1) by (rewrite E1; reflexivity).
    destruct (convert_files inp dir a1 r) as [t2 o2] eqn:E2. cbn [snd] in E.
    apply (IH a1 a'); [ rewrite E2; exact E | ].
    exact (convert_file_sound _ _ _ _ _ E1' Hs).
Qed.

Lemma categories_of_classes_well_formed (classes : list string) :
  existsb category_malformed (categories_of_classes classes) = false.
Proof.
  unfold categories_of_classes, enumerate. generalize 0.
  induction classes as [| c r IH]; intros i; [ reflexivity | ].
  cbn [enumerate_from map existsb]. rewrite IH. reflexivity.
Qed.

(** X24. The dataset [yolo_to_coco] writes is one the two other functions
    accept: the image validator records no error on it, in whatever
    directory the images are looked for, and [coco_to_yolo] returns [True] on
    it, whatever the default dimensions, for every output directory in
    which the label files and [classes.txt] can be created. *)
Theorem yolo_to_coco_output_validates_and_converts_back (inp : yolo_input)
  (images_dir output_path : string) (t : list (event T)) (data : coco_data T) :
  yolo_to_coco inp images_dir output_path = (t, Some data, true) ->
  (forall fe dir,
      QA.Image.errors (QA.Image.validate_image_annotations fe data dir) = [])
  /\ (forall out dw dh,
        writable out dw dh (get_list (images data)) = true ->
        snd (coco_to_yolo data out dw dh) = true).
Proof.
  unfold yolo_to_coco, yolo_to_coco_body.
  destruct (load_classes (T := T) inp) as [t1 [classes | e]]; cbn [wbind];
    [ | discriminate ].
  destruct (convert_files inp images_dir _ (txt_files inp)) as [t2 [a | e]] eqn:E;
    cbn [wbind emit wret app]; [ | discriminate ].
  unfold write_file.
  destruct (open_write output_path); cbn [lift wbind emit wret app];
    [ | discriminate ].
  intros H. injection H as _ <-.
  assert (Hs : sound a).
  { apply (convert_files_sound inp images_dir (txt_files inp)
             {| acc_images := []; acc_annotations := []; annotation_id := 1 |});
      [ rewrite E; reflexivity | split; reflexivity ]. }
  destruct Hs as [Ha Hi]. rewrite forallb_and in Ha.
  apply andb_true_iff in Ha. destruct Ha as [Hr Hc].
  pose proof (categories_of_classes_well_formed classes) as Hk.
  split.
  - intros fe dir.
    pose proof (validate_image_errors fe
                  {| images := Some (acc_images a);
                     annotations := Some (acc_annotations a);
                     categories := Some (categories_of_classes classes) |} dir) as Hv.
    unfold well_formed in Hv. cbn [images annotations categories] in Hv.
    rewrite !forallb_negb, Hi, Hk, Hr in Hv. cbn in Hv.
    destruct (QA.Image.errors _); [ reflexivity | discriminate ].
  - intros out dw dh Hw. apply coco_to_yolo_converts; [ | exact Hw ].
    unfold convertible_dataset. cbn [images annotations categories get_list].
    rewrite !forallb_negb, Hi, Hk, Hc. reflexivity.
Qed.

End YoloOutput.

Section YoloToCocoSucceeds.
Context {T : Type} {N : Num T} {L : Lib} {P : FloatParser T} {F : FS}.

Lemma parse_int_is_ok (s : string) : is_ok (parse_int s) = is_some (py_int s).
Proof. unfold parse_int. now destruct (py_int s). Qed.

Lemma parse_float_is_ok (s : string) :
  is_ok (parse_float (T := T) s) = is_some (py_float (T := T) s).
Proof. unfold parse_float. now destruct (py_float s). Qed.

Lemma convert_line_is_ok (image_id W H : Z) (a : acc (T := T)) (line : string) :
  is_ok (convert_line image_id W H a line) = line_parses (T := T) line.
Proof.
  unfold convert_line, line_parses, annotation_line.
  destruct (strip line =? "")%string; [ reflexivity | ].
  destruct (5 <=? List.length (split (strip line)))%nat eqn:E5; [ | reflexivity ].
  apply Nat.leb_le in E5. cbn [negb andb orb].
  rewrite !index_field by lia. cbn [obind].
  rewrite <- parse_int_is_ok, <- !parse_float_is_ok.
  destruct (parse_int (field 0 line)); cbn [obind is_ok andb]; [ | reflexivity ].
  destruct (parse_float (field 1 line)); cbn [obind is_ok andb]; [ | reflexivity ].
  destruct (parse_float (field 2 line)); cbn [obind is_ok andb]; [ | reflexivity ].
  destruct (parse_float (field 3 line)); cbn [obind is_ok andb]; [ | reflexivity ].
  destruct (parse_float (field 4 line)); reflexivity.
Qed.

Lemma convert_lines_is_ok (image_id W H : Z) (lines : list string) :
  forall a : acc (T := T),
  is_ok (convert_lines image_id W H a lines)
  = forallb (line_parses (T := T)) lines.
Proof.
  induction lines as [| line r IH]; intros a; [ reflexivity | ].
  cbn [convert_lines forallb].
  rewrite <- (convert_line_is_ok image_id W H a line).
  destruct (convert_line image_id W H a line) as [a1 | e];
    cbn [obind is_ok andb]; [ apply IH | reflexivity ].
Qed.

(** One label file that has an image. *)
Lemma convert_label_file_is_ok (inp : yolo_input) (dir : string)
  (a : acc (T := T)) (f : txt_file) (p : string) :
  (txt_name f =? "classes.txt")%string = false ->
  find_image inp dir (path_stem (txt_name f)) = Some p ->
  is_ok (snd (convert_file inp dir a f))
  = size_readable inp dir f && forallb (line_parses (T := T)) (txt_lines f)
    && lines_read f.
Proof.
  intros Hn Hp. unfold convert_file, size_readable, read_size, lines_read.
  rewrite Hn, Hp.
  destruct (image_size inp) as [size |].
  - destruct (size p) as [[w h] | e]; cbn [lift wbind fst snd is_ok andb app];
      [ | reflexivity ].
    match goal with
    | |- context [convert_lines ?i ?w ?h ?a1 ?ls] =>
        rewrite <- (convert_lines_is_ok i w h ls a1);
        destruct (convert_lines i w h a1 ls) as [a2 | e]
    end; cbn [is_ok andb snd]; [ | reflexivity ].
    destruct (txt_error f); reflexivity.
  - cbn [emit wret lift wbind fst snd is_ok andb app].
    match goal with
    | |- context [convert_lines ?i ?w ?h ?a1 ?ls] =>
        rewrite <- (convert_lines_is_ok i w h ls a1);
        destruct (convert_lines i w h a1 ls) as [a2 | e]
    end; cbn [is_ok andb snd]; [ | reflexivity ].
    destruct (txt_error f); reflexivity.
Qed.

Lemma convert_files_is_ok (inp : yolo_input) (dir : string) (fs : list txt_file) :
  forall a : acc (T := T),
  is_ok (snd (convert_files inp dir a fs))
  = forallb (fun f => size_readable inp dir f
                      && forallb (line_parses (T := T)) (txt_lines f)
                      && lines_read f)
      (filter (fun f => negb (txt_name f =? "classes.txt")%string
                        && has_image inp dir f) fs).
Proof.
  induction fs as [| f r IH]; intros a; [ reflexivity | ].
  cbn [convert_files filter].
  destruct (txt_name f =? "classes.txt")%string eqn:Hn; cbn [negb andb].
  { unfold convert_file. rewrite Hn. cbn [wret wbind]. specialize (IH a).
    destruct (convert_files inp dir a r) as [t o]. exact IH. }
  unfold has_image at 1.
  destruct (find_image inp dir (path_stem (txt_name f))) as [p |] eqn:Ef.
  2:{ unfold convert_file. rewrite Hn, Ef. cbn [emit wret wbind app].
      specialize (IH a). destruct (convert_files inp dir a r) as [t o]. exact IH. }
  cbn [forallb]. rewrite <- (convert_label_file_is_ok inp dir a f p Hn Ef).
  destruct (convert_file inp dir a f) as [t1 [a1 | e]]; cbn [wbind snd is_ok andb];
    [ | reflexivity ].
  specialize (IH a1). destruct (convert_files inp dir a1 r) as [t o]. exact IH.
Qed.

Lemma load_classes_is_ok (inp : yolo_input) :
  is_ok (snd (load_classes (T := T) inp)) = classes_readable inp.
Proof.
  unfold load_classes, classes_readable.
  destruct (classes_file inp) as [[ls | e] |]; [ reflexivity | reflexivity | ].
  destruct (sidecar_classes inp) as [[ls | e] |]; reflexivity.
Qed.

(** X28. [yolo_to_coco] returns [True] exactly when the class names can be
    read (or no classes file exists), when, for every label file that has
    an image, the image's size can be read, the file is read to its end and
    every line with at least five fields starts with what [int] accepts
    followed by four fields that [float] accepts, and when the output file
    can be opened.  Lines with fewer fields, label files without an image
    and [classes.txt] never make it fail. *)
Theorem yolo_to_coco_succeeds_exactly_on_parsable_labels (inp : yolo_input)
  (images_dir output_path : string) :
  snd (yolo_to_coco (T := T) inp images_dir output_path)
  = classes_readable inp
    && forallb (fun f => size_readable inp images_dir f
                         && forallb (line_parses (T := T)) (txt_lines f)
                         && lines_read f)
               (label_files inp images_dir)
    && is_ok (open_write output_path).
Proof.
  unfold label_files. rewrite <- (convert_files_is_ok inp images_dir (txt_files inp)
    {| acc_images := []; acc_annotations := []; annotation_id := 1 |}).
  rewrite <- load_classes_is_ok.
  unfold yolo_to_coco, yolo_to_coco_body.
  destruct (load_classes inp) as [t0 [classes | e]]; cbn [wbind snd is_ok andb];
    [ | reflexivity ].
  destruct (convert_files inp images_dir _ (txt_files inp)) as [t [a | e]];
    cbn [wbind snd is_ok andb]; [ | reflexivity ].
  rewrite write_file_steps.
  destruct (open_write output_path) as [[] | e]; reflexivity.
Qed.

End YoloToCocoSucceeds.

Section ValidatorErrorsTheorem.
Context {T : Type} {N : Num T}.

(** X25. The errors of the image report single out the well-formed datasets: no
    error is recorded exactly when the three keys are there, every image
    entry has its [id] and [file_name], every category its [id] and [name],
    and every annotation its four required fields.  An odd box (wrong
    length, negative or zero values) is no error. *)
Theorem image_report_has_no_error_iff_dataset_is_well_formed
  (fe : string -> bool) (d : coco_data T) (dir : string) :
  is_nil (QA.Image.errors (QA.Image.validate_image_annotations fe d dir))
  = well_formed d.
Proof. apply validate_image_errors. Qed.

End ValidatorErrorsTheorem.

Section LineRoundTrip.

Lemma mult_le_left (z x y : Q) :
  (0 <= z)%Q -> (x <= y)%Q -> (z * x <= z * y)%Q.
Proof.
  intros Hz Hxy. rewrite (Qmult_comm z x), (Qmult_comm z y).
  apply Qmult_le_compat_r; assumption.
Qed.

Lemma abs_scaled (a B q : Q) :
  (Qabs a <= B)%Q -> (0 <= q)%Q -> (Qabs (a * q) <= B * q)%Q.
Proof.
  intros Ha Hq. rewrite Qabs_Qmult, (Qabs_pos q) by exact Hq.
  apply Qmult_le_compat_r; assumption.
Qed.

(** Multiply by the dimension. *)
Lemma scaled_near (a Wf : float) (M K' : Q) :
  ffinite a = true -> (Qabs (F2Q a) <= M)%Q ->
  ffinite Wf = true -> (0 <= F2Q Wf)%Q ->
  (M * F2Q Wf <= 1000000000000000000000000000000)%Q ->
  ((1 # 2000000000000000) * (M * F2Q Wf)
     + (1 # 1000000000000000000000000000000000000000000000000) <= K')%Q ->
  near (a * Wf) (F2Q a * F2Q Wf) K'.
Proof.
  intros Fa Ha FW Hq Hbig HK.
  pose proof (abs_scaled _ _ _ Ha Hq) as Hm.
  apply (near_step _ (F2Q a * F2Q Wf) _ 0 (M * F2Q Wf)).
  - apply mul_rounds; [ exact Fa | exact FW | ]. apply within_900.
    eapply Qle_trans; [ exact Hm | exact Hbig ].
  - setoid_replace (F2Q a * F2Q Wf - F2Q a * F2Q Wf)%Q with 0%Q by ring.
    discriminate.
  - exact Hm.
  - set (P := (M * F2Q Wf)%Q) in *. clearbody P. lra.
Qed.

(** Divide by the dimension a value whose error is proportional to it. *)
Lemma unscale_near (t Wf : float) (a k tau M K' : Q) :
  near t (a * F2Q Wf) (k * F2Q Wf + tau) ->
  (Qabs a <= M)%Q ->
  ffinite Wf = true -> (1 # 2 <= F2Q Wf)%Q ->
  (F2Q Wf <= 18446744073709551616)%Q ->
  (0 <= k)%Q -> (0 <= tau)%Q -> (M + k + tau <= 1000000000)%Q ->
  (k + 2 * tau + (1 # 2000000000000000) * (M + (k + 2 * tau))
     + (1 # 1000000000000000000000000000000000000000000000000) <= K')%Q ->
  near (t / Wf) a K'.
Proof.
  intros [Ft Nt] Ha FW Hl Hu Hk Htau Hbig HK.
  set (q := F2Q Wf) in *.
  assert (Hq : (0 < q)%Q) by lra.
  assert (Hq0 : (0 <= q)%Q) by lra.
  pose proof (abs_scaled _ _ _ Ha Hq0) as Hat.
  pose proof (Qabs_nonneg a) as Ha0.
  assert (HMq : (M * q <= M * 18446744073709551616)%Q)
    by (apply mult_le_left; [ lra | exact Hu ]).
  assert (Hkq : (k * q <= k * 18446744073709551616)%Q)
    by (apply mult_le_left; [ exact Hk | exact Hu ]).
  assert (Htq : (tau <= 2 * (tau * q))%Q).
  { assert (tau * (1 # 2) <= tau * q)%Q by (apply mult_le_left; assumption). lra. }
  assert (Hmt : (Qabs (F2Q t) <= M * q + k * q + tau)%Q).
  { apply Qabs_lin in Nt, Hat. apply Qabs_lin.
    set (P1 := (a * q)%Q) in *. set (P2 := (M * q)%Q) in *. set (P3 := (k * q)%Q) in *.
    clearbody P1 P2 P3. lra. }
  assert (Rd : frounds (t / Wf) (F2Q t / q)).
  { apply div_rounds; [ exact Ft | exact FW | | ].
    - fold q. intros E. rewrite E in Hq. apply (Qlt_irrefl 0). exact Hq.
    - apply within_900. fold q. pose proof (div_abs_bound _ _ _ Hmt Hl) as Hb.
      set (X := Qabs (F2Q t / q)) in *.
      set (P2 := (M * q)%Q) in *. set (P3 := (k * q)%Q) in *.
      clearbody X P2 P3. clear - Hb HMq Hkq Hbig Hk Htau Ha0 Ha. lra. }
  apply (near_step _ (F2Q t / q) _ (k + 2 * tau) M); [ exact Rd | | exact Ha | exact HK ].
  assert (E : (F2Q t / q - a == (F2Q t - a * q) / q)%Q) by (field; lra).
  rewrite E. apply Qabs_lin in Nt. destruct Nt as [N1 N2]. apply Qabs_lin.
  assert (Hc : ((k + 2 * tau) * q == k * q + 2 * (tau * q))%Q) by ring.
  split.
  - apply Qle_shift_div_l; [ exact Hq | ].
    setoid_replace (- (k + 2 * tau) * q)%Q with (- (k * q + 2 * (tau * q)))%Q by ring.
    set (P1 := (a * q)%Q) in *. set (P3 := (k * q)%Q) in *.
    set (P4 := (tau * q)%Q) in *. clearbody P1 P3 P4. lra.
  - apply Qle_shift_div_r; [ exact Hq | ]. rewrite Hc.
    set (P1 := (a * q)%Q) in *. set (P3 := (k * q)%Q) in *.
    set (P4 := (tau * q)%Q) in *. clearbody P1 P3 P4. lra.
Qed.

(** One axis of the line round trip: center [xc] and extent [nw], scaled by
    the dimension [Wf] and back. *)
Lemma axis_line_round_trip (xc nw Wf : float) :
  PrimFloat.leb (abs xc) coordinate_bound = true ->
  PrimFloat.leb (abs nw) coordinate_bound = true ->
  ffinite Wf = true -> (1 # 2 <= F2Q Wf)%Q ->
  (F2Q Wf <= 18446744073709551616)%Q ->
  close tolerance xc ((xc * Wf - nw * Wf / two + nw * Wf / two) / Wf)%float = true
  /\ close tolerance nw (nw * Wf / Wf)%float = true.
Proof.
  intros Hx Hw FW Hl Hu.
  apply (leb_abs_iff _ _ _ _ Prim2SF_bound) in Hx, Hw.
  destruct Hx as [Fx Bx], Hw as [Fw Bw]. rewrite F2Q_bound in Bx, Bw.
  pose proof (near_self xc Fx) as Nx. pose proof (near_self nw Fw) as Nw.
  assert (Hq0 : (0 <= F2Q Wf)%Q) by lra.
  pose proof (abs_scaled _ _ _ Bx Hq0) as Ba.
  pose proof (abs_scaled _ _ _ Bw Hq0) as Bn.
  set (a := F2Q xc) in *. set (n := F2Q nw) in *. set (q := F2Q Wf) in *.
  (* inverse transform: scale, half extent, corner *)
  assert (N1 : near (xc * Wf) (a * q)
                 ((5 # 100000000) * q
                  + (1 # 1000000000000000000000000000000000000000000000000))).
  { apply (scaled_near xc Wf 100000000); try assumption; fold q; lra. }
  assert (N2 : near (nw * Wf) (n * q)
                 ((5 # 100000000) * q
                  + (1 # 1000000000000000000000000000000000000000000000000))).
  { apply (scaled_near nw Wf 100000000); try assumption; fold q; lra. }
  assert (N3 : near (nw * Wf / two) ((1 # 2) * (n * q))
                 ((51 # 1000000000) * q
                  + (1 # 100000000000000000000000000000000000000000000000))).
  { apply (half_near _ _ ((5 # 100000000) * q
                          + (1 # 1000000000000000000000000000000000000000000000000))
                     (100000000 * q));
      [ exact N2 | exact Bn | lra | lra ]. }
  assert (B4 : (Qabs (a * q - (1 # 2) * (n * q)) <= 150000000 * q)%Q).
  { apply Qabs_lin in Ba, Bn. apply Qabs_lin.
    set (P1 := (a * q)%Q) in *. set (P2 := (n * q)%Q) in *. clearbody P1 P2. lra. }
  assert (N4 : near (xc * Wf - nw * Wf / two) (a * q - (1 # 2) * (n * q))
                 ((177 # 1000000000) * q
                  + (1 # 10000000000000000000000000000000000000000000000))).
  { apply (sub_near _ _ _ _
             ((5 # 100000000) * q
              + (1 # 1000000000000000000000000000000000000000000000000))
             ((51 # 1000000000) * q
              + (1 # 100000000000000000000000000000000000000000000000))
             (150000000 * q));
      [ exact N1 | exact N3 | exact B4 | lra | lra ]. }
  (* forward transform: center, then divide by the dimension *)
  assert (N5 : near (xc * Wf - nw * Wf / two + nw * Wf / two) (a * q)
                 ((279 # 1000000000) * q
                  + (1 # 1000000000000000000000000000000000000000000000))).
  { apply (near_ext _ (a * q - (1 # 2) * (n * q) + (1 # 2) * (n * q))); [ ring | ].
    apply (add_near _ _ _ _
             ((177 # 1000000000) * q
              + (1 # 10000000000000000000000000000000000000000000000))
             ((51 # 1000000000) * q
              + (1 # 100000000000000000000000000000000000000000000000))
             (100000000 * q));
      [ exact N4 | exact N3 | | lra | lra ].
    setoid_replace (a * q - (1 # 2) * (n * q) + (1 # 2) * (n * q))%Q
      with (a * q)%Q by ring.
    exact Ba. }
  assert (N6 : near ((xc * Wf - nw * Wf / two + nw * Wf / two) / Wf) a
                 (33 # 100000000)).
  { apply (unscale_near _ Wf a (279 # 1000000000)
             (1 # 1000000000000000000000000000000000000000000000) 100000000);
      try assumption; try (fold q; lra); try lra. }
  assert (N7 : near (nw * Wf / Wf) n (11 # 100000000)).
  { apply (unscale_near _ Wf n (5 # 100000000)
             (1 # 1000000000000000000000000000000000000000000000000) 100000000);
      try assumption; try (fold q; lra); try lra. }
  split.
  - apply (close_of_near _ _ (5 # 10000000)); [ | lra ].
    apply (near_ext _ (a - a)); [ ring | ].
    apply (sub_near _ _ _ _ 0 (33 # 100000000) 0);
      [ exact Nx | exact N6 | | lra | lra ].
    setoid_replace (a - a)%Q with 0%Q by ring. discriminate.
  - apply (close_of_near _ _ (5 # 10000000)); [ | lra ].
    apply (near_ext _ (n - n)); [ ring | ].
    apply (sub_near _ _ _ _ 0 (11 # 100000000) 0);
      [ exact Nw | exact N7 | | lra | lra ].
    setoid_replace (n - n)%Q with 0%Q by ring. discriminate.
Qed.

(** X26. In binary64, for image dimensions [1 <= W, H < 2^63] and a line whose
    four values are numbers of magnitude at most [1e8] (normalized values
    are at most 1), the inverse transform followed by the forward transform
    returns a line within [1e-6] of the original in every value. *)
Theorem line_round_trip_within_tolerance_for_bounded_lines
  (l : center_box float) (W H : Z) :
  1 <= W < 2 ^ 63 -> 1 <= H < 2 ^ 63 ->
  line_within coordinate_bound l = true ->
  lines_within_tolerance tolerance l (line_round_trip l W H) = true.
Proof.
  intros HW HH Hb. destruct l as [xc yc nw nh].
  unfold line_within in Hb. cbn [x_center y_center norm_width norm_height] in Hb.
  apply andb_true_iff in Hb. destruct Hb as [Hb Bh].
  apply andb_true_iff in Hb. destruct Hb as [Hb Bw].
  apply andb_true_iff in Hb. destruct Hb as [Bx By].
  destruct (dimension_float W HW) as (FW & Wl & Wu).
  destruct (dimension_float H HH) as (FH & Hl & Hu).
  destruct (axis_line_round_trip xc nw (Z2float W) Bx Bw FW Wl Wu) as [Cx Cw].
  destruct (axis_line_round_trip yc nh (Z2float H) By Bh FH Hl Hu) as [Cy Ch].
  unfold lines_within_tolerance, line_round_trip, to_absolute_topleft,
    to_normalized_center.
  cbn [box_x box_y box_w box_h x_center y_center norm_width norm_height
       num_of_Z num_add num_sub num_mul num_div float_num].
  fold two. rewrite Cx, Cy, Cw, Ch. reflexivity.
Qed.

End LineRoundTrip.



(* ================================================================== *)
(** * The properties at concrete runs *)
(* ================================================================== *)

Section ConcreteRuns.
Import Run QA Data9 DataQA DataExtra.

(** Three of the five lines of [two_files] stand in files with an image and
    have five fields: the annotations are numbered 1, 2, 3. *)
Lemma yolo_to_coco_numbers_three_annotations :
  map ann_id (get_list (annotations two_files_output))
  = ids_from 1 (annotation_lines (label_files two_files "imgs")).
Proof.
  apply (yolo_to_coco_numbers_annotations_from_one (T := float) two_files
           "imgs" "out.json"
           [Converter.Log "Warning: No image found for lost.txt";
            WriteFile "out.json" (CocoFile two_files_output);
            Converter.Log "Successfully converted YOLO to COCO format: out.json"]).
  vm_compute. reflexivity.
Defined.

(** Without [PIL] both images of [without_pil] are listed as [640 x 480]. *)
Lemma yolo_to_coco_without_pil_run :
  map img_file_name (get_list (images without_pil_output))
  = map (image_name_of without_pil "imgs") (label_files without_pil "imgs")
  /\ (image_size without_pil = None ->
      Forall default_size (get_list (images without_pil_output))).
Proof.
  apply (yolo_to_coco_lists_one_image_per_label_file (T := float) without_pil
           "imgs" "out.json"
           [Converter.Log "PIL not available, using default dimensions";
            Converter.Log "Warning: No image found for lost.txt";
            Converter.Log "PIL not available, using default dimensions";
            WriteFile "out.json" (CocoFile without_pil_output);
            Converter.Log "Successfully converted YOLO to COCO format: out.json"]).
  vm_compute. reflexivity.
Defined.

(** The categories 7 and 8 of [two_categories] are written as classes 0
    and 1, the lines of ["cat"] and ["dog"] in the class list. *)
Lemma class_index_of_two_categories :
  exists files names,
    writes (fst (coco_to_yolo two_categories "out" None None))
    = (files ++ [(path_join "out" "classes.txt", ClassesFile names)])%list
    /\ map Some names = map cat_name (get_list (categories two_categories))
    /\ Forall2 (indexed_file (get_list (categories two_categories))
                             (get_list (annotations two_categories)))
               (filter (sized None None) (get_list (images two_categories)))
               files.
Proof.
  apply (class_index_is_the_line_in_classes_file two_categories "out" None None).
  - vm_compute. reflexivity.
  - repeat constructor; cbn; intuition discriminate.
  - repeat constructor; cbn; intuition discriminate.
Defined.

(** What that run writes: class 1 for the box of category 8, class 0 for
    the box of category 7, and the two names. *)
Lemma two_categories_run :
  writes (fst (coco_to_yolo two_categories "out" None None))
  = [("out/a.txt",
      LabelFile [Build_yolo_line 1
                   (Build_center_box 0.25%float 0.4%float 0.3%float 0.4%float);
                 Build_yolo_line 0
                   (Build_center_box 0.6%float 0.6%float 0.2%float 0.2%float)]);
     ("out/classes.txt", ClassesFile ["cat"; "dog"])].
Proof. vm_compute. reflexivity. Qed.

(** With the empty string as output directory [os.makedirs] raises and the
    conversion of a complete dataset returns [False]. *)
Lemma coco_to_yolo_into_no_directory :
  coco_to_yolo one_box "" None None
  = ([MakeDirs "";
      Converter.Log
        "Error converting COCO to YOLO: [Errno 2] No such file or directory: ''"],
     false).
Proof. vm_compute. reflexivity. Qed.

(** [json.dump] raises on the cells of an integer frame: the file is left
    with the beginning of a document and the conversion returns [False]. *)
Lemma csv_to_json_of_an_integer_frame :
  TextConverter.csv_to_json (Ok integer_frame) "out.json" "text" "label"
  = ([TextConverter.PartialJson "out.json";
      TextConverter.Log
        "Error converting CSV to JSON: Object of type int64 is not JSON serializable"],
     false).
Proof. vm_compute. reflexivity. Qed.

(** [middle_unsized] converts: two label files, for the first and the
    third image, and the class list. *)
Lemma coco_to_yolo_middle_unsized_files :
  exists files names,
    writes (fst (coco_to_yolo Data4.middle_unsized "out" None None))
    = (files ++ [(path_join "out" "classes.txt", ClassesFile names)])%list
    /\ Forall2 (label_write "out" (get_list (annotations Data4.middle_unsized)))
               (filter (sized None None) (get_list (images Data4.middle_unsized)))
               files.
Proof.
  apply (coco_to_yolo_writes_one_file_per_sized_image Data4.middle_unsized
           "out" None None).
  vm_compute. reflexivity.
Defined.

(** The second annotation of [stray_annotation] has no ["image_id"]. *)
Lemma coco_to_yolo_stray_annotation_run :
  snd (coco_to_yolo stray_annotation "out" None None) = false
  /\ writes (fst (coco_to_yolo stray_annotation "out" None None)) = []
  /\ exists msg,
       fst (coco_to_yolo stray_annotation "out" None None)
       = [MakeDirs "out"; Converter.Log msg].
Proof.
  apply (coco_to_yolo_malformed_record_fails_before_any_write stray_annotation
           "out" None None).
  vm_compute. reflexivity.
Defined.

(** [first_without_bbox] ends in an error, and still reports one image,
    two annotations and, no file existing, the missing image. *)
Lemma image_counts_of_a_failed_run :
  let r := Image.validate_image_annotations none_exist first_without_bbox "imgs" in
  Image.total_images r = len [img 1 "a.jpg" 100 100]
  /\ Image.total_annotations r
     = len (get_list (annotations first_without_bbox))
  /\ (existsb image_malformed [img 1 "a.jpg" 100 100] = false ->
      existsb category_malformed [cat 7 "cat"] = false ->
      Image.missing_images r = not_found none_exist "imgs"
                                 (file_names [img 1 "a.jpg" 100 100])).
Proof.
  apply (image_counts_and_missing_files_survive_errors none_exist
           first_without_bbox "imgs" [img 1 "a.jpg" 100 100]
           (get_list (annotations first_without_bbox)) [cat 7 "cat"]);
    reflexivity.
Defined.

(** Seven boxes of two classes, no error: the counts add up to seven. *)
Lemma class_distribution_of_two_classes :
  let r := Image.validate_image_annotations all_exist (two_classes 5 2) "imgs" in
  total (dict_values (Image.class_distribution r)) = Image.total_annotations r
  /\ Image.total_annotations r = len (get_list (annotations (two_classes 5 2)))
  /\ exists names,
       Image.build_category_id_to_name (get_list (categories (two_classes 5 2))) []
       = Ok names
       /\ forall name,
            dict_get_default String.eqb (Image.class_distribution r) name 0
            = count_if (fun a => (counted_as names a =? name)%string)
                       (get_list (annotations (two_classes 5 2))).
Proof.
  apply (class_distribution_counts_every_annotation all_exist (two_classes 5 2)
           "imgs").
  vm_compute. reflexivity.
Defined.

(** The width [-30] is reported as a negative value. *)
Lemma box_check_of_a_negative_width :
  Image.check_bbox negative_size Image.initial
  = (Ok tt,
     if any_negative (fbox 10 20 (-30) 40) then
       Image.add_invalid_bbox (bbox_message 5 "negative bbox values") Image.initial
     else if PrimFloat.eqb (Z2float (-30)) 0%float
             || PrimFloat.eqb (Z2float 40) 0%float then
       Image.add_invalid_bbox (bbox_message 5 "zero or negative width/height")
                              Image.initial
     else Image.initial).
Proof.
  apply (box_check_reports_negative_sizes_as_negative_values negative_size 5
           (Z2float 10) (Z2float 20) (Z2float (-30)) (Z2float 40) Image.initial);
    reflexivity.
Defined.

(** Four clips, all files found. *)
Lemma audio_report_of_four_clips :
  let r := Audio.validate_audio_annotations all_exist four_clips "audio" in
  let lost := not_found all_exist "audio" (audio_names four_clips) in
  Audio.errors r = []
  /\ Audio.total_samples r = len four_clips
  /\ Audio.missing_audio_files r = lost
  /\ Audio.missing_transcriptions r = count_if transcription_missing four_clips
  /\ Audio.missing_transcriptions r + len (transcription_lengths_of four_clips)
     = len four_clips
  /\ Audio.transcription_length_stats r
     = length_stats_of (transcription_lengths_of four_clips)
  /\ Audio.warnings r
     = if exceeds (len lost) (len four_clips) 0.05%float
       then [Audio.missing_audio_warning (len lost) (len four_clips)]
       else [].
Proof.
  apply (audio_report_accounts_for_every_row all_exist four_clips "audio").
  vm_compute. reflexivity.
Defined.

(** An empty [audio_file] cell in the third of four rows. *)
Lemma audio_validation_of_an_empty_cell :
  let r := Audio.validate_audio_annotations none_exist
             (clips_before ++ empty_cell :: clips_after)%list "audio" in
  List.length (Audio.errors r) = 1%nat
  /\ Audio.total_samples r = len (clips_before ++ empty_cell :: clips_after)%list
  /\ Audio.missing_audio_files r
     = not_found none_exist "audio" (audio_names clips_before)
  /\ Audio.missing_transcriptions r = count_if transcription_missing clips_before
  /\ Audio.transcription_length_stats r = None
  /\ Audio.warnings r = [].
Proof.
  apply (audio_validation_stops_at_an_unjoinable_file none_exist clips_before
           clips_after empty_cell "audio");
    vm_compute; reflexivity.
Defined.

(** The entry ["text"] of the metadata of [shadowed] takes the place of its
    text. *)
Lemma json_to_csv_of_a_shadowed_text :
  dict_get String.eqb (TextConverter.row_of_item shadowed) "text"
  = match dict_get String.eqb [("text", VStr "another column")] "text" with
    | Some v => Some v
    | None =>
        if ("text" =? "text")%string then
          Some (match TextConverter.item_text shadowed with
                | Some v => v
                | None => VStr ""
                end)
        else if ("text" =? "label")%string then
          Some (match TextConverter.item_label shadowed with
                | Some v => v
                | None => VStr ""
                end)
        else None
    end.
Proof.
  apply (json_to_csv_metadata_replaces_text_and_label shadowed
           [("text", VStr "another column")] "text").
  - reflexivity.
  - repeat constructor; cbn; intuition discriminate.
Defined.

(** The two rows of [reviews], through JSON and back. *)
Lemma reviews_round_trip :
  exists rows',
    text_writes (fst (TextConverter.json_to_csv
                        (Ok [ {| TextConverter.item_text := Some (VStr "good");
                                 TextConverter.item_label := Some (VStr "pos");
                                 TextConverter.item_metadata :=
                                   Some [("source", VStr "web")] |};
                              {| TextConverter.item_text := Some (VStr "bad");
                                 TextConverter.item_label := Some (VStr "neg");
                                 TextConverter.item_metadata :=
                                   Some [("source", VStr "mail")] |} ])
                        "back.csv"))
    = [TextConverter.WriteCsv "back.csv" rows']
    /\ Forall2 same_cells reviews rows'.
Proof.
  apply (csv_to_json_then_json_to_csv_keeps_the_cells reviews _ "out.json"
           "back.csv").
  - repeat constructor; cbn; intuition discriminate.
  - reflexivity.
Defined.

(** A line read on a [640 x 480] image and written back. *)
Lemma line_round_trip_exact_example :
  line_round_trip
    (Build_center_box (Qc_of_Z 1 / Qc_of_Z 4)%Qc (Qc_of_Z 2 / Qc_of_Z 5)%Qc
                      (Qc_of_Z 3 / Qc_of_Z 10)%Qc (Qc_of_Z 2 / Qc_of_Z 5)%Qc)
    640 480
  = Build_center_box (Qc_of_Z 1 / Qc_of_Z 4)%Qc (Qc_of_Z 2 / Qc_of_Z 5)%Qc
                     (Qc_of_Z 3 / Qc_of_Z 10)%Qc (Qc_of_Z 2 / Qc_of_Z 5)%Qc.
Proof.
  apply (line_round_trip_is_identity_in_exact_arithmetic
           (Build_center_box (Qc_of_Z 1 / Qc_of_Z 4)%Qc (Qc_of_Z 2 / Qc_of_Z 5)%Qc
                             (Qc_of_Z 3 / Qc_of_Z 10)%Qc (Qc_of_Z 2 / Qc_of_Z 5)%Qc)
           640 480); lia.
Defined.

(** The box [(10, 20, 30, 40)] on [100 x 100] and three times as large. *)
Lemma normalized_line_of_a_tripled_image :
  to_normalized_center (scaled 3 (qbox 10 20 30 40)) (3 * 100) (3 * 100)
  = to_normalized_center (qbox 10 20 30 40) 100 100.
Proof.
  apply (normalized_line_is_resolution_independent (qbox 10 20 30 40) 100 100 3);
    lia.
Defined.

(** The box [(10, 20, 30, 40)] lies inside a [100 x 100] image. *)
Lemma normalized_values_of_a_box_inside :
  in_unit_interval (x_center (to_normalized_center (qbox 10 20 30 40) 100 100))
  /\ in_unit_interval (y_center (to_normalized_center (qbox 10 20 30 40) 100 100))
  /\ in_unit_interval (norm_width (to_normalized_center (qbox 10 20 30 40) 100 100))
  /\ in_unit_interval (norm_height (to_normalized_center (qbox 10 20 30 40) 100 100)).
Proof.
  apply (box_inside_image_has_normalized_values_in_unit_interval
           (qbox 10 20 30 40) 100 100); [ lia | lia | ].
  repeat split; vm_compute; discriminate.
Defined.

(** [no_categories] lacks a top-level key and still has all that is
    subscripted. *)
Lemma coco_to_yolo_converts_without_categories :
  snd (coco_to_yolo Data.no_categories "out" None None) = true.
Proof.
  apply (coco_to_yolo_converts_every_complete_dataset Data.no_categories "out"
           None None).
  - vm_compute. reflexivity.
  - vm_compute. reflexivity.
Defined.

(** The dataset made of [two_files] validates and converts back. *)
Lemma two_files_output_validates_and_converts_back :
  (forall fe dir,
      Image.errors (Image.validate_image_annotations fe two_files_output dir) = [])
  /\ (forall out dw dh,
        writable out dw dh (get_list (images two_files_output)) = true ->
        snd (coco_to_yolo two_files_output out dw dh) = true).
Proof.
  apply (yolo_to_coco_output_validates_and_converts_back (T := float) two_files
           "imgs" "out.json"
           [Converter.Log "Warning: No image found for lost.txt";
            WriteFile "out.json" (CocoFile two_files_output);
            Converter.Log "Successfully converted YOLO to COCO format: out.json"]).
  vm_compute. reflexivity.
Defined.

(** The line [(0.25, 0.4, 0.3, 0.4)] on a [640 x 480] image. *)
Lemma line_round_trip_of_a_normalized_line :
  lines_within_tolerance tolerance
    (Build_center_box 0.25%float 0.4%float 0.3%float 0.4%float)
    (line_round_trip (Build_center_box 0.25%float 0.4%float 0.3%float 0.4%float)
       640 480) = true.
Proof.
  apply (line_round_trip_within_tolerance_for_bounded_lines
           (Build_center_box 0.25%float 0.4%float 0.3%float 0.4%float) 640 480).
  - lia.
  - lia.
  - vm_compute. reflexivity.
Defined.

End ConcreteRuns.
